(** * A bond trading pipeline: order book, algo execution, booking,
      positions, risk and inquiries

    Shallow embedding of the services of the trading system
    (marketdataservice.hpp, AlgoExecutionService.hpp, execution.hpp,
    tradebookingservice.hpp, positionservice.hpp, riskservice.hpp,
    inquiryservice.hpp, utility.hpp) and the properties proved about them.

    Modelling conventions.
    - [double] is modelled by the canonical rationals [Qc].  NaN and the
      infinities are outside the model.  Where the operands of an operation
      are confined to values on which binary64 is exact (the prices of the
      fractional notation, multiples of 1/256 below 2^31) the operation is
      the exact one; where they are not (the conversion of a [long]
      quantity to [double], the difference of two order prices, the quotes
      made from a mid and a spread) the result is rounded as binary64
      rounds it, to the nearest and to even on a tie, by [binary64].
    - [long] and [int] are modelled by [Z]; signed overflow is undefined
      behaviour in C++ and is not modelled, except for the conversions of a
      [double] to [int] and to [long], whose range is checked.
    - A member function of a class template that is ill-formed when it is
      instantiated, and that the program never instantiates, has no
      behaviour; it is not modelled ([AggregateDepth], [GetBucketedRisk]).
    - [std::map] and [std::unordered_map] are finite maps [gmap];
      [operator[]] inserts a value-initialised entry when the key is absent.
    - A service holds a vector of listener pointers.  A listener is identified
      by a reference, and a call of its [ProcessAdd] is recorded in the list
      of calls a service operation returns, in the order the calls are made.
    - An operation that can throw, or whose behaviour C++ leaves undefined,
      returns an [outcome]. *)

From Stdlib Require Import ZArith QArith Qpower Qcanon Qround Ascii String.
From Stdlib Require Import DecimalString DecimalPos DecimalN DecimalZ.
From stdpp Require Import base option list numbers strings gmap fin_maps.

Local Open Scope Z_scope.

(** ** Common types *)

Abbreviation double := Qc.
Abbreviation long := Z.

(** The exceptions of <stdexcept> the code raises, with their message. *)
Inductive exn : Type :=
| invalid_argument (what : string)
| out_of_range (what : string).

(** Result of a call: a value, an exception, or no defined behaviour (an
    unchecked read outside a vector, a conversion outside the target's
    range). *)
Inductive outcome (A : Type) : Type :=
| Returns (a : A)
| Throws (e : exn)
| Undefined.
Arguments Returns {A} a.
Arguments Throws {A} e.
Arguments Undefined {A}.

Global Instance outcome_ret : MRet outcome := λ A a, Returns a.
Global Instance outcome_bind : MBind outcome := λ A B k m,
  match m with
  | Returns a => k a
  | Throws e => Throws e
  | Undefined => Undefined
  end.

Global Instance outcome_fmap : FMap outcome := λ A B f m,
  match m with
  | Returns a => Returns (f a)
  | Throws e => Throws e
  | Undefined => Undefined
  end.

(** [m[k]] of a C++ map: the stored value, or a value-initialised one that is
    inserted first. *)
Definition subscript `{Countable K} {V} (dflt : V) (m : gmap K V) (k : K)
    : V * gmap K V :=
  match m !! k with
  | Some v => (v, m)
  | None => (dflt, <[k := dflt]> m)
  end.

(** A pointer to a registered [ServiceListener<V>]. *)
Definition ListenerRef := nat.

(** One call [l->ProcessAdd(data)]. *)
Inductive Call (V : Type) : Type :=
| ProcessAdd (l : ListenerRef) (data : V).
Arguments ProcessAdd {V} l data.

(** [for (auto& ls : listeners) ls->ProcessAdd(data);] *)
Definition fan_out {V} (listeners : list ListenerRef) (data : V)
    : list (Call V) :=
  map (λ l, ProcessAdd l data) listeners.

(** What the services need of the product type [T] of the templates:
    its identifier, and its default constructor. *)
Class Product (T : Type) := {
  GetProductId : T → string;
  product_default : T
}.

(** [std::to_string] of an integer. *)
Definition to_string (n : Z) : string := NilZero.string_of_int (Z.to_int n).

(** ** marketdataservice.hpp *)

Inductive PricingSide := BID | OFFER.

Record Order := mkOrder {
  order_price : double;
  order_quantity : long;
  order_side : PricingSide
}.

Record BidOffer := mkBidOffer {
  GetBidOrder : Order;
  GetOfferOrder : Order
}.

Record OrderBook (T : Type) := mkOrderBook {
  book_product : T;
  GetBidStack : list Order;
  GetOfferStack : list Order
}.
Arguments mkOrderBook {T} _ _ _.
Arguments book_product {T} _.
Arguments GetBidStack {T} _.
Arguments GetOfferStack {T} _.

(** The loop of [GetBidOffer] for the bids: [best] and [bestPrice] are the
    loop's two variables, [rest] the elements from index [i] on. *)
Fixpoint highest_bid (best : Order) (bestPrice : double) (rest : list Order)
    : Order :=
  match rest with
  | [] => best
  | cur :: rest' =>
      let currentPrice := order_price cur in
      if bool_decide (bestPrice < currentPrice)%Qc
      then highest_bid cur currentPrice rest'
      else highest_bid best bestPrice rest'
  end.

(** The loop of [GetBidOffer] for the offers. *)
Fixpoint lowest_offer (best : Order) (bestPrice : double) (rest : list Order)
    : Order :=
  match rest with
  | [] => best
  | cur :: rest' =>
      let currentPrice := order_price cur in
      if bool_decide (currentPrice < bestPrice)%Qc
      then lowest_offer cur currentPrice rest'
      else lowest_offer best bestPrice rest'
  end.

(** [OrderBook<T>::GetBidOffer].  [bidStack[0]] and [offerStack[0]] are
    unchecked reads: on an empty vector the behaviour is undefined. *)
Definition GetBidOffer {T} (book : OrderBook T) : outcome BidOffer :=
  match GetBidStack book with
  | [] => Undefined
  | bid0 :: bids =>
      let bestBid := highest_bid bid0 (order_price bid0) bids in
      match GetOfferStack book with
      | [] => Undefined
      | offer0 :: offers =>
          let bestOffer := lowest_offer offer0 (order_price offer0) offers in
          Returns (mkBidOffer bestBid bestOffer)
      end
  end.

Section MarketDataService.
Context {T : Type} `{Product T}.

Record MarketDataService := mkMarketDataService {
  orderBooks : gmap string (OrderBook T);
  md_listeners : list ListenerRef;
  bookDepth : Z
}.

Definition OrderBook_default : OrderBook T :=
  mkOrderBook product_default [] [].

(** [MarketDataService<T>::OnMessage] *)
Definition MarketData_OnMessage (svc : MarketDataService)
    (data : OrderBook T) : MarketDataService * list (Call (OrderBook T)) :=
  let prodId := GetProductId (book_product data) in
  (mkMarketDataService (<[prodId := data]> (orderBooks svc))
     (md_listeners svc) (bookDepth svc),
   fan_out (md_listeners svc) data).

(** [MarketDataService<T>::GetBestBidOffer] *)
Definition GetBestBidOffer (svc : MarketDataService) (productId : string)
    : outcome BidOffer * MarketDataService :=
  let '(book, books) := subscript OrderBook_default (orderBooks svc) productId in
  (GetBidOffer book,
   mkMarketDataService books (md_listeners svc) (bookDepth svc)).

(** [MarketDataService<T>::AggregateDepth] is not modelled.  Its first
    statement, [T& productRef = orderBooks[productId].GetProduct();], binds
    a [T&] to the [const T&] that [GetProduct] returns: the member function
    is ill-formed when it is instantiated, and nothing in the repository
    calls it. *)
End MarketDataService.
Arguments MarketDataService T : clear implicits.

(** ** utility.hpp *)

Definition INT_MIN : Z := - 2 ^ 31.
Definition INT_MAX : Z := 2 ^ 31 - 1.

(** Conversion of a [double] to an integer type: the fraction is discarded
    (rounding toward zero). *)
Definition trunc (d : double) : Z :=
  if bool_decide (0 ≤ d)%Qc then Qfloor d else Qceiling d.

(** [static_cast<int>(d)]: undefined when the truncated value is not an
    [int]. *)
Definition double_to_int (d : double) : outcome Z :=
  let n := trunc d in
  if bool_decide (INT_MIN ≤ n ≤ INT_MAX) then Returns n else Undefined.

(** Implicit conversion of an [int] to [double]: every [int] is a
    [double]. *)
Definition int_to_double (n : Z) : double := Qc_of_Z n.

Definition LONG_MIN : Z := - 2 ^ 63.
Definition LONG_MAX : Z := 2 ^ 63 - 1.

(** *** Rounding to double precision

    The binary64 value nearest to a rational: a multiple of [2 ^ q], where
    [q] is 52 below the binary exponent of the rational and never less than
    -1074 (the subnormal numbers), the even multiple when two are equally
    near.  A result of magnitude [2 ^ 1024] or more stands for an
    infinity. *)

(** The exponent of a positive rational: the [e] with
    [2 ^ e ≤ x < 2 ^ (e + 1)]. *)
Definition binary_exponent (x : Q) : Z :=
  match (1 ?= x)%Q with
  | Gt => - Z.log2_up (Qceiling (/ x))
  | _ => Z.log2 (Qfloor x)
  end.

(** The integer nearest to a rational, the even one of two that are equally
    near. *)
Definition nearest_even (x : Q) : Z :=
  let f := Qfloor x in
  match (x - inject_Z f ?= 1 # 2)%Q with
  | Lt => f
  | Gt => f + 1
  | Eq => if Z.even f then f else f + 1
  end.

(** The rounding of a positive rational. *)
Definition binary64_pos (x : Q) : Q :=
  let q := Z.max (binary_exponent x) (-1022) - 52 in
  (inject_Z (nearest_even (x / 2 ^ q)) * 2 ^ q)%Q.

Definition binary64 (x : double) : double :=
  match (0 ?= x)%Q with
  | Eq => 0%Qc
  | Lt => Q2Qc (binary64_pos x)
  | Gt => Q2Qc (- binary64_pos (- x))
  end.

(** Implicit conversion of a [long] to [double]: above [2 ^ 53] not every
    [long] is a [double]. *)
Definition long_to_double (n : long) : double := binary64 (Qc_of_Z n).

(** [static_cast<long>(d)]: undefined when the truncated value is not a
    [long]. *)
Definition double_to_long (d : double) : outcome long :=
  let n := trunc d in
  if bool_decide (LONG_MIN ≤ n ≤ LONG_MAX) then Returns n else Undefined.

(** [a - b], [a + b] and [a / b] on two [double]s.  A division by zero,
    which gives an infinity or NaN, is outside the model: the one division
    of the code that is rounded divides by 2. *)
Definition fsub (a b : double) : double := binary64 (a - b).
Definition fadd (a b : double) : double := binary64 (a + b).
Definition fdiv (a b : double) : double := binary64 (a / b).

(** [std::string::find(c)]: position of the first [c], if any. *)
Fixpoint find (c : ascii) (s : string) : option nat :=
  match s with
  | EmptyString => None
  | String a s' => if bool_decide (a = c) then Some 0%nat else S <$> find c s'
  end.

(** [s[i]]: a character of the string, the null character at [i = size],
    undefined beyond. *)
Definition at_index (s : string) (i : nat) : outcome ascii :=
  match String.get i s with
  | Some c => Returns c
  | None => if bool_decide (i = String.length s) then Returns zero else Undefined
  end.

Definition isspace (c : ascii) : bool :=
  let n := nat_of_ascii c in
  bool_decide (n = 32 ∨ 9 ≤ n ≤ 13)%nat.

Fixpoint skip_space (s : string) : string :=
  match s with
  | String c s' => if isspace c then skip_space s' else s
  | EmptyString => s
  end.

(** An optional sign: whether it is a minus, and the rest. *)
Definition read_sign (s : string) : bool * string :=
  match s with
  | String "-" s' => (true, s')
  | String "+" s' => (false, s')
  | _ => (false, s)
  end.

Definition digit_of_char (c : ascii) : option (Decimal.uint → Decimal.uint) :=
  match c with
  | "0" => Some Decimal.D0 | "1" => Some Decimal.D1 | "2" => Some Decimal.D2
  | "3" => Some Decimal.D3 | "4" => Some Decimal.D4 | "5" => Some Decimal.D5
  | "6" => Some Decimal.D6 | "7" => Some Decimal.D7 | "8" => Some Decimal.D8
  | "9" => Some Decimal.D9
  | _ => None
  end%char.

(** The longest prefix of decimal digits, and the rest. *)
Fixpoint read_digits (s : string) : Decimal.uint * string :=
  match s with
  | String c s' =>
      match digit_of_char c with
      | Some d => let '(u, rest) := read_digits s' in (d u, rest)
      | None => (Decimal.Nil, s)
      end
  | EmptyString => (Decimal.Nil, s)
  end.

Definition signed (neg : bool) (v : Z) : Z := if neg then - v else v.

(** [std::stoi(s)] in base 10: white space, an optional sign, digits; what
    follows the digits is ignored. *)
Definition stoi (s : string) : outcome Z :=
  let '(neg, s1) := read_sign (skip_space s) in
  let '(ds, _) := read_digits s1 in
  match ds with
  | Decimal.Nil => Throws (invalid_argument "stoi")
  | _ =>
      let v := signed neg (Z.of_uint ds) in
      if bool_decide (INT_MIN ≤ v ≤ INT_MAX) then Returns v
      else Throws (out_of_range "stoi")
  end.

(** The exponent part of a decimal floating literal: [e], an optional sign
    and at least one digit; the factor it stands for. *)
Definition read_exponent (s : string) : double :=
  match s with
  | String c s' =>
      if bool_decide (c = "e" ∨ c = "E")%char then
        let '(neg, s1) := read_sign s' in
        let '(ds, _) := read_digits s1 in
        match ds with
        | Decimal.Nil => 1%Qc
        | _ =>
            let p := (Qc_of_Z 10 ^ Z.to_nat (Z.of_uint ds))%Qc in
            if neg then (/ p)%Qc else p
        end
      else 1%Qc
  | EmptyString => 1%Qc
  end.

(** [std::stod(s)] for decimal text: white space, an optional sign, digits
    with an optional fraction, an optional exponent; what follows is ignored.
    The result is the value of the text, kept exact: [std::stod] rounds it
    to the nearest [double] and throws [std::out_of_range] when it is too
    large for one, which the model does not do.  The one caller,
    [string2price], passes the text before the dash of a price; the
    properties below are about texts of whole numbers below 2^31, which are
    [double]s.  Hexadecimal text, [inf] and [nan], which have no rational
    value, are not modelled. *)
Definition stod (s : string) : outcome double :=
  let '(neg, s1) := read_sign (skip_space s) in
  let '(ip, s2) := read_digits s1 in
  let '(fp, s3) :=
    match s2 with
    | String "." s2' => read_digits s2'
    | _ => (Decimal.Nil, s2)
    end in
  match ip, fp with
  | Decimal.Nil, Decimal.Nil => Throws (invalid_argument "stod")
  | _, _ =>
      let mant :=
        (Qc_of_Z (Z.of_uint ip)
         + Qc_of_Z (Z.of_uint fp) / Qc_of_Z (10 ^ Z.of_nat (Decimal.nb_digits fp)))%Qc in
      let v := (mant * read_exponent s3)%Qc in
      Returns (if neg then (- v)%Qc else v)
  end.

(** [string2price] *)
Definition string2price (fractional : string) : outcome double :=
  match find "-" fractional with
  | None => Throws (invalid_argument "Invalid fractional notation")
  | Some dashPos =>
      basePrice ← stod (substring 0 dashPos fractional);
      xy ← stoi (substring (dashPos + 1) 2 fractional);
      zChar ← at_index fractional (dashPos + 3);
      let z := if bool_decide (zChar = "+"%char) then 4
               else Z.of_nat (nat_of_ascii zChar) - Z.of_nat (nat_of_ascii "0") in
      if bool_decide (xy < 0 ∨ xy > 31 ∨ z < 0 ∨ z > 7)
      then Throws (invalid_argument "Invalid fractional components")
      else Returns (basePrice + int_to_double xy / Qc_of_Z 32
                    + int_to_double z / Qc_of_Z 256)%Qc
  end.

(** ['0' + z] stored in a [char]. *)
Definition char_plus (c : ascii) (z : Z) : ascii :=
  ascii_of_N (Z.to_N ((Z.of_nat (nat_of_ascii c) + z) `mod` 256)).

(** [price2string] *)
Definition price2string (decimal : double) : outcome string :=
  basePrice ← double_to_int decimal;
  let fractionalPart := (decimal - int_to_double basePrice)%Qc in
  xy ← double_to_int (fractionalPart * Qc_of_Z 32)%Qc;
  z256 ← double_to_int (fractionalPart * Qc_of_Z 256)%Qc;
  let z := Z.rem z256 8 in
  let zChar := if bool_decide (z = 4) then "+"%char else char_plus "0" z in
  Returns (to_string basePrice +:+ "-" +:+ (if bool_decide (xy < 10) then "0" else "")
           +:+ to_string xy +:+ String zChar "").

(** ** execution.hpp *)

Inductive OrderType := FOK | IOC | MARKET | LIMIT | STOP.

Record ExecutionOrder (T : Type) := mkExecutionOrder {
  eo_product : T;
  GetPricingSide : PricingSide;
  GetOrderId : string;
  GetOrderType : OrderType;
  eo_price : double;
  GetVisibleQuantity : long;
  GetHiddenQuantity : long;
  GetParentOrderId : string;
  IsChildOrder : bool
}.
Arguments mkExecutionOrder {T} _ _ _ _ _ _ _ _ _.
Arguments eo_product {T} _.
Arguments GetPricingSide {T} _.
Arguments GetOrderId {T} _.
Arguments GetOrderType {T} _.
Arguments eo_price {T} _.
Arguments GetVisibleQuantity {T} _.
Arguments GetHiddenQuantity {T} _.
Arguments GetParentOrderId {T} _.
Arguments IsChildOrder {T} _.

(** The constructor of [ExecutionOrder<T>]: the two quantities arrive as
    [double] and are cast back to [long]. *)
Definition new_ExecutionOrder {T} (prod : T) (ps : PricingSide) (oid : string)
    (ot : OrderType) (pr : double) (visQty hidQty : double)
    (parentOid : string) (childFlag : bool) : outcome (ExecutionOrder T) :=
  visibleQuantity ← double_to_long visQty;
  hiddenQuantity ← double_to_long hidQty;
  Returns (mkExecutionOrder prod ps oid ot pr visibleQuantity hiddenQuantity
             parentOid childFlag).

(** ** AlgoExecutionService.hpp *)

Record AlgoExecution (T : Type) := mkAlgoExecution {
  GetExecutionOrder : ExecutionOrder T
}.
Arguments mkAlgoExecution {T} _.
Arguments GetExecutionOrder {T} _.

(** The constructor of [AlgoExecution<T>]: the quantities are [long] here,
    and are converted to the [double] parameters of the constructor of the
    order. *)
Definition new_AlgoExecution {T} (prod : T) (ps : PricingSide) (oid : string)
    (ot : OrderType) (pr : double) (visQty hidQty : long)
    (parentOid : string) (childFlag : bool) : outcome (AlgoExecution T) :=
  mkAlgoExecution
    <$> new_ExecutionOrder prod ps oid ot pr
          (long_to_double visQty) (long_to_double hidQty) parentOid childFlag.

Section AlgoExecutionService.
Context {T : Type} `{Product T}.

Record AlgoExecutionService := mkAlgoExecutionService {
  algoExecutions : gmap string (AlgoExecution T);
  ae_listeners : list ListenerRef;
  executionCount : long
}.

(** The constructor: no execution, no listener, the counter at 0. *)
Definition AlgoExecutionService_new : AlgoExecutionService :=
  mkAlgoExecutionService ∅ [] 0.

Definition AlgoExecution_AddListener (svc : AlgoExecutionService)
    (l : ListenerRef) : AlgoExecutionService :=
  mkAlgoExecutionService (algoExecutions svc) (ae_listeners svc ++ [l])
    (executionCount svc).

(** [AlgoExecutionService<T>::AlgoExecutionTrade]: the service after the
    call and the calls made to the listeners. *)
Definition AlgoExecutionTrade (svc : AlgoExecutionService)
    (orderBookObj : OrderBook T)
    : outcome (AlgoExecutionService * list (Call (AlgoExecution T))) :=
  let prodId := GetProductId (book_product orderBookObj) in
  bestBid ← GetBidOrder <$> GetBidOffer orderBookObj;
  bestOffer ← GetOfferOrder <$> GetBidOffer orderBookObj;
  let bidPrice := order_price bestBid in
  let bidQty := order_quantity bestBid in
  let offerPrice := order_price bestOffer in
  let offerQty := order_quantity bestOffer in
  if bool_decide (fsub offerPrice bidPrice ≤ 1 / Qc_of_Z 128)%Qc then
    let '(chosenPrice, chosenQty, chosenSide) :=
      if bool_decide (Z.rem (executionCount svc) 2 = 1)
      then (bidPrice, bidQty, BID)
      else (offerPrice, offerQty, OFFER) in
    let count := executionCount svc + 1 in
    let oid := "AlgoExec" +:+ to_string count in
    algoExec ←
      new_AlgoExecution (book_product orderBookObj) chosenSide oid MARKET
        chosenPrice chosenQty 0 "PARENT_ORDER_ID" false;
    Returns
      (mkAlgoExecutionService (<[prodId := algoExec]> (algoExecutions svc))
         (ae_listeners svc) count,
       fan_out (ae_listeners svc) algoExec)
  else Returns (svc, []).
End AlgoExecutionService.
Arguments AlgoExecutionService T : clear implicits.

(** ** tradebookingservice.hpp *)

Inductive Side := BUY | SELL.

Record Trade (T : Type) := mkTrade {
  trade_product : T;
  GetTradeId : string;
  trade_price : double;
  GetBook : string;
  trade_quantity : long;
  trade_side : Side
}.
Arguments mkTrade {T} _ _ _ _ _ _.
Arguments trade_product {T} _.
Arguments GetTradeId {T} _.
Arguments trade_price {T} _.
Arguments GetBook {T} _.
Arguments trade_quantity {T} _.
Arguments trade_side {T} _.

Section TradeBookingService.
Context {T : Type}.

Record TradeBookingService := mkTradeBookingService {
  trades : gmap string (Trade T);
  tb_listeners : list ListenerRef
}.

(** [TradeBookingService<T>::OnMessage] *)
Definition TradeBooking_OnMessage (svc : TradeBookingService)
    (data : Trade T) : TradeBookingService * list (Call (Trade T)) :=
  (mkTradeBookingService (<[GetTradeId data := data]> (trades svc))
     (tb_listeners svc),
   fan_out (tb_listeners svc) data).

(** [TradeBookingService<T>::BookTrade] *)
Definition BookTrade (svc : TradeBookingService) (tradeObj : Trade T)
    : TradeBookingService * list (Call (Trade T)) :=
  (svc, fan_out (tb_listeners svc) tradeObj).

(** The static vector of [TradeBookingServiceListener<T>::ProcessAdd]. *)
Definition marketBooks : list string := ["TRSY1"; "TRSY2"; "TRSY3"].

(** [TradeBookingServiceListener<T>::ProcessAdd]: [bookedCount] is the
    listener's counter, [svc] the booking service it points to.  The
    unchecked [marketBooks[i]] is undefined outside the vector. *)
Definition TradeBookingServiceListener_ProcessAdd (bookedCount : long)
    (svc : TradeBookingService) (execOrder : ExecutionOrder T)
    : outcome (long * TradeBookingService * list (Call (Trade T))) :=
  let bookedCount := bookedCount + 1 in
  let productObj := eo_product execOrder in
  let pSide := GetPricingSide execOrder in
  let orderIdStr := GetOrderId execOrder in
  let orderPrice := eo_price execOrder in
  let visibleQty := GetVisibleQuantity execOrder in
  let hiddenQty := GetHiddenQuantity execOrder in
  let tradeSide := match pSide with BID => SELL | OFFER => BUY end in
  let i := Z.rem bookedCount 3 in
  if bool_decide (i < 0) then Undefined else
  match marketBooks !! Z.to_nat i with
  | None => Undefined
  | Some chosenBook =>
      let totalQty := visibleQty + hiddenQty in
      let generatedTrade :=
        mkTrade productObj orderIdStr orderPrice chosenBook totalQty tradeSide in
      let '(svc1, calls1) := TradeBooking_OnMessage svc generatedTrade in
      let '(svc2, calls2) := BookTrade svc1 generatedTrade in
      Returns (bookedCount, svc2, calls1 ++ calls2)
  end.
End TradeBookingService.
Arguments TradeBookingService T : clear implicits.

(** ** positionservice.hpp *)

Record Position (T : Type) := mkPosition {
  pos_product : T;
  GetPositions : gmap string Z
}.
Arguments mkPosition {T} _ _.
Arguments pos_product {T} _.
Arguments GetPositions {T} _.

(** [Position<T>::Position(prod)]: no book yet. *)
Definition new_Position {T} (prod : T) : Position T := mkPosition prod ∅.

(** [Position<T>::GetPosition], without the entry it may insert. *)
Definition GetPosition {T} (pos : Position T) (book : string) : long :=
  default 0 (GetPositions pos !! book).

(** [Position<T>::AddPosition]: [bookPositions[book] += qty]. *)
Definition Position_AddPosition {T} (pos : Position T) (book : string)
    (qty : long) : Position T :=
  mkPosition (pos_product pos)
    (<[book := default 0 (GetPositions pos !! book) + qty]> (GetPositions pos)).

(** [Position<T>::GetAggregatePosition] *)
Definition GetAggregatePosition {T} (pos : Position T) : long :=
  map_fold (λ _ qty total, total + qty) 0 (GetPositions pos).

Section PositionService.
Context {T : Type} `{Product T}.

Record PositionService := mkPositionService {
  positions : gmap string (Position T);
  ps_listeners : list ListenerRef
}.

Definition PositionService_new : PositionService :=
  mkPositionService ∅ [].

Definition Position_default : Position T := new_Position product_default.

(** [PositionService<T>::AddTrade] *)
Definition AddTrade (svc : PositionService) (tradeObj : Trade T)
    : PositionService * list (Call (Position T)) :=
  let prod := trade_product tradeObj in
  let prodId := GetProductId prod in
  let bookName := GetBook tradeObj in
  let tradeQty := trade_quantity tradeObj in
  let side := trade_side tradeObj in
  let newPosition := new_Position prod in
  let newPosition :=
    match side with
    | BUY => Position_AddPosition newPosition bookName tradeQty
    | SELL => Position_AddPosition newPosition bookName (- tradeQty)
    end in
  let '(oldPosition, positions1) :=
    subscript Position_default (positions svc) prodId in
  let oldMap := GetPositions oldPosition in
  let newPosition :=
    map_fold (λ book qty pos, Position_AddPosition pos book qty)
      newPosition oldMap in
  (mkPositionService (<[prodId := newPosition]> positions1) (ps_listeners svc),
   fan_out (ps_listeners svc) newPosition).

(** The trades of a feed, applied in order; the calls are collected. *)
Definition AddTrades (svc : PositionService) (feed : list (Trade T))
    : PositionService * list (Call (Position T)) :=
  foldl (λ acc t, let '(svc', calls) := AddTrade acc.1 t in
                   (svc', acc.2 ++ calls)) (svc, []) feed.
End PositionService.
Arguments PositionService T : clear implicits.

(** ** riskservice.hpp *)

(** The table [bondPV01]: PV01 per unit of notional, by CUSIP. *)
Definition bondPV01 : gmap string Qc :=
  list_to_map
    [ ("912828V23", Q2Qc (19 # 1000));
      ("912828W22", Q2Qc (28 # 1000));
      ("912828X21", Q2Qc (46 # 1000));
      ("912828Y20", Q2Qc (64 # 1000));
      ("912828Z19", Q2Qc (91 # 1000));
      ("912810FZ8", Q2Qc (142 # 1000));
      ("912810GZ6", Q2Qc (183 # 1000)) ].

Record PV01 (T : Type) := mkPV01 {
  pv_product : T;
  GetPV01 : double;
  pv_quantity : long
}.
Arguments mkPV01 {T} _ _ _.
Arguments pv_product {T} _.
Arguments GetPV01 {T} _.
Arguments pv_quantity {T} _.

Section RiskService.
Context {T : Type} `{Product T}.

Record RiskService := mkRiskService {
  pv01s : gmap string (PV01 T);
  risk_listeners : list ListenerRef
}.

Definition RiskService_new : RiskService := mkRiskService ∅ [].

(** A value-initialised [PV01<T>]. *)
Definition PV01_default : PV01 T := mkPV01 product_default 0%Qc 0.

(** [RiskService<T>::AddPosition]: how the call ends, with the calls made
    to the listeners, and the service as the call leaves it.
    [bondPV01.at(_id)] throws [std::out_of_range] for an absent key. *)
Definition Risk_AddPosition (svc : RiskService) (position : Position T)
    : outcome (list (Call (PV01 T))) * RiskService :=
  let product := pos_product position in
  let id := GetProductId product in
  match bondPV01 !! id with
  | None => (Throws (out_of_range "map::at"), svc)
  | Some pv01Value =>
      let quantity := GetAggregatePosition position in
      let pv01 := mkPV01 product pv01Value quantity in
      (Returns (fan_out (risk_listeners svc) pv01),
       mkRiskService (<[id := pv01]> (pv01s svc)) (risk_listeners svc))
  end.

(** [pv01s[_key]], as [GetData] returns it: the stored entry, or a
    value-initialised one. *)
Definition pv01s_at (svc : RiskService) (pId : string) : PV01 T :=
  (subscript PV01_default (pv01s svc) pId).1.

(** [RiskService<T>::GetBucketedRisk] is not modelled.  Declared [const],
    it binds a [vector<T>&] to the [const vector<T>&] of [GetProducts] and
    applies [operator[]] to the [const] map [pv01s], so it is ill-formed
    when it is instantiated; and it returns a reference to a temporary
    [PV01], which no caller could read.  Nothing in the repository calls
    it. *)

(** [RiskServiceListener<T>::ProcessAdd] *)
Definition RiskServiceListener_ProcessAdd (svc : RiskService)
    (data : Position T) : outcome (list (Call (PV01 T))) * RiskService :=
  Risk_AddPosition svc data.
End RiskService.
Arguments RiskService T : clear implicits.

(** ** main.cpp: the position service and its listeners

    [main] registers two listeners with the position service, in this order:
    the listener of the risk service and the listener of the historical data
    service for positions.  No function of the system has a handler: an
    exception thrown in a listener ends the loop that called it, and the
    loops of all its callers. *)

Inductive PositionListener := RiskServiceListener | HistoricalDataListener.

Section Wiring.
Context {T : Type} `{Product T}.

(** What lies behind the position service: the risk service, the calls it
    made to its own listeners, and the positions handed to the historical
    data service. *)
Record Downstream := mkDownstream {
  ds_risk : RiskService T;
  ds_risk_calls : list (Call (PV01 T));
  ds_persisted : list (Position T)
}.

(** The calls of one listener loop of the position service, made in order;
    [bound] tells which object a listener reference points to. *)
Fixpoint deliver (bound : ListenerRef → PositionListener)
    (calls : list (Call (Position T))) (d : Downstream)
    : outcome unit * Downstream :=
  match calls with
  | [] => (Returns (), d)
  | ProcessAdd l p :: calls' =>
      match bound l with
      | RiskServiceListener =>
          match RiskServiceListener_ProcessAdd (ds_risk d) p with
          | (Returns cs, risk') =>
              deliver bound calls'
                (mkDownstream risk' (ds_risk_calls d ++ cs) (ds_persisted d))
          | (Throws e, risk') =>
              (Throws e, mkDownstream risk' (ds_risk_calls d) (ds_persisted d))
          | (Undefined, risk') =>
              (Undefined, mkDownstream risk' (ds_risk_calls d) (ds_persisted d))
          end
      | HistoricalDataListener =>
          deliver bound calls'
            (mkDownstream (ds_risk d) (ds_risk_calls d) (ds_persisted d ++ [p]))
      end
  end.

(** [PositionService<T>::AddTrade] with its listeners bound. *)
Definition AddTrade_wired (bound : ListenerRef → PositionListener)
    (w : PositionService T * Downstream) (t : Trade T)
    : outcome unit * (PositionService T * Downstream) :=
  let '(svc', calls) := AddTrade w.1 t in
  let '(r, d') := deliver bound calls w.2 in
  (r, (svc', d')).

(** Successive trades handed to the position service, as the booking
    service does for the trades of a feed. *)
Fixpoint feed_wired (bound : ListenerRef → PositionListener)
    (w : PositionService T * Downstream) (feed : list (Trade T))
    : outcome unit * (PositionService T * Downstream) :=
  match feed with
  | [] => (Returns (), w)
  | t :: feed' =>
      match AddTrade_wired bound w t with
      | (Returns _, w') => feed_wired bound w' feed'
      | (r, w') => (r, w')
      end
  end.
End Wiring.
Arguments Downstream T : clear implicits.

(** ** inquiryservice.hpp *)

Inductive InquiryState := RECEIVED | QUOTED | DONE | REJECTED | CUSTOMER_REJECTED.

Global Instance InquiryState_eq_dec : EqDecision InquiryState.
Proof. solve_decision. Defined.

Record Inquiry (T : Type) := mkInquiry {
  GetInquiryId : string;
  inq_product : T;
  inq_side : Side;
  inq_quantity : long;
  inq_price : double;
  GetState : InquiryState
}.
Arguments mkInquiry {T} _ _ _ _ _ _.
Arguments GetInquiryId {T} _.
Arguments inq_product {T} _.
Arguments inq_side {T} _.
Arguments inq_quantity {T} _.
Arguments inq_price {T} _.
Arguments GetState {T} _.

Definition SetState {T} (i : Inquiry T) (s : InquiryState) : Inquiry T :=
  mkInquiry (GetInquiryId i) (inq_product i) (inq_side i) (inq_quantity i)
    (inq_price i) s.

Section InquiryService.
Context {T : Type}.

Record InquiryService := mkInquiryService {
  inquiries : gmap string (Inquiry T);
  inq_listeners : list ListenerRef
}.

(** What a call that takes the inquiry by reference leaves behind: the
    service, the inquiry object of the caller, the calls made to the
    listeners. *)
Definition Effect : Type :=
  InquiryService * Inquiry T * list (Call (Inquiry T)).

Definition store (svc : InquiryService) (data : Inquiry T) : InquiryService :=
  mkInquiryService (<[GetInquiryId data := data]> (inquiries svc))
    (inq_listeners svc).

(** [InquiryConnector<T>::Subscribe(Inquiry<T>&)]: back to the service,
    whose [OnMessage] is [onMessage]. *)
Definition Inquiry_Subscribe
    (onMessage : InquiryService → Inquiry T → option Effect)
    (svc : InquiryService) (data : Inquiry T) : option Effect :=
  onMessage svc data.

(** [InquiryConnector<T>::Publish] *)
Definition Inquiry_Publish
    (onMessage : InquiryService → Inquiry T → option Effect)
    (svc : InquiryService) (data : Inquiry T) : option Effect :=
  if decide (GetState data = RECEIVED) then
    let data := SetState data QUOTED in
    Inquiry_Subscribe onMessage svc data
  else Some (svc, data, []).

(** [InquiryService<T>::OnMessage].  The service and its connector call
    each other; [fuel] bounds the depth of these calls. *)
Fixpoint Inquiry_OnMessage (fuel : nat) (svc : InquiryService)
    (data : Inquiry T) : option Effect :=
  match fuel with
  | O => None
  | S fuel' =>
      let currentState := GetState data in
      '(svc, data, calls) ←
        (if decide (currentState = RECEIVED) then
           let svc := store svc data in
           Inquiry_Publish (Inquiry_OnMessage fuel') svc data
         else Some (svc, data, []));
      if decide (currentState = QUOTED) then
        let data := SetState data DONE in
        let svc := store svc data in
        Some (svc, data, calls ++ fan_out (inq_listeners svc) data)
      else Some (svc, data, calls)
  end.
End InquiryService.
Arguments InquiryService T : clear implicits.
Arguments Effect T : clear implicits.

(** ** products.hpp

    The header is not part of the sources at hand; a bond is kept as its
    CUSIP and its ticker, which is all the services read. *)
Record Bond := mkBond {
  bond_productId : string;
  bond_ticker : string
}.

Global Instance Bond_Product : Product Bond := {|
  GetProductId := bond_productId;
  product_default := mkBond "" ""
|}.


(** * Further services

    The rest of the pipeline: the tables and parsers of utility.hpp, the
    connectors that read the input files, pricingservice.hpp, streaming.hpp,
    AlgoStreamingService.hpp, streamingservice.hpp, executionservice.hpp, and
    the remaining operations of the inquiry service.  An input stream is
    modelled by the list of its lines. *)

(** ** utility.hpp: the bond tables *)

(** [bondMap], in the order of its keys: maturity in years, CUSIP, and the
    maturity date as year, month and day. *)
Definition bondMap_entries : list (Z * (string * (Z * Z * Z))) :=
  [ (2, ("912828V23", (2026, 12, 15)));
    (3, ("912828W22", (2027, 12, 15)));
    (5, ("912828X21", (2029, 12, 15)));
    (7, ("912828Y20", (2031, 12, 15)));
    (10, ("912828Z19", (2034, 12, 15)));
    (20, ("912810FZ8", (2044, 12, 15)));
    (30, ("912810GZ6", (2054, 12, 15))) ].

Definition bondMap : gmap Z (string * (Z * Z * Z)) := list_to_map bondMap_entries.

Definition bondId : gmap string Z :=
  list_to_map
    [ ("912828V23", 2); ("912828W22", 3); ("912828X21", 5); ("912828Y20", 7);
      ("912828Z19", 10); ("912810FZ8", 20); ("912810GZ6", 30) ].

Definition bondCoupon : gmap string Qc :=
  list_to_map
    [ ("912828V23", Q2Qc (425 # 10000)); ("912828W22", Q2Qc (430 # 10000));
      ("912828X21", Q2Qc (435 # 10000)); ("912828Y20", Q2Qc (440 # 10000));
      ("912828Z19", Q2Qc (445 # 10000)); ("912810FZ8", Q2Qc (450 # 10000));
      ("912810GZ6", Q2Qc (455 # 10000)) ].

(** [map::at]: throws [std::out_of_range] for an absent key. *)
Definition map_at `{Countable K} {V} (m : gmap K V) (k : K) : outcome V :=
  match m !! k with
  | Some v => Returns v
  | None => Throws (out_of_range "map::at")
  end.

(** [GetBond(int maturity)]: the coupon and the date are looked up as the
    code does, [Bond] keeping the CUSIP and the ticker. *)
Definition GetBond_maturity (maturity : Z) : outcome Bond :=
  entry ← map_at bondMap maturity;
  let id := entry.1 in
  let ticker := "US" +:+ to_string maturity +:+ "Y" in
  coupon ← map_at bondCoupon id;
  entry2 ← map_at bondMap maturity;
  Returns (mkBond id ticker).

(** [GetBond(string _id)] *)
Definition GetBond (_id : string) : outcome Bond :=
  _mat ← map_at bondId _id;
  GetBond_maturity _mat.

(** ** Reading a line *)

(** [std::stol(s)] in base 10. *)
Definition stol (s : string) : outcome Z :=
  let '(neg, s1) := read_sign (skip_space s) in
  let '(ds, _) := read_digits s1 in
  match ds with
  | Decimal.Nil => Throws (invalid_argument "stol")
  | _ =>
      let v := signed neg (Z.of_uint ds) in
      if bool_decide (LONG_MIN ≤ v ≤ LONG_MAX) then Returns v
      else Throws (out_of_range "stol")
  end.

(** The tokens [while (getline(ss, token, ','))] collects: the text between
    the commas; nothing is collected after a last comma that ends the
    line. *)
Fixpoint split_commas (line : string) : list string :=
  match line with
  | EmptyString => []
  | String c rest =>
      if bool_decide (c = ","%char) then EmptyString :: split_commas rest
      else match split_commas rest with
           | [] => [String c EmptyString]
           | token :: tokens => String c token :: tokens
           end
  end.

(** A step of a loop over the lines of a stream, run until the stream ends
    or a step throws: how the loop ends, and the state it leaves. *)
Fixpoint each_line {S : Type} (step : S → string → outcome unit * S)
    (st : S) (lines : list string) : outcome unit * S :=
  match lines with
  | [] => (Returns (), st)
  | line :: lines' =>
      match step st line with
      | (Returns _, st') => each_line step st' lines'
      | (r, st') => (r, st')
      end
  end.

(** A call that may throw, inside a loop step: on an exception the step
    ends with the state it has reached. *)
Definition try_call {S A : Type} (o : outcome A) (st : S)
    (k : A → outcome unit * S) : outcome unit * S :=
  match o with
  | Returns a => k a
  | Throws e => (Throws e, st)
  | Undefined => (Undefined, st)
  end.

(** ** marketdataservice.hpp: the connector *)

(** The service, the calls its listeners have received, and the locals of
    [MarketDataConnector<T>::Subscribe]. *)
Record MarketDataFeed := mkMarketDataFeed {
  feed_service : MarketDataService Bond;
  feed_calls : list (Call (OrderBook Bond));
  tempBidStack : list Order;
  tempOfferStack : list Order;
  orderCount : long
}.

(** The body of the loop of [MarketDataConnector<T>::Subscribe] for one
    line; [combinedThreshold] is twice the depth of the book.  A remainder
    by zero is undefined. *)
Definition MarketData_line (combinedThreshold : Z) (st : MarketDataFeed)
    (lineContent : string) : outcome unit * MarketDataFeed :=
  if bool_decide (lineContent = EmptyString) then (Returns (), st) else
  match split_commas lineContent with
  | productIdStr :: priceStr :: qtyStr :: sideStr :: _ =>
      try_call (string2price priceStr) st (λ parsedPrice,
      try_call (stol qtyStr) st (λ parsedQty,
        let parsedSide := if bool_decide (sideStr = "BID") then BID else OFFER in
        let newOrder := mkOrder parsedPrice parsedQty parsedSide in
        let bids := match parsedSide with
                    | BID => tempBidStack st ++ [newOrder]
                    | OFFER => tempBidStack st
                    end in
        let offers := match parsedSide with
                      | BID => tempOfferStack st
                      | OFFER => tempOfferStack st ++ [newOrder]
                      end in
        let count := orderCount st + 1 in
        let st1 := mkMarketDataFeed (feed_service st) (feed_calls st)
                     bids offers count in
        if bool_decide (combinedThreshold = 0) then (Undefined, st1)
        else if bool_decide (Z.rem count combinedThreshold = 0) then
          try_call (GetBond productIdStr) st1 (λ productObj,
            let assembledBook := mkOrderBook productObj bids offers in
            let '(svc', calls) :=
              MarketData_OnMessage (feed_service st) assembledBook in
            (Returns (),
             mkMarketDataFeed svc' (feed_calls st ++ calls) [] [] count))
        else (Returns (), st1)))
  | _ => (Returns (), st)
  end.

(** [MarketDataConnector<T>::Subscribe]: the locals start empty; what is
    left in them when the stream ends is dropped with them. *)
Definition MarketData_Subscribe (svc : MarketDataService Bond)
    (data : list string) : outcome unit * MarketDataFeed :=
  let depthVal := bookDepth svc in
  let combinedThreshold := depthVal * 2 in
  each_line (MarketData_line combinedThreshold)
    (mkMarketDataFeed svc [] [] [] 0) data.

(** The constructor of [MarketDataService<T>]: depth 10. *)
Definition MarketDataService_new : MarketDataService Bond :=
  mkMarketDataService ∅ [] 10.

Definition MarketData_AddListener (svc : MarketDataService Bond)
    (l : ListenerRef) : MarketDataService Bond :=
  mkMarketDataService (orderBooks svc) (md_listeners svc ++ [l]) (bookDepth svc).

(** ** tradebookingservice.hpp: the connector *)

(** The body of the loop of [TradeBookingConnector<T>::Subscribe]. *)
Definition TradeBooking_line
    (st : TradeBookingService Bond * list (Call (Trade Bond)))
    (lineData : string)
    : outcome unit * (TradeBookingService Bond * list (Call (Trade Bond))) :=
  if bool_decide (lineData = EmptyString) then (Returns (), st) else
  match split_commas lineData with
  | productIdStr :: tradeIdStr :: priceStr :: bookStr :: qtyStr :: sideStr :: _ =>
      try_call (string2price priceStr) st (λ parsedPrice,
      try_call (stol qtyStr) st (λ parsedQty,
        let tradeSide := if bool_decide (sideStr = "BUY") then BUY else SELL in
        try_call (GetBond productIdStr) st (λ bondProduct,
          let newTrade := mkTrade bondProduct tradeIdStr parsedPrice bookStr
                            parsedQty tradeSide in
          let '(svc', calls) := TradeBooking_OnMessage st.1 newTrade in
          (Returns (), (svc', st.2 ++ calls)))))
  | _ => (Returns (), st)
  end.

(** [TradeBookingConnector<T>::Subscribe] *)
Definition TradeBooking_Subscribe (svc : TradeBookingService Bond)
    (inputStream : list string)
    : outcome unit * (TradeBookingService Bond * list (Call (Trade Bond))) :=
  each_line TradeBooking_line (svc, []) inputStream.

(** ** pricingservice.hpp *)

Record Price (T : Type) := mkPrice {
  price_product : T;
  GetMid : double;
  GetBidOfferSpread : double
}.
Arguments mkPrice {T} _ _ _.
Arguments price_product {T} _.
Arguments GetMid {T} _.
Arguments GetBidOfferSpread {T} _.

Section PricingService.
Context {T : Type} `{Product T}.

Record PricingService := mkPricingService {
  internalPriceMap : gmap string (Price T);
  priceSrvListeners : list ListenerRef
}.

(** [PricingService<T>::OnMessage] *)
Definition Pricing_OnMessage (svc : PricingService) (data : Price T)
    : PricingService * list (Call (Price T)) :=
  let pid := GetProductId (price_product data) in
  (mkPricingService (<[pid := data]> (internalPriceMap svc))
     (priceSrvListeners svc),
   fan_out (priceSrvListeners svc) data).
End PricingService.
Arguments PricingService T : clear implicits.

(** The body of the loop of [PricingConnector<T>::Subscribe]. *)
Definition Pricing_line
    (st : PricingService Bond * list (Call (Price Bond))) (singleLine : string)
    : outcome unit * (PricingService Bond * list (Call (Price Bond))) :=
  if bool_decide (singleLine = EmptyString) then (Returns (), st) else
  match split_commas singleLine with
  | _productId :: bidStr :: offerStr :: _ =>
      try_call (string2price bidStr) st (λ bidVal,
      try_call (string2price offerStr) st (λ offerVal,
      try_call (GetBond _productId) st (λ bondObj,
        let midVal := ((bidVal + offerVal) / Qc_of_Z 2)%Qc in
        let spreadVal := (offerVal - bidVal)%Qc in
        let priceObj := mkPrice bondObj midVal spreadVal in
        let '(svc', calls) := Pricing_OnMessage st.1 priceObj in
        (Returns (), (svc', st.2 ++ calls)))))
  | _ => (Returns (), st)
  end.

(** [PricingConnector<T>::Subscribe] *)
Definition Pricing_Subscribe (svc : PricingService Bond)
    (data : list string)
    : outcome unit * (PricingService Bond * list (Call (Price Bond))) :=
  each_line Pricing_line (svc, []) data.

(** ** streaming.hpp *)

Record PriceStreamOrder := mkPriceStreamOrder {
  pso_price : double;
  pso_visibleQuantity : long;
  pso_hiddenQuantity : long;
  pso_side : PricingSide
}.

Record PriceStream (T : Type) := mkPriceStream {
  stream_product : T;
  stream_bidOrder : PriceStreamOrder;
  stream_offerOrder : PriceStreamOrder
}.
Arguments mkPriceStream {T} _ _ _.
Arguments stream_product {T} _.
Arguments stream_bidOrder {T} _.
Arguments stream_offerOrder {T} _.

(** [PriceStreamOrder::PrintFunction] *)
Definition PriceStreamOrder_PrintFunction (o : PriceStreamOrder)
    : outcome (list string) :=
  priceStr ← price2string (pso_price o);
  let visibleStr := to_string (pso_visibleQuantity o) in
  let hiddenStr := to_string (pso_hiddenQuantity o) in
  let sideStr := match pso_side o with BID => "BID" | OFFER => "OFFER" end in
  Returns [priceStr; visibleStr; hiddenStr; sideStr].

(** [PriceStream<T>::PrintFunction] *)
Definition PriceStream_PrintFunction {T} `{Product T} (s : PriceStream T)
    : outcome (list string) :=
  let prodIdStr := GetProductId (stream_product s) in
  bidFields ← PriceStreamOrder_PrintFunction (stream_bidOrder s);
  offerFields ← PriceStreamOrder_PrintFunction (stream_offerOrder s);
  Returns ([prodIdStr] ++ bidFields ++ offerFields).

(** ** AlgoStreamingService.hpp *)

Record AlgoStream (T : Type) := mkAlgoStream {
  GetPriceStream : PriceStream T
}.
Arguments mkAlgoStream {T} _.
Arguments GetPriceStream {T} _.

Section AlgoStreamingService.
Context {T : Type} `{Product T}.

Record AlgoStreamingService := mkAlgoStreamingService {
  algoStreams : gmap string (AlgoStream T);
  as_listeners : list ListenerRef;
  pricePublishCount : long
}.

Definition AlgoStreamingService_new : AlgoStreamingService :=
  mkAlgoStreamingService ∅ [] 0.

(** [AlgoStreamingService<T>::AlgoPublishPrice] *)
Definition AlgoPublishPrice (svc : AlgoStreamingService) (priceObj : Price T)
    : AlgoStreamingService * list (Call (AlgoStream T)) :=
  let productRef := price_product priceObj in
  let prodId := GetProductId productRef in
  let midVal := GetMid priceObj in
  let spreadVal := GetBidOfferSpread priceObj in
  let bidVal := fsub midVal (fdiv spreadVal (Qc_of_Z 2)) in
  let offerVal := fadd midVal (fdiv spreadVal (Qc_of_Z 2)) in
  let visQty := (Z.rem (pricePublishCount svc) 2 + 1) * 1000000 in
  let hidQty := visQty * 2 in
  let count := pricePublishCount svc + 1 in
  let bidOrd := mkPriceStreamOrder bidVal visQty hidQty BID in
  let offerOrd := mkPriceStreamOrder offerVal visQty hidQty OFFER in
  let algoStr := mkAlgoStream (mkPriceStream productRef bidOrd offerOrd) in
  (mkAlgoStreamingService (<[prodId := algoStr]> (algoStreams svc))
     (as_listeners svc) count,
   fan_out (as_listeners svc) algoStr).
End AlgoStreamingService.
Arguments AlgoStreamingService T : clear implicits.

(** ** streamingservice.hpp *)

Section StreamingService.
Context {T : Type} `{Product T}.

Record StreamingService := mkStreamingService {
  priceStreams : gmap string (PriceStream T);
  str_listeners : list ListenerRef
}.

(** [StreamingService<T>::OnMessage] *)
Definition Streaming_OnMessage (svc : StreamingService) (dataObj : PriceStream T)
    : StreamingService :=
  mkStreamingService
    (<[GetProductId (stream_product dataObj) := dataObj]> (priceStreams svc))
    (str_listeners svc).

(** [StreamingService<T>::PublishPrice] *)
Definition PublishPrice (svc : StreamingService) (priceStreamObj : PriceStream T)
    : list (Call (PriceStream T)) :=
  fan_out (str_listeners svc) priceStreamObj.

(** [StreamingServiceListener<T>::ProcessAdd] *)
Definition StreamingServiceListener_ProcessAdd (svc : StreamingService)
    (dataObj : AlgoStream T) : StreamingService * list (Call (PriceStream T)) :=
  let priceStream := GetPriceStream dataObj in
  let svc := Streaming_OnMessage svc priceStream in
  (svc, PublishPrice svc priceStream).
End StreamingService.
Arguments StreamingService T : clear implicits.

(** ** executionservice.hpp *)

Section ExecutionService.
Context {T : Type} `{Product T}.

Record ExecutionService := mkExecutionService {
  executionOrders : gmap string (ExecutionOrder T);
  ex_listeners : list ListenerRef
}.

(** [ExecutionService<T>::OnMessage] *)
Definition Execution_OnMessage (svc : ExecutionService)
    (dataObj : ExecutionOrder T) : ExecutionService :=
  mkExecutionService
    (<[GetProductId (eo_product dataObj) := dataObj]> (executionOrders svc))
    (ex_listeners svc).

(** [ExecutionService<T>::ExecuteOrder] *)
Definition ExecuteOrder (svc : ExecutionService) (execOrder : ExecutionOrder T)
    : ExecutionService * list (Call (ExecutionOrder T)) :=
  (mkExecutionService
     (<[GetProductId (eo_product execOrder) := execOrder]> (executionOrders svc))
     (ex_listeners svc),
   fan_out (ex_listeners svc) execOrder).

(** [ExecutionServiceListener<T>::ProcessAdd] *)
Definition ExecutionServiceListener_ProcessAdd (svc : ExecutionService)
    (algoExecObj : AlgoExecution T)
    : ExecutionService * list (Call (ExecutionOrder T)) :=
  let execOrder := GetExecutionOrder algoExecObj in
  let svc := Execution_OnMessage svc execOrder in
  ExecuteOrder svc execOrder.
End ExecutionService.
Arguments ExecutionService T : clear implicits.

(** [ExecutionOrder<T>::PrintFunction] *)
Definition ExecutionOrder_PrintFunction {T} `{Product T} (o : ExecutionOrder T)
    : outcome (list string) :=
  let prodIdStr := GetProductId (eo_product o) in
  let sideStr := match GetPricingSide o with BID => "BID" | OFFER => "OFFER" end in
  let oidStr := GetOrderId o in
  let otStr := match GetOrderType o with
               | FOK => "FOK" | IOC => "IOC" | MARKET => "MARKET"
               | LIMIT => "LIMIT" | STOP => "STOP"
               end in
  priceStr ← price2string (eo_price o);
  let visQtyStr := to_string (GetVisibleQuantity o) in
  let hidQtyStr := to_string (GetHiddenQuantity o) in
  let parentStr := GetParentOrderId o in
  let childFlagStr := if IsChildOrder o then "YES" else "NO" in
  Returns [prodIdStr; sideStr; oidStr; otStr; priceStr; visQtyStr; hidQtyStr;
           parentStr; childFlagStr].

(** ** inquiryservice.hpp: quotes and rejections *)

Section InquiryQuotes.
Context {T : Type} `{Product T}.

(** A value-initialised [Inquiry<T>]. *)
Definition Inquiry_default : Inquiry T :=
  mkInquiry EmptyString product_default BUY 0 0%Qc RECEIVED.

Definition SetPrice (i : Inquiry T) (p : double) : Inquiry T :=
  mkInquiry (GetInquiryId i) (inq_product i) (inq_side i) (inq_quantity i)
    p (GetState i).

(** [InquiryService<T>::SendQuote]: the entry is changed in the map, where
    [operator[]] creates it when it is absent. *)
Definition SendQuote (svc : InquiryService T) (inquiryId : string)
    (price : double) : InquiryService T * list (Call (Inquiry T)) :=
  let '(target, inqs) := subscript Inquiry_default (inquiries svc) inquiryId in
  let target := SetPrice target price in
  (mkInquiryService (<[inquiryId := target]> inqs) (inq_listeners svc),
   fan_out (inq_listeners svc) target).

(** [InquiryService<T>::RejectInquiry] *)
Definition RejectInquiry (svc : InquiryService T) (inquiryId : string)
    : InquiryService T :=
  let '(target, inqs) := subscript Inquiry_default (inquiries svc) inquiryId in
  mkInquiryService (<[inquiryId := SetState target REJECTED]> inqs)
    (inq_listeners svc).
End InquiryQuotes.

(** [Inquiry<T>::PrintFunction] *)
Definition Inquiry_PrintFunction {T} `{Product T} (i : Inquiry T)
    : outcome (list string) :=
  let inqIdStr := GetInquiryId i in
  let prodIdStr := GetProductId (inq_product i) in
  let sideStr := match inq_side i with BUY => "BUY" | SELL => "SELL" end in
  let qtyStr := to_string (inq_quantity i) in
  priceStr ← price2string (inq_price i);
  let stateStr := match GetState i with
                  | RECEIVED => "RECEIVED" | QUOTED => "QUOTED" | DONE => "DONE"
                  | REJECTED => "REJECTED"
                  | CUSTOMER_REJECTED => "CUSTOMER_REJECTED"
                  end in
  Returns [inqIdStr; prodIdStr; sideStr; qtyStr; priceStr; stateStr].

(** ** The listeners between the services *)

(** [AlgoExecutionServiceListener<T>::ProcessAdd] *)
Definition AlgoExecutionServiceListener_ProcessAdd {T} `{Product T}
    (svc : AlgoExecutionService T) (bookData : OrderBook T)
    : outcome (AlgoExecutionService T * list (Call (AlgoExecution T))) :=
  AlgoExecutionTrade svc bookData.

(** [PositionServiceListener<T>::ProcessAdd] *)
Definition PositionServiceListener_ProcessAdd {T} `{Product T}
    (svc : PositionService T) (data : Trade T)
    : PositionService T * list (Call (Position T)) :=
  AddTrade svc data.

(** [AlgoStreamingServiceListener<T>::ProcessAdd] *)
Definition AlgoStreamingServiceListener_ProcessAdd {T} `{Product T}
    (svc : AlgoStreamingService T) (dataObj : Price T)
    : AlgoStreamingService T * list (Call (AlgoStream T)) :=
  AlgoPublishPrice svc dataObj.

(** The data of a call. *)
Definition call_data {V} (c : Call V) : V :=
  match c with ProcessAdd _ data => data end.

(** ** inquiryservice.hpp: the connector *)

(** [OnMessage] as the connector calls it.  Two levels of calls between
    the service and its connector are all a call needs (see
    [Inquiry_OnMessage_total]). *)
Definition Inquiry_OnMessage_run {T} (svc : InquiryService T)
    (data : Inquiry T) : Effect T :=
  default (svc, data, []) (Inquiry_OnMessage 2 svc data).

(** The state a line of the file names. *)
Definition parse_state (field : string) : InquiryState :=
  if bool_decide (field = "RECEIVED") then RECEIVED
  else if bool_decide (field = "QUOTED") then QUOTED
  else if bool_decide (field = "DONE") then DONE
  else if bool_decide (field = "REJECTED") then REJECTED
  else CUSTOMER_REJECTED.

(** The body of the loop of [InquiryConnector<T>::Subscribe(ifstream&)]. *)
Definition Inquiry_line
    (st : InquiryService Bond * list (Call (Inquiry Bond))) (lineStr : string)
    : outcome unit * (InquiryService Bond * list (Call (Inquiry Bond))) :=
  if bool_decide (lineStr = EmptyString) then (Returns (), st) else
  match split_commas lineStr with
  | inquiryIdStr :: productIdStr :: sideStr :: qtyStr :: priceStr :: stateStr
    :: _ =>
      let inquirySide := if bool_decide (sideStr = "BUY") then BUY else SELL in
      try_call (stol qtyStr) st (λ parsedQty,
      try_call (string2price priceStr) st (λ parsedPrice,
        let parsedState := parse_state stateStr in
        try_call (GetBond productIdStr) st (λ productObj,
          let newInquiry := mkInquiry inquiryIdStr productObj inquirySide
                              parsedQty parsedPrice parsedState in
          let '(svc', _, calls) := Inquiry_OnMessage_run st.1 newInquiry in
          (Returns (), (svc', st.2 ++ calls)))))
  | _ => (Returns (), st)
  end.

(** [InquiryConnector<T>::Subscribe(ifstream&)] *)
Definition Inquiry_Subscribe_stream (svc : InquiryService Bond)
    (inputStream : list string)
    : outcome unit * (InquiryService Bond * list (Call (Inquiry Bond))) :=
  each_line Inquiry_line (svc, []) inputStream.

(** ** historicaldataservice.hpp: the connector *)

(** The file [HistoricalDataConnector<V>::Publish] appends to, chosen by the
    type of the service. *)
Definition output_path (typeStr : string) : string :=
  if bool_decide (typeStr = "Position") then "Data/Output/positions.txt"
  else if bool_decide (typeStr = "Risk") then "Data/Output/risk.txt"
  else if bool_decide (typeStr = "Execution") then "Data/Output/executions.txt"
  else if bool_decide (typeStr = "Streaming") then "Data/Output/streaming.txt"
  else if bool_decide (typeStr = "Inquiry") then "Data/Output/allinquiries.txt"
  else "Data/Output/unknown.txt".

(** The line [Publish] writes: the time, then every field, each followed by
    a comma. *)
Definition persisted_line (nowTime : string) (dataFields : list string)
    : string :=
  foldl (λ line field, line +:+ field +:+ ",") (nowTime +:+ ",") dataFields.

(** [HistoricalDataConnector<V>::Publish], for the fields that
    [PrintFunction] returned.  The files are kept as their lines;
    [is_open] tells whether a file can be opened for appending, and
    [nowTime] is the text of the clock's time. *)
Definition HistoricalData_Publish (is_open : string → bool)
    (files : gmap string (list string)) (typeStr nowTime : string)
    (dataFields : list string) : gmap string (list string) :=
  let path := output_path typeStr in
  if is_open path then
    <[path := default [] (files !! path) ++ [persisted_line nowTime dataFields]]>
      files
  else files.

(** ** DataGenerator.hpp

    The generators write their file line by line; a file is kept as the
    list of its lines, and is taken to open.  The prices they compute are
    multiples of 1/256 between 98 and 102, on which the arithmetic of
    [double] is exact.  The draws of a random generator are a sequence
    given from outside, read in order. *)

(** A loop whose body may end abnormally. *)
Fixpoint for_each {S A : Type} (body : S → A → outcome S) (st : S)
    (l : list A) : outcome S :=
  match l with
  | [] => Returns st
  | a :: l' => st' ← body st a; for_each body st' l'
  end.

(** [for (int i = 0; i < n; ++i)] around a body that does not read [i]. *)
Fixpoint repeat_body {S : Type} (n : nat) (body : S → outcome S) (st : S)
    : outcome S :=
  match n with
  | O => Returns st
  | S n' => st' ← body st; repeat_body n' body st'
  end.

Definition minTick : double := (1 / Qc_of_Z 256)%Qc.

(** [GenerateMarketData]: the body of the loop over the levels. *)
Definition GenerateMarketData_level (bondFirst : string) (price : double)
    (file : list string) (level : Z) : outcome (list string) :=
  let spread := (int_to_double level * minTick)%Qc in
  let bidPrice := (price - spread)%Qc in
  let askPrice := (price + spread)%Qc in
  let size := level * 10000000 in
  bidStr ← price2string bidPrice;
  let file :=
    file ++ [bondFirst +:+ "," +:+ bidStr +:+ "," +:+ to_string size +:+ ",BID"] in
  askStr ← price2string askPrice;
  Returns
    (file ++ [bondFirst +:+ "," +:+ askStr +:+ "," +:+ to_string size
              +:+ ",OFFER"]).

(** [GenerateMarketData]: the body of the loop over [i]; the state is the
    price, the direction and the file. *)
Definition GenerateMarketData_step (bondFirst : string)
    (st : double * bool * list string) : outcome (double * bool * list string) :=
  let '(price, increasing, file) := st in
  file ← for_each (GenerateMarketData_level bondFirst price) file (seqZ 1 5);
  let increasing :=
    if bool_decide (Qc_of_Z 101 - minTick ≤ price)%Qc then false
    else increasing in
  let increasing :=
    if bool_decide (price ≤ Qc_of_Z 99 + minTick)%Qc then true
    else increasing in
  let price := (price + (if increasing then minTick else - minTick))%Qc in
  Returns (price, increasing, file).

(** [GenerateMarketData], with the value of [DATASIZE]. *)
Definition GenerateMarketData (DATASIZE : Z) : outcome (list string) :=
  let orderSize := Z.quot DATASIZE 10 in
  let basePrice := Qc_of_Z 99 in
  for_each
    (λ file entry,
       let bondFirst := entry.2.1 in
       st ← repeat_body (Z.to_nat orderSize)
              (GenerateMarketData_step bondFirst) (basePrice, true, file);
       Returns st.2)
    [] bondMap_entries.

(** [GenerateTrades]: the body of the loop over [i]; the state is the
    number of draws made and the file; [d] is the sequence of the draws of
    the uniform distribution on [0, 1). *)
Definition GenerateTrades_entry (d : nat → double) (bondFirst : string)
    (st : nat * list string) (i : Z) : outcome (nat * list string) :=
  let '(drawn, file) := st in
  let tradeId := bondFirst +:+ "_TRADE" +:+ to_string i in
  let side := if bool_decide (Z.rem i 2 = 0) then "BUY" else "SELL" in
  let quantity := (Z.rem i 5 + 1) * 1000000 in
  m ← double_to_int (d drawn * Qc_of_Z 3)%Qc;
  let _market := Z.rem m 3 + 1 in
  let _book_name := "TRSY" +:+ to_string _market in
  _n ← double_to_int (d (S drawn) * Qc_of_Z 512)%Qc;
  let _price := (Qc_of_Z 99 + minTick * int_to_double _n)%Qc in
  priceStr ← price2string _price;
  Returns
    (S (S drawn),
     file ++ [bondFirst +:+ "," +:+ tradeId +:+ "," +:+ priceStr +:+ ","
              +:+ _book_name +:+ "," +:+ to_string quantity +:+ "," +:+ side]).

(** [GenerateTrades] *)
Definition GenerateTrades (d : nat → double) : outcome (list string) :=
  st ← for_each
         (λ st entry,
            for_each (GenerateTrades_entry d entry.2.1) st (seqZ 0 10))
         (O, []) bondMap_entries;
  Returns st.2.

(** [GenerateInquiries]: the body of the loop over [i]. *)
Definition GenerateInquiries_entry (d : nat → double) (bondFirst : string)
    (st : nat * list string) (i : Z) : outcome (nat * list string) :=
  let '(drawn, file) := st in
  _n ← double_to_int (d drawn * Qc_of_Z 512)%Qc;
  let _price := (Qc_of_Z 99 + minTick * int_to_double _n)%Qc in
  let inquiryId := bondFirst +:+ "_INQ" +:+ to_string i in
  let side := if bool_decide (Z.rem i 2 = 0) then "BUY" else "SELL" in
  let quantity := (Z.rem i 5 + 1) * 1000000 in
  priceStr ← price2string _price;
  Returns
    (S drawn,
     file ++ [inquiryId +:+ "," +:+ bondFirst +:+ "," +:+ side +:+ ","
              +:+ to_string quantity +:+ "," +:+ priceStr +:+ ",RECEIVED"]).

(** [GenerateInquiries] *)
Definition GenerateInquiries (d : nat → double) : outcome (list string) :=
  st ← for_each
         (λ st entry,
            for_each (GenerateInquiries_entry d entry.2.1) st (seqZ 0 10))
         (O, []) bondMap_entries;
  Returns st.2.

(** The state of the loop over [i] of [GeneratePrices]. *)
Record PricesLoop := mkPricesLoop {
  central_price : double;
  up : bool;
  prices_drawn : nat;
  prices_file : list string
}.

(** [GeneratePrices]: the body of the loop over [i]; [d] is the sequence of
    the draws of the Bernoulli distribution. *)
Definition GeneratePrices_step (d : nat → bool) (bondFirst : string)
    (st : PricesLoop) : outcome PricesLoop :=
  let LOW_LIMIT := (Qc_of_Z 99 + minTick * Qc_of_Z 2)%Qc in
  let UPPER_LIMIT := (Qc_of_Z 101 - minTick * Qc_of_Z 2)%Qc in
  let ask := (central_price st + minTick)%Qc in
  let bid := (central_price st - minTick)%Qc in
  let ask := if d (prices_drawn st) then (ask + minTick)%Qc else ask in
  let bid := if d (S (prices_drawn st)) then (bid - minTick)%Qc else bid in
  let central := (central_price st + (if up st then minTick else - minTick))%Qc in
  let up1 := if bool_decide (UPPER_LIMIT ≤ central)%Qc then false else up st in
  let up2 := if bool_decide (central ≤ LOW_LIMIT)%Qc then true else up1 in
  bidStr ← price2string bid;
  askStr ← price2string ask;
  Returns
    (mkPricesLoop central up2 (S (S (prices_drawn st)))
       (prices_file st ++ [bondFirst +:+ "," +:+ bidStr +:+ "," +:+ askStr])).

(** [GeneratePrices], with the value of [DATASIZE]. *)
Definition GeneratePrices (d : nat → bool) (DATASIZE : Z)
    : outcome (list string) :=
  let orderSize := DATASIZE in
  let LOW_LIMIT := (Qc_of_Z 99 + minTick * Qc_of_Z 2)%Qc in
  st ← for_each
         (λ (st : nat * list string) entry,
            st' ← repeat_body (Z.to_nat orderSize)
                    (GeneratePrices_step d entry.2.1)
                    (mkPricesLoop LOW_LIMIT true st.1 st.2);
            Returns (prices_drawn st', prices_file st'))
         (O, []) bondMap_entries;
  Returns st.2.

(** ** pricingservice.hpp: printing a price *)

(** [Price<T>::PrintFunction] *)
Definition Price_PrintFunction {T} `{Product T} (p : Price T)
    : outcome (list string) :=
  let productIdStr := GetProductId (price_product p) in
  midStr ← price2string (GetMid p);
  spreadStr ← price2string (GetBidOfferSpread p);
  Returns [productIdStr; midStr; spreadStr].

(** ** GUIservice.hpp

    The clock is read from outside: [millisec] is the millisecond part of
    the system time when [Publish] runs, and [nowTime] the text of the
    local time.  The file gui.txt is kept as the list of its lines. *)

Definition THROTTLE_MILLISECONDS : Z := 300.

Section GUIService.
Context {T : Type} `{Product T}.

Record GUIService := mkGUIService {
  GUIs : gmap string (Price T);
  gui_listeners : list ListenerRef;
  timeCount : Z
}.

(** The constructor of [GUIService<T>]. *)
Definition GUIService_new : GUIService := mkGUIService ∅ [] 0.

Definition SetTime (svc : GUIService) (_time : Z) : GUIService :=
  mkGUIService (GUIs svc) (gui_listeners svc) _time.

(** [while (currentTime < _time) currentTime += 1000;], the passes of the
    loop bounded by [fuel]. *)
Fixpoint catch_up (fuel : nat) (currentTime _time : Z) : option Z :=
  match fuel with
  | O => None
  | S fuel' =>
      if bool_decide (currentTime < _time)
      then catch_up fuel' (currentTime + 1000) _time
      else Some currentTime
  end.

(** [GUIConnector<T>::Publish]: what the call leaves of the service and of
    the file, and how it ends; [None] when [fuel] does not cover the
    loop. *)
Definition GUI_Publish (fuel : nat) (is_open : bool) (millisec : Z)
    (nowTime : string) (st : GUIService * list string) (_data : Price T)
    : option (outcome unit * (GUIService * list string)) :=
  let _time := timeCount st.1 in
  currentTime ← catch_up fuel millisec _time;
  if bool_decide (THROTTLE_MILLISECONDS ≤ currentTime - _time) then
    let svc := SetTime st.1 currentTime in
    if is_open then
      match Price_PrintFunction _data with
      | Returns fields =>
          Some (Returns (), (svc, st.2 ++ [persisted_line nowTime fields]))
      | Throws e => Some (Throws e, (svc, st.2))
      | Undefined => Some (Undefined, (svc, st.2))
      end
    else Some (Returns (), (svc, st.2))
  else Some (Returns (), st).

(** [GUIService<T>::OnMessage] *)
Definition GUI_OnMessage (fuel : nat) (is_open : bool) (millisec : Z)
    (nowTime : string) (st : GUIService * list string) (_data : Price T)
    : option (outcome unit * (GUIService * list string)) :=
  let product_id := GetProductId (price_product _data) in
  let svc := mkGUIService (<[product_id := _data]> (GUIs st.1))
               (gui_listeners st.1) (timeCount st.1) in
  GUI_Publish fuel is_open millisec nowTime (svc, st.2) _data.

(** [GUIListener<T>::ProcessAdd] *)
Definition GUIListener_ProcessAdd := GUI_OnMessage.
End GUIService.
Arguments GUIService T : clear implicits.

(** * Properties *)

(** ** Helpers on outcomes and maps *)

Lemma subscript_present `{Countable K} {V} (dflt : V) (m : gmap K V) k v :
  m !! k = Some v → subscript dflt m k = (v, m).
Proof. intros Hk. unfold subscript. by rewrite Hk. Qed.

Lemma subscript_absent `{Countable K} {V} (dflt : V) (m : gmap K V) k :
  m !! k = None → subscript dflt m k = (dflt, <[k := dflt]> m).
Proof. intros Hk. unfold subscript. by rewrite Hk. Qed.

Lemma subscript_value `{Countable K} {V} (dflt : V) (m : gmap K V) k :
  (subscript dflt m k).1 = default dflt (m !! k).
Proof. unfold subscript. by destruct (m !! k). Qed.

Lemma fan_out_length {V} (ls : list ListenerRef) (v : V) :
  length (fan_out ls v) = length ls.
Proof. unfold fan_out. by rewrite length_map. Qed.

Lemma fan_out_lookup {V} (ls : list ListenerRef) (v : V) i :
  fan_out ls v !! i = (λ l, ProcessAdd l v) <$> ls !! i.
Proof. unfold fan_out. apply list_lookup_fmap. Qed.

(** ** Best bid and offer *)

(** [best] is the first order of [stack] with the highest price: strictly
    lower prices before it, none higher after it. *)
Definition first_highest (stack : list Order) (best : Order) : Prop :=
  ∃ pre post, stack = pre ++ best :: post
    ∧ Forall (λ o, order_price o < order_price best)%Qc pre
    ∧ Forall (λ o, order_price o ≤ order_price best)%Qc post.

(** [best] is the first order of [stack] with the lowest price. *)
Definition first_lowest (stack : list Order) (best : Order) : Prop :=
  ∃ pre post, stack = pre ++ best :: post
    ∧ Forall (λ o, order_price best < order_price o)%Qc pre
    ∧ Forall (λ o, order_price best ≤ order_price o)%Qc post.

Lemma Qc_not_lt_le (x y : Qc) : ¬ (x < y)%Qc → (y ≤ x)%Qc.
Proof. apply Qcnot_lt_le. Qed.

Lemma highest_bid_split rest : ∀ pre best mid,
  Forall (λ o, order_price o < order_price best)%Qc pre →
  Forall (λ o, order_price o ≤ order_price best)%Qc mid →
  first_highest (pre ++ best :: mid ++ rest)
    (highest_bid best (order_price best) rest).
Proof.
  induction rest as [|cur rest IH]; intros pre best mid Hpre Hmid; simpl.
  - exists pre, mid. by rewrite app_nil_r.
  - case_bool_decide as Hlt.
    + replace (pre ++ best :: mid ++ cur :: rest)
        with ((pre ++ best :: mid) ++ cur :: [] ++ rest)
        by (by rewrite <- app_assoc).
      apply IH; [|constructor].
      apply Forall_app; split; [|constructor].
      * eapply Forall_impl; [exact Hpre|]. intros o Ho. simpl in Ho.
        by eapply Qclt_trans.
      * done.
      * eapply Forall_impl; [exact Hmid|]. intros o Ho. simpl in Ho.
        by eapply Qcle_lt_trans.
    + replace (pre ++ best :: mid ++ cur :: rest)
        with (pre ++ best :: (mid ++ [cur]) ++ rest)
        by (by rewrite <- (app_assoc mid)).
      apply IH; [done|].
      apply Forall_app; split; [done|].
      constructor; [|constructor]. by apply Qc_not_lt_le.
Qed.

Lemma lowest_offer_split rest : ∀ pre best mid,
  Forall (λ o, order_price best < order_price o)%Qc pre →
  Forall (λ o, order_price best ≤ order_price o)%Qc mid →
  first_lowest (pre ++ best :: mid ++ rest)
    (lowest_offer best (order_price best) rest).
Proof.
  induction rest as [|cur rest IH]; intros pre best mid Hpre Hmid; simpl.
  - exists pre, mid. by rewrite app_nil_r.
  - case_bool_decide as Hlt.
    + replace (pre ++ best :: mid ++ cur :: rest)
        with ((pre ++ best :: mid) ++ cur :: [] ++ rest)
        by (by rewrite <- app_assoc).
      apply IH; [|constructor].
      apply Forall_app; split; [|constructor].
      * eapply Forall_impl; [exact Hpre|]. intros o Ho. simpl in Ho.
        by eapply Qclt_trans.
      * done.
      * eapply Forall_impl; [exact Hmid|]. intros o Ho. simpl in Ho.
        by eapply Qclt_le_trans.
    + replace (pre ++ best :: mid ++ cur :: rest)
        with (pre ++ best :: (mid ++ [cur]) ++ rest)
        by (by rewrite <- (app_assoc mid)).
      apply IH; [done|].
      apply Forall_app; split; [done|].
      constructor; [|constructor]. by apply Qc_not_lt_le.
Qed.

Lemma first_highest_max stack best o :
  first_highest stack best → o ∈ stack →
  (order_price o ≤ order_price best)%Qc.
Proof.
  intros (pre & post & -> & Hpre & Hpost) Ho.
  apply elem_of_app in Ho as [Ho|Ho].
  - apply Qclt_le_weak. by eapply (proj1 (Forall_forall _ _) Hpre).
  - apply elem_of_cons in Ho as [->|Ho]; [apply Qcle_refl|].
    by eapply (proj1 (Forall_forall _ _) Hpost).
Qed.

Lemma first_lowest_min stack best o :
  first_lowest stack best → o ∈ stack →
  (order_price best ≤ order_price o)%Qc.
Proof.
  intros (pre & post & -> & Hpre & Hpost) Ho.
  apply elem_of_app in Ho as [Ho|Ho].
  - apply Qclt_le_weak. by eapply (proj1 (Forall_forall _ _) Hpre).
  - apply elem_of_cons in Ho as [->|Ho]; [apply Qcle_refl|].
    by eapply (proj1 (Forall_forall _ _) Hpost).
Qed.

Lemma first_highest_elem stack best : first_highest stack best → best ∈ stack.
Proof. intros (pre & post & -> & _). set_solver. Qed.

Lemma first_lowest_elem stack best : first_lowest stack best → best ∈ stack.
Proof. intros (pre & post & -> & _). set_solver. Qed.

Lemma GetBidOffer_nonempty {T} (book : OrderBook T) :
  GetBidStack book ≠ [] → GetOfferStack book ≠ [] →
  ∃ bo, GetBidOffer book = Returns bo
    ∧ first_highest (GetBidStack book) (GetBidOrder bo)
    ∧ first_lowest (GetOfferStack book) (GetOfferOrder bo).
Proof.
  intros Hb Ho. unfold GetBidOffer.
  destruct (GetBidStack book) as [|bid0 bids]; [done|].
  destruct (GetOfferStack book) as [|offer0 offers]; [done|].
  eexists; split; [done|]. simpl. split.
  - apply (highest_bid_split bids [] bid0 []); constructor.
  - apply (lowest_offer_split offers [] offer0 []); constructor.
Qed.

Lemma GetBidOffer_never_throws {T} (book : OrderBook T) e :
  GetBidOffer book ≠ Throws e.
Proof.
  unfold GetBidOffer.
  destruct (GetBidStack book); [done|]. by destruct (GetOfferStack book).
Qed.

(** A book for the examples: three bids, two at the highest price, and
    three offers, two at the lowest price. *)
Definition US2Y : Bond := mkBond "912828V23" "US2Y".
Definition US3Y : Bond := mkBond "912828W22" "US3Y".

Definition example_book : OrderBook Bond :=
  mkOrderBook US2Y
    [ mkOrder (Qc_of_Z 99) 10 BID; mkOrder (Qc_of_Z 100) 20 BID;
      mkOrder (Qc_of_Z 100) 30 BID ]
    [ mkOrder (Qc_of_Z 102) 40 OFFER; mkOrder (Qc_of_Z 101) 50 OFFER;
      mkOrder (Qc_of_Z 101) 60 OFFER ].

Definition example_market : MarketDataService Bond :=
  mkMarketDataService {[ "912828V23" := example_book ]} [] 10.

Example GetBidOffer_example :
  GetBidOffer example_book
  = Returns (mkBidOffer (mkOrder (Qc_of_Z 100) 20 BID)
                        (mkOrder (Qc_of_Z 101) 50 OFFER)).
Proof. reflexivity. Qed.

(** C2.  When both stacks of the book stored for a product are non-empty,
    [GetBidOffer], and [GetBestBidOffer] through it, return a bid and an
    offer of the book such that no bid has a higher price and no offer a
    lower one; among the orders at that extreme price each is the first of
    its stack (strictly worse prices before it). *)
Theorem GetBestBidOffer_first_extreme {T} `{Product T}
    (svc : MarketDataService T) (productId : string) (book : OrderBook T) :
  orderBooks svc !! productId = Some book →
  GetBidStack book ≠ [] → GetOfferStack book ≠ [] →
  ∃ bo, GetBidOffer book = Returns bo
    ∧ (GetBestBidOffer svc productId).1 = Returns bo
    ∧ GetBidOrder bo ∈ GetBidStack book
    ∧ GetOfferOrder bo ∈ GetOfferStack book
    ∧ (∀ o, o ∈ GetBidStack book →
         (order_price o ≤ order_price (GetBidOrder bo))%Qc)
    ∧ (∀ o, o ∈ GetOfferStack book →
         (order_price (GetOfferOrder bo) ≤ order_price o)%Qc)
    ∧ first_highest (GetBidStack book) (GetBidOrder bo)
    ∧ first_lowest (GetOfferStack book) (GetOfferOrder bo).
Proof.
  intros Hbook Hb Ho.
  destruct (GetBidOffer_nonempty book Hb Ho) as (bo & Hbo & Hhi & Hlo).
  exists bo. split; [done|]. split.
  { unfold GetBestBidOffer.
    by rewrite (subscript_present _ _ _ _ Hbook). }
  split; [by eapply first_highest_elem|].
  split; [by eapply first_lowest_elem|].
  split; [intros o; by apply first_highest_max|].
  split; [intros o; by apply first_lowest_min|].
  done.
Qed.

Lemma GetBestBidOffer_first_extreme_witness :
  ∃ bo, GetBidOffer example_book = Returns bo
    ∧ (GetBestBidOffer example_market "912828V23").1 = Returns bo
    ∧ GetBidOrder bo ∈ GetBidStack example_book
    ∧ GetOfferOrder bo ∈ GetOfferStack example_book
    ∧ (∀ o, o ∈ GetBidStack example_book →
         (order_price o ≤ order_price (GetBidOrder bo))%Qc)
    ∧ (∀ o, o ∈ GetOfferStack example_book →
         (order_price (GetOfferOrder bo) ≤ order_price o)%Qc)
    ∧ first_highest (GetBidStack example_book) (GetBidOrder bo)
    ∧ first_lowest (GetOfferStack example_book) (GetOfferOrder bo).
Proof.
  apply (GetBestBidOffer_first_extreme example_market "912828V23" example_book).
  - reflexivity.
  - simpl. discriminate.
  - simpl. discriminate.
Defined.

(** ** Empty stacks *)

Definition empty_book : OrderBook Bond := mkOrderBook US2Y [] [].

(** C3, as stated, fails: on a book without orders the query raises no
    error. *)
Lemma GetBidOffer_empty_raises_nothing :
  (GetBidStack empty_book = [] ∨ GetOfferStack empty_book = [])
  ∧ ¬ ∃ e, GetBidOffer empty_book = Throws e.
Proof. split; [by left|]. intros [e He]. discriminate He. Qed.

(** C3, amended.  When the bid stack or the offer stack is empty,
    [GetBidOffer] reads element 0 of an empty vector without a check: the
    call has no defined result and raises no error, and so does
    [GetBestBidOffer] for a product whose stored book is such, or for which
    no book is stored. *)
Theorem GetBidOffer_empty_undefined {T} `{Product T}
    (svc : MarketDataService T) (productId : string) (book : OrderBook T) :
  GetBidStack book = [] ∨ GetOfferStack book = [] →
  GetBidOffer book = Undefined
  ∧ (∀ e, GetBidOffer book ≠ Throws e)
  ∧ (orderBooks svc !! productId = Some book ∨ orderBooks svc !! productId = None →
     (GetBestBidOffer svc productId).1 = Undefined).
Proof.
  intros Hempty.
  assert (GetBidOffer book = Undefined) as Hundef.
  { unfold GetBidOffer. destruct Hempty as [-> | Ho]; [done|].
    rewrite Ho. by destruct (GetBidStack book). }
  split; [done|]. split; [intros e; apply GetBidOffer_never_throws|].
  intros [Hsome|Hnone]; unfold GetBestBidOffer.
  - by rewrite (subscript_present _ _ _ _ Hsome).
  - by rewrite (subscript_absent _ _ _ Hnone).
Qed.

Lemma GetBidOffer_empty_undefined_witness :
  GetBidOffer empty_book = Undefined
  ∧ (∀ e, GetBidOffer empty_book ≠ Throws e)
  ∧ (orderBooks example_market !! "912828W22" = Some empty_book
     ∨ orderBooks example_market !! "912828W22" = None →
     (GetBestBidOffer example_market "912828W22").1 = Undefined).
Proof.
  apply (GetBidOffer_empty_undefined example_market "912828W22" empty_book).
  left. reflexivity.
Defined.

(** ** Rounding to double precision *)

(** The rounding on values whose binary64 form is well known: 1/10 and 1/3,
    the [long]s around 2^53, the smallest subnormal number and half of it,
    a tie that goes to the even neighbour 0. *)
Example binary64_values :
  binary64 (Q2Qc (1 # 10)) = Q2Qc (3602879701896397 # 36028797018963968)
  ∧ binary64 (Q2Qc (1 # 3)) = Q2Qc (6004799503160661 # 18014398509481984)
  ∧ binary64 (Q2Qc (-1 # 10)) = Q2Qc (-3602879701896397 # 36028797018963968)
  ∧ long_to_double 9007199254740993 = Qc_of_Z 9007199254740992
  ∧ long_to_double 9007199254740995 = Qc_of_Z 9007199254740996
  ∧ long_to_double (-9007199254740993) = Qc_of_Z (-9007199254740992)
  ∧ binary64 (1 / Qc_of_Z (2 ^ 1074))%Qc = (1 / Qc_of_Z (2 ^ 1074))%Qc
  ∧ binary64 (1 / Qc_of_Z (2 ^ 1075))%Qc = 0%Qc
  ∧ binary64 (Qc_of_Z 3 / Qc_of_Z (2 ^ 1075))%Qc
    = (Qc_of_Z 2 / Qc_of_Z (2 ^ 1074))%Qc.
Proof. repeat split; apply Qc_is_canon; by vm_compute. Qed.

Lemma binary_exponent_lower (x : Q) : (0 < x → 2 ^ binary_exponent x <= x)%Q.
Proof.
  intros Hx. unfold binary_exponent.
  destruct (Qcompare_spec 1 x) as [Hone|Hone|Hone].
  - rewrite <- Hone. by vm_compute.
  - assert (1 ≤ Qfloor x) as Hfloor
      by (change 1 with (Qfloor 1); apply Qfloor_resp_le, Qlt_le_weak, Hone).
    destruct (Z.log2_spec (Qfloor x)) as [Hlow _]; [lia|].
    apply Qle_trans with (inject_Z (Qfloor x)); [|apply Qfloor_le].
    change 2%Q with (inject_Z 2).
    rewrite <- Zpower_Qpower by apply Z.log2_nonneg.
    by rewrite <- Zle_Qle.
  - assert (1 < / x)%Q as Hinv.
    { assert (1 / x == / x)%Q as <- by (unfold Qdiv; apply Qmult_1_l).
      apply Qlt_shift_div_l; [done|]. by rewrite Qmult_1_l. }
    assert (2 ≤ Qceiling (/ x)) as Hceil.
    { pose proof (Qle_ceiling (/ x)) as Hle.
      assert (inject_Z 1 < inject_Z (Qceiling (/ x)))%Q as Hlt
        by (eapply Qlt_le_trans; [exact Hinv|exact Hle]).
      rewrite <- Zlt_Qlt in Hlt. lia. }
    destruct (Z.log2_up_spec (Qceiling (/ x))) as [_ Hup]; [lia|].
    rewrite Qpower_opp.
    apply Qle_shift_inv_r; [by apply Qpower_0_lt|].
    assert (/ x <= 2 ^ Z.log2_up (Qceiling (/ x)))%Q as Hbound.
    { apply Qle_trans with (inject_Z (Qceiling (/ x))); [apply Qle_ceiling|].
      change 2%Q with (inject_Z 2).
      rewrite <- Zpower_Qpower by apply Z.log2_up_nonneg.
      by rewrite <- Zle_Qle. }
    assert (1 == x * / x)%Q as -> by (field; by apply Qnot_eq_sym, Qlt_not_eq).
    apply Qmult_le_l; done.
Qed.

Lemma nearest_even_Z (x : Q) (n : Z) : (x == inject_Z n)%Q → nearest_even x = n.
Proof.
  intros Hx. unfold nearest_even.
  assert (Qfloor x = n) as -> by (rewrite (Qfloor_comp _ _ Hx); apply Qfloor_Z).
  assert (x - inject_Z n == 0)%Q as -> by (rewrite Hx; ring).
  done.
Qed.

Lemma binary64_pos_exact (x : Q) (m k : Z) :
  0 < m < 2 ^ 53 → -1074 ≤ k → (x == inject_Z m * 2 ^ k)%Q →
  (binary64_pos x == x)%Q.
Proof.
  intros Hm Hk Hx.
  assert (0 < 2 ^ k)%Q as Hpow by (by apply Qpower_0_lt).
  assert (0 < x)%Q as Hpos.
  { rewrite Hx. apply Qmult_lt_0_compat; [|done].
    change 0%Q with (inject_Z 0). rewrite <- Zlt_Qlt. lia. }
  assert (binary_exponent x < 53 + k) as Hexp.
  { apply (Qpower_lt_compat_l_inv 2); [|done].
    eapply Qle_lt_trans; [by apply binary_exponent_lower|].
    rewrite Hx, Qpower_plus by done.
    apply Qmult_lt_compat_r; [done|].
    rewrite <- (Zpower_Qpower 2 53) by done. rewrite <- Zlt_Qlt. lia. }
  unfold binary64_pos.
  set (q := Z.max (binary_exponent x) (-1022) - 52).
  assert (q ≤ k) as Hq by lia.
  assert (x == inject_Z (m * 2 ^ (k - q)) * 2 ^ q)%Q as Hscaled.
  { rewrite Hx, inject_Z_mult, Zpower_Qpower by lia.
    change (inject_Z 2) with 2%Q.
    replace k with ((k - q) + q) at 1 by lia.
    rewrite Qpower_plus by done. ring. }
  rewrite (nearest_even_Z _ (m * 2 ^ (k - q))); [by symmetry|].
  rewrite Hscaled at 1. field.
  apply Qpower_not_0. done.
Qed.

Lemma scaled_sign (m k : Z) : (0 < inject_Z m * 2 ^ k)%Q → 0 < m.
Proof.
  intros Hpos. destruct (Z_lt_le_dec 0 m) as [|Hm]; [done|]. exfalso.
  apply (Qlt_not_le _ _ Hpos).
  assert (inject_Z m * 2 ^ k == - (inject_Z (- m) * 2 ^ k))%Q as ->
    by (rewrite inject_Z_opp; ring).
  change 0%Q with (- 0)%Q. apply Qopp_le_compat.
  apply Qmult_le_0_compat; [|by apply Qpower_0_le].
  change 0%Q with (inject_Z 0). rewrite <- Zle_Qle. lia.
Qed.

(** A rational with at most 53 significant bits, not below the subnormal
    grid, is a [double]: rounding leaves it as it is. *)
Lemma binary64_exact (x : Qc) (m k : Z) :
  Z.abs m < 2 ^ 53 → -1074 ≤ k → (x == inject_Z m * 2 ^ k)%Q →
  binary64 x = x.
Proof.
  intros Hm Hk Hx. unfold binary64.
  destruct (Qcompare_spec 0 x) as [Hzero|Hpos|Hneg].
  - by apply Qc_is_canon.
  - apply Qc_is_canon. change (Qred (binary64_pos x) == x)%Q.
    rewrite Qred_correct.
    apply (binary64_pos_exact x m k); [|done|done].
    rewrite Hx in Hpos. apply scaled_sign in Hpos. lia.
  - apply Qc_is_canon. change (Qred (- binary64_pos (- x)) == x)%Q.
    rewrite Qred_correct.
    assert (- x == inject_Z (- m) * 2 ^ k)%Q as Hopp
      by (rewrite Hx, inject_Z_opp; ring).
    rewrite (binary64_pos_exact (- x) (- m) k); [ring| |done|done].
    assert (0 < - x)%Q as Hpos.
    { change 0%Q with (- 0)%Q. by apply Qopp_lt_compat. }
    rewrite Hopp in Hpos. apply scaled_sign in Hpos. lia.
Qed.

Lemma trunc_int_to_double n : trunc (int_to_double n) = n.
Proof.
  unfold trunc, int_to_double. case_bool_decide.
  - apply Qfloor_Z.
  - apply Qceiling_Z.
Qed.

(** A quantity of at most [2 ^ 53] in magnitude goes through [double]
    unchanged. *)
Lemma long_to_double_exact (n : Z) :
  Z.abs n ≤ 9007199254740992 →
  long_to_double n = Qc_of_Z n
  ∧ double_to_long (long_to_double n) = Returns n.
Proof.
  intros Hn.
  assert (long_to_double n = Qc_of_Z n) as Hexact.
  { unfold long_to_double.
    destruct (decide (Z.abs n = 9007199254740992)) as [Hmax|Hless].
    - destruct (Z.abs_spec n) as [[_ Habs]|[_ Habs]].
      + replace n with 9007199254740992 by lia.
        apply Qc_is_canon. by vm_compute.
      + replace n with (-9007199254740992) by lia.
        apply Qc_is_canon. by vm_compute.
    - apply (binary64_exact _ n 0); [|done|].
      + change (2 ^ 53) with 9007199254740992. lia.
      + simpl. unfold Qeq. simpl. lia. }
  split; [done|]. rewrite Hexact. unfold double_to_long.
  change (trunc (Qc_of_Z n)) with (trunc (int_to_double n)).
  rewrite trunc_int_to_double. rewrite bool_decide_eq_true_2; [done|].
  change LONG_MIN with (-9223372036854775808).
  change LONG_MAX with 9223372036854775807. lia.
Qed.

(** The difference of two multiples of 1/256 that are less than [2 ^ 45]
    apart is computed exactly. *)
Lemma fsub_256ths (ja jb : Z) :
  Z.abs (ja - jb) < 9007199254740992 →
  fsub (Q2Qc (ja # 256)) (Q2Qc (jb # 256))
  = (Q2Qc (ja # 256) - Q2Qc (jb # 256))%Qc.
Proof.
  intros Hdiff. unfold fsub.
  apply (binary64_exact _ (ja - jb) (-8)); [done|done|].
  simpl. rewrite !Qred_correct. unfold Qeq. simpl.
  rewrite ?Pos2Z.inj_mul. lia.
Qed.

(** ** Algo execution *)

Lemma fan_out_fmap {V} (ls : list ListenerRef) (v : V) :
  fan_out ls v = (λ l, ProcessAdd l v) <$> ls.
Proof. unfold fan_out. induction ls as [|l ls IH]; [done|]. simpl. by rewrite IH. Qed.

Lemma fan_out_each {V} (ls : list ListenerRef) (xs : list V) :
  mjoin (fan_out ls <$> xs)
  = mjoin ((λ x, (λ l, ProcessAdd l x) <$> ls) <$> xs).
Proof.
  induction xs as [|x xs IH]; [done|].
  cbn [fmap list_fmap]. change (mjoin (?y :: ?rest)) with (y ++ mjoin rest).
  cbn [fmap list_fmap] in IH. by rewrite IH, fan_out_fmap.
Qed.

Lemma rem2_odd n : 0 ≤ n → (Z.rem n 2 = 1 ↔ Z.odd n = true).
Proof.
  intros Hn. rewrite Z.rem_mod_nonneg by lia. rewrite Zmod_odd.
  destruct (Z.odd n); split; intros; done.
Qed.

(** The order [AlgoExecutionTrade] synthesises when the counter is [count]
    at the call. *)
Definition algo_order {T} (book : OrderBook T) (bo : BidOffer) (count : Z)
    : ExecutionOrder T :=
  let chosen := if Z.odd count then GetBidOrder bo else GetOfferOrder bo in
  mkExecutionOrder (book_product book)
    (if Z.odd count then BID else OFFER)
    ("AlgoExec" +:+ to_string (count + 1)) MARKET
    (order_price chosen) (order_quantity chosen) 0 "PARENT_ORDER_ID" false.

(** The spread as [AlgoExecutionTrade] computes it, in double precision. *)
Definition spread (bo : BidOffer) : Qc :=
  fsub (order_price (GetOfferOrder bo)) (order_price (GetBidOrder bo)).

Lemma new_AlgoExecution_exact {T} (prod : T) (ps : PricingSide) (oid : string)
    (ot : OrderType) (pr : double) (visQty : long) (parentOid : string)
    (childFlag : bool) :
  Z.abs visQty ≤ 9007199254740992 →
  new_AlgoExecution prod ps oid ot pr visQty 0 parentOid childFlag
  = Returns (mkAlgoExecution
               (mkExecutionOrder prod ps oid ot pr visQty 0 parentOid childFlag)).
Proof.
  intros Hqty. unfold new_AlgoExecution, new_ExecutionOrder.
  destruct (long_to_double_exact visQty Hqty) as [_ ->].
  destruct (long_to_double_exact 0) as [_ ->]; [simpl; lia|].
  done.
Qed.

Lemma AlgoExecutionTrade_crossing {T} `{Product T}
    (svc : AlgoExecutionService T) (book : OrderBook T) (bo : BidOffer) :
  GetBidOffer book = Returns bo → 0 ≤ executionCount svc →
  (spread bo ≤ 1 / Qc_of_Z 128)%Qc →
  Z.abs (order_quantity (if Z.odd (executionCount svc)
                         then GetBidOrder bo else GetOfferOrder bo))
  ≤ 9007199254740992 →
  AlgoExecutionTrade svc book
  = Returns
      (mkAlgoExecutionService
         (<[GetProductId (book_product book) :=
              mkAlgoExecution (algo_order book bo (executionCount svc))]>
            (algoExecutions svc))
         (ae_listeners svc) (executionCount svc + 1),
       fan_out (ae_listeners svc)
         (mkAlgoExecution (algo_order book bo (executionCount svc)))).
Proof.
  intros Hbo Hcount Hspread Hqty. unfold AlgoExecutionTrade. rewrite Hbo.
  cbn [fmap outcome_fmap mbind outcome_bind].
  unfold spread in Hspread. rewrite bool_decide_eq_true_2 by done.
  unfold algo_order.
  case_bool_decide as Hodd.
  - apply rem2_odd in Hodd; [|done]. rewrite Hodd in *.
    by rewrite new_AlgoExecution_exact.
  - destruct (Z.odd (executionCount svc)) eqn:Hpar.
    + apply rem2_odd in Hpar; done.
    + by rewrite new_AlgoExecution_exact.
Qed.

Lemma AlgoExecutionTrade_wide {T} `{Product T}
    (svc : AlgoExecutionService T) (book : OrderBook T) (bo : BidOffer) :
  GetBidOffer book = Returns bo →
  (1 / Qc_of_Z 128 < spread bo)%Qc →
  AlgoExecutionTrade svc book = Returns (svc, []).
Proof.
  intros Hbo Hspread. unfold AlgoExecutionTrade. rewrite Hbo.
  cbn [fmap outcome_fmap mbind outcome_bind].
  rewrite bool_decide_eq_false_2; [done|].
  unfold spread in Hspread. by apply Qclt_not_le.
Qed.

(** The counter never goes below the 0 it starts from. *)
Lemma AlgoExecutionTrade_count_nonneg {T} `{Product T}
    (svc svc' : AlgoExecutionService T) (book : OrderBook T) calls :
  0 ≤ executionCount svc →
  AlgoExecutionTrade svc book = Returns (svc', calls) →
  0 ≤ executionCount svc'.
Proof.
  intros Hcount. unfold AlgoExecutionTrade.
  destruct (GetBidOffer book) as [bo| |]; cbn [fmap outcome_fmap mbind outcome_bind];
    [|done|done].
  case_bool_decide; [|intros [= <- _]; lia].
  destruct (if bool_decide (Z.rem (executionCount svc) 2 = 1)
            then (order_price (GetBidOrder bo), order_quantity (GetBidOrder bo), BID)
            else (order_price (GetOfferOrder bo),
                  order_quantity (GetOfferOrder bo), OFFER))
    as [[chosenPrice chosenQty] chosenSide].
  destruct (new_AlgoExecution _ _ _ _ _ _ _ _ _) as [algoExec| |];
    cbn [mbind outcome_bind]; [|done|done].
  intros [= <- _]. simpl. lia.
Qed.

(** A snapshot with a spread of exactly 1/128, and one with a spread of
    1/64. *)
Definition tight_book : OrderBook Bond :=
  mkOrderBook US2Y
    [ mkOrder (Qc_of_Z 100) 1000000 BID ]
    [ mkOrder (Qc_of_Z 100 + 1 / Qc_of_Z 128)%Qc 2000000 OFFER ].

Definition wide_book : OrderBook Bond :=
  mkOrderBook US2Y
    [ mkOrder (Qc_of_Z 100) 1000000 BID ]
    [ mkOrder (Qc_of_Z 100 + 1 / Qc_of_Z 64)%Qc 2000000 OFFER ].

Definition algo_service (count : Z) : AlgoExecutionService Bond :=
  mkAlgoExecutionService ∅ [7%nat; 8%nat] count.

Example AlgoExecutionTrade_first :
  let order :=
    mkAlgoExecution
      (mkExecutionOrder US2Y OFFER "AlgoExec1" MARKET
         (Qc_of_Z 100 + 1 / Qc_of_Z 128)%Qc 2000000 0 "PARENT_ORDER_ID" false) in
  AlgoExecutionTrade (algo_service 0) tight_book
  = Returns (mkAlgoExecutionService {[ "912828V23" := order ]} [7%nat; 8%nat] 1,
             [ProcessAdd 7%nat order; ProcessAdd 8%nat order]).
Proof. by vm_compute. Qed.

Example AlgoExecutionTrade_second :
  let order :=
    mkAlgoExecution
      (mkExecutionOrder US2Y BID "AlgoExec2" MARKET (Qc_of_Z 100) 1000000 0
         "PARENT_ORDER_ID" false) in
  AlgoExecutionTrade (algo_service 1) tight_book
  = Returns (mkAlgoExecutionService {[ "912828V23" := order ]} [7%nat; 8%nat] 2,
             [ProcessAdd 7%nat order; ProcessAdd 8%nat order]).
Proof. by vm_compute. Qed.

Example AlgoExecutionTrade_filtered :
  AlgoExecutionTrade (algo_service 1) wide_book = Returns (algo_service 1, []).
Proof. by vm_compute. Qed.






(** ** Trade booking *)

Lemma marketBooks_round_robin n :
  0 ≤ n → ∃ book, marketBooks !! Z.to_nat (Z.rem n 3) = Some book.
Proof.
  intros Hn. apply lookup_lt_is_Some_2.
  pose proof (Z.rem_bound_pos n 3 Hn). simpl. lia.
Qed.

(** The trade booked for an order when the counter, already advanced, is
    [count]. *)
Definition booked_trade {T} (execOrder : ExecutionOrder T) (book : string)
    : Trade T :=
  mkTrade (eo_product execOrder) (GetOrderId execOrder) (eo_price execOrder)
    book (GetVisibleQuantity execOrder + GetHiddenQuantity execOrder)
    match GetPricingSide execOrder with BID => SELL | OFFER => BUY end.

Definition booking_service : TradeBookingService Bond :=
  mkTradeBookingService ∅ [3%nat; 4%nat].

Definition bid_order : ExecutionOrder Bond :=
  mkExecutionOrder US2Y BID "AlgoExec2" MARKET (Qc_of_Z 100) 1000000 500000
    "PARENT_ORDER_ID" false.

Example ProcessAdd_first_order :
  let trade := mkTrade US2Y "AlgoExec2" (Qc_of_Z 100) "TRSY2" 1500000 SELL in
  TradeBookingServiceListener_ProcessAdd 0 booking_service bid_order
  = Returns (1, mkTradeBookingService {[ "AlgoExec2" := trade ]} [3%nat; 4%nat],
             [ProcessAdd 3%nat trade; ProcessAdd 4%nat trade;
              ProcessAdd 3%nat trade; ProcessAdd 4%nat trade]).
Proof. reflexivity. Qed.

(** C10.  [ProcessAdd] advances the listener's counter (never negative)
    and books one trade for the order: SELL for a BID order and BUY for an
    OFFER order, with the order's product, id and price, the sum of its
    visible and hidden quantities, and the book of [TRSY1; TRSY2; TRSY3] at
    index (advanced counter) mod 3.  The trade is stored under its id and
    passed to every listener of the booking service twice, each time in
    registration order: once to each of them by [OnMessage], then once to
    each of them again by [BookTrade]. *)
Theorem ProcessAdd_books_trade_twice {T} (bookedCount : Z)
    (svc : TradeBookingService T) (execOrder : ExecutionOrder T) :
  0 ≤ bookedCount →
  ∃ book,
    ["TRSY1"; "TRSY2"; "TRSY3"] !! Z.to_nat ((bookedCount + 1) `mod` 3)
    = Some book
    ∧ let trade :=
        mkTrade (eo_product execOrder) (GetOrderId execOrder)
          (eo_price execOrder) book
          (GetVisibleQuantity execOrder + GetHiddenQuantity execOrder)
          match GetPricingSide execOrder with BID => SELL | OFFER => BUY end in
      let delivery := (λ l, ProcessAdd l trade) <$> tb_listeners svc in
      let stored :=
        mkTradeBookingService
          (<[GetOrderId execOrder := trade]> (trades svc)) (tb_listeners svc) in
      TradeBooking_OnMessage svc trade = (stored, delivery)
      ∧ BookTrade stored trade = (stored, delivery)
      ∧ TradeBookingServiceListener_ProcessAdd bookedCount svc execOrder
        = Returns (bookedCount + 1, stored, delivery ++ delivery).
Proof.
  intros Hcount.
  destruct (marketBooks_round_robin (bookedCount + 1)) as [book Hbook]; [lia|].
  exists book.
  split. { rewrite <- Z.rem_mod_nonneg by lia. exact Hbook. }
  intros trade delivery stored.
  assert (TradeBooking_OnMessage svc trade = (stored, delivery)) as Hmessage.
  { unfold TradeBooking_OnMessage. by rewrite fan_out_fmap. }
  assert (BookTrade stored trade = (stored, delivery)) as Hbooked.
  { unfold BookTrade. by rewrite fan_out_fmap. }
  split; [done|]. split; [done|].
  unfold TradeBookingServiceListener_ProcessAdd.
  pose proof (Z.rem_bound_pos (bookedCount + 1) 3) as Hrem.
  rewrite bool_decide_eq_false_2 by lia. rewrite Hbook.
  fold trade. by rewrite Hmessage, Hbooked.
Qed.

Lemma ProcessAdd_books_trade_twice_witness :
  ∃ book,
    ["TRSY1"; "TRSY2"; "TRSY3"] !! Z.to_nat ((0 + 1) `mod` 3) = Some book
    ∧ let trade :=
        mkTrade (eo_product bid_order) (GetOrderId bid_order)
          (eo_price bid_order) book
          (GetVisibleQuantity bid_order + GetHiddenQuantity bid_order)
          match GetPricingSide bid_order with BID => SELL | OFFER => BUY end in
      let delivery :=
        (λ l, ProcessAdd l trade) <$> tb_listeners booking_service in
      let stored :=
        mkTradeBookingService
          (<[GetOrderId bid_order := trade]> (trades booking_service))
          (tb_listeners booking_service) in
      TradeBooking_OnMessage booking_service trade = (stored, delivery)
      ∧ BookTrade stored trade = (stored, delivery)
      ∧ TradeBookingServiceListener_ProcessAdd 0 booking_service bid_order
        = Returns (0 + 1, stored, delivery ++ delivery).
Proof.
  apply (ProcessAdd_books_trade_twice 0 booking_service bid_order). lia.
Defined.

(** ** Positions *)

(** Sum of the quantities of a book map, as [GetAggregatePosition] computes
    it. *)
Definition sum_books (m : gmap string Z) : Z :=
  map_fold (λ _ qty total, total + qty) 0 m.

Lemma sum_books_insert_fresh m book qty :
  m !! book = None → sum_books (<[book := qty]> m) = sum_books m + qty.
Proof.
  intros Hfresh. unfold sum_books.
  rewrite map_fold_insert_L; [done| |done]. intros; lia.
Qed.

Lemma sum_books_insert m book qty :
  sum_books (<[book := qty]> m) = sum_books m - default 0 (m !! book) + qty.
Proof.
  destruct (m !! book) as [old|] eqn:Hold; simpl.
  - rewrite <- (insert_delete_eq m).
    rewrite <- (insert_delete_id m book old) at 2 by done.
    rewrite !sum_books_insert_fresh by apply lookup_delete_eq. lia.
  - rewrite sum_books_insert_fresh by done. lia.
Qed.

Lemma aggregate_AddPosition {T} (pos : Position T) book qty :
  GetAggregatePosition (Position_AddPosition pos book qty)
  = GetAggregatePosition pos + qty.
Proof.
  unfold GetAggregatePosition, Position_AddPosition. simpl.
  fold (sum_books (GetPositions pos)).
  fold (sum_books (<[book:=default 0 (GetPositions pos !! book) + qty]>
                     (GetPositions pos))).
  rewrite sum_books_insert. lia.
Qed.

Lemma GetPosition_AddPosition {T} (pos : Position T) book qty book' :
  GetPosition (Position_AddPosition pos book qty) book'
  = GetPosition pos book' + (if decide (book = book') then qty else 0).
Proof.
  unfold GetPosition, Position_AddPosition. simpl.
  case_decide as Hb.
  - subst. by rewrite lookup_insert_eq.
  - rewrite lookup_insert_ne by done. lia.
Qed.

(** The merge loop of [AddTrade]: every book of the old position is added
    to the new one. *)
Definition merge_positions {T} (newPosition : Position T)
    (oldMap : gmap string Z) : Position T :=
  map_fold (λ book qty pos, Position_AddPosition pos book qty)
    newPosition oldMap.

Lemma merge_positions_aggregate {T} (newPosition : Position T) oldMap :
  GetAggregatePosition (merge_positions newPosition oldMap)
  = GetAggregatePosition newPosition + sum_books oldMap.
Proof.
  unfold merge_positions.
  apply (map_fold_weak_ind
           (λ r m, GetAggregatePosition r
                   = GetAggregatePosition newPosition + sum_books m)).
  - unfold sum_books. rewrite map_fold_empty. lia.
  - intros book qty m r Hfresh IHr.
    rewrite aggregate_AddPosition, IHr, sum_books_insert_fresh by done. lia.
Qed.

Lemma merge_positions_book {T} (newPosition : Position T) oldMap book :
  GetPosition (merge_positions newPosition oldMap) book
  = GetPosition newPosition book + default 0 (oldMap !! book).
Proof.
  unfold merge_positions.
  apply (map_fold_weak_ind
           (λ r m, GetPosition r book
                   = GetPosition newPosition book + default 0 (m !! book))).
  - rewrite lookup_empty. simpl. lia.
  - intros b qty m r Hfresh IHr.
    rewrite GetPosition_AddPosition, IHr. case_decide as Hb.
    + subst. rewrite lookup_insert_eq, Hfresh. simpl. lia.
    + rewrite lookup_insert_ne by done. lia.
Qed.

(** The signed quantity of a trade: positive for BUY, negative for SELL. *)
Definition signed_quantity {T} (t : Trade T) : Z :=
  match trade_side t with
  | BUY => trade_quantity t
  | SELL => - trade_quantity t
  end.

(** Sum of the signed quantities of the trades of [feed] on product
    [productId]. *)
Definition traded {T} `{Product T} (productId : string) (feed : list (Trade T))
    : Z :=
  foldr (λ t s,
           if decide (GetProductId (trade_product t) = productId)
           then signed_quantity t + s else s) 0 feed.

(** The same, restricted to one book. *)
Definition traded_in_book {T} `{Product T} (productId book : string)
    (feed : list (Trade T)) : Z :=
  foldr (λ t s,
           if decide (GetProductId (trade_product t) = productId
                      ∧ GetBook t = book)
           then signed_quantity t + s else s) 0 feed.

(** The position the service holds for a product, as [GetData] returns it. *)
Definition position_of {T} `{Product T} (svc : PositionService T)
    (productId : string) : Position T :=
  default Position_default (positions svc !! productId).

Lemma AddTrade_position_of {T} `{Product T} (svc : PositionService T)
    (t : Trade T) productId :
  position_of (AddTrade svc t).1 productId
  = if decide (GetProductId (trade_product t) = productId)
    then merge_positions
           (Position_AddPosition (new_Position (trade_product t)) (GetBook t)
              (signed_quantity t))
           (GetPositions (position_of svc productId))
    else position_of svc productId.
Proof.
  unfold position_of, AddTrade, signed_quantity, merge_positions, subscript.
  destruct (positions svc !! GetProductId (trade_product t)) as [old|] eqn:Hold;
    simpl; case_decide as Hid; subst.
  - rewrite lookup_insert_eq, Hold. simpl. by destruct (trade_side t).
  - by rewrite lookup_insert_ne.
  - rewrite lookup_insert_eq, Hold. simpl. by destruct (trade_side t).
  - by rewrite !lookup_insert_ne.
Qed.

Lemma AddTrade_aggregate {T} `{Product T} (svc : PositionService T)
    (t : Trade T) productId :
  GetAggregatePosition (position_of (AddTrade svc t).1 productId)
  = GetAggregatePosition (position_of svc productId)
    + (if decide (GetProductId (trade_product t) = productId)
       then signed_quantity t else 0).
Proof.
  rewrite AddTrade_position_of. case_decide; [|lia].
  rewrite merge_positions_aggregate, aggregate_AddPosition.
  unfold GetAggregatePosition at 1. simpl. rewrite map_fold_empty.
  unfold GetAggregatePosition, sum_books. lia.
Qed.

Lemma AddTrade_book {T} `{Product T} (svc : PositionService T)
    (t : Trade T) productId book :
  GetPosition (position_of (AddTrade svc t).1 productId) book
  = GetPosition (position_of svc productId) book
    + (if decide (GetProductId (trade_product t) = productId ∧ GetBook t = book)
       then signed_quantity t else 0).
Proof.
  rewrite AddTrade_position_of. case_decide as Hid.
  - rewrite merge_positions_book, GetPosition_AddPosition.
    unfold GetPosition at 1. simpl. rewrite lookup_empty. simpl.
    unfold GetPosition.
    destruct (decide (GetBook t = book)).
    + rewrite decide_True by done. lia.
    + rewrite decide_False by tauto. lia.
  - rewrite decide_False by tauto. lia.
Qed.

Lemma AddTrades_cons {T} `{Product T} (svc : PositionService T) t feed :
  (AddTrades svc (t :: feed)).1 = (AddTrades (AddTrade svc t).1 feed).1.
Proof.
  unfold AddTrades. simpl. destruct (AddTrade svc t) as [svc1 calls1]. simpl.
  generalize (@nil (Call (Position T))). generalize calls1. clear calls1.
  revert svc1.
  induction feed as [|t' feed IH]; intros svc1 c1 c2; [done|]. simpl.
  destruct (AddTrade svc1 t') as [svc2 calls2]. apply IH.
Qed.

Lemma AddTrades_aggregate {T} `{Product T} (feed : list (Trade T)) :
  ∀ (svc : PositionService T) productId,
  GetAggregatePosition (position_of (AddTrades svc feed).1 productId)
  = GetAggregatePosition (position_of svc productId) + traded productId feed.
Proof.
  induction feed as [|t feed IH]; intros svc productId.
  - simpl. lia.
  - rewrite AddTrades_cons, IH, AddTrade_aggregate. simpl.
    case_decide; lia.
Qed.

Lemma AddTrades_book {T} `{Product T} (feed : list (Trade T)) :
  ∀ (svc : PositionService T) productId book,
  GetPosition (position_of (AddTrades svc feed).1 productId) book
  = GetPosition (position_of svc productId) book
    + traded_in_book productId book feed.
Proof.
  induction feed as [|t feed IH]; intros svc productId book.
  - simpl. lia.
  - rewrite AddTrades_cons, IH, AddTrade_book. simpl.
    case_decide; lia.
Qed.

(** The three trades of the example, on one product. *)
Definition example_trades : list (Trade Bond) :=
  [ mkTrade US2Y "T1" (Qc_of_Z 100) "A" 1000000 BUY;
    mkTrade US2Y "T2" (Qc_of_Z 100) "A" 400000 SELL;
    mkTrade US2Y "T3" (Qc_of_Z 100) "B" 200000 BUY ].

(** C6.  After any sequence of trades applied by [AddTrade] to a new
    position service, the aggregate position of every product is the sum of
    the signed quantities (positive for BUY, negative for SELL) of the trades
    on that product, whatever their books; from any earlier state the
    aggregate grows by that sum.  The trades 1,000,000 BUY in book A,
    400,000 SELL in book A and 200,000 BUY in book B on one product give the
    aggregate 800,000 and the books A: 600,000 and B: 200,000. *)
Theorem AddTrade_aggregate_is_sum_of_trades :
  (∀ T (P : Product T) (feed : list (Trade T)) (productId : string),
     GetAggregatePosition
       (position_of (AddTrades PositionService_new feed).1 productId)
     = traded productId feed)
  ∧ (∀ T (P : Product T) (svc : PositionService T) (feed : list (Trade T))
       (productId : string),
       GetAggregatePosition (position_of (AddTrades svc feed).1 productId)
       = GetAggregatePosition (position_of svc productId)
         + traded productId feed)
  ∧ (let pos := position_of (AddTrades PositionService_new example_trades).1
                  "912828V23" in
     GetAggregatePosition pos = 800000
     ∧ GetPositions pos = {[ "A" := 600000; "B" := 200000 ]}).
Proof.
  split; [|split].
  - intros T P feed productId. rewrite AddTrades_aggregate.
    unfold position_of, PositionService_new. simpl. rewrite lookup_empty. simpl.
    unfold GetAggregatePosition. simpl. rewrite map_fold_empty. lia.
  - intros T P svc feed productId. apply AddTrades_aggregate.
  - split.
    + by vm_compute.
    + apply map_eq. intros book. by vm_compute.
Qed.

(** ** Risk *)

Lemma Risk_AddPosition_stored {T} `{Product T} (svc : RiskService T)
    (pos : Position T) :
  pv01s_at (Risk_AddPosition svc pos).2 (GetProductId (pos_product pos))
  = match bondPV01 !! GetProductId (pos_product pos) with
    | Some v => mkPV01 (pos_product pos) v (GetAggregatePosition pos)
    | None => pv01s_at svc (GetProductId (pos_product pos))
    end.
Proof.
  unfold Risk_AddPosition, pv01s_at.
  destruct (bondPV01 !! GetProductId (pos_product pos)); [|done].
  rewrite subscript_value. simpl. by rewrite lookup_insert_eq.
Qed.

Lemma Risk_AddPosition_others {T} `{Product T} (svc : RiskService T)
    (pos : Position T) productId :
  productId ≠ GetProductId (pos_product pos) →
  pv01s (Risk_AddPosition svc pos).2 !! productId = pv01s svc !! productId.
Proof.
  intros Hne. unfold Risk_AddPosition.
  destruct (bondPV01 !! GetProductId (pos_product pos)); [|done].
  simpl. by rewrite lookup_insert_ne.
Qed.

(** ** A product without PV01 *)

Lemma Risk_AddPosition_unknown {T} `{Product T} (svc : RiskService T)
    (pos : Position T) :
  bondPV01 !! GetProductId (pos_product pos) = None →
  Risk_AddPosition svc pos = (Throws (out_of_range "map::at"), svc).
Proof. intros Hid. unfold Risk_AddPosition. by rewrite Hid. Qed.

Lemma deliver_unknown {T} `{Product T} (bound : ListenerRef → PositionListener)
    (l : ListenerRef) (pos : Position T) calls (d : Downstream T) :
  bondPV01 !! GetProductId (pos_product pos) = None →
  bound l = RiskServiceListener →
  deliver bound (ProcessAdd l pos :: calls) d
  = (Throws (out_of_range "map::at"), d).
Proof.
  intros Hid Hl. simpl. rewrite Hl. unfold RiskServiceListener_ProcessAdd.
  rewrite Risk_AddPosition_unknown by done. by destruct d.
Qed.

Lemma feed_wired_throws {T} `{Product T} (bound : ListenerRef → PositionListener)
    (w : PositionService T * Downstream T) (t : Trade T) feed e :
  (AddTrade_wired bound w t).1 = Throws e →
  feed_wired bound w (t :: feed) = AddTrade_wired bound w t.
Proof.
  intros Hthrow. simpl.
  destruct (AddTrade_wired bound w t) as [r w']. simpl in Hthrow.
  by rewrite Hthrow.
Qed.

Lemma merge_positions_product {T} (newPosition : Position T) oldMap :
  pos_product (merge_positions newPosition oldMap) = pos_product newPosition.
Proof.
  unfold merge_positions.
  by apply (map_fold_weak_ind
              (λ r _, pos_product r = pos_product newPosition)).
Qed.

Lemma AddTrade_calls {T} `{Product T} (svc : PositionService T) (t : Trade T) :
  ∃ pos, (AddTrade svc t).2 = fan_out (ps_listeners svc) pos
    ∧ pos_product pos = trade_product t.
Proof.
  unfold AddTrade.
  destruct (subscript Position_default (positions svc)
              (GetProductId (trade_product t))) as [old positions1].
  eexists. split; [done|]. simpl.
  fold (merge_positions
          match trade_side t with
          | BUY => Position_AddPosition (new_Position (trade_product t))
                     (GetBook t) (trade_quantity t)
          | SELL => Position_AddPosition (new_Position (trade_product t))
                      (GetBook t) (- trade_quantity t)
          end (GetPositions old)).
  rewrite merge_positions_product. by destruct (trade_side t).
Qed.

Lemma deliver_fan_out_unknown {T} `{Product T}
    (bound : ListenerRef → PositionListener) (pos : Position T) ls :
  bondPV01 !! GetProductId (pos_product pos) = None →
  (∃ l, l ∈ ls ∧ bound l = RiskServiceListener) →
  ∀ d : Downstream T,
  (deliver bound (fan_out ls pos) d).1 = Throws (out_of_range "map::at").
Proof.
  intros Hid. induction ls as [|l ls IH]; intros (l0 & Hin & Hl0) d.
  - by apply elem_of_nil in Hin.
  - destruct (bound l) eqn:Hl.
    + unfold fan_out. cbn [map]. by rewrite deliver_unknown.
    + unfold fan_out. cbn [map deliver]. rewrite Hl. apply IH.
      apply elem_of_cons in Hin as [->|Hin]; [congruence|]. by exists l0.
Qed.

Lemma AddTrade_wired_unknown {T} `{Product T}
    (bound : ListenerRef → PositionListener)
    (w : PositionService T * Downstream T) (t : Trade T) :
  bondPV01 !! GetProductId (trade_product t) = None →
  (∃ l, l ∈ ps_listeners w.1 ∧ bound l = RiskServiceListener) →
  (AddTrade_wired bound w t).1 = Throws (out_of_range "map::at").
Proof.
  intros Hid Hrisk. unfold AddTrade_wired.
  destruct (AddTrade_calls w.1 t) as (pos & Hcalls & Hprod).
  destruct (AddTrade w.1 t) as [svc' calls]. simpl in Hcalls. subst calls.
  pose proof (deliver_fan_out_unknown bound pos (ps_listeners w.1)) as Hthrow.
  rewrite Hprod in Hthrow. specialize (Hthrow Hid Hrisk w.2).
  by destruct (deliver bound (fan_out (ps_listeners w.1) pos) w.2).
Qed.

(** The listeners of the position service as [main] registers them: the
    risk service's first, the historical data service's second. *)
Definition main_binding (l : ListenerRef) : PositionListener :=
  match l with
  | O => RiskServiceListener
  | _ => HistoricalDataListener
  end.

Definition wired_start : PositionService Bond * Downstream Bond :=
  (mkPositionService ∅ [0%nat; 1%nat], mkDownstream RiskService_new [] []).

(** A bond that [bondPV01] does not list. *)
Definition US1Y : Bond := mkBond "912828U24" "US1Y".

Definition trade_US1Y : Trade Bond :=
  mkTrade US1Y "T1" (Qc_of_Z 100) "TRSY1" 1000000 BUY.
Definition trade_US2Y : Trade Bond :=
  mkTrade US2Y "T2" (Qc_of_Z 100) "TRSY1" 1000000 BUY.

(** C8, as stated, fails.  A trade on a product without PV01, followed by a
    trade on a product with one: the exception of [AddPosition] ends the
    feed, the position of the first trade never reaches the historical data
    service, and the second trade is not processed, whereas processed alone
    it gets its PV01 stored. *)
Lemma AddPosition_unknown_stops_feed :
  bondPV01 !! GetProductId US1Y = None
  ∧ (feed_wired main_binding wired_start [trade_US1Y; trade_US2Y]).1
    = Throws (out_of_range "map::at")
  ∧ ds_persisted (feed_wired main_binding wired_start [trade_US1Y; trade_US2Y]).2.2
    = []
  ∧ pv01s (ds_risk (feed_wired main_binding wired_start
                      [trade_US1Y; trade_US2Y]).2.2) !! "912828V23" = None
  ∧ (feed_wired main_binding wired_start [trade_US2Y]).1 = Returns ()
  ∧ is_Some (pv01s (ds_risk (feed_wired main_binding wired_start
                               [trade_US2Y]).2.2) !! "912828V23")
  ∧ length (ds_persisted (feed_wired main_binding wired_start [trade_US2Y]).2.2)
    = 1%nat.
Proof.
  split; [by vm_compute|]. split; [by vm_compute|].
  split; [by vm_compute|]. split; [by vm_compute|].
  split; [by vm_compute|]. split; [|by vm_compute].
  vm_compute. by eexists.
Qed.

(** C8, amended.  For a position whose product id is absent from
    [bondPV01], [AddPosition] throws [std::out_of_range] before it changes
    anything: the service, with every stored PV01, is as it was, and no
    listener of the risk service is called.  The exception is not handled:
    it ends the listener loop of the position service at the risk listener,
    leaving what lies behind it as it was, and a feed of trades ends at the
    trade that raised it. *)
Theorem AddPosition_unknown_product_throws {T} `{Product T}
    (svc : RiskService T) (pos : Position T) :
  bondPV01 !! GetProductId (pos_product pos) = None →
  Risk_AddPosition svc pos = (Throws (out_of_range "map::at"), svc)
  ∧ (∀ bound l calls (d : Downstream T),
       bound l = RiskServiceListener →
       deliver bound (ProcessAdd l pos :: calls) d
       = (Throws (out_of_range "map::at"), d))
  ∧ (∀ bound (w : PositionService T * Downstream T) (t : Trade T) feed,
       GetProductId (trade_product t) = GetProductId (pos_product pos) →
       (∃ l, l ∈ ps_listeners w.1 ∧ bound l = RiskServiceListener) →
       (AddTrade_wired bound w t).1 = Throws (out_of_range "map::at")
       ∧ feed_wired bound w (t :: feed) = AddTrade_wired bound w t).
Proof.
  intros Hid. split; [by apply Risk_AddPosition_unknown|].
  split.
  - intros bound l calls d Hl. by apply deliver_unknown.
  - intros bound w t feed Ht Hrisk. rewrite <- Ht in Hid.
    pose proof (AddTrade_wired_unknown bound w t Hid Hrisk) as Hthrow.
    split; [done|]. by eapply feed_wired_throws.
Qed.

Lemma AddPosition_unknown_product_throws_witness :
  let pos := mkPosition US1Y {[ "TRSY1" := 1000000 ]} in
  Risk_AddPosition RiskService_new pos
  = (Throws (out_of_range "map::at"), RiskService_new)
  ∧ (∀ bound l calls (d : Downstream Bond),
       bound l = RiskServiceListener →
       deliver bound (ProcessAdd l pos :: calls) d
       = (Throws (out_of_range "map::at"), d))
  ∧ (∀ bound (w : PositionService Bond * Downstream Bond) (t : Trade Bond) feed,
       GetProductId (trade_product t) = GetProductId (pos_product pos) →
       (∃ l, l ∈ ps_listeners w.1 ∧ bound l = RiskServiceListener) →
       (AddTrade_wired bound w t).1 = Throws (out_of_range "map::at")
       ∧ feed_wired bound w (t :: feed) = AddTrade_wired bound w t).
Proof.
  apply (AddPosition_unknown_product_throws RiskService_new
           (mkPosition US1Y {[ "TRSY1" := 1000000 ]})).
  reflexivity.
Defined.

(** ** Inquiries *)

Lemma store_store {T} (svc : InquiryService T) (d1 d2 : Inquiry T) :
  GetInquiryId d1 = GetInquiryId d2 → store (store svc d1) d2 = store svc d2.
Proof.
  intros Hid. unfold store. simpl. by rewrite Hid, insert_insert_eq.
Qed.

Lemma Inquiry_OnMessage_unfold {T} (svc : InquiryService T) (data : Inquiry T)
    fuel :
  Inquiry_OnMessage (S fuel) svc data
  = ('(svc1, data1, calls) ←
       (if decide (GetState data = RECEIVED)
        then Inquiry_Publish (Inquiry_OnMessage fuel) (store svc data) data
        else Some (svc, data, []));
     if decide (GetState data = QUOTED)
     then Some (store svc1 (SetState data1 DONE), SetState data1 DONE,
                calls ++ fan_out (inq_listeners svc1) (SetState data1 DONE))
     else Some (svc1, data1, calls)).
Proof. reflexivity. Qed.

Lemma Inquiry_OnMessage_quoted {T} (svc : InquiryService T) (data : Inquiry T)
    fuel :
  GetState data = QUOTED →
  Inquiry_OnMessage (S fuel) svc data
  = Some (store svc (SetState data DONE), SetState data DONE,
          fan_out (inq_listeners svc) (SetState data DONE)).
Proof.
  intros Hstate. rewrite Inquiry_OnMessage_unfold, Hstate.
  rewrite (decide_False (P := QUOTED = RECEIVED)) by done.
  cbn [mbind option_bind]. by rewrite (decide_True (P := QUOTED = QUOTED)).
Qed.

Lemma Inquiry_OnMessage_received_step {T} (svc : InquiryService T)
    (data : Inquiry T) fuel :
  GetState data = RECEIVED →
  Inquiry_OnMessage (S (S fuel)) svc data
  = Inquiry_OnMessage (S fuel) (store svc data) (SetState data QUOTED).
Proof.
  intros Hstate.
  rewrite (Inquiry_OnMessage_unfold svc data), Hstate.
  rewrite (decide_True (P := RECEIVED = RECEIVED)) by done.
  unfold Inquiry_Publish, Inquiry_Subscribe. rewrite Hstate.
  rewrite (decide_True (P := RECEIVED = RECEIVED)) by done.
  rewrite (Inquiry_OnMessage_quoted (store svc data) (SetState data QUOTED))
    by done.
  cbn [mbind option_bind].
  by rewrite (decide_False (P := RECEIVED = QUOTED)).
Qed.

Lemma Inquiry_OnMessage_received {T} (svc : InquiryService T)
    (data : Inquiry T) fuel :
  GetState data = RECEIVED →
  Inquiry_OnMessage (S (S fuel)) svc data
  = Some (store svc (SetState data DONE), SetState data DONE,
          fan_out (inq_listeners svc) (SetState data DONE)).
Proof.
  intros Hstate. rewrite Inquiry_OnMessage_received_step by done.
  rewrite Inquiry_OnMessage_quoted by done.
  by rewrite store_store.
Qed.

Lemma Inquiry_OnMessage_terminal {T} (svc : InquiryService T)
    (data : Inquiry T) fuel :
  GetState data ≠ RECEIVED → GetState data ≠ QUOTED →
  Inquiry_OnMessage (S fuel) svc data = Some (svc, data, []).
Proof.
  intros Hr Hq. rewrite Inquiry_OnMessage_unfold.
  rewrite (decide_False (P := GetState data = RECEIVED)) by done.
  cbn [mbind option_bind].
  by rewrite (decide_False (P := GetState data = QUOTED)).
Qed.

(** Two levels of calls are enough: [OnMessage] always returns. *)
Lemma Inquiry_OnMessage_total {T} (svc : InquiryService T) (data : Inquiry T)
    fuel :
  is_Some (Inquiry_OnMessage (S (S fuel)) svc data).
Proof.
  destruct (GetState data) eqn:Hstate.
  - by rewrite Inquiry_OnMessage_received.
  - by rewrite Inquiry_OnMessage_quoted.
  - rewrite Inquiry_OnMessage_terminal; [done|congruence|congruence].
  - rewrite Inquiry_OnMessage_terminal; [done|congruence|congruence].
  - rewrite Inquiry_OnMessage_terminal; [done|congruence|congruence].
Qed.

Definition inquiry_service : InquiryService Bond :=
  mkInquiryService ∅ [5%nat; 6%nat].

Definition received_inquiry : Inquiry Bond :=
  mkInquiry "INQ1" US2Y BUY 1000000 (Qc_of_Z 100) RECEIVED.

(** C7, as stated, fails.  One call of [OnMessage] on a RECEIVED inquiry
    returns with the inquiry DONE, not QUOTED, in the caller's object and in
    the store, and with every listener notified. *)
Lemma OnMessage_received_ends_done :
  let done := SetState received_inquiry DONE in
  Inquiry_OnMessage 2 inquiry_service received_inquiry
  = Some (mkInquiryService {[ "INQ1" := done ]} [5%nat; 6%nat], done,
          [ProcessAdd 5%nat done; ProcessAdd 6%nat done])
  ∧ ¬ ∃ svc' data',
        Inquiry_OnMessage 2 inquiry_service received_inquiry
        = Some (svc', data', [])
        ∧ GetState data' = QUOTED.
Proof.
  split; [reflexivity|]. intros (svc' & data' & Hcall & _). discriminate Hcall.
Qed.

(** C7, amended.  A call of [OnMessage] on a RECEIVED inquiry stores it
    and has the connector set it to QUOTED and submit it again at once: the
    call is the call on the QUOTED inquiry, to which it adds no
    notification.  A call on a QUOTED inquiry sets it to DONE, stores it and
    passes it once to every registered listener, in registration order.  So
    either call returns with the inquiry DONE, in the caller's object and
    in the store, and one notification per listener; the QUOTED state of a
    RECEIVED inquiry is never stored. *)
Theorem Inquiry_OnMessage_lifecycle {T} (svc : InquiryService T)
    (data : Inquiry T) (fuel : nat) :
  (2 ≤ fuel)%nat →
  let in_state s :=
    mkInquiry (GetInquiryId data) (inq_product data) (inq_side data)
      (inq_quantity data) (inq_price data) s in
  let result :=
    Some (mkInquiryService
            (<[GetInquiryId data := in_state DONE]> (inquiries svc))
            (inq_listeners svc),
          in_state DONE,
          (λ l, ProcessAdd l (in_state DONE)) <$> inq_listeners svc) in
  (GetState data = RECEIVED →
   Inquiry_OnMessage fuel svc data
   = Inquiry_OnMessage (fuel - 1)
       (mkInquiryService (<[GetInquiryId data := data]> (inquiries svc))
          (inq_listeners svc))
       (in_state QUOTED)
   ∧ Inquiry_OnMessage fuel svc data = result)
  ∧ (GetState data = QUOTED → Inquiry_OnMessage fuel svc data = result).
Proof.
  intros Hfuel in_state result.
  destruct fuel as [|[|fuel]]; [lia|lia|].
  replace (S (S fuel) - 1)%nat with (S fuel) by lia.
  assert (Some (store svc (SetState data DONE), SetState data DONE,
                fan_out (inq_listeners svc) (SetState data DONE)) = result)
    as Hresult by (by rewrite fan_out_fmap).
  split.
  - intros Hstate. split.
    + by apply Inquiry_OnMessage_received_step.
    + by rewrite Inquiry_OnMessage_received.
  - intros Hstate. by rewrite Inquiry_OnMessage_quoted.
Qed.

Lemma Inquiry_OnMessage_lifecycle_witness :
  let svc := inquiry_service in
  let data := received_inquiry in
  let in_state s :=
    mkInquiry (GetInquiryId data) (inq_product data) (inq_side data)
      (inq_quantity data) (inq_price data) s in
  let result :=
    Some (mkInquiryService
            (<[GetInquiryId data := in_state DONE]> (inquiries svc))
            (inq_listeners svc),
          in_state DONE,
          (λ l, ProcessAdd l (in_state DONE)) <$> inq_listeners svc) in
  (GetState data = RECEIVED →
   Inquiry_OnMessage 2 svc data
   = Inquiry_OnMessage (2 - 1)
       (mkInquiryService (<[GetInquiryId data := data]> (inquiries svc))
          (inq_listeners svc))
       (in_state QUOTED)
   ∧ Inquiry_OnMessage 2 svc data = result)
  ∧ (GetState data = QUOTED → Inquiry_OnMessage 2 svc data = result).
Proof.
  apply (Inquiry_OnMessage_lifecycle inquiry_service received_inquiry 2). lia.
Defined.

(** ** Fractional prices *)

Lemma string_app_cons c (a b : string) : String c a +:+ b = String c (a +:+ b).
Proof. reflexivity. Qed.

Lemma string_app_nil_l (b : string) : "" +:+ b = b.
Proof. reflexivity. Qed.

Lemma string_app_nil_r (s : string) : s +:+ "" = s.
Proof.
  induction s as [|c s IH]; [done|]. by rewrite string_app_cons, IH.
Qed.

Lemma string_app_assoc (a b c : string) : (a +:+ b) +:+ c = a +:+ b +:+ c.
Proof.
  induction a as [|x a IH]; [done|]. by rewrite !string_app_cons, IH.
Qed.

Lemma to_string_nonneg (B : Z) :
  0 ≤ B →
  ∃ u, u ≠ Decimal.Nil
    ∧ to_string B = NilEmpty.string_of_uint u
    ∧ Z.of_uint u = B.
Proof.
  intros HB. destruct B as [|p|p]; [| |lia].
  - exists (Decimal.D0 Decimal.Nil). by repeat split.
  - exists (Pos.to_uint p). split; [apply DecimalPos.Unsigned.to_uint_nonnil|].
    split.
    + unfold to_string. simpl. unfold NilZero.string_of_uint.
      pose proof (DecimalPos.Unsigned.to_uint_nonnil p).
      by destruct (Pos.to_uint p).
    + unfold Z.of_uint. by rewrite DecimalPos.Unsigned.of_to.
Qed.

(** What follows the digits: nothing, or a character that is not a digit. *)
Definition no_digit_ahead (rest : string) : Prop :=
  match rest with
  | EmptyString => True
  | String c _ => digit_of_char c = None
  end.

Lemma read_digits_stop rest :
  no_digit_ahead rest → read_digits rest = (Decimal.Nil, rest).
Proof. destruct rest as [|c rest]; simpl; [done|]. by intros ->. Qed.

Lemma read_digits_string_of_uint u rest :
  no_digit_ahead rest →
  read_digits (NilEmpty.string_of_uint u +:+ rest) = (u, rest).
Proof.
  intros Hrest. induction u as [|u IH|u IH|u IH|u IH|u IH|u IH|u IH|u IH|u IH|u IH];
    cbn [NilEmpty.string_of_uint];
    rewrite ?string_app_cons, ?string_app_nil_l;
    try (cbn [read_digits digit_of_char]; by rewrite IH).
  by apply read_digits_stop.
Qed.

Lemma find_dash_string_of_uint u rest :
  find "-" (NilEmpty.string_of_uint u +:+ String "-" rest)
  = Some (String.length (NilEmpty.string_of_uint u)).
Proof.
  induction u as [|u IH|u IH|u IH|u IH|u IH|u IH|u IH|u IH|u IH|u IH];
    cbn [NilEmpty.string_of_uint];
    rewrite ?string_app_cons, ?string_app_nil_l;
    try (cbn [find String.length]; rewrite IH; by rewrite bool_decide_eq_false_2).
  cbn [find]. by rewrite bool_decide_eq_true_2.
Qed.

Lemma substring_prefix (a b : string) :
  substring 0 (String.length a) (a +:+ b) = a.
Proof.
  induction a as [|c a IH].
  - rewrite string_app_nil_l. by destruct b.
  - rewrite string_app_cons. cbn [String.length substring]. by rewrite IH.
Qed.

Lemma get_skip (a b : string) n :
  String.get (String.length a + n) (a +:+ b) = String.get n b.
Proof.
  induction a as [|c a IH]; [done|]. rewrite string_app_cons. apply IH.
Qed.

Lemma skip_space_digit u rest :
  u ≠ Decimal.Nil →
  skip_space (NilEmpty.string_of_uint u +:+ rest)
  = NilEmpty.string_of_uint u +:+ rest.
Proof. destruct u; try done. Qed.

Lemma read_sign_digit u rest :
  u ≠ Decimal.Nil →
  read_sign (NilEmpty.string_of_uint u +:+ rest)
  = (false, NilEmpty.string_of_uint u +:+ rest).
Proof. destruct u; try done. Qed.

Lemma integer_mantissa (n : Z) :
  ((Qc_of_Z n + Qc_of_Z 0 / Qc_of_Z 1) * 1 = Qc_of_Z n)%Qc.
Proof.
  apply Qc_is_canon. simpl. rewrite !Qred_correct.
  unfold Qeq. simpl. lia.
Qed.

Lemma stod_digits u :
  u ≠ Decimal.Nil →
  stod (NilEmpty.string_of_uint u) = Returns (Qc_of_Z (Z.of_uint u)).
Proof.
  intros Hu. unfold stod.
  rewrite <- (string_app_nil_r (NilEmpty.string_of_uint u)) at 1.
  rewrite skip_space_digit, read_sign_digit by done.
  rewrite read_digits_string_of_uint by done.
  destruct u; try done; cbv zeta; f_equal; exact (integer_mantissa _).
Qed.

(** The text of a price: the integer part in decimal, a dash, the number of
    32nds on two digits, and the number of 256ths, where [+] stands for
    4. *)
Definition digit_char (d : Z) : ascii :=
  match d with
  | 0 => "0" | 1 => "1" | 2 => "2" | 3 => "3" | 4 => "4"
  | 5 => "5" | 6 => "6" | 7 => "7" | 8 => "8" | _ => "9"
  end%char.

Definition two_digits (xy : Z) : string :=
  String (digit_char (xy / 10)) (String (digit_char (xy `mod` 10)) "").

Definition last_char (z : Z) : ascii :=
  if bool_decide (z = 4) then "+"%char else digit_char z.

Definition fractional_text (B xy : Z) (zChar : ascii) : string :=
  to_string B +:+ "-" +:+ two_digits xy +:+ String zChar "".

(** The value the last character stands for in [string2price]. *)
Definition z_of_char (zChar : ascii) : Z :=
  if bool_decide (zChar = "+"%char) then 4
  else Z.of_nat (nat_of_ascii zChar) - Z.of_nat (nat_of_ascii "0").

Lemma two_digits_table :
  Forall (λ xy, stoi (two_digits xy) = Returns xy
                ∧ (if bool_decide (xy < 10) then "0" else "") +:+ to_string xy
                  = two_digits xy)
    (seqZ 0 32).
Proof. repeat (constructor; [split; reflexivity|]). constructor. Qed.

Lemma last_char_table :
  Forall (λ z, z_of_char (last_char z) = z
               ∧ (if bool_decide (z = 4) then "+"%char else char_plus "0" z)
                 = last_char z)
    (seqZ 0 8).
Proof. repeat (constructor; [split; reflexivity|]). constructor. Qed.

Lemma two_digits_spec xy :
  0 ≤ xy ≤ 31 →
  stoi (two_digits xy) = Returns xy
  ∧ (if bool_decide (xy < 10) then "0" else "") +:+ to_string xy = two_digits xy.
Proof.
  intros Hxy.
  apply (proj1 (Forall_forall _ _) two_digits_table). apply elem_of_seqZ. lia.
Qed.

Lemma last_char_spec z :
  0 ≤ z ≤ 7 →
  z_of_char (last_char z) = z
  ∧ (if bool_decide (z = 4) then "+"%char else char_plus "0" z) = last_char z.
Proof.
  intros Hz.
  apply (proj1 (Forall_forall _ _) last_char_table). apply elem_of_seqZ. lia.
Qed.

(** The price [B + k/256] as a fraction. *)
Definition price_of (B k : Z) : Qc := Q2Qc ((256 * B + k) # 256).

Lemma price_of_sum B xy z :
  (Qc_of_Z B + int_to_double xy / Qc_of_Z 32 + int_to_double z / Qc_of_Z 256)%Qc
  = price_of B (8 * xy + z).
Proof.
  apply Qc_is_canon. unfold price_of, int_to_double. simpl.
  rewrite !Qred_correct. unfold Qeq. simpl. lia.
Qed.

Lemma trunc_Q2Qc n d : 0 ≤ n → trunc (Q2Qc (n # d)) = n / Z.pos d.
Proof.
  intros Hn. unfold trunc. rewrite bool_decide_eq_true_2.
  - simpl. rewrite Qred_correct. done.
  - unfold Qcle. simpl. rewrite !Qred_correct. unfold Qle. simpl. lia.
Qed.

Lemma price_of_fraction B k (m : positive) :
  ((price_of B k - int_to_double B) * Qc_of_Z (Z.pos m))%Qc
  = Q2Qc ((k * Z.pos m) # 256).
Proof.
  apply Qc_is_canon. unfold price_of, int_to_double. simpl.
  rewrite !Qred_correct. unfold Qeq. simpl. lia.
Qed.

Lemma substring_skip_plus (a b : string) i n :
  substring (String.length a + i) n (a +:+ b) = substring i n b.
Proof.
  induction a as [|c a IH]; [done|]. rewrite string_app_cons. apply IH.
Qed.

Lemma string2price_text B xy z zChar :
  0 ≤ B → 0 ≤ xy ≤ 31 → 0 ≤ z ≤ 7 → z_of_char zChar = z →
  string2price (fractional_text B xy zChar)
  = Returns (price_of B (8 * xy + z)).
Proof.
  intros HB Hxy Hz HzChar.
  destruct (to_string_nonneg B HB) as (u & Hu & Htext & Hval).
  unfold string2price, fractional_text. rewrite Htext.
  change ("-" +:+ two_digits xy +:+ String zChar "")
    with (String "-"%char (two_digits xy +:+ String zChar "")).
  rewrite find_dash_string_of_uint, substring_prefix, stod_digits by done.
  cbn [mbind outcome_bind].
  rewrite substring_skip_plus.
  change (substring 1 2 (String "-"%char (two_digits xy +:+ String zChar "")))
    with (two_digits xy).
  rewrite (proj1 (two_digits_spec xy Hxy)).
  cbn [mbind outcome_bind].
  unfold at_index. rewrite get_skip.
  change (String.get 3 (String "-"%char (two_digits xy +:+ String zChar "")))
    with (Some zChar).
  cbn [mbind outcome_bind].
  fold (z_of_char zChar). rewrite HzChar, Hval.
  rewrite bool_decide_eq_false_2 by lia.
  f_equal. apply price_of_sum.
Qed.

Lemma double_to_int_in_range d n :
  trunc d = n → -2147483648 ≤ n ≤ 2147483647 → double_to_int d = Returns n.
Proof.
  intros Hd Hn. unfold double_to_int. rewrite Hd.
  by rewrite bool_decide_eq_true_2.
Qed.

Lemma price2string_price_of B k :
  0 ≤ B ≤ INT_MAX → 0 ≤ k < 256 →
  price2string (price_of B k)
  = Returns (to_string B +:+ "-"
             +:+ (if bool_decide (k / 8 < 10) then "0" else "")
             +:+ to_string (k / 8)
             +:+ String (if bool_decide (k `mod` 8 = 4) then "+"%char
                         else char_plus "0" (k `mod` 8)) "").
Proof.
  intros HB Hk. change INT_MAX with 2147483647 in HB.
  assert (trunc (price_of B k) = B) as HtruncB.
  { unfold price_of. rewrite trunc_Q2Qc by lia.
    symmetry. apply (Z.div_unique _ _ _ k); lia. }
  assert (trunc ((price_of B k - int_to_double B) * Qc_of_Z 32)%Qc = k / 8)
    as Htrunc32.
  { rewrite (price_of_fraction B k 32), trunc_Q2Qc by lia.
    change (Z.pos 256) with (8 * 32).
    by rewrite Z.div_mul_cancel_r. }
  assert (trunc ((price_of B k - int_to_double B) * Qc_of_Z 256)%Qc = k)
    as Htrunc256.
  { rewrite (price_of_fraction B k 256), trunc_Q2Qc by lia.
    rewrite Z.div_mul; lia. }
  pose proof (Z.div_pos k 8). pose proof (Z.div_lt_upper_bound k 8 32).
  unfold price2string.
  rewrite (double_to_int_in_range _ B HtruncB) by lia.
  cbn [mbind outcome_bind].
  rewrite (double_to_int_in_range _ (k / 8) Htrunc32) by lia.
  cbn [mbind outcome_bind].
  rewrite (double_to_int_in_range _ k Htrunc256) by lia.
  cbn [mbind outcome_bind].
  by rewrite Z.rem_mod_nonneg by lia.
Qed.

Example string2price_example :
  string2price "99-16+" = Returns (price_of 99 132)
  ∧ price2string (price_of 99 132) = Returns "99-16+"
  ∧ string2price "100-317" ≫= price2string = Returns "100-317".
Proof.
  split; [|split].
  - apply (string2price_text 99 16 4 "+"); done.
  - by vm_compute.
  - by vm_compute.
Qed.

(** C5, as stated, fails.  The last character [4] is valid and denotes the
    same 4/256 as [+], so that "99-004" comes back as "99-00+"; and an
    integer part beyond the range of [int] does not come back at all, its
    conversion to [int] being undefined. *)
Lemma roundtrip_fails_on_4_and_large :
  "99-004" = fractional_text 99 0 "4"
  ∧ string2price "99-004" = Returns (price_of 99 4)
  ∧ string2price "99-004" ≫= price2string = Returns "99-00+"
  ∧ string2price "99-004" ≫= price2string ≠ Returns "99-004"
  ∧ "2147483648-000" = fractional_text 2147483648 0 "0"
  ∧ string2price "2147483648-000" ≫= price2string = Undefined.
Proof.
  split; [reflexivity|]. split.
  { apply (string2price_text 99 0 4 "4"); done. }
  split; [by vm_compute|]. split; [by vm_compute|].
  split; [reflexivity|]. by vm_compute.
Qed.

(** C5, amended.  For an integer part [B] from 0 to 2147483647 written in
    decimal without padding, a number of 32nds from 0 to 31 written on two
    digits, and a last character among 0, 1, 2, 3, +, 5, 6 and 7, decoding
    the text with [string2price] and encoding the result with
    [price2string] gives the text back. *)
Theorem price_text_roundtrip (B xy z : Z) :
  0 ≤ B ≤ 2147483647 → 0 ≤ xy ≤ 31 → 0 ≤ z ≤ 7 →
  string2price (fractional_text B xy (last_char z)) ≫= price2string
  = Returns (fractional_text B xy (last_char z)).
Proof.
  intros HB Hxy Hz.
  destruct (last_char_spec z Hz) as [Hread Hwrite].
  destruct (two_digits_spec xy Hxy) as [_ Hpad].
  rewrite (string2price_text B xy z) by (done || lia).
  cbn [mbind outcome_bind].
  rewrite price2string_price_of by (unfold INT_MAX; lia).
  replace ((8 * xy + z) / 8) with xy
    by (apply (Z.div_unique _ _ _ z); lia).
  replace ((8 * xy + z) `mod` 8) with z
    by (apply (Z.mod_unique _ _ xy); lia).
  rewrite Hwrite. unfold fractional_text.
  by rewrite <- (string_app_assoc _ (to_string xy)), Hpad.
Qed.

Lemma price_text_roundtrip_witness :
  string2price (fractional_text 99 16 (last_char 4)) ≫= price2string
  = Returns (fractional_text 99 16 (last_char 4)).
Proof. apply (price_text_roundtrip 99 16 4); lia. Defined.

(** * Further properties *)

(** ** Prices and their text *)

Lemma price2string_text B k :
  0 ≤ B ≤ 2147483647 → 0 ≤ k < 256 →
  price2string (price_of B k)
  = Returns (fractional_text B (k / 8) (last_char (k `mod` 8))).
Proof.
  intros HB Hk.
  pose proof (Z.mod_pos_bound k 8) as Hmod.
  pose proof (Z.div_pos k 8) as Hdiv0.
  pose proof (Z.div_lt_upper_bound k 8 32) as Hdiv1.
  rewrite price2string_price_of by (unfold INT_MAX; lia).
  destruct (last_char_spec (k `mod` 8)) as [_ Hwrite]; [lia|].
  destruct (two_digits_spec (k / 8)) as [_ Hpad]; [lia|].
  rewrite Hwrite. unfold fractional_text.
  by rewrite <- (string_app_assoc _ (to_string (k / 8))), Hpad.
Qed.

(** ** The bond tables *)

Lemma GetBond_cases (id : string) :
  id ∈ ["912828V23"; "912828W22"; "912828X21"; "912828Y20"; "912828Z19";
        "912810FZ8"; "912810GZ6"]
  ∨ bondId !! id = None.
Proof.
  destruct (bondId !! id) as [m|] eqn:Hid; [left|by right].
  unfold bondId in Hid. apply elem_of_list_to_map_2 in Hid.
  repeat (apply elem_of_cons in Hid as [Hid|Hid];
          [injection Hid as -> _; set_solver|]).
  by apply elem_of_nil in Hid.
Qed.

(** X1.  [GetBond] builds a bond exactly for the seven CUSIPs of
    [bondId] and throws [std::out_of_range] for every other text.  The bond
    it builds carries the identifier it was asked for and a ticker made of
    the maturity in years; that identifier is the one [bondMap] gives for
    the maturity, and it has a coupon in [bondCoupon] and a PV01 in
    [bondPV01], so that [RiskService::AddPosition] does not throw for a
    position in a bond that [GetBond] built: it stores, under the
    identifier, the PV01 of the table with the aggregate position as
    quantity, and calls [ProcessAdd] with it on each listener of the risk
    service, once and in the order of registration. *)
Theorem GetBond_tables_agree (id : string) :
  match bondId !! id with
  | Some maturity =>
      GetBond id = Returns (mkBond id ("US" +:+ to_string maturity +:+ "Y"))
      ∧ fst <$> (bondMap !! maturity) = Some id
      ∧ is_Some (bondCoupon !! id)
      ∧ is_Some (bondPV01 !! id)
      ∧ ∀ (svc : RiskService Bond) (pos : Position Bond),
          GetBond id = Returns (pos_product pos) →
          let pv01 := mkPV01 (pos_product pos)
                        (default 0%Qc (bondPV01 !! id))
                        (GetAggregatePosition pos) in
          Risk_AddPosition svc pos
          = (Returns ((λ l, ProcessAdd l pv01) <$> risk_listeners svc),
             mkRiskService (<[id := pv01]> (pv01s svc)) (risk_listeners svc))
  | None => GetBond id = Throws (out_of_range "map::at")
  end.
Proof.
  destruct (bondId !! id) as [maturity|] eqn:Hid.
  - assert (GetBond id
            = Returns (mkBond id ("US" +:+ to_string maturity +:+ "Y"))
            ∧ fst <$> (bondMap !! maturity) = Some id
            ∧ is_Some (bondCoupon !! id)
            ∧ is_Some (bondPV01 !! id)) as (Hbond & Hmap & Hcoupon & Hpv).
    { destruct (GetBond_cases id) as [Hin|Hnone]; [|congruence].
      repeat (apply elem_of_cons in Hin as [->|Hin];
              [vm_compute in Hid; injection Hid as <-;
               split; [by vm_compute|];
               split; [by vm_compute|];
               split; by eexists|]).
      by apply elem_of_nil in Hin. }
    do 4 (split; [done|]).
    intros svc pos Hpos. rewrite Hbond in Hpos. injection Hpos as Hpos.
    unfold Risk_AddPosition. rewrite <- Hpos. simpl.
    destruct Hpv as [v Hv]. rewrite Hv. simpl. by rewrite fan_out_fmap.
  - unfold GetBond, map_at. by rewrite Hid.
Qed.

(** ** Storing and querying order books *)

Lemma MarketDataService_eta {T} (svc : MarketDataService T) :
  mkMarketDataService (orderBooks svc) (md_listeners svc) (bookDepth svc) = svc.
Proof. by destruct svc. Qed.

(** X2.  [MarketDataService::OnMessage] stores the book under the
    identifier of its product, replacing the book stored for it and leaving
    the books of the other products as they are, and calls [ProcessAdd] with
    the book on each listener, once and in the order of registration.  The
    book is what [GetBestBidOffer] then sees for the product: it returns the
    best bid and offer of the book and leaves the service as it is.  A later
    book for the same product replaces it. *)
Theorem OnMessage_then_queries {T} `{Product T}
    (svc : MarketDataService T) (book later : OrderBook T) :
  let id := GetProductId (book_product book) in
  let svc' :=
    mkMarketDataService (<[id := book]> (orderBooks svc))
      (md_listeners svc) (bookDepth svc) in
  MarketData_OnMessage svc book
  = (svc', (λ l, ProcessAdd l book) <$> md_listeners svc)
  ∧ GetBestBidOffer svc' id = (GetBidOffer book, svc')
  ∧ (∀ id', id' ≠ id → orderBooks svc' !! id' = orderBooks svc !! id')
  ∧ (GetProductId (book_product later) = id →
     MarketData_OnMessage svc' later
     = (mkMarketDataService (<[id := later]> (orderBooks svc))
          (md_listeners svc) (bookDepth svc),
        (λ l, ProcessAdd l later) <$> md_listeners svc)).
Proof.
  intros id svc'.
  split.
  { unfold MarketData_OnMessage. by rewrite fan_out_fmap. }
  assert (orderBooks svc' !! id = Some book) as Hstored.
  { apply lookup_insert_eq. }
  split.
  { unfold GetBestBidOffer. by rewrite (subscript_present _ _ _ _ Hstored). }
  split.
  { intros id' Hne. simpl. by rewrite lookup_insert_ne. }
  intros Hlater. unfold MarketData_OnMessage. simpl. rewrite Hlater.
  by rewrite fan_out_fmap, insert_insert_eq.
Qed.

(** X3.  A query for a product without a stored book creates one:
    [operator[]] inserts a book without orders, on which [GetBestBidOffer]
    has no defined result; the empty book stays in the service, the other
    books are untouched, and for a product with a stored book the query
    changes nothing. *)
Theorem query_unknown_product_creates_book {T} `{Product T}
    (svc : MarketDataService T) (productId : string) :
  orderBooks svc !! productId = None →
  let created :=
    mkMarketDataService
      (<[productId := mkOrderBook product_default [] []]> (orderBooks svc))
      (md_listeners svc) (bookDepth svc) in
  GetBestBidOffer svc productId = (Undefined, created)
  ∧ (∀ id', id' ≠ productId → orderBooks created !! id' = orderBooks svc !! id')
  ∧ (∀ id' book, orderBooks svc !! id' = Some book →
       GetBestBidOffer svc id' = (GetBidOffer book, svc)).
Proof.
  intros Hnone created.
  split.
  { unfold GetBestBidOffer. by rewrite (subscript_absent _ _ _ Hnone). }
  split.
  { intros id' Hne. simpl. by rewrite lookup_insert_ne. }
  intros id' book Hbook. unfold GetBestBidOffer.
  rewrite (subscript_present _ _ _ _ Hbook). simpl.
  by rewrite MarketDataService_eta.
Qed.

Lemma query_unknown_product_creates_book_witness :
  let svc := example_market in
  let productId := "912828W22" in
  let created :=
    mkMarketDataService
      (<[productId := mkOrderBook product_default [] []]> (orderBooks svc))
      (md_listeners svc) (bookDepth svc) in
  GetBestBidOffer svc productId = (Undefined, created)
  ∧ (∀ id', id' ≠ productId → orderBooks created !! id' = orderBooks svc !! id')
  ∧ (∀ id' book, orderBooks svc !! id' = Some book →
       GetBestBidOffer svc id' = (GetBidOffer book, svc)).
Proof.
  apply (query_unknown_product_creates_book example_market "912828W22").
  reflexivity.
Defined.
(** ** Successive snapshots *)

(** The snapshots the market data service hands, one after the other, to
    the listener of the algo execution service. *)
Fixpoint AlgoExecution_feed {T} `{Product T} (svc : AlgoExecutionService T)
    (books : list (OrderBook T))
    : outcome (AlgoExecutionService T * list (Call (AlgoExecution T))) :=
  match books with
  | [] => Returns (svc, [])
  | book :: books' =>
      r1 ← AlgoExecutionServiceListener_ProcessAdd svc book;
      r2 ← AlgoExecution_feed r1.1 books';
      Returns (r2.1, r1.2 ++ r2.2)
  end.

(** The snapshot passes the filter of [AlgoExecutionTrade]. *)
Definition crosses {T} (book : OrderBook T) : bool :=
  match GetBidOffer book with
  | Returns bo => bool_decide (spread bo ≤ 1 / Qc_of_Z 128)%Qc
  | _ => false
  end.

(** The orders synthesised for [books] from the counter [count] on. *)
Fixpoint algo_orders {T} (count : Z) (books : list (OrderBook T))
    : list (ExecutionOrder T) :=
  match books with
  | [] => []
  | book :: books' =>
      match GetBidOffer book with
      | Returns bo =>
          if bool_decide (spread bo ≤ 1 / Qc_of_Z 128)%Qc
          then algo_order book bo count :: algo_orders (count + 1) books'
          else algo_orders count books'
      | _ => algo_orders count books'
      end
  end.

Lemma algo_orders_length {T} (books : list (OrderBook T)) : ∀ count,
  length (algo_orders count books) = length (filter (λ b, crosses b = true) books).
Proof.
  induction books as [|book books IH]; intros count; [done|].
  cbn [algo_orders]. rewrite filter_cons.
  destruct (decide (crosses book = true)) as [Hc|Hc]; unfold crosses in Hc;
    destruct (GetBidOffer book) as [bo| |]; try done; try apply IH.
  - rewrite Hc. simpl. by rewrite IH.
  - apply not_true_is_false in Hc. rewrite Hc. apply IH.
Qed.

Lemma algo_orders_lookup {T} (books : list (OrderBook T)) : ∀ count i order,
  algo_orders count books !! i = Some order →
  GetOrderId order = "AlgoExec" +:+ to_string (count + Z.of_nat i + 1)
  ∧ GetPricingSide order
    = (if Z.odd (count + Z.of_nat i) then BID else OFFER)
  ∧ GetOrderType order = MARKET
  ∧ GetHiddenQuantity order = 0.
Proof.
  induction books as [|book books IH]; intros count i order; [done|].
  cbn [algo_orders].
  destruct (GetBidOffer book) as [bo| |]; [|apply IH|apply IH].
  case_bool_decide; [|apply IH].
  destruct i as [|i]; intros Hi; cbn in Hi.
  - injection Hi as <-. change (Z.of_nat 0) with 0. rewrite Z.add_0_r.
    by unfold algo_order.
  - apply IH in Hi.
    by replace (count + Z.of_nat (S i)) with (count + 1 + Z.of_nat i) by lia.
Qed.

(** Every level of the book has a quantity that a [double] holds
    exactly. *)
Definition bounded_quantities {T} (book : OrderBook T) : Prop :=
  Forall (λ o, Z.abs (order_quantity o) ≤ 9007199254740992)
    (GetBidStack book ++ GetOfferStack book).

Lemma first_highest_unique stack a b :
  first_highest stack a → first_highest stack b → a = b.
Proof.
  intros (pre & post & -> & Hpre & Hpost) (pre' & post' & Heq & Hpre' & Hpost').
  revert pre' Heq Hpre'.
  induction pre as [|x pre IH]; intros [|x' pre'] Heq Hpre'.
  - by injection Heq.
  - injection Heq as -> Heq. apply Forall_cons in Hpre' as [Hlt _].
    assert (b ∈ post) as Hb by (rewrite Heq; set_solver).
    apply (proj1 (Forall_forall _ _) Hpost) in Hb. simpl in Hb.
    by apply Qcle_not_lt in Hb.
  - injection Heq as <- Heq. apply Forall_cons in Hpre as [Hlt _].
    assert (a ∈ post') as Ha by (rewrite <- Heq; set_solver).
    apply (proj1 (Forall_forall _ _) Hpost') in Ha. simpl in Ha.
    by apply Qcle_not_lt in Ha.
  - injection Heq as -> Heq.
    apply Forall_cons in Hpre as [_ Hpre].
    apply Forall_cons in Hpre' as [_ Hpre'].
    by apply (IH Hpre pre').
Qed.

Lemma first_lowest_unique stack a b :
  first_lowest stack a → first_lowest stack b → a = b.
Proof.
  intros (pre & post & -> & Hpre & Hpost) (pre' & post' & Heq & Hpre' & Hpost').
  revert pre' Heq Hpre'.
  induction pre as [|x pre IH]; intros [|x' pre'] Heq Hpre'.
  - by injection Heq.
  - injection Heq as -> Heq. apply Forall_cons in Hpre' as [Hlt _].
    assert (b ∈ post) as Hb by (rewrite Heq; set_solver).
    apply (proj1 (Forall_forall _ _) Hpost) in Hb. simpl in Hb.
    by apply Qcle_not_lt in Hb.
  - injection Heq as <- Heq. apply Forall_cons in Hpre as [Hlt _].
    assert (a ∈ post') as Ha by (rewrite <- Heq; set_solver).
    apply (proj1 (Forall_forall _ _) Hpost') in Ha. simpl in Ha.
    by apply Qcle_not_lt in Ha.
  - injection Heq as -> Heq.
    apply Forall_cons in Hpre as [_ Hpre].
    apply Forall_cons in Hpre' as [_ Hpre'].
    by apply (IH Hpre pre').
Qed.

(** The first bid at the highest price and the first offer at the lowest
    one are what [GetBidOffer] returns. *)
Lemma GetBidOffer_best {T} (book : OrderBook T) (bo : BidOffer) :
  first_highest (GetBidStack book) (GetBidOrder bo) →
  first_lowest (GetOfferStack book) (GetOfferOrder bo) →
  GetBidOffer book = Returns bo.
Proof.
  intros Hhi Hlo.
  destruct (GetBidOffer_nonempty book) as (bo' & -> & Hhi' & Hlo').
  { intros Hnil. rewrite Hnil in Hhi. apply first_highest_elem in Hhi.
    by apply elem_of_nil in Hhi. }
  { intros Hnil. rewrite Hnil in Hlo. apply first_lowest_elem in Hlo.
    by apply elem_of_nil in Hlo. }
  f_equal. destruct bo as [bid offer], bo' as [bid' offer']. simpl in *.
  by rewrite (first_highest_unique _ _ _ Hhi Hhi'),
             (first_lowest_unique _ _ _ Hlo Hlo').
Qed.

Lemma best_quantities_bounded {T} (book : OrderBook T) (bo : BidOffer) :
  first_highest (GetBidStack book) (GetBidOrder bo) →
  first_lowest (GetOfferStack book) (GetOfferOrder bo) →
  bounded_quantities book →
  ∀ odd : bool,
    Z.abs (order_quantity (if odd then GetBidOrder bo else GetOfferOrder bo))
    ≤ 9007199254740992.
Proof.
  intros Hhi%first_highest_elem Hlo%first_lowest_elem Hall odd.
  unfold bounded_quantities in Hall. rewrite Forall_forall in Hall.
  destruct odd; apply Hall; set_solver.
Qed.

(** The map of a service that stored [orders] one after the other. *)
Definition last_executions {T} `{Product T}
    (stored : gmap string (AlgoExecution T))
    (orders : list (ExecutionOrder T)) : gmap string (AlgoExecution T) :=
  foldl (λ stored o,
           <[GetProductId (eo_product o) := mkAlgoExecution o]> stored)
    stored orders.

Lemma AlgoExecution_feed_orders {T} `{Product T} (books : list (OrderBook T)) :
  ∀ svc : AlgoExecutionService T,
  0 ≤ executionCount svc →
  Forall (λ book, GetBidStack book ≠ [] ∧ GetOfferStack book ≠ []) books →
  Forall bounded_quantities books →
  AlgoExecution_feed svc books
  = Returns (mkAlgoExecutionService
               (last_executions (algoExecutions svc)
                  (algo_orders (executionCount svc) books))
               (ae_listeners svc)
               (executionCount svc
                + Z.of_nat (length (algo_orders (executionCount svc) books))),
             mjoin ((λ o, (λ l, ProcessAdd l (mkAlgoExecution o))
                          <$> ae_listeners svc)
                    <$> algo_orders (executionCount svc) books)).
Proof.
  induction books as [|book books IH]; intros svc Hcount Hbooks Hqty.
  - simpl. rewrite Z.add_0_r. by destruct svc.
  - apply Forall_cons in Hbooks as [[Hbids Hoffers] Hbooks].
    apply Forall_cons in Hqty as [Hbook Hqty].
    destruct (GetBidOffer_nonempty book Hbids Hoffers) as (bo & Hbo & Hhi & Hlo).
    cbn [AlgoExecution_feed algo_orders].
    unfold AlgoExecutionServiceListener_ProcessAdd. rewrite Hbo.
    case_bool_decide as Hspread.
    + rewrite (AlgoExecutionTrade_crossing svc book bo);
        [|done|done|done|by apply (best_quantities_bounded book bo Hhi Hlo Hbook)].
      cbn [mbind outcome_bind fst snd].
      rewrite IH; [|simpl; lia|done|done].
      cbn [mbind outcome_bind fst snd fmap list_fmap algoExecutions
           ae_listeners executionCount last_executions foldl length].
      change (mjoin (?x :: ?rest)) with (x ++ mjoin rest).
      rewrite fan_out_fmap. do 3 f_equal. lia.
    + rewrite (AlgoExecutionTrade_wide svc book bo);
        [|done|by apply Qcnot_le_lt].
      cbn [mbind outcome_bind fst snd].
      rewrite IH by done. by cbn [mbind outcome_bind fst snd app].
Qed.

(** The orders for a list of books with their best bids and offers. *)
Lemma algo_orders_quoted {T} (quotes : list (OrderBook T * BidOffer)) :
  ∀ count,
  Forall (λ q, first_highest (GetBidStack q.1) (GetBidOrder q.2)
               ∧ first_lowest (GetOfferStack q.1) (GetOfferOrder q.2)) quotes →
  algo_orders count (quotes.*1)
  = imap (λ i q, algo_order q.1 q.2 (count + Z.of_nat i))
      (filter (λ q, (fsub (order_price (GetOfferOrder q.2))
                       (order_price (GetBidOrder q.2))
                     ≤ 1 / Qc_of_Z 128)%Qc) quotes).
Proof.
  induction quotes as [|[book bo] quotes IH]; intros count Hquotes; [done|].
  apply Forall_cons in Hquotes as [[Hhi Hlo] Hquotes]. simpl in Hhi, Hlo.
  cbn [fmap list_fmap fst algo_orders].
  rewrite (GetBidOffer_best book bo Hhi Hlo). rewrite filter_cons.
  unfold spread. cbn [fst snd].
  case_bool_decide as Hspread.
  - rewrite decide_True by done. cbn [imap]. rewrite Z.add_0_r. f_equal.
    rewrite (IH (count + 1) Hquotes). apply imap_ext. intros i q _. simpl.
    f_equal. lia.
  - rewrite decide_False by done. by apply IH.
Qed.

(** X4.  Over successive snapshots, each with its first bid at the highest
    price and its first offer at the lowest price, all levels of at most
    2^53 in quantity, and starting from a counter that is not negative,
    [AlgoExecutionTrade] makes one order for each snapshot whose offer price
    minus bid price, subtracted in double precision, is at most 1/128, and
    none for the others.  The [i]-th order made is on the bid side, with
    the price and quantity of the best bid of its snapshot, when the
    counter plus [i] is odd, and on the offer side otherwise: the sides
    alternate from one order to the next; its id carries the counter plus
    [i + 1]: the numbers are consecutive, whatever snapshots were filtered
    in between.  Each order is passed once to every listener, in
    registration order, before the next is made; the service keeps the last
    order of each product, and its counter grows by the number of orders. *)
Theorem AlgoExecution_feed_counts {T} `{Product T}
    (svc : AlgoExecutionService T) (quotes : list (OrderBook T * BidOffer)) :
  0 ≤ executionCount svc →
  Forall (λ q, first_highest (GetBidStack q.1) (GetBidOrder q.2)
               ∧ first_lowest (GetOfferStack q.1) (GetOfferOrder q.2)
               ∧ Forall (λ o, Z.abs (order_quantity o) ≤ 9007199254740992)
                   (GetBidStack q.1 ++ GetOfferStack q.1)) quotes →
  let crossing :=
    filter (λ q, (fsub (order_price (GetOfferOrder q.2))
                    (order_price (GetBidOrder q.2))
                  ≤ 1 / Qc_of_Z 128)%Qc) quotes in
  let order (i : nat) (q : OrderBook T * BidOffer) :=
    let odd := Z.odd (executionCount svc + Z.of_nat i) in
    let chosen := if odd then GetBidOrder q.2 else GetOfferOrder q.2 in
    mkExecutionOrder (book_product q.1) (if odd then BID else OFFER)
      ("AlgoExec" +:+ to_string (executionCount svc + Z.of_nat i + 1)) MARKET
      (order_price chosen) (order_quantity chosen) 0 "PARENT_ORDER_ID" false in
  AlgoExecution_feed svc (quotes.*1)
  = Returns
      (mkAlgoExecutionService
         (foldl (λ stored o,
                   <[GetProductId (eo_product o) := mkAlgoExecution o]> stored)
            (algoExecutions svc) (imap order crossing))
         (ae_listeners svc)
         (executionCount svc + Z.of_nat (length crossing)),
       mjoin ((λ o, (λ l, ProcessAdd l (mkAlgoExecution o)) <$> ae_listeners svc)
              <$> imap order crossing)).
Proof.
  intros Hcount Hquotes crossing order.
  rewrite AlgoExecution_feed_orders; [|done| |].
  - rewrite algo_orders_quoted.
    + fold crossing. rewrite length_imap. done.
    + eapply Forall_impl; [exact Hquotes|]. by intros q (? & ? & _).
  - apply Forall_fmap. eapply Forall_impl; [exact Hquotes|].
    intros q (Hhi & Hlo & _). simpl. split.
    + intros Hnil. rewrite Hnil in Hhi. apply first_highest_elem in Hhi.
      by apply elem_of_nil in Hhi.
    + intros Hnil. rewrite Hnil in Hlo. apply first_lowest_elem in Hlo.
      by apply elem_of_nil in Hlo.
  - apply Forall_fmap. eapply Forall_impl; [exact Hquotes|].
    by intros q (_ & _ & ?).
Qed.

Definition tight_quote : OrderBook Bond * BidOffer :=
  (tight_book,
   mkBidOffer (mkOrder (Qc_of_Z 100) 1000000 BID)
     (mkOrder (Qc_of_Z 100 + 1 / Qc_of_Z 128)%Qc 2000000 OFFER)).

Definition wide_quote : OrderBook Bond * BidOffer :=
  (wide_book,
   mkBidOffer (mkOrder (Qc_of_Z 100) 1000000 BID)
     (mkOrder (Qc_of_Z 100 + 1 / Qc_of_Z 64)%Qc 2000000 OFFER)).

Lemma AlgoExecution_feed_counts_witness :
  let svc := algo_service 0 in
  let quotes := [tight_quote; wide_quote; tight_quote] in
  let crossing :=
    filter (λ q, (fsub (order_price (GetOfferOrder q.2))
                    (order_price (GetBidOrder q.2))
                  ≤ 1 / Qc_of_Z 128)%Qc) quotes in
  let order (i : nat) (q : OrderBook Bond * BidOffer) :=
    let odd := Z.odd (executionCount svc + Z.of_nat i) in
    let chosen := if odd then GetBidOrder q.2 else GetOfferOrder q.2 in
    mkExecutionOrder (book_product q.1) (if odd then BID else OFFER)
      ("AlgoExec" +:+ to_string (executionCount svc + Z.of_nat i + 1)) MARKET
      (order_price chosen) (order_quantity chosen) 0 "PARENT_ORDER_ID" false in
  AlgoExecution_feed svc (quotes.*1)
  = Returns
      (mkAlgoExecutionService
         (foldl (λ stored o,
                   <[GetProductId (eo_product o) := mkAlgoExecution o]> stored)
            (algoExecutions svc) (imap order crossing))
         (ae_listeners svc)
         (executionCount svc + Z.of_nat (length crossing)),
       mjoin ((λ o, (λ l, ProcessAdd l (mkAlgoExecution o)) <$> ae_listeners svc)
              <$> imap order crossing)).
Proof.
  apply (AlgoExecution_feed_counts (algo_service 0)
           [tight_quote; wide_quote; tight_quote]).
  - simpl. lia.
  - repeat apply Forall_cons_2; [..|apply Forall_nil_2];
      (split; [exists [], []; by repeat constructor|]);
      (split; [exists [], []; by repeat constructor|]);
      repeat constructor; simpl; lia.
Defined.

Example AlgoExecution_feed_example :
  let o1 :=
    mkAlgoExecution
      (mkExecutionOrder US2Y OFFER "AlgoExec1" MARKET
         (Qc_of_Z 100 + 1 / Qc_of_Z 128)%Qc 2000000 0 "PARENT_ORDER_ID" false) in
  let o2 :=
    mkAlgoExecution
      (mkExecutionOrder US2Y BID "AlgoExec2" MARKET (Qc_of_Z 100) 1000000 0
         "PARENT_ORDER_ID" false) in
  AlgoExecution_feed (algo_service 0) [tight_book; wide_book; tight_book]
  = Returns (mkAlgoExecutionService {[ "912828V23" := o2 ]} [7%nat; 8%nat] 2,
             [ProcessAdd 7%nat o1; ProcessAdd 8%nat o1;
              ProcessAdd 7%nat o2; ProcessAdd 8%nat o2]).
Proof. by vm_compute. Qed.
(** ** Streaming *)

(** Half a multiple of 1/256, and the sum and the difference of two
    multiples of 1/512, are computed exactly when they have at most 53
    bits. *)
Lemma fdiv_half (js : Z) :
  Z.abs js < 9007199254740992 →
  fdiv (Q2Qc (js # 256)) (Qc_of_Z 2) = Q2Qc (js # 512).
Proof.
  intros Hjs. unfold fdiv.
  assert (Q2Qc (js # 256) / Qc_of_Z 2 = Q2Qc (js # 512))%Qc as ->.
  { apply Qc_is_canon. simpl. rewrite !Qred_correct. unfold Qeq. simpl.
    rewrite ?Pos2Z.inj_mul. lia. }
  apply (binary64_exact _ js (-9)); [done|done|].
  simpl. rewrite !Qred_correct. unfold Qeq. simpl.
  rewrite ?Pos2Z.inj_mul. lia.
Qed.

Lemma fsub_512ths (ja jb : Z) :
  Z.abs (ja - jb) < 9007199254740992 →
  fsub (Q2Qc (ja # 512)) (Q2Qc (jb # 512)) = Q2Qc ((ja - jb) # 512).
Proof.
  intros Hdiff. unfold fsub.
  assert (Q2Qc (ja # 512) - Q2Qc (jb # 512) = Q2Qc ((ja - jb) # 512))%Qc as ->.
  { apply Qc_is_canon. simpl. rewrite !Qred_correct. unfold Qeq. simpl.
    rewrite ?Pos2Z.inj_mul. lia. }
  apply (binary64_exact _ (ja - jb) (-9)); [done|done|].
  simpl. rewrite !Qred_correct. unfold Qeq. simpl.
  rewrite ?Pos2Z.inj_mul. lia.
Qed.

Lemma fadd_512ths (ja jb : Z) :
  Z.abs (ja + jb) < 9007199254740992 →
  fadd (Q2Qc (ja # 512)) (Q2Qc (jb # 512)) = Q2Qc ((ja + jb) # 512).
Proof.
  intros Hsum. unfold fadd.
  assert (Q2Qc (ja # 512) + Q2Qc (jb # 512) = Q2Qc ((ja + jb) # 512))%Qc as ->.
  { apply Qc_is_canon. simpl. rewrite !Qred_correct. unfold Qeq. simpl.
    rewrite ?Pos2Z.inj_mul. lia. }
  apply (binary64_exact _ (ja + jb) (-9)); [done|done|].
  simpl. rewrite !Qred_correct. unfold Qeq. simpl.
  rewrite ?Pos2Z.inj_mul. lia.
Qed.

Lemma quoted_exact (jm js : Z) :
  Z.abs jm + Z.abs js < 9007199254740992 →
  fsub (Q2Qc (jm # 512)) (fdiv (Q2Qc (js # 256)) (Qc_of_Z 2))
  = Q2Qc ((jm - js) # 512)
  ∧ fadd (Q2Qc (jm # 512)) (fdiv (Q2Qc (js # 256)) (Qc_of_Z 2))
    = Q2Qc ((jm + js) # 512).
Proof.
  intros Hbits. by rewrite fdiv_half, fsub_512ths, fadd_512ths by lia.
Qed.



Definition streaming_service (count : Z) : AlgoStreamingService Bond :=
  mkAlgoStreamingService ∅ [9%nat] count.


(** The quote for a mid of 100 and a spread of 1/128, at an odd counter;
    and a quote that rounding changes: for a mid of 2^53 and a spread of 1
    both sides are quoted at 2^53. *)
Example AlgoPublishPrice_example :
  let stream :=
    mkAlgoStream
      (mkPriceStream US2Y
         (mkPriceStreamOrder (Qc_of_Z 100 - 1 / Qc_of_Z 256)%Qc
            2000000 4000000 BID)
         (mkPriceStreamOrder (Qc_of_Z 100 + 1 / Qc_of_Z 256)%Qc
            2000000 4000000 OFFER)) in
  AlgoPublishPrice (streaming_service 1)
    (mkPrice US2Y (Qc_of_Z 100) (1 / Qc_of_Z 128)%Qc)
  = (mkAlgoStreamingService {[ "912828V23" := stream ]} [9%nat] 2,
     [ProcessAdd 9%nat stream]).
Proof.
  assert (fsub (Qc_of_Z 100) (fdiv (1 / Qc_of_Z 128)%Qc (Qc_of_Z 2))
          = (Qc_of_Z 100 - 1 / Qc_of_Z 256)%Qc) as Hbid
    by (apply Qc_is_canon; by vm_compute).
  assert (fadd (Qc_of_Z 100) (fdiv (1 / Qc_of_Z 128)%Qc (Qc_of_Z 2))
          = (Qc_of_Z 100 + 1 / Qc_of_Z 256)%Qc) as Hoffer
    by (apply Qc_is_canon; by vm_compute).
  unfold AlgoPublishPrice. cbn [GetMid GetBidOfferSpread price_product].
  by rewrite Hbid, Hoffer.
Qed.

Example AlgoPublishPrice_rounded :
  let side s := mkPriceStreamOrder (Qc_of_Z 9007199254740992) 1000000 2000000 s in
  let stream := mkAlgoStream (mkPriceStream US2Y (side BID) (side OFFER)) in
  AlgoPublishPrice (streaming_service 0)
    (mkPrice US2Y (Qc_of_Z 9007199254740992) (Qc_of_Z 1))
  = (mkAlgoStreamingService {[ "912828V23" := stream ]} [9%nat] 1,
     [ProcessAdd 9%nat stream]).
Proof.
  assert (fsub (Qc_of_Z 9007199254740992) (fdiv (Qc_of_Z 1) (Qc_of_Z 2))
          = Qc_of_Z 9007199254740992) as Hbid
    by (apply Qc_is_canon; by vm_compute).
  assert (fadd (Qc_of_Z 9007199254740992) (fdiv (Qc_of_Z 1) (Qc_of_Z 2))
          = Qc_of_Z 9007199254740992) as Hoffer
    by (apply Qc_is_canon; by vm_compute).
  unfold AlgoPublishPrice. cbn [GetMid GetBidOfferSpread price_product].
  by rewrite Hbid, Hoffer.
Qed.
(** ** Booking and positions *)

(** The execution orders the execution service hands, one after the other,
    to the listener of the booking service: the counter, the service and
    the calls made. *)
Fixpoint TradeBooking_feed {T} (bookedCount : long)
    (svc : TradeBookingService T) (orders : list (ExecutionOrder T))
    : outcome (long * TradeBookingService T * list (Call (Trade T))) :=
  match orders with
  | [] => Returns (bookedCount, svc, [])
  | o :: orders' =>
      r1 ← TradeBookingServiceListener_ProcessAdd bookedCount svc o;
      r2 ← TradeBooking_feed r1.1.1 r1.1.2 orders';
      Returns (r2.1, r1.2 ++ r2.2)
  end.

Lemma ProcessAdd_booked {T} (bookedCount : Z) (svc : TradeBookingService T)
    (o : ExecutionOrder T) :
  0 ≤ bookedCount →
  ∃ book,
    marketBooks !! Z.to_nat ((bookedCount + 1) `mod` 3) = Some book
    ∧ TradeBookingServiceListener_ProcessAdd bookedCount svc o
      = Returns (bookedCount + 1,
                 mkTradeBookingService
                   (<[GetOrderId o := booked_trade o book]> (trades svc))
                   (tb_listeners svc),
                 fan_out (tb_listeners svc) (booked_trade o book)
                 ++ fan_out (tb_listeners svc) (booked_trade o book)).
Proof.
  intros Hcount.
  destruct (marketBooks_round_robin (bookedCount + 1)) as [book Hbook]; [lia|].
  exists book. split.
  - rewrite <- Z.rem_mod_nonneg by lia. exact Hbook.
  - unfold TradeBookingServiceListener_ProcessAdd.
    pose proof (Z.rem_bound_pos (bookedCount + 1) 3) as Hrem.
    rewrite bool_decide_eq_false_2 by lia. by rewrite Hbook.
Qed.

(** X6.  Three execution orders booked one after the other go to three
    different books.  From any counter that is not negative, the [k]-th
    order is booked in the book at index (counter + [k]) mod 3 of TRSY1,
    TRSY2, TRSY3, so the books of the three trades are the three in some
    order and a fourth order would be booked where the first one was.  Each
    trade has the product, id and price of its order, the sum of its
    visible and hidden quantities, and side SELL for BID and BUY for OFFER;
    it is stored under the order's id and passed twice in a row to every
    listener, in registration order, before the next order is booked; the
    counter has advanced by three. *)
Theorem ProcessAdd_round_robin {T} (bookedCount : Z)
    (svc : TradeBookingService T) (o1 o2 o3 : ExecutionOrder T) :
  0 ≤ bookedCount →
  ∃ b1 b2 b3,
    let trade (o : ExecutionOrder T) (book : string) :=
      mkTrade (eo_product o) (GetOrderId o) (eo_price o) book
        (GetVisibleQuantity o + GetHiddenQuantity o)
        (match GetPricingSide o with BID => SELL | OFFER => BUY end) in
    let deliver (t : Trade T) := (λ l, ProcessAdd l t) <$> tb_listeners svc in
    ["TRSY1"; "TRSY2"; "TRSY3"] !! Z.to_nat ((bookedCount + 1) `mod` 3) = Some b1
    ∧ ["TRSY1"; "TRSY2"; "TRSY3"] !! Z.to_nat ((bookedCount + 2) `mod` 3) = Some b2
    ∧ ["TRSY1"; "TRSY2"; "TRSY3"] !! Z.to_nat ((bookedCount + 3) `mod` 3) = Some b3
    ∧ ["TRSY1"; "TRSY2"; "TRSY3"] !! Z.to_nat ((bookedCount + 4) `mod` 3) = Some b1
    ∧ [b1; b2; b3] ≡ₚ ["TRSY1"; "TRSY2"; "TRSY3"]
    ∧ TradeBooking_feed bookedCount svc [o1; o2; o3]
      = Returns (bookedCount + 3,
                 mkTradeBookingService
                   (<[GetOrderId o3 := trade o3 b3]>
                      (<[GetOrderId o2 := trade o2 b2]>
                         (<[GetOrderId o1 := trade o1 b1]> (trades svc))))
                   (tb_listeners svc),
                 deliver (trade o1 b1) ++ deliver (trade o1 b1)
                 ++ deliver (trade o2 b2) ++ deliver (trade o2 b2)
                 ++ deliver (trade o3 b3) ++ deliver (trade o3 b3)).
Proof.
  intros Hcount.
  destruct (ProcessAdd_booked bookedCount svc o1 Hcount) as (b1 & Hb1 & H1).
  set (svc1 := mkTradeBookingService
                 (<[GetOrderId o1 := booked_trade o1 b1]> (trades svc))
                 (tb_listeners svc)) in *.
  destruct (ProcessAdd_booked (bookedCount + 1) svc1 o2) as (b2 & Hb2 & H2);
    [lia|].
  set (svc2 := mkTradeBookingService
                 (<[GetOrderId o2 := booked_trade o2 b2]> (trades svc1))
                 (tb_listeners svc1)) in *.
  destruct (ProcessAdd_booked (bookedCount + 2) svc2 o3) as (b3 & Hb3 & H3);
    [lia|].
  exists b1, b2, b3. intros trade deliver.
  replace ((bookedCount + 1 + 1) `mod` 3) with ((bookedCount + 2) `mod` 3)
    in Hb2 by (f_equal; lia).
  replace ((bookedCount + 2 + 1) `mod` 3) with ((bookedCount + 3) `mod` 3)
    in Hb3 by (f_equal; lia).
  assert ((bookedCount + 4) `mod` 3 = (bookedCount + 1) `mod` 3) as Hwrap.
  { replace (bookedCount + 4) with (bookedCount + 1 + 1 * 3) by lia.
    apply Z.mod_add. lia. }
  rewrite Hwrap. do 4 (split; [done|]).
  split.
  { pose proof (Z.mod_pos_bound bookedCount 3) as Hr.
    assert (bookedCount `mod` 3 = 0 ∨ bookedCount `mod` 3 = 1
            ∨ bookedCount `mod` 3 = 2) as Hcases by lia.
    rewrite (Zplus_mod bookedCount 1) in Hb1.
    rewrite (Zplus_mod bookedCount 2) in Hb2.
    rewrite (Zplus_mod bookedCount 3) in Hb3.
    destruct Hcases as [Hc|[Hc|Hc]]; rewrite Hc in Hb1, Hb2, Hb3;
      vm_compute in Hb1, Hb2, Hb3;
      injection Hb1 as <-; injection Hb2 as <-; injection Hb3 as <-.
    - solve_Permutation.
    - solve_Permutation.
    - reflexivity. }
  cbn [TradeBooking_feed]. rewrite H1. cbn [mbind outcome_bind fst snd].
  rewrite H2. cbn [mbind outcome_bind fst snd].
  replace (bookedCount + 1 + 1) with (bookedCount + 2) by lia.
  rewrite H3. cbn [mbind outcome_bind fst snd].
  replace (bookedCount + 2 + 1) with (bookedCount + 3) by lia.
  unfold svc2, svc1. cbn [tb_listeners trades].
  rewrite !fan_out_fmap, app_nil_r, <- !app_assoc. done.
Qed.

Lemma ProcessAdd_round_robin_witness :
  ∃ b1 b2 b3,
    let trade (o : ExecutionOrder Bond) (book : string) :=
      mkTrade (eo_product o) (GetOrderId o) (eo_price o) book
        (GetVisibleQuantity o + GetHiddenQuantity o)
        (match GetPricingSide o with BID => SELL | OFFER => BUY end) in
    let deliver (t : Trade Bond) :=
      (λ l, ProcessAdd l t) <$> tb_listeners booking_service in
    ["TRSY1"; "TRSY2"; "TRSY3"] !! Z.to_nat ((0 + 1) `mod` 3) = Some b1
    ∧ ["TRSY1"; "TRSY2"; "TRSY3"] !! Z.to_nat ((0 + 2) `mod` 3) = Some b2
    ∧ ["TRSY1"; "TRSY2"; "TRSY3"] !! Z.to_nat ((0 + 3) `mod` 3) = Some b3
    ∧ ["TRSY1"; "TRSY2"; "TRSY3"] !! Z.to_nat ((0 + 4) `mod` 3) = Some b1
    ∧ [b1; b2; b3] ≡ₚ ["TRSY1"; "TRSY2"; "TRSY3"]
    ∧ TradeBooking_feed 0 booking_service [bid_order; bid_order; bid_order]
      = Returns (0 + 3,
                 mkTradeBookingService
                   (<[GetOrderId bid_order := trade bid_order b3]>
                      (<[GetOrderId bid_order := trade bid_order b2]>
                         (<[GetOrderId bid_order := trade bid_order b1]>
                            (trades booking_service))))
                   (tb_listeners booking_service),
                 deliver (trade bid_order b1) ++ deliver (trade bid_order b1)
                 ++ deliver (trade bid_order b2) ++ deliver (trade bid_order b2)
                 ++ deliver (trade bid_order b3) ++ deliver (trade bid_order b3)).
Proof.
  apply (ProcessAdd_round_robin 0 booking_service bid_order bid_order bid_order).
  lia.
Defined.

(** The position service behind the booking service: every call of the
    booking service to its listeners reaches
    [PositionServiceListener::ProcessAdd], as [main] registers no other
    listener with the booking service. *)
Definition Position_deliver {T} `{Product T} (svc : PositionService T)
    (calls : list (Call (Trade T)))
    : PositionService T * list (Call (Position T)) :=
  foldl (λ acc c,
           let '(svc', calls') :=
             PositionServiceListener_ProcessAdd acc.1 (call_data c) in
           (svc', acc.2 ++ calls'))
    (svc, []) calls.

Lemma Position_deliver_AddTrades {T} `{Product T} (svc : PositionService T)
    (calls : list (Call (Trade T))) :
  Position_deliver svc calls = AddTrades svc (call_data <$> calls).
Proof.
  unfold Position_deliver, AddTrades, PositionServiceListener_ProcessAdd.
  generalize (svc, @nil (Call (Position T))).
  induction calls as [|c calls IH]; intros acc; [done|]. simpl. apply IH.
Qed.

(** X7.  An execution order booked by
    [TradeBookingServiceListener::ProcessAdd] counts twice in the position:
    with the position service as the one listener of the booking service,
    the trade reaches [AddTrade] once from [OnMessage] and once from
    [BookTrade], and the aggregate position of the product moves by twice
    the trade's signed quantity, that is by twice the order's visible plus
    hidden quantity, down for a BID order and up for an OFFER order; the
    same trade passed to [OnMessage] alone moves it once. *)
Theorem booked_order_counts_twice {T} `{Product T} (bookedCount : Z)
    (booking : TradeBookingService T) (l : ListenerRef)
    (positions : PositionService T) (o : ExecutionOrder T) :
  0 ≤ bookedCount →
  tb_listeners booking = [l] →
  ∃ trade booking',
    TradeBookingServiceListener_ProcessAdd bookedCount booking o
    = Returns (bookedCount + 1, booking',
               [ProcessAdd l trade; ProcessAdd l trade])
    ∧ trade_product trade = eo_product o
    ∧ signed_quantity trade
      = match GetPricingSide o with
        | BID => - (GetVisibleQuantity o + GetHiddenQuantity o)
        | OFFER => GetVisibleQuantity o + GetHiddenQuantity o
        end
    ∧ GetAggregatePosition
        (position_of
           (Position_deliver positions
              [ProcessAdd l trade; ProcessAdd l trade]).1
           (GetProductId (eo_product o)))
      = GetAggregatePosition (position_of positions (GetProductId (eo_product o)))
        + 2 * signed_quantity trade
    ∧ GetAggregatePosition
        (position_of
           (Position_deliver positions (TradeBooking_OnMessage booking trade).2).1
           (GetProductId (eo_product o)))
      = GetAggregatePosition (position_of positions (GetProductId (eo_product o)))
        + signed_quantity trade.
Proof.
  intros Hcount Hl.
  destruct (ProcessAdd_booked bookedCount booking o Hcount) as (book & _ & Hadd).
  exists (booked_trade o book). eexists.
  split. { rewrite Hadd, Hl. reflexivity. }
  split; [done|].
  split. { unfold signed_quantity, booked_trade. simpl.
           by destruct (GetPricingSide o). }
  split.
  - rewrite Position_deliver_AddTrades, AddTrades_aggregate.
    cbn [fmap list_fmap call_data traded foldr].
    rewrite !decide_True by done. lia.
  - rewrite Position_deliver_AddTrades, AddTrades_aggregate.
    unfold TradeBooking_OnMessage. rewrite Hl.
    change (fan_out [l] (booked_trade o book))
      with [ProcessAdd l (booked_trade o book)].
    cbn [snd fmap list_fmap call_data traded foldr].
    rewrite !decide_True by done. lia.
Qed.

Definition position_service : PositionService Bond := mkPositionService ∅ [].

Lemma booked_order_counts_twice_witness :
  ∃ trade booking',
    TradeBookingServiceListener_ProcessAdd 0
      (mkTradeBookingService ∅ [3%nat]) bid_order
    = Returns (0 + 1, booking', [ProcessAdd 3%nat trade; ProcessAdd 3%nat trade])
    ∧ trade_product trade = eo_product bid_order
    ∧ signed_quantity trade
      = match GetPricingSide bid_order with
        | BID => - (GetVisibleQuantity bid_order + GetHiddenQuantity bid_order)
        | OFFER => GetVisibleQuantity bid_order + GetHiddenQuantity bid_order
        end
    ∧ GetAggregatePosition
        (position_of
           (Position_deliver position_service
              [ProcessAdd 3%nat trade; ProcessAdd 3%nat trade]).1
           (GetProductId (eo_product bid_order)))
      = GetAggregatePosition
          (position_of position_service (GetProductId (eo_product bid_order)))
        + 2 * signed_quantity trade
    ∧ GetAggregatePosition
        (position_of
           (Position_deliver position_service
              (TradeBooking_OnMessage (mkTradeBookingService ∅ [3%nat]) trade).2).1
           (GetProductId (eo_product bid_order)))
      = GetAggregatePosition
          (position_of position_service (GetProductId (eo_product bid_order)))
        + signed_quantity trade.
Proof.
  apply (booked_order_counts_twice 0 (mkTradeBookingService ∅ [3%nat]) 3%nat
           position_service bid_order).
  - lia.
  - reflexivity.
Defined.

(** X8.  After any sequence of trades applied by [AddTrade], the position
    of a product in a book has moved by the sum of the signed quantities of
    the trades on that product in that book, whatever the other trades of
    the sequence; from a new service the position in a book is that sum, so
    it is 0 for a book or a product that was never traded. *)
Theorem AddTrade_book_is_sum_of_trades :
  (∀ T (P : Product T) (svc : PositionService T) (feed : list (Trade T))
     (productId book : string),
     GetPosition (position_of (AddTrades svc feed).1 productId) book
     = GetPosition (position_of svc productId) book
       + traded_in_book productId book feed)
  ∧ (∀ T (P : Product T) (feed : list (Trade T)) (productId book : string),
       GetPosition (position_of (AddTrades PositionService_new feed).1 productId)
         book
       = traded_in_book productId book feed).
Proof.
  split.
  - intros. apply AddTrades_book.
  - intros. rewrite AddTrades_book.
    unfold position_of, PositionService_new, GetPosition. simpl.
    by rewrite !lookup_empty.
Qed.

(** ** Positions and risk, wired *)

Global Instance PositionListener_eq_dec : EqDecision PositionListener.
Proof. solve_decision. Defined.

Lemma AddTrade_notifies_stored {T} `{Product T} (svc : PositionService T)
    (t : Trade T) :
  (AddTrade svc t).2
  = fan_out (ps_listeners svc)
      (position_of (AddTrade svc t).1 (GetProductId (trade_product t)))
  ∧ ps_listeners (AddTrade svc t).1 = ps_listeners svc
  ∧ pos_product
      (position_of (AddTrade svc t).1 (GetProductId (trade_product t)))
    = trade_product t.
Proof.
  split; [|split].
  - unfold position_of, AddTrade, subscript.
    destruct (positions svc !! GetProductId (trade_product t));
      simpl; by rewrite lookup_insert_eq.
  - unfold AddTrade, subscript.
    by destruct (positions svc !! GetProductId (trade_product t)).
  - rewrite AddTrade_position_of, decide_True by done.
    by rewrite merge_positions_product.
Qed.



Lemma AddTrades_listeners {T} `{Product T} (feed : list (Trade T)) :
  ∀ svc : PositionService T,
  ps_listeners (AddTrades svc feed).1 = ps_listeners svc.
Proof.
  induction feed as [|t feed IH]; intros svc; [done|].
  rewrite AddTrades_cons, IH. apply AddTrade_notifies_stored.
Qed.




(** ** Inquiries: terminal states, quotes and rejections *)

Lemma Inquiry_OnMessage_enough {T} (svc : InquiryService T) (data : Inquiry T)
    (fuel : nat) :
  (2 ≤ fuel)%nat →
  Inquiry_OnMessage fuel svc data = Some (Inquiry_OnMessage_run svc data).
Proof.
  intros Hfuel. destruct fuel as [|[|fuel]]; [lia|lia|].
  unfold Inquiry_OnMessage_run.
  destruct (GetState data) eqn:Hstate.
  - by rewrite !Inquiry_OnMessage_received.
  - by rewrite !Inquiry_OnMessage_quoted.
  - rewrite !Inquiry_OnMessage_terminal; [done|congruence..].
  - rewrite !Inquiry_OnMessage_terminal; [done|congruence..].
  - rewrite !Inquiry_OnMessage_terminal; [done|congruence..].
Qed.

Lemma Inquiry_OnMessage_run_cases {T} (svc : InquiryService T)
    (data : Inquiry T) :
  Inquiry_OnMessage_run svc data
  = if bool_decide (GetState data = RECEIVED ∨ GetState data = QUOTED)
    then (store svc (SetState data DONE), SetState data DONE,
          fan_out (inq_listeners svc) (SetState data DONE))
    else (svc, data, []).
Proof.
  unfold Inquiry_OnMessage_run. destruct (GetState data) eqn:Hstate.
  - by rewrite Inquiry_OnMessage_received.
  - by rewrite Inquiry_OnMessage_quoted.
  - rewrite Inquiry_OnMessage_terminal; [done|congruence..].
  - rewrite Inquiry_OnMessage_terminal; [done|congruence..].
  - rewrite Inquiry_OnMessage_terminal; [done|congruence..].
Qed.

(** X10.  An inquiry that reaches [OnMessage] in the state DONE, REJECTED
    or CUSTOMER_REJECTED is dropped: the call returns, for every depth of
    calls allowed, with the service as it was, so the inquiry is not stored
    and an earlier record under its id is kept, and no listener is called.
    In particular a second [OnMessage] on the inquiry a first call left
    DONE changes nothing. *)
Theorem Inquiry_OnMessage_terminal_dropped {T} (svc : InquiryService T)
    (data : Inquiry T) (fuel : nat) :
  (1 ≤ fuel)%nat →
  GetState data ∈ [DONE; REJECTED; CUSTOMER_REJECTED] →
  Inquiry_OnMessage fuel svc data = Some (svc, data, [])
  ∧ ∀ (svc0 svc1 : InquiryService T) (data0 data1 : Inquiry T) calls,
      Inquiry_OnMessage (S fuel) svc0 data0 = Some (svc1, data1, calls) →
      GetState data0 ∈ [RECEIVED; QUOTED] →
      Inquiry_OnMessage fuel svc1 data1 = Some (svc1, data1, []).
Proof.
  intros Hfuel Hstate. destruct fuel as [|fuel]; [lia|]. split.
  - apply Inquiry_OnMessage_terminal; intros Heq; rewrite Heq in Hstate;
      repeat (apply elem_of_cons in Hstate as [?|Hstate]; [done|]);
      by apply elem_of_nil in Hstate.
  - intros svc0 data0 svc1 data1 calls Hcall Hstate0.
    assert (GetState data1 = DONE) as Hdone.
    { apply elem_of_cons in Hstate0 as [Hr|Hq].
      - rewrite Inquiry_OnMessage_received in Hcall by done.
        by injection Hcall as _ <- _.
      - apply elem_of_cons in Hq as [Hq|Hq]; [|by apply elem_of_nil in Hq].
        rewrite Inquiry_OnMessage_quoted in Hcall by done.
        by injection Hcall as _ <- _. }
    apply Inquiry_OnMessage_terminal; congruence.
Qed.

Lemma Inquiry_OnMessage_terminal_dropped_witness :
  let data := SetState received_inquiry REJECTED in
  Inquiry_OnMessage 1 inquiry_service data = Some (inquiry_service, data, [])
  ∧ ∀ (svc0 svc1 : InquiryService Bond) (data0 data1 : Inquiry Bond) calls,
      Inquiry_OnMessage 2 svc0 data0 = Some (svc1, data1, calls) →
      GetState data0 ∈ [RECEIVED; QUOTED] →
      Inquiry_OnMessage 1 svc1 data1 = Some (svc1, data1, []).
Proof.
  apply (Inquiry_OnMessage_terminal_dropped inquiry_service
           (SetState received_inquiry REJECTED) 1).
  - lia.
  - apply elem_of_cons. right. apply elem_of_cons. by left.
Defined.

Lemma SendQuote_entry {T} `{Product T} (svc : InquiryService T)
    (inquiryId : string) (price : double) :
  SendQuote svc inquiryId price
  = (mkInquiryService
       (<[inquiryId := SetPrice (default Inquiry_default
                                   (inquiries svc !! inquiryId)) price]>
          (inquiries svc))
       (inq_listeners svc),
     fan_out (inq_listeners svc)
       (SetPrice (default Inquiry_default (inquiries svc !! inquiryId)) price)).
Proof.
  unfold SendQuote, subscript.
  destruct (inquiries svc !! inquiryId); [done|].
  simpl. by rewrite insert_insert_eq.
Qed.

Lemma RejectInquiry_entry {T} `{Product T} (svc : InquiryService T)
    (inquiryId : string) :
  RejectInquiry svc inquiryId
  = mkInquiryService
      (<[inquiryId := SetState (default Inquiry_default
                                  (inquiries svc !! inquiryId)) REJECTED]>
         (inquiries svc))
      (inq_listeners svc).
Proof.
  unfold RejectInquiry, subscript.
  destruct (inquiries svc !! inquiryId); [done|].
  simpl. by rewrite insert_insert_eq.
Qed.

(** X11.  Quotes and rejections on an inquiry the service has handled.
    [OnMessage] on a RECEIVED or QUOTED inquiry stores it as DONE and passes
    it once to every listener, in registration order.  [SendQuote] on its
    id then stores the price and passes the record to every listener in the
    same way, leaving the state DONE: a quote never makes an inquiry
    QUOTED.  [RejectInquiry] then marks the record REJECTED, although it was
    DONE, keeping the quoted price, touching no other id and calling
    nobody; and a later [OnMessage] with the same inquiry overwrites the
    rejection and the quoted price with the inquiry, DONE, and notifies the
    listeners again. *)
Theorem quote_and_reject_after_OnMessage {T} `{Product T}
    (svc : InquiryService T) (data : Inquiry T) (price : double) (fuel : nat) :
  (2 ≤ fuel)%nat →
  GetState data ∈ [RECEIVED; QUOTED] →
  let record (p : double) (s : InquiryState) :=
    mkInquiry (GetInquiryId data) (inq_product data) (inq_side data)
      (inq_quantity data) p s in
  let holding (i : Inquiry T) :=
    mkInquiryService (<[GetInquiryId data := i]> (inquiries svc))
      (inq_listeners svc) in
  let notified (i : Inquiry T) :=
    (λ l, ProcessAdd l i) <$> inq_listeners svc in
  let done := record (inq_price data) DONE in
  Inquiry_OnMessage fuel svc data = Some (holding done, done, notified done)
  ∧ SendQuote (holding done) (GetInquiryId data) price
    = (holding (record price DONE), notified (record price DONE))
  ∧ RejectInquiry (holding (record price DONE)) (GetInquiryId data)
    = holding (record price REJECTED)
  ∧ Inquiry_OnMessage fuel (holding (record price REJECTED)) data
    = Some (holding done, done, notified done).
Proof.
  intros Hfuel Hstate record holding notified done.
  assert (bool_decide (GetState data = RECEIVED ∨ GetState data = QUOTED)
          = true) as Hlive.
  { apply bool_decide_eq_true_2.
    apply elem_of_cons in Hstate as [?|Hstate]; [by left|].
    apply elem_of_cons in Hstate as [?|Hstate]; [by right|].
    by apply elem_of_nil in Hstate. }
  split.
  { rewrite Inquiry_OnMessage_enough, Inquiry_OnMessage_run_cases, Hlive by done.
    by rewrite fan_out_fmap. }
  split.
  { rewrite SendQuote_entry, fan_out_fmap.
    cbn [holding inquiries inq_listeners].
    rewrite lookup_insert_eq, insert_insert_eq. done. }
  split.
  { rewrite RejectInquiry_entry. cbn [holding inquiries inq_listeners].
    rewrite lookup_insert_eq, insert_insert_eq. done. }
  rewrite Inquiry_OnMessage_enough, Inquiry_OnMessage_run_cases, Hlive by done.
  unfold store. cbn [holding inquiries inq_listeners SetState GetInquiryId].
  by rewrite insert_insert_eq, fan_out_fmap.
Qed.

Lemma quote_and_reject_after_OnMessage_witness :
  let svc := inquiry_service in
  let data := received_inquiry in
  let price := Qc_of_Z 100 in
  let record (p : double) (s : InquiryState) :=
    mkInquiry (GetInquiryId data) (inq_product data) (inq_side data)
      (inq_quantity data) p s in
  let holding (i : Inquiry Bond) :=
    mkInquiryService (<[GetInquiryId data := i]> (inquiries svc))
      (inq_listeners svc) in
  let notified (i : Inquiry Bond) :=
    (λ l, ProcessAdd l i) <$> inq_listeners svc in
  let done := record (inq_price data) DONE in
  Inquiry_OnMessage 2 svc data = Some (holding done, done, notified done)
  ∧ SendQuote (holding done) (GetInquiryId data) price
    = (holding (record price DONE), notified (record price DONE))
  ∧ RejectInquiry (holding (record price DONE)) (GetInquiryId data)
    = holding (record price REJECTED)
  ∧ Inquiry_OnMessage 2 (holding (record price REJECTED)) data
    = Some (holding done, done, notified done).
Proof.
  apply (quote_and_reject_after_OnMessage inquiry_service received_inquiry
           (Qc_of_Z 100) 2).
  - lia.
  - apply elem_of_cons. by left.
Defined.

(** X12.  [SendQuote] and [RejectInquiry] on an id the service has never
    seen do not fail: [operator[]] creates a value-initialised inquiry
    under that id.  [SendQuote] stores it with the price, an empty inquiry
    id, quantity 0 and the state RECEIVED, and passes it once to every
    listener, in registration order; [RejectInquiry] stores it REJECTED
    and calls nobody.  Either way the id is known afterwards, and every
    other id is as before. *)
Theorem quote_or_reject_unknown_inquiry {T} `{Product T}
    (svc : InquiryService T) (inquiryId : string) (price : double) :
  inquiries svc !! inquiryId = None →
  let quoted := mkInquiry EmptyString product_default BUY 0 price RECEIVED in
  let rejected :=
    mkInquiry EmptyString product_default BUY 0 0%Qc REJECTED in
  SendQuote svc inquiryId price
  = (mkInquiryService (<[inquiryId := quoted]> (inquiries svc))
       (inq_listeners svc),
     (λ l, ProcessAdd l quoted) <$> inq_listeners svc)
  ∧ RejectInquiry svc inquiryId
    = mkInquiryService (<[inquiryId := rejected]> (inquiries svc))
        (inq_listeners svc).
Proof.
  intros Hnew quoted rejected.
  rewrite SendQuote_entry, RejectInquiry_entry, Hnew, fan_out_fmap. done.
Qed.

Lemma quote_or_reject_unknown_inquiry_witness :
  let svc := inquiry_service in
  let quoted := mkInquiry EmptyString (mkBond "" "") BUY 0 (Qc_of_Z 100) RECEIVED in
  let rejected := mkInquiry EmptyString (mkBond "" "") BUY 0 0%Qc REJECTED in
  SendQuote svc "INQ9" (Qc_of_Z 100)
  = (mkInquiryService (<["INQ9" := quoted]> (inquiries svc))
       (inq_listeners svc),
     (λ l, ProcessAdd l quoted) <$> inq_listeners svc)
  ∧ RejectInquiry svc "INQ9"
    = mkInquiryService (<["INQ9" := rejected]> (inquiries svc))
        (inq_listeners svc).
Proof.
  exact (quote_or_reject_unknown_inquiry inquiry_service "INQ9" (Qc_of_Z 100)
           eq_refl).
Defined.
(** ** Lines and their fields *)

(** No comma in the text. *)
Fixpoint no_comma (s : string) : bool :=
  match s with
  | EmptyString => true
  | String c rest => negb (bool_decide (c = ","%char)) && no_comma rest
  end.

Lemma no_comma_app (a b : string) :
  no_comma (a +:+ b) = no_comma a && no_comma b.
Proof.
  induction a as [|c a IH]; [by rewrite string_app_nil_l|].
  rewrite string_app_cons. cbn [no_comma]. rewrite IH.
  by rewrite andb_assoc.
Qed.

Lemma split_commas_field (a rest : string) :
  no_comma a = true →
  split_commas (a +:+ String "," rest) = a :: split_commas rest.
Proof.
  induction a as [|c a IH]; intros Ha.
  - rewrite string_app_nil_l. cbn [split_commas].
    by rewrite bool_decide_eq_true_2.
  - cbn [no_comma] in Ha. apply andb_true_iff in Ha as [Hc Ha].
    apply negb_true_iff, bool_decide_eq_false in Hc.
    rewrite string_app_cons. cbn [split_commas].
    rewrite bool_decide_eq_false_2 by done. by rewrite IH.
Qed.

Lemma split_commas_last (a : string) :
  no_comma a = true → a ≠ EmptyString → split_commas a = [a].
Proof.
  induction a as [|c a IH]; intros Ha Hne; [done|].
  cbn [no_comma] in Ha. apply andb_true_iff in Ha as [Hc Ha].
  apply negb_true_iff, bool_decide_eq_false in Hc.
  cbn [split_commas]. rewrite bool_decide_eq_false_2 by done.
  destruct a as [|c' a]; [done|]. by rewrite IH.
Qed.

Lemma no_comma_string_of_uint u : no_comma (NilEmpty.string_of_uint u) = true.
Proof. induction u; try done. Qed.

Lemma no_comma_to_string (n : Z) : 0 ≤ n → no_comma (to_string n) = true.
Proof.
  intros Hn. destruct (to_string_nonneg n Hn) as (u & _ & -> & _).
  apply no_comma_string_of_uint.
Qed.

Lemma stol_to_string (n : Z) :
  0 ≤ n ≤ 9223372036854775807 → stol (to_string n) = Returns n.
Proof.
  intros Hn. destruct (to_string_nonneg n) as (u & Hu & Htext & Hval); [lia|].
  unfold stol. rewrite Htext.
  rewrite <- (string_app_nil_r (NilEmpty.string_of_uint u)).
  rewrite skip_space_digit, read_sign_digit by done.
  rewrite read_digits_string_of_uint by done.
  assert (signed false (Z.of_uint u) = n) as Hsigned by (by rewrite Hval).
  destruct u; try done; cbv zeta; rewrite Hsigned;
    rewrite bool_decide_eq_true_2; try done;
    (change LONG_MIN with (-9223372036854775808);
     change LONG_MAX with 9223372036854775807; lia).
Qed.

Lemma persisted_line_unfold (dataFields : list string) :
  ∀ line,
  foldl (λ line field, line +:+ field +:+ ",") line dataFields
  = line +:+ foldr (λ field rest, field +:+ String "," rest) "" dataFields.
Proof.
  induction dataFields as [|field dataFields IH]; intros line.
  - by rewrite string_app_nil_r.
  - cbn [foldl foldr]. rewrite IH. by rewrite !string_app_assoc.
Qed.

Lemma split_commas_fields (dataFields : list string) :
  Forall (λ field, no_comma field = true) dataFields →
  split_commas (foldr (λ field rest, field +:+ String "," rest) "" dataFields)
  = dataFields.
Proof.
  induction 1 as [|field dataFields Hfield _ IH]; [done|].
  cbn [foldr]. by rewrite split_commas_field, IH.
Qed.

(** X13.  A record persisted by [HistoricalDataConnector::Publish] goes as
    one line to the end of the file chosen by the service type, every other
    file being left alone, and nothing is written when the file does not
    open.  Read back the way the connectors of the system split a line,
    cutting at the commas, the line gives the time followed by exactly the
    fields that [PrintFunction] returned, empty ones included, provided
    that no field and no time contains a comma: the comma after the last
    field adds no field. *)
Theorem persisted_line_fields (is_open : string → bool)
    (files : gmap string (list string)) (typeStr nowTime : string)
    (dataFields : list string) :
  no_comma nowTime = true →
  Forall (λ field, no_comma field = true) dataFields →
  let files' := HistoricalData_Publish is_open files typeStr nowTime dataFields in
  split_commas (persisted_line nowTime dataFields) = nowTime :: dataFields
  ∧ (is_open (output_path typeStr) = true →
     files' !! output_path typeStr
     = Some (default [] (files !! output_path typeStr)
             ++ [persisted_line nowTime dataFields]))
  ∧ (is_open (output_path typeStr) = false → files' = files)
  ∧ (∀ path, path ≠ output_path typeStr → files' !! path = files !! path)
  ∧ output_path typeStr
    ∈ ["Data/Output/positions.txt"; "Data/Output/risk.txt";
       "Data/Output/executions.txt"; "Data/Output/streaming.txt";
       "Data/Output/allinquiries.txt"; "Data/Output/unknown.txt"].
Proof.
  intros Htime Hfields files'. split; [|split; [|split; [|split]]].
  - unfold persisted_line. rewrite persisted_line_unfold.
    rewrite string_app_assoc.
    change ("," +:+ ?rest) with (String ","%char rest).
    rewrite split_commas_field by done. by rewrite split_commas_fields.
  - intros Hopen. unfold files', HistoricalData_Publish. rewrite Hopen.
    apply lookup_insert_eq.
  - intros Hclosed. unfold files', HistoricalData_Publish. by rewrite Hclosed.
  - intros path Hpath. unfold files', HistoricalData_Publish.
    destruct (is_open (output_path typeStr)); [|done].
    by rewrite lookup_insert_ne.
  - unfold output_path. repeat case_bool_decide;
      rewrite !elem_of_cons; tauto.
Qed.

Lemma persisted_line_fields_witness :
  let files' :=
    HistoricalData_Publish (λ _, true) ∅ "Risk" "2024-Dec-20 10:00:00"
      ["912828V23"; ""; "1000000"] in
  split_commas
    (persisted_line "2024-Dec-20 10:00:00" ["912828V23"; ""; "1000000"])
  = "2024-Dec-20 10:00:00" :: ["912828V23"; ""; "1000000"]
  ∧ ((λ _ : string, true) (output_path "Risk") = true →
     files' !! output_path "Risk"
     = Some (default [] ((∅ : gmap string (list string)) !! output_path "Risk")
             ++ [persisted_line "2024-Dec-20 10:00:00"
                   ["912828V23"; ""; "1000000"]]))
  ∧ ((λ _ : string, true) (output_path "Risk") = false → files' = ∅)
  ∧ (∀ path, path ≠ output_path "Risk" →
       files' !! path = (∅ : gmap string (list string)) !! path)
  ∧ output_path "Risk"
    ∈ ["Data/Output/positions.txt"; "Data/Output/risk.txt";
       "Data/Output/executions.txt"; "Data/Output/streaming.txt";
       "Data/Output/allinquiries.txt"; "Data/Output/unknown.txt"].
Proof.
  apply (persisted_line_fields (λ _, true) ∅ "Risk" "2024-Dec-20 10:00:00"
           ["912828V23"; ""; "1000000"]).
  - reflexivity.
  - repeat constructor.
Defined.

(** ** The text of a price, read back *)

Definition price_text (B k : Z) : string :=
  fractional_text B (k / 8) (last_char (k `mod` 8)).

Lemma two_digits_no_comma xy : no_comma (two_digits xy) = true.
Proof.
  unfold two_digits, digit_char.
  by destruct (xy / 10) as [|[[[|[]|]|[[]|[]|]|]|[[|[]|]|[[]|[]|]|]|]|],
              (xy `mod` 10) as [|[[[|[]|]|[[]|[]|]|]|[[|[]|]|[[]|[]|]|]|]|].
Qed.

Lemma last_char_no_comma z : no_comma (String (last_char z) "") = true.
Proof.
  unfold last_char, digit_char. case_bool_decide; [done|].
  by destruct z as [|[[[|[]|]|[[]|[]|]|]|[[|[]|]|[[]|[]|]|]|]|].
Qed.

Lemma price_text_no_comma B k : 0 ≤ B → no_comma (price_text B k) = true.
Proof.
  intros HB. unfold price_text, fractional_text.
  rewrite !no_comma_app, no_comma_to_string, two_digits_no_comma by done.
  by rewrite last_char_no_comma.
Qed.

Lemma price2string_price_text B k :
  0 ≤ B ≤ 2147483647 → 0 ≤ k < 256 →
  price2string (price_of B k) = Returns (price_text B k).
Proof. apply price2string_text. Qed.

Lemma string2price_price_text B k :
  0 ≤ B → 0 ≤ k < 256 → string2price (price_text B k) = Returns (price_of B k).
Proof.
  intros HB Hk.
  pose proof (Z.mod_pos_bound k 8) as Hmod.
  pose proof (Z.div_pos k 8) as Hdiv0.
  pose proof (Z.div_lt_upper_bound k 8 32) as Hdiv1.
  unfold price_text.
  rewrite (string2price_text B (k / 8) (k `mod` 8)).
  - do 2 f_equal. symmetry. apply Z.div_mod. lia.
  - lia.
  - lia.
  - lia.
  - apply last_char_spec. lia.
Qed.

(** A price 99 + n/256 of the generators. *)
Lemma generated_price (n : Z) :
  0 ≤ n →
  (Qc_of_Z 99 + minTick * int_to_double n)%Qc
  = price_of (99 + n / 256) (n `mod` 256).
Proof.
  intros Hn. unfold price_of.
  replace (256 * (99 + n / 256) + n `mod` 256) with (25344 + n)
    by (pose proof (Z.div_mod n 256); lia).
  apply Qc_is_canon. unfold minTick, int_to_double. simpl.
  rewrite !Qred_correct. unfold Qeq. simpl. lia.
Qed.

(** A draw in [0, 1), scaled and converted to [int]. *)
Lemma scaled_draw (u : double) (K : Z) :
  (0 ≤ u)%Qc → (u < 1)%Qc → 0 < K ≤ 2147483647 →
  ∃ n, double_to_int (u * Qc_of_Z K)%Qc = Returns n ∧ 0 ≤ n < K.
Proof.
  intros Hu0 Hu1 HK.
  assert (0 ≤ u * Qc_of_Z K)%Qc as Hlow.
  { rewrite <- (Qcmult_0_l (Qc_of_Z K)).
    apply Qcmult_le_compat_r; [done|].
    unfold Qcle. simpl. rewrite Qred_correct. unfold Qle. simpl. lia. }
  assert (u * Qc_of_Z K < Qc_of_Z K)%Qc as Hhigh.
  { rewrite <- (Qcmult_1_l (Qc_of_Z K)) at 2.
    apply Qcmult_lt_compat_r; [|done].
    unfold Qclt. simpl. rewrite Qred_correct. unfold Qlt. simpl. lia. }
  exists (trunc (u * Qc_of_Z K)%Qc).
  assert (0 ≤ trunc (u * Qc_of_Z K)%Qc < K) as Hrange.
  { unfold trunc. rewrite bool_decide_eq_true_2 by done. split.
    - change 0 with (Qfloor 0). by apply Qfloor_resp_le.
    - rewrite Zlt_Qlt. eapply Qle_lt_trans; [apply Qfloor_le|].
      exact Hhigh. }
  split; [|done]. apply double_to_int_in_range; [done|lia].
Qed.

(** ** The connectors read what the generators write *)

Lemma each_line_app {S : Type} (step : S → string → outcome unit * S)
    (l1 l2 : list string) :
  ∀ st st1,
  each_line step st l1 = (Returns (), st1) →
  each_line step st (l1 ++ l2) = each_line step st1 l2.
Proof.
  induction l1 as [|line l1 IH]; intros st st1 Hrun.
  - simpl in Hrun. by injection Hrun as <-.
  - simpl in *. destruct (step st line) as [[[]| |] st']; try done.
    by apply IH.
Qed.

Lemma Forall2_Returns_inj {A B : Type} (f : A → outcome B) (xs : list A) :
  ∀ ys ys',
  Forall2 (λ x y, f x = Returns y) xs ys →
  Forall2 (λ x y, f x = Returns y) xs ys' →
  ys' = ys.
Proof.
  induction xs as [|x xs IH]; intros ys ys' Hys Hys'.
  - apply Forall2_nil_inv_l in Hys, Hys'. by subst.
  - apply Forall2_cons_inv_l in Hys as (y & ys0 & Hy & Hrest & ->).
    apply Forall2_cons_inv_l in Hys' as (y' & ys0' & Hy' & Hrest' & ->).
    rewrite Hy in Hy'. injection Hy' as <-. f_equal. by apply IH.
Qed.

Lemma line_not_empty (a rest : string) :
  bool_decide (a +:+ String "," rest = EmptyString) = false.
Proof. apply bool_decide_eq_false. by destruct a. Qed.

Lemma comma_app (rest : string) : "," +:+ rest = String ","%char rest.
Proof. reflexivity. Qed.

Lemma GetBond_known (id : string) (bond : Bond) :
  GetBond id = Returns bond →
  no_comma id = true ∧ bond_productId bond = id ∧ is_Some (bondPV01 !! id).
Proof.
  intros Hbond. destruct (GetBond_cases id) as [Hin|Hnone].
  - repeat (apply elem_of_cons in Hin as [->|Hin];
            [vm_compute in Hbond; injection Hbond as <-;
             split; [done|]; split; [done|]; by eexists|]).
    by apply elem_of_nil in Hin.
  - unfold GetBond, map_at in Hbond. by rewrite Hnone in Hbond.
Qed.

Definition side_text (s : Side) : string :=
  match s with BUY => "BUY" | SELL => "SELL" end.

(** The line of trades.txt for a trade, as [GenerateTrades] writes it. *)
Definition trade_line (t : Trade Bond) : outcome string :=
  priceStr ← price2string (trade_price t);
  Returns (GetProductId (trade_product t) +:+ "," +:+ GetTradeId t +:+ ","
           +:+ priceStr +:+ "," +:+ GetBook t +:+ ","
           +:+ to_string (trade_quantity t) +:+ ","
           +:+ side_text (trade_side t)).

(** A trade that the file format can carry. *)
Definition writable_trade (t : Trade Bond) : Prop :=
  GetBond (GetProductId (trade_product t)) = Returns (trade_product t)
  ∧ no_comma (GetTradeId t) = true
  ∧ no_comma (GetBook t) = true
  ∧ 0 ≤ trade_quantity t ≤ 9223372036854775807
  ∧ ∃ B k, 0 ≤ B ≤ 2147483647 ∧ 0 ≤ k < 256 ∧ trade_price t = price_of B k.

(** The booking service after the trades of a feed, with the calls made. *)
Definition OnMessage_all
    (st : TradeBookingService Bond * list (Call (Trade Bond)))
    (ts : list (Trade Bond))
    : TradeBookingService Bond * list (Call (Trade Bond)) :=
  foldl (λ st t, ((TradeBooking_OnMessage st.1 t).1,
                  st.2 ++ (TradeBooking_OnMessage st.1 t).2)) st ts.

Lemma TradeBooking_line_reads (t : Trade Bond) :
  writable_trade t →
  ∃ line, trade_line t = Returns line
    ∧ ∀ st, TradeBooking_line st line = (Returns (), OnMessage_all st [t]).
Proof.
  intros (Hbond & Hid & Hbook & Hqty & B & k & HB & Hk & Hprice).
  destruct (GetBond_known _ _ Hbond) as (Hpid & _ & _).
  unfold trade_line. rewrite Hprice, price2string_price_text by done.
  eexists. split; [reflexivity|]. intros st.
  unfold TradeBooking_line. rewrite !comma_app, line_not_empty.
  rewrite !split_commas_field;
    [|by apply no_comma_to_string, Hqty|done
     |by apply price_text_no_comma, HB|done|done].
  rewrite split_commas_last by (by destruct (trade_side t)).
  rewrite string2price_price_text, stol_to_string by (done || lia).
  cbn [try_call]. rewrite Hbond. cbn [try_call OnMessage_all foldl].
  replace (if bool_decide (side_text (trade_side t) = "BUY") then BUY else SELL)
    with (trade_side t) by (by destruct (trade_side t)).
  rewrite <- Hprice.
  replace (mkTrade (trade_product t) (GetTradeId t) (trade_price t) (GetBook t)
             (trade_quantity t) (trade_side t)) with t by (by destruct t).
  by destruct (TradeBooking_OnMessage st.1 t).
Qed.

Lemma OnMessage_all_calls (ts : list (Trade Bond)) :
  ∀ st,
  OnMessage_all st ts
  = (mkTradeBookingService
       (foldl (λ m t, <[GetTradeId t := t]> m) (trades st.1) ts)
       (tb_listeners st.1),
     st.2 ++ mjoin (fan_out (tb_listeners st.1) <$> ts)).
Proof.
  induction ts as [|t ts IH]; intros [svc calls].
  - simpl. rewrite app_nil_r. by destruct svc.
  - cbn [OnMessage_all foldl]. fold (OnMessage_all). rewrite IH.
    cbn [fst snd TradeBooking_OnMessage trades tb_listeners fmap list_fmap
         mjoin list_join].
    by rewrite app_assoc.
Qed.

Lemma TradeBooking_Subscribe_reads (ts : list (Trade Bond)) :
  Forall writable_trade ts →
  ∃ lines, Forall2 (λ t line, trade_line t = Returns line) ts lines
    ∧ ∀ st, each_line TradeBooking_line st lines
            = (Returns (), OnMessage_all st ts).
Proof.
  induction 1 as [|t ts Ht _ (lines & Hlines & Hread)].
  - exists []. split; [constructor|done].
  - destruct (TradeBooking_line_reads t Ht) as (line & Hline & Hstep).
    exists (line :: lines). split; [by constructor|]. intros st.
    cbn [each_line]. rewrite Hstep. cbn [OnMessage_all foldl].
    apply Hread.
Qed.

Lemma TradeBooking_line_short
    (st : TradeBookingService Bond * list (Call (Trade Bond)))
    (lineData : string) :
  (length (split_commas lineData) < 6)%nat →
  TradeBooking_line st lineData = (Returns (), st).
Proof.
  intros Hshort. unfold TradeBooking_line. case_bool_decide; [done|].
  destruct (split_commas lineData) as [|? [|? [|? [|? [|? [|? ?]]]]]];
    try done.
  simpl in Hshort. lia.
Qed.

(** X14.  Trades written to a file in the format of trades.txt are read
    back by [TradeBookingConnector::Subscribe] as the same trades: for
    trades on a bond of the tables, with a price that is a multiple of
    1/256 from 0 up to the largest [int], a quantity that is not negative,
    and no comma in the trade id and the book, every line is accepted, the
    trade it gives is field by field the trade written, each trade is
    stored under its id and passed once to every listener, in
    registration order, one trade after the other in the order of the
    file.  A line with fewer than six fields is skipped without any
    effect. *)
Theorem trades_file_round_trip (svc : TradeBookingService Bond)
    (ts : list (Trade Bond)) :
  Forall writable_trade ts →
  ∃ lines,
    Forall2 (λ t line, trade_line t = Returns line) ts lines
    ∧ TradeBooking_Subscribe svc lines
      = (Returns (),
         (mkTradeBookingService
            (foldl (λ m t, <[GetTradeId t := t]> m) (trades svc) ts)
            (tb_listeners svc),
          mjoin ((λ t, (λ l, ProcessAdd l t) <$> tb_listeners svc) <$> ts)))
    ∧ ∀ st lineData,
        (length (split_commas lineData) < 6)%nat →
        TradeBooking_line st lineData = (Returns (), st).
Proof.
  intros Hts.
  destruct (TradeBooking_Subscribe_reads ts Hts) as (lines & Hlines & Hread).
  exists lines. split; [done|]. split.
  - unfold TradeBooking_Subscribe. rewrite Hread, OnMessage_all_calls.
    by rewrite fan_out_each.
  - apply TradeBooking_line_short.
Qed.

Lemma trades_file_round_trip_witness :
  ∃ lines,
    Forall2 (λ t line, trade_line t = Returns line) [trade_US2Y] lines
    ∧ TradeBooking_Subscribe booking_service lines
      = (Returns (),
         (mkTradeBookingService
            (foldl (λ m t, <[GetTradeId t := t]> m) (trades booking_service)
               [trade_US2Y])
            (tb_listeners booking_service),
          mjoin ((λ t, (λ l, ProcessAdd l t) <$> tb_listeners booking_service)
                 <$> [trade_US2Y])))
    ∧ ∀ st lineData,
        (length (split_commas lineData) < 6)%nat →
        TradeBooking_line st lineData = (Returns (), st).
Proof.
  apply (trades_file_round_trip booking_service [trade_US2Y]).
  constructor; [|constructor].
  split; [by vm_compute|]. split; [reflexivity|]. split; [reflexivity|].
  split; [by vm_compute|]. exists 100, 0.
  split; [lia|]. split; [lia|]. apply Qc_is_canon. by vm_compute.
Defined.

(** ** The generated trades *)

(** The signed quantity of the [i]-th trade that [GenerateTrades] writes
    for a bond. *)
Definition generated_quantity (i : Z) : Z :=
  (if bool_decide (Z.rem i 2 = 0) then 1 else -1) * ((Z.rem i 5 + 1) * 1000000).

Lemma for_each_app {S A : Type} (body : S → A → outcome S) (l1 l2 : list A) :
  ∀ st st1,
  for_each body st l1 = Returns st1 →
  for_each body st (l1 ++ l2) = for_each body st1 l2.
Proof.
  induction l1 as [|a l1 IH]; intros st st1 Hrun.
  - simpl in Hrun. by injection Hrun as <-.
  - simpl in *. destruct (body st a) as [st'| |]; try done.
    cbn [mbind outcome_bind] in *. by apply IH.
Qed.

Lemma GenerateTrades_entry_writes (d : nat → double) (id : string)
    (bond : Bond) (drawn : nat) (file : list string) (i : Z) :
  (∀ n, (0 ≤ d n)%Qc ∧ (d n < 1)%Qc) →
  GetBond id = Returns bond →
  0 ≤ i < 10 →
  ∃ t line,
    GenerateTrades_entry d id (drawn, file) i
    = Returns (S (S drawn), file ++ [line])
    ∧ trade_line t = Returns line
    ∧ writable_trade t
    ∧ trade_product t = bond
    ∧ signed_quantity t = generated_quantity i
    ∧ GetBook t ∈ marketBooks.
Proof.
  intros Hd Hbond Hi.
  destruct (GetBond_known _ _ Hbond) as (Hid & Hpid & _).
  destruct (scaled_draw (d drawn) 3) as (m & Hm & Hm3); [apply Hd..|lia|].
  destruct (scaled_draw (d (S drawn)) 512) as (n & Hn & Hn512);
    [apply Hd..|lia|].
  pose proof (Z.div_pos n 256) as Hdiv0.
  pose proof (Z.div_lt_upper_bound n 256 2) as Hdiv1.
  pose proof (Z.mod_pos_bound n 256) as Hmod.
  exists (mkTrade bond (id +:+ "_TRADE" +:+ to_string i)
            (price_of (99 + n / 256) (n `mod` 256))
            ("TRSY" +:+ to_string (Z.rem m 3 + 1))
            ((Z.rem i 5 + 1) * 1000000)
            (if bool_decide (Z.rem i 2 = 0) then BUY else SELL)).
  eexists. unfold GenerateTrades_entry. rewrite Hm, Hn.
  cbn [mbind outcome_bind]. rewrite generated_price by lia.
  rewrite price2string_price_text by lia. cbn [mbind outcome_bind].
  split; [reflexivity|]. split.
  { unfold trade_line. cbn [trade_price trade_product GetTradeId GetBook
                             trade_quantity trade_side].
    rewrite price2string_price_text by lia. cbn [mbind outcome_bind].
    change (GetProductId bond) with (bond_productId bond). rewrite Hpid.
    by case_bool_decide. }
  assert (0 ≤ Z.rem i 5 < 5) as Hrem5
    by (rewrite Z.rem_mod_nonneg by lia; apply Z.mod_pos_bound; lia).
  split.
  { split.
    { cbn [trade_product]. change (GetProductId bond) with (bond_productId bond).
      by rewrite Hpid. }
    cbn [GetTradeId GetBook trade_quantity trade_price].
    split.
    { rewrite !no_comma_app, Hid, no_comma_to_string by lia. done. }
    split.
    { rewrite no_comma_app, no_comma_to_string; [done|].
      rewrite Z.rem_mod_nonneg by lia. pose proof (Z.mod_pos_bound m 3). lia. }
    split; [lia|].
    exists (99 + n / 256), (n `mod` 256). repeat split; lia. }
  split; [done|]. split.
  { unfold signed_quantity, generated_quantity.
    cbn [trade_side trade_quantity]. case_bool_decide; lia. }
  cbn [GetBook]. rewrite Z.rem_mod_nonneg by lia.
  rewrite Z.mod_small by lia. unfold marketBooks.
  assert (m = 0 ∨ m = 1 ∨ m = 2) as [-> | [-> | ->]] by lia;
    rewrite !elem_of_cons; auto.
Qed.

Lemma GenerateTrades_bond_writes (d : nat → double) (id : string)
    (bond : Bond) (indices : list Z) :
  (∀ n, (0 ≤ d n)%Qc ∧ (d n < 1)%Qc) →
  GetBond id = Returns bond →
  Forall (λ i, 0 ≤ i < 10) indices →
  ∀ drawn file,
  ∃ drawn' ts lines,
    for_each (GenerateTrades_entry d id) (drawn, file) indices
    = Returns (drawn', file ++ lines)
    ∧ Forall2 (λ t line, trade_line t = Returns line) ts lines
    ∧ Forall writable_trade ts
    ∧ Forall2 (λ i t, trade_product t = bond
                      ∧ signed_quantity t = generated_quantity i
                      ∧ GetBook t ∈ marketBooks) indices ts.
Proof.
  intros Hd Hbond. induction 1 as [|i indices Hi _ IH]; intros drawn file.
  - exists drawn, [], []. rewrite app_nil_r.
    split; [done|]. split; [constructor|]. split; constructor.
  - destruct (GenerateTrades_entry_writes d id bond drawn file i Hd Hbond Hi)
      as (t & line & Hstep & Hline & Hwritable & Hproduct & Hsigned & Hbook).
    destruct (IH (S (S drawn)) (file ++ [line]))
      as (drawn' & ts & lines & Hrun & Hlines & Hts & Hgroup).
    exists drawn', (t :: ts), (line :: lines).
    cbn [for_each]. rewrite Hstep. cbn [mbind outcome_bind].
    rewrite Hrun, <- app_assoc. split; [done|].
    split; [by constructor|]. split; by constructor.
Qed.

Lemma GenerateTrades_writes (d : nat → double)
    (entries : list (Z * (string * (Z * Z * Z)))) :
  (∀ n, (0 ≤ d n)%Qc ∧ (d n < 1)%Qc) →
  Forall (λ entry, ∃ bond, GetBond entry.2.1 = Returns bond) entries →
  ∀ drawn file,
  ∃ drawn' groups lines,
    for_each
      (λ st entry, for_each (GenerateTrades_entry d entry.2.1) st (seqZ 0 10))
      (drawn, file) entries
    = Returns (drawn', file ++ lines)
    ∧ Forall2 (λ t line, trade_line t = Returns line) (mjoin groups) lines
    ∧ Forall writable_trade (mjoin groups)
    ∧ Forall2 (λ entry ts,
                 Forall2 (λ i t, bond_productId (trade_product t) = entry.2.1
                                 ∧ signed_quantity t = generated_quantity i
                                 ∧ GetBook t ∈ marketBooks) (seqZ 0 10) ts)
        entries groups.
Proof.
  intros Hd. induction 1 as [|entry entries [bond Hbond] _ IH];
    intros drawn file.
  - exists drawn, [], []. rewrite app_nil_r.
    split; [done|]. split; [constructor|]. split; constructor.
  - destruct (GenerateTrades_bond_writes d entry.2.1 bond (seqZ 0 10) Hd Hbond)
      with (drawn := drawn) (file := file)
      as (drawn1 & ts & lines1 & Hrun1 & Hlines1 & Hts & Hgroup).
    { apply Forall_forall. intros i Hi. apply elem_of_seqZ in Hi. lia. }
    destruct (IH drawn1 (file ++ lines1))
      as (drawn' & groups & lines & Hrun & Hlines & Hgroups & Hall).
    exists drawn', (ts :: groups), (lines1 ++ lines).
    cbn [for_each]. rewrite Hrun1. cbn [mbind outcome_bind].
    rewrite Hrun, <- app_assoc. split; [done|].
    change (mjoin (ts :: groups)) with (ts ++ mjoin groups).
    split; [by apply Forall2_app|].
    split; [by apply Forall_app|]. constructor; [|done].
    destruct (GetBond_known _ _ Hbond) as (_ & Hpid & _).
    eapply Forall2_impl; [exact Hgroup|].
    intros i t (-> & ? & ?). by rewrite Hpid.
Qed.

Lemma traded_app {T} `{Product T} (productId : string)
    (ts1 ts2 : list (Trade T)) :
  traded productId (ts1 ++ ts2) = traded productId ts1 + traded productId ts2.
Proof.
  induction ts1 as [|t ts1 IH]; [done|]. simpl. rewrite IH.
  case_decide; lia.
Qed.

Lemma traded_group (productId id : string) (q : Z → Z)
    (indices : list Z) (ts : list (Trade Bond)) :
  Forall2 (λ i t, bond_productId (trade_product t) = id
                  ∧ signed_quantity t = q i
                  ∧ GetBook t ∈ marketBooks) indices ts →
  traded productId ts
  = if decide (id = productId) then foldr Z.add 0 (q <$> indices) else 0.
Proof.
  induction 1 as [|i t indices ts (Hid & Hq & _) _ IH].
  - by case_decide.
  - cbn [traded foldr fmap list_fmap]. fold (traded productId ts).
    change (GetProductId (trade_product t))
      with (bond_productId (trade_product t)).
    rewrite IH, Hid, Hq. by case_decide.
Qed.

Lemma traded_replicate {T} `{Product T} (productId : string)
    (ls : list ListenerRef) (t : Trade T) :
  traded productId (call_data <$> fan_out ls t)
  = Z.of_nat (length ls)
    * (if decide (GetProductId (trade_product t) = productId)
       then signed_quantity t else 0).
Proof.
  induction ls as [|l ls IH]; [simpl; case_decide; lia|].
  change (call_data <$> fan_out (l :: ls) t)
    with (t :: (call_data <$> fan_out ls t)).
  change (traded productId (t :: (call_data <$> fan_out ls t)))
    with (if decide (GetProductId (trade_product t) = productId)
          then signed_quantity t + traded productId (call_data <$> fan_out ls t)
          else traded productId (call_data <$> fan_out ls t)).
  rewrite IH. cbn [length]. case_decide; lia.
Qed.

Lemma traded_fan_out {T} `{Product T} (productId : string)
    (ls : list ListenerRef) (ts : list (Trade T)) :
  traded productId (call_data <$> mjoin (fan_out ls <$> ts))
  = Z.of_nat (length ls) * traded productId ts.
Proof.
  induction ts as [|t ts IH]; [simpl; lia|].
  change (call_data <$> mjoin (fan_out ls <$> t :: ts))
    with (call_data <$> (fan_out ls t ++ mjoin (fan_out ls <$> ts))).
  rewrite fmap_app, traded_app, IH, traded_replicate.
  change (traded productId (t :: ts))
    with (if decide (GetProductId (trade_product t) = productId)
          then signed_quantity t + traded productId ts
          else traded productId ts).
  case_decide; lia.
Qed.

Lemma generated_quantity_sum :
  foldr Z.add 0 (generated_quantity <$> seqZ 0 10) = 0.
Proof. by vm_compute. Qed.

Lemma traded_groups (productId : string)
    (entries : list (Z * (string * (Z * Z * Z))))
    (groups : list (list (Trade Bond))) :
  Forall2 (λ entry ts,
             Forall2 (λ i t, bond_productId (trade_product t) = entry.2.1
                             ∧ signed_quantity t = generated_quantity i
                             ∧ GetBook t ∈ marketBooks) (seqZ 0 10) ts)
    entries groups →
  traded productId (mjoin groups) = 0
  ∧ length (mjoin groups) = (10 * length entries)%nat
  ∧ Forall (λ t, GetBook t ∈ marketBooks) (mjoin groups).
Proof.
  induction 1 as [|entry ts entries groups Hgroup _ (IH & IHlen & IHbooks)];
    [done|].
  change (mjoin (ts :: groups)) with (ts ++ mjoin groups).
  rewrite traded_app, IH, length_app, IHlen.
  rewrite (traded_group productId entry.2.1 generated_quantity (seqZ 0 10))
    by done.
  rewrite generated_quantity_sum.
  rewrite <- (Forall2_length _ _ _ Hgroup), length_seqZ.
  split; [by case_decide|]. split; [simpl; lia|].
  apply Forall_app. split; [|done].
  clear -Hgroup. induction Hgroup as [|i t ? ? (_ & _ & Hbook)]; by constructor.
Qed.

(** X15.  The trades that [GenerateTrades] writes net to zero.  Whatever
    the random draws, the generator writes 70 lines;
    [TradeBookingConnector::Subscribe] accepts every one of them, stores
    the 70 trades under their ids and passes each once to every listener of
    the booking service, in registration order, one trade after the other.
    Each trade is in one of the books TRSY1, TRSY2 and TRSY3, and for every
    product the signed quantities of the trades, counted up for a purchase
    and down for a sale, add up to zero.  So once the listeners of the
    booking service have handed the trades to [PositionService::AddTrade],
    the aggregate position of every product is what it was before. *)
Theorem generated_trades_net_to_zero (d : nat → double)
    (svc : TradeBookingService Bond) :
  (∀ n, (0 ≤ d n)%Qc ∧ (d n < 1)%Qc) →
  ∃ lines ts,
    let delivery :=
      mjoin ((λ t, (λ l, ProcessAdd l t) <$> tb_listeners svc) <$> ts) in
    GenerateTrades d = Returns lines
    ∧ Forall2 (λ t line, trade_line t = Returns line) ts lines
    ∧ length ts = 70%nat
    ∧ Forall (λ t, GetBook t ∈ ["TRSY1"; "TRSY2"; "TRSY3"]) ts
    ∧ (∀ productId, traded productId ts = 0)
    ∧ TradeBooking_Subscribe svc lines
      = (Returns (),
         (mkTradeBookingService
            (foldl (λ m t, <[GetTradeId t := t]> m) (trades svc) ts)
            (tb_listeners svc),
          delivery))
    ∧ ∀ (positions : PositionService Bond) (productId : string),
        GetAggregatePosition
          (position_of (Position_deliver positions delivery).1 productId)
        = GetAggregatePosition (position_of positions productId).
Proof.
  intros Hd.
  destruct (GenerateTrades_writes d bondMap_entries Hd) with (drawn := O)
    (file := @nil string)
    as (drawn' & groups & lines & Hrun & Hlines & Hwritable & Hgroups).
  { repeat constructor; eexists; by vm_compute. }
  exists lines, (mjoin groups). intros delivery.
  unfold GenerateTrades. rewrite Hrun. cbn [mbind outcome_bind snd app].
  split; [done|]. split; [done|].
  split. { by rewrite (proj1 (proj2 (traded_groups "" _ _ Hgroups))). }
  split. { apply (traded_groups "" _ _ Hgroups). }
  split. { intros productId. apply (traded_groups productId _ _ Hgroups). }
  split.
  { destruct (TradeBooking_Subscribe_reads _ Hwritable)
      as (lines' & Hlines' & Hread).
    assert (lines' = lines) as ->
      by (by apply (Forall2_Returns_inj trade_line (mjoin groups))).
    unfold TradeBooking_Subscribe. rewrite Hread, OnMessage_all_calls.
    unfold delivery. by rewrite fan_out_each. }
  intros positions productId. unfold delivery. rewrite <- fan_out_each.
  rewrite Position_deliver_AddTrades, AddTrades_aggregate, traded_fan_out.
  rewrite (proj1 (traded_groups productId _ _ Hgroups)). lia.
Qed.

Lemma generated_trades_net_to_zero_witness :
  ∃ lines ts,
    let delivery :=
      mjoin ((λ t, (λ l, ProcessAdd l t) <$> tb_listeners booking_service)
             <$> ts) in
    GenerateTrades (λ _, Q2Qc (1 # 2)) = Returns lines
    ∧ Forall2 (λ t line, trade_line t = Returns line) ts lines
    ∧ length ts = 70%nat
    ∧ Forall (λ t, GetBook t ∈ ["TRSY1"; "TRSY2"; "TRSY3"]) ts
    ∧ (∀ productId, traded productId ts = 0)
    ∧ TradeBooking_Subscribe booking_service lines
      = (Returns (),
         (mkTradeBookingService
            (foldl (λ m t, <[GetTradeId t := t]> m) (trades booking_service) ts)
            (tb_listeners booking_service),
          delivery))
    ∧ ∀ (positions : PositionService Bond) (productId : string),
        GetAggregatePosition
          (position_of (Position_deliver positions delivery).1 productId)
        = GetAggregatePosition (position_of positions productId).
Proof.
  apply (generated_trades_net_to_zero (λ _, Q2Qc (1 # 2)) booking_service).
  intros n. split; by vm_compute.
Defined.

(** ** The generated inquiries *)

Definition state_text (s : InquiryState) : string :=
  match s with
  | RECEIVED => "RECEIVED" | QUOTED => "QUOTED" | DONE => "DONE"
  | REJECTED => "REJECTED" | CUSTOMER_REJECTED => "CUSTOMER_REJECTED"
  end.

(** The line of inquiries.txt for an inquiry, as [GenerateInquiries] writes
    it. *)
Definition inquiry_line (i : Inquiry Bond) : outcome string :=
  priceStr ← price2string (inq_price i);
  Returns (GetInquiryId i +:+ "," +:+ GetProductId (inq_product i) +:+ ","
           +:+ side_text (inq_side i) +:+ "," +:+ to_string (inq_quantity i)
           +:+ "," +:+ priceStr +:+ "," +:+ state_text (GetState i)).

(** An inquiry that the file format can carry. *)
Definition writable_inquiry (i : Inquiry Bond) : Prop :=
  GetBond (GetProductId (inq_product i)) = Returns (inq_product i)
  ∧ no_comma (GetInquiryId i) = true
  ∧ 0 ≤ inq_quantity i ≤ 9223372036854775807
  ∧ ∃ B k, 0 ≤ B ≤ 2147483647 ∧ 0 ≤ k < 256 ∧ inq_price i = price_of B k.

(** The inquiry service after the inquiries of a feed, with the calls
    made. *)
Definition Inquiry_OnMessage_all
    (st : InquiryService Bond * list (Call (Inquiry Bond)))
    (inqs : list (Inquiry Bond))
    : InquiryService Bond * list (Call (Inquiry Bond)) :=
  foldl (λ st i, ((Inquiry_OnMessage_run st.1 i).1.1,
                  st.2 ++ (Inquiry_OnMessage_run st.1 i).2)) st inqs.

Lemma Inquiry_line_reads (i : Inquiry Bond) :
  writable_inquiry i →
  ∃ line, inquiry_line i = Returns line
    ∧ ∀ st, Inquiry_line st line = (Returns (), Inquiry_OnMessage_all st [i]).
Proof.
  intros (Hbond & Hid & Hqty & B & k & HB & Hk & Hprice).
  destruct (GetBond_known _ _ Hbond) as (Hpid & _ & _).
  unfold inquiry_line. rewrite Hprice, price2string_price_text by done.
  eexists. split; [reflexivity|]. intros st.
  unfold Inquiry_line. rewrite !comma_app, line_not_empty.
  rewrite !split_commas_field;
    [|by apply price_text_no_comma, HB|by apply no_comma_to_string, Hqty
     |by destruct (inq_side i)|done|done].
  rewrite split_commas_last by (by destruct (GetState i)).
  rewrite string2price_price_text, stol_to_string by (done || lia).
  cbn [try_call]. rewrite Hbond. cbn [try_call Inquiry_OnMessage_all foldl].
  replace (if bool_decide (side_text (inq_side i) = "BUY") then BUY else SELL)
    with (inq_side i) by (by destruct (inq_side i)).
  replace (parse_state (state_text (GetState i))) with (GetState i)
    by (by destruct (GetState i)).
  rewrite <- Hprice.
  replace (mkInquiry (GetInquiryId i) (inq_product i) (inq_side i)
             (inq_quantity i) (inq_price i) (GetState i))
    with i by (by destruct i).
  by destruct (Inquiry_OnMessage_run st.1 i) as [[svc' data'] calls].
Qed.

Lemma Inquiry_Subscribe_reads (inqs : list (Inquiry Bond)) :
  Forall writable_inquiry inqs →
  ∃ lines, Forall2 (λ i line, inquiry_line i = Returns line) inqs lines
    ∧ ∀ st, each_line Inquiry_line st lines
            = (Returns (), Inquiry_OnMessage_all st inqs).
Proof.
  induction 1 as [|i inqs Hi _ (lines & Hlines & Hread)].
  - exists []. split; [constructor|done].
  - destruct (Inquiry_line_reads i Hi) as (line & Hline & Hstep).
    exists (line :: lines). split; [by constructor|]. intros st.
    cbn [each_line]. rewrite Hstep. cbn [Inquiry_OnMessage_all foldl].
    apply Hread.
Qed.

(** The inquiries of a feed that are RECEIVED or QUOTED, as [OnMessage]
    leaves them. *)
Definition handled (inqs : list (Inquiry Bond)) : list (Inquiry Bond) :=
  (λ i, SetState i DONE)
  <$> filter (λ i, GetState i = RECEIVED ∨ GetState i = QUOTED) inqs.

Lemma Inquiry_OnMessage_all_calls (inqs : list (Inquiry Bond)) :
  ∀ st,
  Inquiry_OnMessage_all st inqs
  = (mkInquiryService
       (foldl (λ m i, <[GetInquiryId i := i]> m) (inquiries st.1)
          (handled inqs))
       (inq_listeners st.1),
     st.2 ++ mjoin (fan_out (inq_listeners st.1) <$> handled inqs)).
Proof.
  induction inqs as [|i inqs IH]; intros [svc calls].
  - simpl. rewrite app_nil_r. by destruct svc.
  - cbn [Inquiry_OnMessage_all foldl]. fold Inquiry_OnMessage_all.
    rewrite IH, Inquiry_OnMessage_run_cases. unfold handled.
    cbn [fst snd]. case_bool_decide as Hstate.
    + rewrite filter_cons_True by done.
      cbn [fst snd store inquiries inq_listeners fmap list_fmap SetState
           GetInquiryId foldl].
      change (mjoin (?x :: ?rest)) with (x ++ mjoin rest).
      by rewrite app_assoc.
    + rewrite filter_cons_False by done.
      cbn [fst snd]. rewrite app_nil_r. by destruct svc.
Qed.

Lemma handled_received (inqs : list (Inquiry Bond)) :
  Forall (λ i, GetState i = RECEIVED) inqs →
  handled inqs = (λ i, SetState i DONE) <$> inqs.
Proof.
  unfold handled. induction 1 as [|i inqs Hi _ IH]; [done|].
  rewrite filter_cons_True by (by left). cbn [fmap list_fmap]. f_equal.
  exact IH.
Qed.

Lemma GenerateInquiries_entry_writes (d : nat → double) (id : string)
    (bond : Bond) (drawn : nat) (file : list string) (i : Z) :
  (∀ n, (0 ≤ d n)%Qc ∧ (d n < 1)%Qc) →
  GetBond id = Returns bond →
  0 ≤ i < 10 →
  ∃ inq line,
    GenerateInquiries_entry d id (drawn, file) i
    = Returns (S drawn, file ++ [line])
    ∧ inquiry_line inq = Returns line
    ∧ writable_inquiry inq
    ∧ GetState inq = RECEIVED
    ∧ GetInquiryId inq = id +:+ "_INQ" +:+ to_string i
    ∧ inq_product inq = bond
    ∧ inq_side inq = (if bool_decide (Z.rem i 2 = 0) then BUY else SELL)
    ∧ inq_quantity inq = (Z.rem i 5 + 1) * 1000000.
Proof.
  intros Hd Hbond Hi.
  destruct (GetBond_known _ _ Hbond) as (Hid & Hpid & _).
  destruct (scaled_draw (d drawn) 512) as (n & Hn & Hn512); [apply Hd..|lia|].
  pose proof (Z.div_pos n 256) as Hdiv0.
  pose proof (Z.div_lt_upper_bound n 256 2) as Hdiv1.
  pose proof (Z.mod_pos_bound n 256) as Hmod.
  exists (mkInquiry (id +:+ "_INQ" +:+ to_string i) bond
            (if bool_decide (Z.rem i 2 = 0) then BUY else SELL)
            ((Z.rem i 5 + 1) * 1000000)
            (price_of (99 + n / 256) (n `mod` 256)) RECEIVED).
  eexists. unfold GenerateInquiries_entry. rewrite Hn.
  cbn [mbind outcome_bind]. rewrite generated_price by lia.
  rewrite price2string_price_text by lia. cbn [mbind outcome_bind].
  split; [reflexivity|]. split.
  { unfold inquiry_line. cbn [inq_price inq_product GetInquiryId inq_side
                               inq_quantity GetState state_text].
    rewrite price2string_price_text by lia. cbn [mbind outcome_bind].
    change (GetProductId bond) with (bond_productId bond). rewrite Hpid.
    by case_bool_decide. }
  assert (0 ≤ Z.rem i 5 < 5) as Hrem5
    by (rewrite Z.rem_mod_nonneg by lia; apply Z.mod_pos_bound; lia).
  split; [|done].
  split.
  { cbn [inq_product]. change (GetProductId bond) with (bond_productId bond).
    by rewrite Hpid. }
  cbn [GetInquiryId inq_quantity inq_price].
  split.
  { rewrite !no_comma_app, Hid, no_comma_to_string by lia. done. }
  split; [lia|].
  exists (99 + n / 256), (n `mod` 256). repeat split; lia.
Qed.

(** What [GenerateInquiries] writes for a bond, inquiry by inquiry. *)
Definition generated_inquiry (id : string) (i : Z) (inq : Inquiry Bond) : Prop :=
  GetState inq = RECEIVED
  ∧ GetInquiryId inq = id +:+ "_INQ" +:+ to_string i
  ∧ bond_productId (inq_product inq) = id
  ∧ inq_side inq = (if bool_decide (Z.rem i 2 = 0) then BUY else SELL)
  ∧ inq_quantity inq = (Z.rem i 5 + 1) * 1000000.

Lemma GenerateInquiries_bond_writes (d : nat → double) (id : string)
    (bond : Bond) (indices : list Z) :
  (∀ n, (0 ≤ d n)%Qc ∧ (d n < 1)%Qc) →
  GetBond id = Returns bond →
  Forall (λ i, 0 ≤ i < 10) indices →
  ∀ drawn file,
  ∃ drawn' inqs lines,
    for_each (GenerateInquiries_entry d id) (drawn, file) indices
    = Returns (drawn', file ++ lines)
    ∧ Forall2 (λ inq line, inquiry_line inq = Returns line) inqs lines
    ∧ Forall writable_inquiry inqs
    ∧ Forall2 (generated_inquiry id) indices inqs.
Proof.
  intros Hd Hbond. induction 1 as [|i indices Hi _ IH]; intros drawn file.
  - exists drawn, [], []. rewrite app_nil_r.
    split; [done|]. split; [constructor|]. split; constructor.
  - destruct (GenerateInquiries_entry_writes d id bond drawn file i Hd Hbond Hi)
      as (inq & line & Hstep & Hline & Hwritable & Hstate & Hinq & Hproduct
          & Hside & Hqty).
    destruct (IH (S drawn) (file ++ [line]))
      as (drawn' & inqs & lines & Hrun & Hlines & Hinqs & Hgroup).
    exists drawn', (inq :: inqs), (line :: lines).
    cbn [for_each]. rewrite Hstep. cbn [mbind outcome_bind].
    rewrite Hrun, <- app_assoc. split; [done|].
    split; [by constructor|]. split; [by constructor|].
    constructor; [|done]. destruct (GetBond_known _ _ Hbond) as (_ & Hpid & _).
    unfold generated_inquiry. by rewrite Hproduct, Hpid.
Qed.

Lemma GenerateInquiries_writes (d : nat → double)
    (entries : list (Z * (string * (Z * Z * Z)))) :
  (∀ n, (0 ≤ d n)%Qc ∧ (d n < 1)%Qc) →
  Forall (λ entry, ∃ bond, GetBond entry.2.1 = Returns bond) entries →
  ∀ drawn file,
  ∃ drawn' groups lines,
    for_each
      (λ st entry,
         for_each (GenerateInquiries_entry d entry.2.1) st (seqZ 0 10))
      (drawn, file) entries
    = Returns (drawn', file ++ lines)
    ∧ Forall2 (λ inq line, inquiry_line inq = Returns line) (mjoin groups) lines
    ∧ Forall writable_inquiry (mjoin groups)
    ∧ Forall2 (λ entry inqs,
                 Forall2 (generated_inquiry entry.2.1) (seqZ 0 10) inqs)
        entries groups.
Proof.
  intros Hd. induction 1 as [|entry entries [bond Hbond] _ IH];
    intros drawn file.
  - exists drawn, [], []. rewrite app_nil_r.
    split; [done|]. split; [constructor|]. split; constructor.
  - destruct (GenerateInquiries_bond_writes d entry.2.1 bond (seqZ 0 10) Hd
                Hbond)
      with (drawn := drawn) (file := file)
      as (drawn1 & inqs & lines1 & Hrun1 & Hlines1 & Hinqs & Hgroup).
    { apply Forall_forall. intros i Hi. apply elem_of_seqZ in Hi. lia. }
    destruct (IH drawn1 (file ++ lines1))
      as (drawn' & groups & lines & Hrun & Hlines & Hgroups & Hall).
    exists drawn', (inqs :: groups), (lines1 ++ lines).
    cbn [for_each]. rewrite Hrun1. cbn [mbind outcome_bind].
    rewrite Hrun, <- app_assoc. split; [done|].
    change (mjoin (inqs :: groups)) with (inqs ++ mjoin groups).
    split; [by apply Forall2_app|].
    split; [by apply Forall_app|]. by constructor.
Qed.

Lemma generated_inquiries_groups
    (entries : list (Z * (string * (Z * Z * Z))))
    (groups : list (list (Inquiry Bond))) :
  Forall2 (λ entry inqs,
             Forall2 (generated_inquiry entry.2.1) (seqZ 0 10) inqs)
    entries groups →
  length (mjoin groups) = (10 * length entries)%nat
  ∧ Forall (λ inq, GetState inq = RECEIVED) (mjoin groups).
Proof.
  induction 1 as [|entry inqs entries groups Hgroup _ (IHlen & IHstate)];
    [done|].
  change (mjoin (inqs :: groups)) with (inqs ++ mjoin groups).
  rewrite length_app, IHlen.
  rewrite <- (Forall2_length _ _ _ Hgroup), length_seqZ.
  split; [simpl; lia|].
  apply Forall_app. split; [|done].
  clear -Hgroup. induction Hgroup as [|i inq ? ? (Hstate & _)]; by constructor.
Qed.

(** X16.  Every inquiry that [GenerateInquiries] writes ends DONE.
    Whatever the random draws, the generator writes 70 lines, all in the
    state RECEIVED; [InquiryConnector::Subscribe] accepts every one of
    them, and when it returns each of the 70 inquiries has been stored
    under its id with the state DONE, its other fields as written, and
    passed once, with that state, to every listener of the service, in
    registration order, one inquiry after the other in the order of the
    file: no listener ever sees an inquiry RECEIVED or QUOTED. *)
Theorem generated_inquiries_all_done (d : nat → double)
    (svc : InquiryService Bond) :
  (∀ n, (0 ≤ d n)%Qc ∧ (d n < 1)%Qc) →
  ∃ lines inqs,
    let done :=
      (λ inq, mkInquiry (GetInquiryId inq) (inq_product inq) (inq_side inq)
                (inq_quantity inq) (inq_price inq) DONE) <$> inqs in
    GenerateInquiries d = Returns lines
    ∧ Forall2 (λ inq line, inquiry_line inq = Returns line) inqs lines
    ∧ length inqs = 70%nat
    ∧ Forall (λ inq, GetState inq = RECEIVED) inqs
    ∧ Inquiry_Subscribe_stream svc lines
      = (Returns (),
         (mkInquiryService
            (foldl (λ m inq, <[GetInquiryId inq := inq]> m) (inquiries svc) done)
            (inq_listeners svc),
          mjoin ((λ inq, (λ l, ProcessAdd l inq) <$> inq_listeners svc)
                 <$> done))).
Proof.
  intros Hd.
  destruct (GenerateInquiries_writes d bondMap_entries Hd) with (drawn := O)
    (file := @nil string)
    as (drawn' & groups & lines & Hrun & Hlines & Hwritable & Hgroups).
  { repeat constructor; eexists; by vm_compute. }
  destruct (generated_inquiries_groups _ _ Hgroups) as (Hlen & Hstates).
  exists lines, (mjoin groups). intros done.
  unfold GenerateInquiries. rewrite Hrun. cbn [mbind outcome_bind snd app].
  split; [done|]. split; [done|]. split; [done|]. split; [done|].
  destruct (Inquiry_Subscribe_reads _ Hwritable) as (lines' & Hlines' & Hread).
  assert (lines' = lines) as ->
    by (by apply (Forall2_Returns_inj inquiry_line (mjoin groups))).
  unfold Inquiry_Subscribe_stream.
  rewrite Hread, Inquiry_OnMessage_all_calls, handled_received by done.
  by rewrite fan_out_each.
Qed.

Lemma generated_inquiries_all_done_witness :
  ∃ lines inqs,
    let done :=
      (λ inq, mkInquiry (GetInquiryId inq) (inq_product inq) (inq_side inq)
                (inq_quantity inq) (inq_price inq) DONE) <$> inqs in
    GenerateInquiries (λ _, Q2Qc (1 # 2)) = Returns lines
    ∧ Forall2 (λ inq line, inquiry_line inq = Returns line) inqs lines
    ∧ length inqs = 70%nat
    ∧ Forall (λ inq, GetState inq = RECEIVED) inqs
    ∧ Inquiry_Subscribe_stream inquiry_service lines
      = (Returns (),
         (mkInquiryService
            (foldl (λ m inq, <[GetInquiryId inq := inq]> m)
               (inquiries inquiry_service) done)
            (inq_listeners inquiry_service),
          mjoin ((λ inq, (λ l, ProcessAdd l inq)
                         <$> inq_listeners inquiry_service) <$> done))).
Proof.
  apply (generated_inquiries_all_done (λ _, Q2Qc (1 # 2)) inquiry_service).
  intros n. split; by vm_compute.
Defined.

(** ** Prices on the grid of 1/256 *)

(** The price [j/256]. *)
Definition grid (j : Z) : Qc := Q2Qc (j # 256).

Ltac Qc_to_Z :=
  unfold grid, minTick, int_to_double, price_of;
  try apply Qc_is_canon; unfold Qcle, Qclt; simpl; rewrite ?Qred_correct;
  unfold Qeq, Qle, Qlt; simpl; rewrite ?Pos2Z.inj_mul.

Lemma grid_price_of (j : Z) :
  0 ≤ j → grid j = price_of (j / 256) (j `mod` 256).
Proof.
  intros Hj. unfold price_of.
  replace (256 * (j / 256) + j `mod` 256) with j
    by (pose proof (Z.div_mod j 256); lia).
  done.
Qed.

Lemma grid_plus (a b : Z) : (grid a + grid b = grid (a + b))%Qc.
Proof. Qc_to_Z. lia. Qed.

Lemma grid_minus (a b : Z) : (grid a - grid b = grid (a - b))%Qc.
Proof. Qc_to_Z. lia. Qed.

Lemma minTick_grid : minTick = grid 1.
Proof. Qc_to_Z. lia. Qed.

Lemma Qc_of_Z_grid (n : Z) : Qc_of_Z n = grid (256 * n).
Proof. Qc_to_Z. lia. Qed.

Lemma grid_le (a b : Z) : (grid a ≤ grid b)%Qc ↔ a ≤ b.
Proof. Qc_to_Z. lia. Qed.

Lemma grid_lt (a b : Z) : (grid a < grid b)%Qc ↔ a < b.
Proof. Qc_to_Z. lia. Qed.

Lemma grid_le_decide (a b : Z) :
  bool_decide (grid a ≤ grid b)%Qc = bool_decide (a ≤ b).
Proof. apply bool_decide_ext, grid_le. Qed.

Lemma grid_lt_decide (a b : Z) :
  bool_decide (grid a < grid b)%Qc = bool_decide (a < b).
Proof. apply bool_decide_ext, grid_lt. Qed.

Lemma grid_text (j : Z) :
  0 ≤ j < 549755813888 →
  price2string (grid j) = Returns (price_text (j / 256) (j `mod` 256))
  ∧ string2price (price_text (j / 256) (j `mod` 256)) = Returns (grid j)
  ∧ no_comma (price_text (j / 256) (j `mod` 256)) = true
  ∧ price_text (j / 256) (j `mod` 256) ≠ EmptyString.
Proof.
  intros Hj.
  pose proof (Z.div_pos j 256) as Hdiv0.
  pose proof (Z.div_lt_upper_bound j 256 2147483648) as Hdiv1.
  pose proof (Z.mod_pos_bound j 256) as Hmod.
  rewrite (grid_price_of j) by lia.
  split; [apply price2string_price_text; lia|].
  split; [apply string2price_price_text; lia|].
  split; [apply price_text_no_comma; lia|].
  unfold price_text, fractional_text. by destruct (to_string (j / 256)).
Qed.

Lemma quote_back (bid ask : Qc) :
  ((bid + ask) / Qc_of_Z 2 - (ask - bid) / Qc_of_Z 2 = bid)%Qc
  ∧ ((bid + ask) / Qc_of_Z 2 + (ask - bid) / Qc_of_Z 2 = ask)%Qc.
Proof.
  split; apply Qc_is_canon; simpl; rewrite !Qred_correct; field.
Qed.

(** The number of 256ths in a price, fractions dropped. *)
Definition ticks (p : Qc) : Z := trunc (p * Qc_of_Z 256)%Qc.

Lemma Qc_fraction (p : Qc) : ∃ a d, p = Q2Qc (a # d).
Proof.
  destruct p as [[a d] Hcanon]. exists a, d. by apply Qc_is_canon, symmetry, Qred_correct.
Qed.

Lemma price2string_parts (a : Z) (d : positive) :
  0 ≤ a →
  let p := Q2Qc (a # d) in
  let b := a / Z.pos d in
  let r := a `mod` Z.pos d in
  trunc p = b
  ∧ trunc ((p - int_to_double b) * Qc_of_Z 32)%Qc = (32 * r) / Z.pos d
  ∧ trunc ((p - int_to_double b) * Qc_of_Z 256)%Qc = (256 * r) / Z.pos d
  ∧ trunc (p * Qc_of_Z 256)%Qc = (256 * a) / Z.pos d.
Proof.
  intros Ha p b r.
  pose proof (Z.mod_pos_bound a (Z.pos d)) as Hr.
  pose proof (Z.div_mod a (Z.pos d)) as Hdiv.
  split; [by apply trunc_Q2Qc|].
  assert (∀ m : positive,
            ((p - int_to_double b) * Qc_of_Z (Z.pos m))%Qc
            = Q2Qc ((Z.pos m * r) # d)) as Hfrac.
  { intros m. apply Qc_is_canon. unfold p, int_to_double. simpl.
    rewrite !Qred_correct. unfold Qeq. simpl. fold b. unfold r.
    rewrite ?Pos2Z.inj_mul. nia. }
  split; [|split].
  - rewrite (Hfrac 32%positive). apply trunc_Q2Qc. lia.
  - rewrite (Hfrac 256%positive). apply trunc_Q2Qc. lia.
  - replace (p * Qc_of_Z 256)%Qc with (Q2Qc ((256 * a) # d)).
    + apply trunc_Q2Qc. lia.
    + apply Qc_is_canon. unfold p. simpl. rewrite !Qred_correct.
      unfold Qeq. simpl. rewrite ?Pos2Z.inj_mul. lia.
Qed.

Lemma ticks_parts (a : Z) (d : positive) :
  0 ≤ a →
  let n := (256 * a) / Z.pos d in
  a / Z.pos d = n / 256
  ∧ (32 * (a `mod` Z.pos d)) / Z.pos d = (n `mod` 256) / 8
  ∧ (256 * (a `mod` Z.pos d)) / Z.pos d = n `mod` 256
  ∧ n * Z.pos d ≤ 256 * a < (n + 1) * Z.pos d.
Proof.
  intros Ha n.
  pose proof (Z.mod_pos_bound a (Z.pos d)) as Hr.
  pose proof (Z.div_mod a (Z.pos d)) as Hdiv.
  set (b := a / Z.pos d) in *. set (r := a `mod` Z.pos d) in *.
  assert (n = b * 256 + (256 * r) / Z.pos d) as Hn.
  { unfold n. replace (256 * a) with (b * 256 * Z.pos d + 256 * r) by lia.
    rewrite Z.div_add_l by lia. done. }
  assert (0 ≤ (256 * r) / Z.pos d < 256) as Hlow.
  { split; [apply Z.div_pos; lia|]. apply Z.div_lt_upper_bound; lia. }
  assert (n `mod` 256 = (256 * r) / Z.pos d) as Hmod.
  { rewrite Hn. rewrite Z.add_comm, Z.mod_add by lia. apply Z.mod_small; lia. }
  split.
  { rewrite Hn. rewrite Z.add_comm, Z.div_add by lia.
    rewrite (Z.div_small ((256 * r) / Z.pos d)) by lia. lia. }
  split.
  { rewrite Hmod, Z.div_div by lia.
    replace (256 * r) with (32 * r * 8) by lia.
    by rewrite Z.div_mul_cancel_r by lia. }
  split; [done|].
  pose proof (Z.mul_div_le (256 * a) (Z.pos d)) as Hle.
  pose proof (Z.mul_succ_div_gt (256 * a) (Z.pos d)) as Hgt.
  fold n in Hle, Hgt. lia.
Qed.

Lemma Qc_nonneg_num (a : Z) (d : positive) : (0 ≤ Q2Qc (a # d))%Qc → 0 ≤ a.
Proof.
  unfold Qcle. cbn [this Q2Qc]. intros Hle.
  assert (0 <= a # d)%Q as Hq by (by rewrite <- (Qred_correct (a # d))).
  unfold Qle in Hq. simpl in Hq. lia.
Qed.

Lemma price2string_ticks (p : Qc) :
  (0 ≤ p)%Qc → trunc p ≤ 2147483647 →
  price2string p
  = Returns (price_text (ticks p / 256) (ticks p `mod` 256)).
Proof.
  destruct (Qc_fraction p) as (a & d & ->). intros Ha%Qc_nonneg_num Hint.
  destruct (price2string_parts a d Ha) as (Hb & Hxy & Hz & Hn).
  destruct (ticks_parts a d Ha) as (HB & HXY & HZ & _).
  pose proof (Z.mod_pos_bound ((256 * a) / Z.pos d) 256) as Hk.
  pose proof (Z.div_pos a (Z.pos d)) as Hb0.
  unfold ticks. rewrite Hn.
  set (n := (256 * a) / Z.pos d) in *.
  pose proof (Z.mod_pos_bound (n `mod` 256) 8) as Hmod8.
  pose proof (Z.div_pos (n `mod` 256) 8) as Hdiv0.
  pose proof (Z.div_lt_upper_bound (n `mod` 256) 8 32) as Hdiv1.
  rewrite HXY in Hxy. rewrite HZ in Hz. rewrite Hb in Hint.
  unfold price2string.
  rewrite (double_to_int_in_range _ _ Hb) by lia.
  cbn [mbind outcome_bind].
  rewrite (double_to_int_in_range _ _ Hxy) by lia.
  cbn [mbind outcome_bind].
  rewrite (double_to_int_in_range _ _ Hz) by lia.
  cbn [mbind outcome_bind].
  rewrite Z.rem_mod_nonneg by lia. rewrite HB.
  destruct (last_char_spec ((n `mod` 256) `mod` 8)) as [_ Hwrite]; [lia|].
  destruct (two_digits_spec ((n `mod` 256) / 8)) as [_ Hpad]; [lia|].
  rewrite Hwrite. unfold price_text, fractional_text.
  by rewrite <- (string_app_assoc _ (to_string ((n `mod` 256) / 8))), Hpad.
Qed.

(** X17.  The text of a price keeps the price rounded down to a multiple of
    1/256.  For every price that is not negative and whose integer part is
    an [int], [price2string] returns a text that [string2price] decodes to
    the largest multiple of 1/256 that is not above the price: the price
    itself when it is such a multiple, also when the number of 256ths
    modulo 8 is 4 and is written [+], and otherwise a price that is less
    than 1/256 below it. *)
Theorem price2string_rounds_down (p : Qc) :
  (0 ≤ p)%Qc → trunc p ≤ 2147483647 →
  price2string p ≫= string2price = Returns (grid (ticks p))
  ∧ (grid (ticks p) ≤ p)%Qc
  ∧ (p < grid (ticks p + 1))%Qc
  ∧ ∀ j, p = grid j → grid (ticks p) = p.
Proof.
  intros Hp Hint. rewrite price2string_ticks by done.
  cbn [mbind outcome_bind].
  destruct (Qc_fraction p) as (a & d & ->).
  pose proof (Qc_nonneg_num a d Hp) as Ha.
  destruct (price2string_parts a d Ha) as (Hb & _ & _ & Hn).
  destruct (ticks_parts a d Ha) as (HB & _ & _ & Hlow & Hhigh).
  pose proof (Z.div_pos (256 * a) (Z.pos d)) as Hn0.
  unfold ticks in *. rewrite Hn in *.
  set (n := (256 * a) / Z.pos d) in *.
  pose proof (Z.mod_pos_bound n 256) as Hk.
  pose proof (Z.div_pos n 256) as HB0.
  split.
  { rewrite string2price_price_text by lia. by rewrite <- grid_price_of by lia. }
  split.
  { unfold grid, Qcle. cbn [this Q2Qc]. rewrite !Qred_correct.
    unfold Qle. simpl. lia. }
  split.
  { unfold grid, Qclt. cbn [this Q2Qc]. rewrite !Qred_correct.
    unfold Qlt. simpl. lia. }
  intros j Hj. rewrite Hj. f_equal.
  assert (a * 256 = j * Z.pos d) as Heq.
  { apply (f_equal this) in Hj. unfold grid in Hj. cbn [this Q2Qc] in Hj.
    assert (a # d == j # 256)%Q as Hq
      by (by rewrite <- (Qred_correct (a # d)), Hj, Qred_correct).
    unfold Qeq in Hq. simpl in Hq. lia. }
  unfold n. replace (256 * a) with (j * Z.pos d) by lia.
  apply Z.div_mul. lia.
Qed.

Lemma price2string_rounds_down_witness :
  let p := Q2Qc (997 # 10) in
  price2string p ≫= string2price = Returns (grid (ticks p))
  ∧ (grid (ticks p) ≤ p)%Qc
  ∧ (p < grid (ticks p + 1))%Qc
  ∧ ∀ j, p = grid j → grid (ticks p) = p.
Proof.
  apply (price2string_rounds_down (Q2Qc (997 # 10))); by vm_compute.
Defined.

Example price2string_rounds_down_example :
  price2string (Q2Qc (997 # 10)) = Returns "99-223"
  ∧ string2price "99-223" = Returns (grid 25523)
  ∧ ticks (Q2Qc (997 # 10)) = 25523.
Proof.
  split; [by vm_compute|]. split; [|by vm_compute].
  rewrite <- (proj1 (proj2 (grid_text 25523 ltac:(lia)))). by vm_compute.
Qed.

(** ** The generated prices *)

(** The line of prices.txt for a bid and an ask, as [GeneratePrices] writes
    it. *)
Definition price_line (id : string) (bid ask : double) : outcome string :=
  bidStr ← price2string bid;
  askStr ← price2string ask;
  Returns (id +:+ "," +:+ bidStr +:+ "," +:+ askStr).

(** A quote of the file: the bond, and the bid and the ask in 256ths. *)
Definition Quote : Type := Bond * Z * Z.

Definition quote_line (q : Quote) : outcome string :=
  price_line (bond_productId q.1.1) (grid q.1.2) (grid q.2).

(** The price object that [PricingConnector::Subscribe] builds from a
    line. *)
Definition quote_price (q : Quote) : Price Bond :=
  mkPrice q.1.1 ((grid q.1.2 + grid q.2) / Qc_of_Z 2)%Qc
    (grid q.2 - grid q.1.2)%Qc.

Definition writable_quote (q : Quote) : Prop :=
  GetBond (bond_productId q.1.1) = Returns q.1.1
  ∧ 0 ≤ q.1.2 < 549755813888 ∧ 0 ≤ q.2 < 549755813888.

Definition Pricing_OnMessage_all
    (st : PricingService Bond * list (Call (Price Bond)))
    (prices : list (Price Bond))
    : PricingService Bond * list (Call (Price Bond)) :=
  foldl (λ st p, ((Pricing_OnMessage st.1 p).1,
                  st.2 ++ (Pricing_OnMessage st.1 p).2)) st prices.

Lemma Pricing_line_reads (q : Quote) :
  writable_quote q →
  ∃ line, quote_line q = Returns line
    ∧ ∀ st, Pricing_line st line
            = (Returns (), Pricing_OnMessage_all st [quote_price q]).
Proof.
  destruct q as [[bond jb] ja]. intros (Hbond & Hjb & Hja).
  cbn [fst snd] in *.
  destruct (GetBond_known _ _ Hbond) as (Hpid & _ & _).
  destruct (grid_text jb Hjb) as (Hwb & Hrb & Hcb & _).
  destruct (grid_text ja Hja) as (Hwa & Hra & Hca & Hna).
  unfold quote_line, price_line. cbn [fst snd]. rewrite Hwb, Hwa.
  cbn [mbind outcome_bind]. eexists. split; [reflexivity|]. intros st.
  unfold Pricing_line. rewrite !comma_app, line_not_empty.
  rewrite !split_commas_field by done. rewrite split_commas_last by done.
  rewrite Hrb, Hra. cbn [try_call]. rewrite Hbond.
  cbn [try_call Pricing_OnMessage_all foldl quote_price fst snd].
  by destruct (Pricing_OnMessage st.1 _).
Qed.

Lemma Pricing_Subscribe_reads (quotes : list Quote) :
  Forall writable_quote quotes →
  ∃ lines, Forall2 (λ q line, quote_line q = Returns line) quotes lines
    ∧ ∀ st, each_line Pricing_line st lines
            = (Returns (), Pricing_OnMessage_all st (quote_price <$> quotes)).
Proof.
  induction 1 as [|q quotes Hq _ (lines & Hlines & Hread)].
  - exists []. split; [constructor|done].
  - destruct (Pricing_line_reads q Hq) as (line & Hline & Hstep).
    exists (line :: lines). split; [by constructor|]. intros st.
    cbn [each_line]. rewrite Hstep.
    cbn [Pricing_OnMessage_all foldl fmap list_fmap].
    apply Hread.
Qed.

Lemma Pricing_OnMessage_all_calls (prices : list (Price Bond)) :
  ∀ st,
  Pricing_OnMessage_all st prices
  = (mkPricingService
       (foldl (λ m p, <[GetProductId (price_product p) := p]> m)
          (internalPriceMap st.1) prices)
       (priceSrvListeners st.1),
     st.2 ++ mjoin (fan_out (priceSrvListeners st.1) <$> prices)).
Proof.
  induction prices as [|p prices IH]; intros [svc calls].
  - simpl. rewrite app_nil_r. by destruct svc.
  - cbn [Pricing_OnMessage_all foldl]. fold Pricing_OnMessage_all.
    rewrite IH.
    cbn [fst snd Pricing_OnMessage internalPriceMap priceSrvListeners
         fmap list_fmap].
    change (mjoin (?x :: ?rest)) with (x ++ mjoin rest).
    by rewrite app_assoc.
Qed.

(** The centre of the quotes, in 256ths above 99, and the direction: what
    the loop of [GeneratePrices] keeps between 2 and 510. *)
Definition oscillates (c : Z) (rising : bool) : Prop :=
  2 ≤ c ≤ 510 ∧ (c = 510 → rising = false) ∧ (c = 2 → rising = true).

Lemma GeneratePrices_step_writes (d : nat → bool) (bond : Bond)
    (c : Z) (rising : bool) (drawn : nat) (file : list string) :
  GetBond (bond_productId bond) = Returns bond →
  oscillates c rising →
  ∃ c' rising' q line,
    GeneratePrices_step d (bond_productId bond)
      (mkPricesLoop (grid (25344 + c)) rising drawn file)
    = Returns (mkPricesLoop (grid (25344 + c')) rising' (S (S drawn))
                 (file ++ [line]))
    ∧ oscillates c' rising'
    ∧ quote_line q = Returns line
    ∧ writable_quote q
    ∧ q.1.1 = bond
    ∧ 25344 ≤ q.1.2 ∧ q.2 ≤ 25856 ∧ 2 ≤ q.2 - q.1.2 ≤ 4
    ∧ q.1.2 = 25344 + c - (if d (S drawn) then 2 else 1)
    ∧ q.2 = 25344 + c + (if d drawn then 2 else 1).
Proof.
  intros Hbond (Hc & Htop & Hbottom).
  set (jb := 25344 + c - (if d (S drawn) then 2 else 1)).
  set (ja := 25344 + c + (if d drawn then 2 else 1)).
  set (c' := c + (if rising then 1 else -1)).
  assert (2 ≤ c' ≤ 510) as Hc'.
  { unfold c'. destruct rising.
    - destruct (decide (c = 510)) as [Heq|]; [by apply Htop in Heq|lia].
    - destruct (decide (c = 2)) as [Heq|]; [by apply Hbottom in Heq|lia]. }
  exists c', (if bool_decide (c' ≤ 2) then true
              else if bool_decide (510 ≤ c') then false else rising),
         (bond, jb, ja).
  assert (0 ≤ jb < 549755813888 ∧ 0 ≤ ja < 549755813888) as [Hjb Hja]
    by (unfold jb, ja; destruct (d drawn), (d (S drawn)); lia).
  destruct (grid_text jb Hjb) as (Hwb & _).
  destruct (grid_text ja Hja) as (Hwa & _).
  eexists. unfold GeneratePrices_step.
  cbn [central_price up prices_drawn prices_file].
  rewrite !minTick_grid, !Qc_of_Z_grid.
  replace (if d drawn then (grid (25344 + c) + grid 1 + grid 1)%Qc
           else (grid (25344 + c) + grid 1)%Qc) with (grid ja)
    by (unfold ja; destruct (d drawn); rewrite !grid_plus; f_equal; lia).
  replace (if d (S drawn) then (grid (25344 + c) - grid 1 - grid 1)%Qc
           else (grid (25344 + c) - grid 1)%Qc) with (grid jb)
    by (unfold jb; destruct (d (S drawn)); rewrite !grid_minus; f_equal; lia).
  replace (grid (25344 + c) + (if rising then grid 1 else - grid 1))%Qc
    with (grid (25344 + c'))
    by (unfold c'; destruct rising;
        [rewrite grid_plus|
         change (grid (25344 + c) + - grid 1)%Qc
           with (grid (25344 + c) - grid 1)%Qc; rewrite grid_minus];
        f_equal; lia).
  replace (grid (256 * 101) - grid 1 * grid (256 * 2))%Qc with (grid 25854)
    by (Qc_to_Z; lia).
  replace (grid (256 * 99) + grid 1 * grid (256 * 2))%Qc with (grid 25346)
    by (Qc_to_Z; lia).
  rewrite !grid_le_decide, Hwb, Hwa. cbn [mbind outcome_bind].
  split.
  { do 2 f_equal. repeat case_bool_decide; try done; lia. }
  split.
  { split; [done|]. split; repeat case_bool_decide; try done; lia. }
  split.
  { unfold quote_line, price_line. cbn [fst snd]. rewrite Hwb, Hwa. done. }
  split; [done|]. split; [done|].
  unfold jb, ja. cbn [fst snd]. destruct (d drawn), (d (S drawn)); lia.
Qed.

(** What [GeneratePrices] writes: a bid from 99 up, an ask up to 101, two
    to four 256ths apart. *)
Definition generated_quote (bond : Bond) (q : Quote) : Prop :=
  q.1.1 = bond ∧ 25344 ≤ q.1.2 ∧ q.2 ≤ 25856 ∧ 2 ≤ q.2 - q.1.2 ≤ 4.

Lemma GeneratePrices_bond_writes (d : nat → bool) (bond : Bond) (n : nat) :
  GetBond (bond_productId bond) = Returns bond →
  ∀ c rising drawn file,
  oscillates c rising →
  ∃ c' rising' drawn' quotes lines,
    repeat_body n (GeneratePrices_step d (bond_productId bond))
      (mkPricesLoop (grid (25344 + c)) rising drawn file)
    = Returns (mkPricesLoop (grid (25344 + c')) rising' drawn' (file ++ lines))
    ∧ Forall2 (λ q line, quote_line q = Returns line) quotes lines
    ∧ Forall writable_quote quotes
    ∧ length quotes = n
    ∧ Forall (generated_quote bond) quotes.
Proof.
  intros Hbond. induction n as [|n IH]; intros c rising drawn file Hosc.
  - exists c, rising, drawn, [], []. rewrite app_nil_r.
    split; [done|]. split; [constructor|]. split; [constructor|].
    split; [done|constructor].
  - destruct (GeneratePrices_step_writes d bond c rising drawn file Hbond Hosc)
      as (c1 & rising1 & q & line & Hstep & Hosc1 & Hline & Hq & Hqbond
          & Hbid & Hask & Hspread & _).
    destruct (IH c1 rising1 (S (S drawn)) (file ++ [line]) Hosc1)
      as (c' & rising' & drawn' & quotes & lines & Hrun & Hlines & Hquotes
          & Hlen & Hgen).
    exists c', rising', drawn', (q :: quotes), (line :: lines).
    cbn [repeat_body]. rewrite Hstep. cbn [mbind outcome_bind].
    rewrite Hrun, <- app_assoc. split; [done|].
    split; [by constructor|]. split; [by constructor|].
    split; [simpl; by rewrite Hlen|]. by constructor.
Qed.

Lemma GeneratePrices_writes (d : nat → bool) (n : nat)
    (entries : list (Z * (string * (Z * Z * Z)))) :
  Forall (λ entry, ∃ bond, GetBond entry.2.1 = Returns bond) entries →
  ∀ drawn file,
  ∃ drawn' quotes lines,
    for_each
      (λ (st : nat * list string) entry,
         st' ← repeat_body n (GeneratePrices_step d entry.2.1)
                 (mkPricesLoop (Qc_of_Z 99 + minTick * Qc_of_Z 2)%Qc true
                    st.1 st.2);
         Returns (prices_drawn st', prices_file st'))
      (drawn, file) entries
    = Returns (drawn', file ++ lines)
    ∧ Forall2 (λ q line, quote_line q = Returns line) quotes lines
    ∧ Forall writable_quote quotes
    ∧ length quotes = (n * length entries)%nat
    ∧ Forall (λ q, 25344 ≤ q.1.2 ∧ q.2 ≤ 25856 ∧ 2 ≤ q.2 - q.1.2 ≤ 4) quotes.
Proof.
  induction 1 as [|entry entries [bond Hbond] _ IH]; intros drawn file.
  - exists drawn, [], []. rewrite app_nil_r.
    split; [done|]. split; [constructor|]. split; [constructor|].
    split; [simpl; lia|constructor].
  - destruct (GetBond_known _ _ Hbond) as (_ & Hpid & _).
    rewrite <- Hpid in Hbond.
    destruct (GeneratePrices_bond_writes d bond n Hbond 2 true drawn file)
      as (c' & rising' & drawn1 & quotes1 & lines1 & Hrun1 & Hlines1 & Hquotes1
          & Hlen1 & Hgen1).
    { split; [lia|]. split; [lia|done]. }
    destruct (IH drawn1 (file ++ lines1))
      as (drawn' & quotes & lines & Hrun & Hlines & Hquotes & Hlen & Hgen).
    exists drawn', (quotes1 ++ quotes), (lines1 ++ lines).
    cbn [for_each fst snd].
    replace (Qc_of_Z 99 + minTick * Qc_of_Z 2)%Qc with (grid (25344 + 2))
      in * by (Qc_to_Z; lia).
    rewrite <- Hpid, Hrun1. cbn [mbind outcome_bind prices_drawn prices_file].
    rewrite Hrun, <- app_assoc. split; [done|].
    split; [by apply Forall2_app|]. split; [by apply Forall_app|].
    split; [rewrite length_app, Hlen1, Hlen; simpl; lia|].
    apply Forall_app. split; [|done].
    eapply Forall_impl; [exact Hgen1|]. by intros q (_ & ?).
Qed.

(** The prices of a feed through the listener of the algo streaming
    service, and the streams through the listener of the streaming service,
    with the calls made. *)
Definition AlgoStreaming_feed (svc : AlgoStreamingService Bond)
    (prices : list (Price Bond))
    : AlgoStreamingService Bond * list (Call (AlgoStream Bond)) :=
  foldl (λ acc p,
           ((AlgoStreamingServiceListener_ProcessAdd acc.1 p).1,
            acc.2 ++ (AlgoStreamingServiceListener_ProcessAdd acc.1 p).2))
    (svc, []) prices.

Definition Streaming_feed (svc : StreamingService Bond)
    (streams : list (AlgoStream Bond))
    : StreamingService Bond * list (Call (PriceStream Bond)) :=
  foldl (λ acc s,
           ((StreamingServiceListener_ProcessAdd acc.1 s).1,
            acc.2 ++ (StreamingServiceListener_ProcessAdd acc.1 s).2))
    (svc, []) streams.

(** The stream [AlgoPublishPrice] builds for a quote when its counter is
    [count]. *)
Definition quote_stream (count : Z) (q : Quote) : AlgoStream Bond :=
  let visible := if Z.even count then 1000000 else 2000000 in
  mkAlgoStream
    (mkPriceStream q.1.1
       (mkPriceStreamOrder (grid q.1.2) visible (2 * visible) BID)
       (mkPriceStreamOrder (grid q.2) visible (2 * visible) OFFER)).

Lemma AlgoPublishPrice_quote (svc : AlgoStreamingService Bond) (q : Quote) :
  0 ≤ pricePublishCount svc →
  writable_quote q →
  AlgoStreamingServiceListener_ProcessAdd svc (quote_price q)
  = (mkAlgoStreamingService
       (<[bond_productId q.1.1 := quote_stream (pricePublishCount svc) q]>
          (algoStreams svc))
       (as_listeners svc) (pricePublishCount svc + 1),
     (λ l, ProcessAdd l (quote_stream (pricePublishCount svc) q))
     <$> as_listeners svc).
Proof.
  intros Hcount (_ & Hjb & Hja).
  unfold AlgoStreamingServiceListener_ProcessAdd, AlgoPublishPrice, quote_price,
    quote_stream.
  cbv zeta. cbn [price_product GetMid GetBidOfferSpread].
  assert ((grid q.1.2 + grid q.2) / Qc_of_Z 2 = Q2Qc ((q.1.2 + q.2) # 512))%Qc
    as -> by (Qc_to_Z; lia).
  assert (grid q.2 - grid q.1.2 = Q2Qc ((q.2 - q.1.2) # 256))%Qc
    as -> by (Qc_to_Z; lia).
  destruct (quoted_exact (q.1.2 + q.2) (q.2 - q.1.2)) as [-> ->]; [lia|].
  assert (Q2Qc ((q.1.2 + q.2 - (q.2 - q.1.2)) # 512) = grid q.1.2) as ->
    by (Qc_to_Z; lia).
  assert (Q2Qc ((q.1.2 + q.2 + (q.2 - q.1.2)) # 512) = grid q.2) as ->
    by (Qc_to_Z; lia).
  assert ((Z.rem (pricePublishCount svc) 2 + 1) * 1000000
          = if Z.even (pricePublishCount svc) then 1000000 else 2000000) as ->.
  { rewrite Z.rem_mod_nonneg by lia. rewrite Zmod_even.
    by destruct (Z.even (pricePublishCount svc)). }
  rewrite fan_out_fmap.
  by rewrite (Z.mul_comm (if Z.even (pricePublishCount svc)
                          then 1000000 else 2000000) 2).
Qed.

(** The map of a service that stored [streams] one after the other. *)
Definition last_streams (stored : gmap string (AlgoStream Bond))
    (streams : list (AlgoStream Bond)) : gmap string (AlgoStream Bond) :=
  foldl (λ stored s,
           <[GetProductId (stream_product (GetPriceStream s)) := s]> stored)
    stored streams.

Lemma AlgoStreaming_feed_quotes (quotes : list Quote) :
  ∀ (svc : AlgoStreamingService Bond) calls,
  0 ≤ pricePublishCount svc →
  Forall writable_quote quotes →
  foldl (λ acc p,
           ((AlgoStreamingServiceListener_ProcessAdd acc.1 p).1,
            acc.2 ++ (AlgoStreamingServiceListener_ProcessAdd acc.1 p).2))
    (svc, calls) (quote_price <$> quotes)
  = (mkAlgoStreamingService
       (last_streams (algoStreams svc)
          (imap (λ i q, quote_stream (pricePublishCount svc + Z.of_nat i) q)
             quotes))
       (as_listeners svc)
       (pricePublishCount svc + Z.of_nat (length quotes)),
     calls ++ mjoin ((λ s, (λ l, ProcessAdd l s) <$> as_listeners svc)
                     <$> imap (λ i q, quote_stream
                                        (pricePublishCount svc + Z.of_nat i) q)
                           quotes)).
Proof.
  induction quotes as [|q quotes IH]; intros svc calls Hcount Hquotes.
  - simpl. rewrite app_nil_r, Z.add_0_r. by destruct svc.
  - apply Forall_cons in Hquotes as [Hq Hquotes].
    cbn [fmap list_fmap foldl imap].
    rewrite AlgoPublishPrice_quote by done. cbn [fst snd].
    rewrite IH; [|simpl; lia|done].
    cbn [as_listeners pricePublishCount algoStreams last_streams foldl
         fmap list_fmap length].
    change (mjoin (?x :: ?rest)) with (x ++ mjoin rest).
    rewrite <- app_assoc, Z.add_0_r.
    assert (imap (λ i q0, quote_stream (pricePublishCount svc + 1 + Z.of_nat i) q0)
              quotes
            = imap ((λ i q0, quote_stream (pricePublishCount svc + Z.of_nat i) q0)
                    ∘ S) quotes) as ->.
    { apply imap_ext. intros i q0 _. simpl. f_equal. lia. }
    do 2 f_equal. lia.
Qed.

Lemma Streaming_feed_streams (streams : list (AlgoStream Bond)) :
  ∀ (svc : StreamingService Bond) calls,
  foldl (λ acc s,
           ((StreamingServiceListener_ProcessAdd acc.1 s).1,
            acc.2 ++ (StreamingServiceListener_ProcessAdd acc.1 s).2))
    (svc, calls) streams
  = (mkStreamingService
       (foldl (λ stored s, <[GetProductId (stream_product s) := s]> stored)
          (priceStreams svc) (GetPriceStream <$> streams))
       (str_listeners svc),
     calls ++ mjoin ((λ s, (λ l, ProcessAdd l s) <$> str_listeners svc)
                     <$> (GetPriceStream <$> streams))).
Proof.
  induction streams as [|s streams IH]; intros svc calls.
  - simpl. rewrite app_nil_r. by destruct svc.
  - cbn [foldl fmap list_fmap]. rewrite IH.
    unfold StreamingServiceListener_ProcessAdd, PublishPrice,
      Streaming_OnMessage.
    cbn [fst snd str_listeners priceStreams foldl].
    change (mjoin (?x :: ?rest)) with (x ++ mjoin rest).
    by rewrite fan_out_fmap, <- app_assoc.
Qed.

(** X18.  The prices that [GeneratePrices] writes are streamed unchanged.
    Whatever the random draws and the value of [DATASIZE], the generator
    writes 7 [DATASIZE] lines (none when it is not positive), each with a
    bid from 99 up and an ask up to 101 that are two to four 256ths apart.
    [PricingConnector::Subscribe] accepts every line, stores for its bond
    the price made of the mid and the spread, and passes it once to every
    listener, in registration order.  [AlgoPublishPrice] then quotes, for
    each price in turn, exactly the bid and the ask of the line, both sides
    showing 1,000,000 when its counter is even and 2,000,000 when it is
    odd and hiding twice as much; it stores the stream, passes it once to
    every listener, and its counter grows by the number of lines.  The
    streaming service stores each of these streams and passes it once to
    every one of its listeners. *)
Theorem generated_prices_streamed (d : nat → bool) (DATASIZE : Z)
    (pricing : PricingService Bond) (algo : AlgoStreamingService Bond)
    (streaming : StreamingService Bond) :
  0 ≤ pricePublishCount algo →
  ∃ lines quotes,
    let prices :=
      (λ q : Quote, mkPrice q.1.1 ((grid q.1.2 + grid q.2) / Qc_of_Z 2)%Qc
                      (grid q.2 - grid q.1.2)%Qc) <$> quotes in
    let streams :=
      imap (λ i (q : Quote),
              let visible :=
                if Z.even (pricePublishCount algo + Z.of_nat i)
                then 1000000 else 2000000 in
              mkPriceStream q.1.1
                (mkPriceStreamOrder (grid q.1.2) visible (2 * visible) BID)
                (mkPriceStreamOrder (grid q.2) visible (2 * visible) OFFER))
        quotes in
    GeneratePrices d DATASIZE = Returns lines
    ∧ Forall2 (λ q line, quote_line q = Returns line) quotes lines
    ∧ length quotes = (7 * Z.to_nat DATASIZE)%nat
    ∧ Forall (λ q, 25344 ≤ q.1.2 ∧ q.2 ≤ 25856 ∧ 2 ≤ q.2 - q.1.2 ≤ 4) quotes
    ∧ Pricing_Subscribe pricing lines
      = (Returns (),
         (mkPricingService
            (foldl (λ m p, <[GetProductId (price_product p) := p]> m)
               (internalPriceMap pricing) prices)
            (priceSrvListeners pricing),
          mjoin ((λ p, (λ l, ProcessAdd l p) <$> priceSrvListeners pricing)
                 <$> prices)))
    ∧ AlgoStreaming_feed algo prices
      = (mkAlgoStreamingService
           (foldl (λ m s, <[GetProductId (stream_product s) := mkAlgoStream s]> m)
              (algoStreams algo) streams)
           (as_listeners algo)
           (pricePublishCount algo + Z.of_nat (length quotes)),
         mjoin ((λ s, (λ l, ProcessAdd l (mkAlgoStream s)) <$> as_listeners algo)
                <$> streams))
    ∧ Streaming_feed streaming (mkAlgoStream <$> streams)
      = (mkStreamingService
           (foldl (λ m s, <[GetProductId (stream_product s) := s]> m)
              (priceStreams streaming) streams)
           (str_listeners streaming),
         mjoin ((λ s, (λ l, ProcessAdd l s) <$> str_listeners streaming)
                <$> streams)).
Proof.
  intros Hcount.
  destruct (GeneratePrices_writes d (Z.to_nat DATASIZE) bondMap_entries)
    with (drawn := O) (file := @nil string)
    as (drawn' & quotes & lines & Hrun & Hlines & Hwritable & Hlen & Hgen).
  { repeat constructor; eexists; by vm_compute. }
  exists lines, quotes. intros prices streams.
  unfold GeneratePrices. rewrite Hrun. cbn [mbind outcome_bind snd app].
  split; [done|]. split; [done|].
  split. { rewrite Hlen. simpl. lia. }
  split; [done|].
  assert (mkAlgoStream <$> streams
          = imap (λ i q, quote_stream (pricePublishCount algo + Z.of_nat i) q)
              quotes) as Hstreams.
  { unfold streams. by rewrite fmap_imap. }
  split.
  { destruct (Pricing_Subscribe_reads _ Hwritable) as (lines' & Hlines' & Hread).
    assert (lines' = lines) as ->
      by (by apply (Forall2_Returns_inj quote_line quotes)).
    unfold Pricing_Subscribe. rewrite Hread, Pricing_OnMessage_all_calls.
    by rewrite fan_out_each. }
  split.
  { unfold AlgoStreaming_feed.
    change prices with (quote_price <$> quotes).
    rewrite AlgoStreaming_feed_quotes by done.
    rewrite <- Hstreams. unfold last_streams.
    rewrite <- list_fmap_compose, foldl_fmap. done. }
  unfold Streaming_feed. rewrite Streaming_feed_streams.
  rewrite <- list_fmap_compose.
  assert (GetPriceStream ∘ mkAlgoStream <$> streams = streams) as ->.
  { rewrite <- (list_fmap_id streams) at 2. by apply list_fmap_ext. }
  done.
Qed.

(** The listeners of the pricing service are those of the GUI and of the
    algo streaming service; the streaming service has the historical data
    listener. *)
Definition pricing_service : PricingService Bond :=
  mkPricingService ∅ [1%nat; 2%nat].
Definition stream_service : StreamingService Bond :=
  mkStreamingService ∅ [11%nat].

Lemma generated_prices_streamed_witness :
  let pricing := pricing_service in
  let algo := streaming_service 0 in
  let streaming := stream_service in
  ∃ lines quotes,
    let prices :=
      (λ q : Quote, mkPrice q.1.1 ((grid q.1.2 + grid q.2) / Qc_of_Z 2)%Qc
                      (grid q.2 - grid q.1.2)%Qc) <$> quotes in
    let streams :=
      imap (λ i (q : Quote),
              let visible :=
                if Z.even (pricePublishCount algo + Z.of_nat i)
                then 1000000 else 2000000 in
              mkPriceStream q.1.1
                (mkPriceStreamOrder (grid q.1.2) visible (2 * visible) BID)
                (mkPriceStreamOrder (grid q.2) visible (2 * visible) OFFER))
        quotes in
    GeneratePrices (λ n, Nat.even n) 10000 = Returns lines
    ∧ Forall2 (λ q line, quote_line q = Returns line) quotes lines
    ∧ length quotes = (7 * Z.to_nat 10000)%nat
    ∧ Forall (λ q, 25344 ≤ q.1.2 ∧ q.2 ≤ 25856 ∧ 2 ≤ q.2 - q.1.2 ≤ 4) quotes
    ∧ Pricing_Subscribe pricing lines
      = (Returns (),
         (mkPricingService
            (foldl (λ m p, <[GetProductId (price_product p) := p]> m)
               (internalPriceMap pricing) prices)
            (priceSrvListeners pricing),
          mjoin ((λ p, (λ l, ProcessAdd l p) <$> priceSrvListeners pricing)
                 <$> prices)))
    ∧ AlgoStreaming_feed algo prices
      = (mkAlgoStreamingService
           (foldl (λ m s, <[GetProductId (stream_product s) := mkAlgoStream s]> m)
              (algoStreams algo) streams)
           (as_listeners algo)
           (pricePublishCount algo + Z.of_nat (length quotes)),
         mjoin ((λ s, (λ l, ProcessAdd l (mkAlgoStream s)) <$> as_listeners algo)
                <$> streams))
    ∧ Streaming_feed streaming (mkAlgoStream <$> streams)
      = (mkStreamingService
           (foldl (λ m s, <[GetProductId (stream_product s) := s]> m)
              (priceStreams streaming) streams)
           (str_listeners streaming),
         mjoin ((λ s, (λ l, ProcessAdd l s) <$> str_listeners streaming)
                <$> streams)).
Proof.
  apply (generated_prices_streamed (λ n, Nat.even n) 10000
           pricing_service (streaming_service 0)
           stream_service).
  simpl. lia.
Defined.
(** ** Market data: from lines to books *)

Definition pricing_side_text (side : PricingSide) : string :=
  match side with BID => "BID" | OFFER => "OFFER" end.

(** The line of marketdata.txt for an order of [qty] at [j/256]. *)
Definition order_line (id : string) (j qty : Z) (side : PricingSide) : string :=
  id +:+ "," +:+ price_text (j / 256) (j `mod` 256) +:+ "," +:+ to_string qty
  +:+ "," +:+ pricing_side_text side.

(** The stacks of the connector with one more order. *)
Definition bids_with (stack : list Order) (o : Order) : list Order :=
  match order_side o with BID => stack ++ [o] | OFFER => stack end.
Definition offers_with (stack : list Order) (o : Order) : list Order :=
  match order_side o with BID => stack | OFFER => stack ++ [o] end.

Lemma MarketData_line_order (thr : Z) (st : MarketDataFeed) (id : string)
    (j qty : Z) (side : PricingSide) :
  no_comma id = true → 0 ≤ j < 549755813888 →
  0 ≤ qty ≤ 9223372036854775807 → thr ≠ 0 →
  let o := mkOrder (grid j) qty side in
  let st1 := mkMarketDataFeed (feed_service st) (feed_calls st)
               (bids_with (tempBidStack st) o)
               (offers_with (tempOfferStack st) o) (orderCount st + 1) in
  MarketData_line thr st (order_line id j qty side)
  = if bool_decide (Z.rem (orderCount st + 1) thr = 0) then
      try_call (GetBond id) st1 (λ productObj,
        let assembledBook :=
          mkOrderBook productObj (bids_with (tempBidStack st) o)
            (offers_with (tempOfferStack st) o) in
        (Returns (),
         mkMarketDataFeed
           (MarketData_OnMessage (feed_service st) assembledBook).1
           (feed_calls st
            ++ (MarketData_OnMessage (feed_service st) assembledBook).2)
           [] [] (orderCount st + 1)))
    else (Returns (), st1).
Proof.
  intros Hid Hj Hqty Hthr o st1.
  destruct (grid_text j Hj) as (_ & Hread & Hcomma & _).
  unfold MarketData_line, order_line. rewrite !comma_app, line_not_empty.
  rewrite !split_commas_field; [|by apply no_comma_to_string, Hqty|done..].
  rewrite split_commas_last by (by destruct side).
  rewrite Hread, stol_to_string by done. cbn [try_call].
  rewrite (bool_decide_eq_false_2 (thr = 0)) by done.
  replace (if bool_decide (pricing_side_text side = "BID") then BID else OFFER)
    with side by (by destruct side).
  fold o. unfold st1, bids_with, offers_with. cbn [order_side o].
  case_bool_decide; [|by destruct side].
  destruct (GetBond id) as [bond| |]; cbn [try_call]; destruct side; try done;
    by destruct (MarketData_OnMessage _ _).
Qed.

(** The orders of one side, in the order of the stack. *)
Fixpoint of_side (side : PricingSide) (os : list Order) : list Order :=
  match os with
  | [] => []
  | o :: os' =>
      match order_side o, side with
      | BID, BID | OFFER, OFFER => o :: of_side side os'
      | _, _ => of_side side os'
      end
  end.

(** A line of the file: the product id, the price in 256ths, the
    quantity, the side. *)
Definition FileLine : Type := string * (Z * Z * PricingSide).

Definition line_of (fl : FileLine) : string :=
  order_line fl.1 fl.2.1.1 fl.2.1.2 fl.2.2.

Definition file_order (fl : FileLine) : Order :=
  mkOrder (grid fl.2.1.1) fl.2.1.2 fl.2.2.

Definition writable_line (fl : FileLine) : Prop :=
  no_comma fl.1 = true
  ∧ 0 ≤ fl.2.1.1 < 549755813888 ∧ 0 ≤ fl.2.1.2 ≤ 9223372036854775807.

Lemma MarketData_lines_pending (thr : Z) (fls : list FileLine) :
  0 < thr →
  Forall writable_line fls →
  ∀ st, 0 ≤ orderCount st →
  Z.rem (orderCount st) thr + Z.of_nat (length fls) < thr →
  each_line (MarketData_line thr) st (line_of <$> fls)
  = (Returns (),
     mkMarketDataFeed (feed_service st) (feed_calls st)
       (tempBidStack st ++ of_side BID (file_order <$> fls))
       (tempOfferStack st ++ of_side OFFER (file_order <$> fls))
       (orderCount st + Z.of_nat (length fls))).
Proof.
  intros Hthr. induction 1 as [|fl fls (Hid & Hj & Hqty) _ IH];
    intros st Hcount Hroom.
  - simpl. rewrite !app_nil_r, Z.add_0_r. by destruct st.
  - cbn [fmap list_fmap each_line length] in *.
    rewrite Z.rem_mod_nonneg in Hroom by lia.
    pose proof (Z.mod_pos_bound (orderCount st) thr Hthr) as Hmod.
    assert (Z.rem (orderCount st + 1) thr = orderCount st `mod` thr + 1) as Hnext.
    { rewrite Z.rem_mod_nonneg by lia.
      rewrite Z.add_mod, (Z.mod_small 1), Z.mod_small by lia. done. }
    unfold line_of at 1. rewrite MarketData_line_order by (done || lia).
    rewrite bool_decide_eq_false_2 by lia.
    rewrite IH; cbn [orderCount feed_service feed_calls tempBidStack
                     tempOfferStack]; [|lia|lia].
    unfold bids_with, offers_with, file_order at 1 3.
    cbn [order_side of_side file_order].
    replace (orderCount st + 1 + Z.of_nat (length fls))
      with (orderCount st + Z.of_nat (S (length fls))) by lia.
    destruct fl as [id [[j qty] []]]; cbn [fst snd]; by rewrite <- ?app_assoc.
Qed.

Lemma of_side_app (side : PricingSide) (os1 os2 : list Order) :
  of_side side (os1 ++ os2) = of_side side os1 ++ of_side side os2.
Proof.
  induction os1 as [|o os1 IH]; [done|]. cbn [app of_side]. rewrite IH.
  by destruct (order_side o), side.
Qed.

(** The book the connector assembles from a batch of lines whose last
    line names [bond]. *)
Definition batch_book (bond : Bond) (batch : list FileLine) : OrderBook Bond :=
  mkOrderBook bond (of_side BID (file_order <$> batch))
    (of_side OFFER (file_order <$> batch)).

Lemma MarketData_batch (thr : Z) (batch : list FileLine) (fl : FileLine)
    (bond : Bond) :
  Forall writable_line (batch ++ [fl]) →
  Z.of_nat (length (batch ++ [fl])) = thr →
  GetBond fl.1 = Returns bond →
  ∀ st, 0 ≤ orderCount st → Z.rem (orderCount st) thr = 0 →
  tempBidStack st = [] → tempOfferStack st = [] →
  each_line (MarketData_line thr) st (line_of <$> (batch ++ [fl]))
  = (Returns (),
     mkMarketDataFeed
       (MarketData_OnMessage (feed_service st)
          (batch_book bond (batch ++ [fl]))).1
       (feed_calls st
        ++ fan_out (md_listeners (feed_service st))
             (batch_book bond (batch ++ [fl])))
       [] [] (orderCount st + thr)).
Proof.
  destruct fl as [id [[j qty] side]]. cbn [fst snd].
  intros Hlines Hlen Hbond st Hcount Haligned Hbids Hoffers.
  apply Forall_app in Hlines as [Hbatch Hlast].
  apply Forall_singleton in Hlast as (Hid & Hj & Hqty).
  cbn [fst snd] in Hid, Hj, Hqty.
  rewrite length_app in Hlen. cbn [length] in Hlen.
  rewrite fmap_app.
  erewrite each_line_app;
    [|apply MarketData_lines_pending; [lia|done|done|lia]].
  cbn [fmap list_fmap each_line]. unfold line_of. cbn [fst snd].
  rewrite MarketData_line_order by (done || lia).
  cbn [orderCount feed_service feed_calls tempBidStack tempOfferStack].
  rewrite Hbids, Hoffers. cbn [app].
  rewrite bool_decide_eq_true_2.
  2: { replace (orderCount st + Z.of_nat (length batch) + 1)
         with (orderCount st + thr) by lia.
       rewrite Z.rem_mod_nonneg in * by lia.
       rewrite Z.add_mod, Haligned, Z.mod_same, Z.mod_0_l by lia. done. }
  rewrite Hbond. cbn [try_call].
  replace (orderCount st + Z.of_nat (length batch) + 1)
    with (orderCount st + thr) by lia.
  unfold batch_book. rewrite !fmap_app, !of_side_app.
  unfold bids_with, offers_with.
  cbn [order_side fmap list_fmap of_side file_order fst snd].
  destruct side; by rewrite ?app_nil_r.
Qed.

(** The service after the books of a feed. *)
Definition OnMessage_books (svc : MarketDataService Bond)
    (books : list (OrderBook Bond)) : MarketDataService Bond :=
  foldl (λ svc book, (MarketData_OnMessage svc book).1) svc books.

Lemma OnMessage_books_listeners (books : list (OrderBook Bond)) :
  ∀ svc, md_listeners (OnMessage_books svc books) = md_listeners svc
         ∧ bookDepth (OnMessage_books svc books) = bookDepth svc.
Proof.
  induction books as [|book books IH]; intros svc; [done|].
  change (OnMessage_books svc (book :: books))
    with (OnMessage_books (MarketData_OnMessage svc book).1 books).
  destruct (IH (MarketData_OnMessage svc book).1) as [-> ->]. done.
Qed.

Lemma OnMessage_books_stored (books : list (OrderBook Bond)) :
  ∀ svc,
  OnMessage_books svc books
  = mkMarketDataService
      (foldl (λ stored book, <[GetProductId (book_product book) := book]> stored)
         (orderBooks svc) books)
      (md_listeners svc) (bookDepth svc).
Proof.
  induction books as [|book books IH]; intros svc; [by destruct svc|].
  change (OnMessage_books svc (book :: books))
    with (OnMessage_books (MarketData_OnMessage svc book).1 books).
  by rewrite IH.
Qed.

Lemma MarketData_batches (thr : Z) (batches : list (list FileLine))
    (bonds : list Bond) :
  0 < thr →
  Forall (Forall writable_line) batches →
  Forall (λ batch, Z.of_nat (length batch) = thr) batches →
  Forall2 (λ batch bond, ∃ fl, last batch = Some fl ∧ GetBond fl.1 = Returns bond)
    batches bonds →
  ∀ st, 0 ≤ orderCount st → Z.rem (orderCount st) thr = 0 →
  tempBidStack st = [] → tempOfferStack st = [] →
  each_line (MarketData_line thr) st (line_of <$> mjoin batches)
  = (Returns (),
     mkMarketDataFeed
       (OnMessage_books (feed_service st) (zip_with batch_book bonds batches))
       (feed_calls st
        ++ mjoin (fan_out (md_listeners (feed_service st))
                  <$> zip_with batch_book bonds batches))
       [] [] (orderCount st + thr * Z.of_nat (length batches))).
Proof.
  intros Hthr Hwritable Hlen Hbonds. revert Hwritable Hlen.
  induction Hbonds as [|batch bond batches bonds (fl & Hlast & Hbond) _ IH];
    intros Hwritable Hlen st Hcount Haligned Hbids Hoffers.
  - simpl. rewrite app_nil_r, Z.mul_0_r, Z.add_0_r.
    destruct st. simpl in *. by subst.
  - apply Forall_cons in Hwritable as [Hbatch Hwritable].
    apply Forall_cons in Hlen as [Hbatch_len Hlen].
    apply last_Some in Hlast as [batch' ->].
    change (mjoin ((batch' ++ [fl]) :: batches))
      with ((batch' ++ [fl]) ++ mjoin batches).
    rewrite fmap_app.
    erewrite each_line_app; [|by apply (MarketData_batch thr batch' fl bond)].
    rewrite IH;
      cbn [orderCount feed_service feed_calls tempBidStack tempOfferStack];
      [|done|done|lia| |done|done].
    2: { rewrite Z.rem_mod_nonneg in * by lia.
         rewrite Z.add_mod, Haligned, Z.mod_same, Z.mod_0_l by lia. done. }
    cbn [zip_with OnMessage_books foldl fmap list_fmap length].
    change (mjoin (?x :: ?rest)) with (x ++ mjoin rest).
    rewrite <- app_assoc. do 2 f_equal. lia.
Qed.

(** X19.  [MarketDataConnector::Subscribe] cuts the file into batches of
    twice the depth of the book, whatever products the lines name.  For
    lines in the format of marketdata.txt, with comma-free ids, prices that
    are multiples of 1/256 and quantities that are not negative: every full
    batch gives one book, which holds the bids and the offers of the batch
    in the order of the file under the product named by the last line of
    the batch; the book is stored for that product and passed once to every
    listener, in registration order, before the next batch is read; the counter
    ends at the number of lines; and the lines after the last full batch
    are left in the stacks of the connector, which are dropped when it
    returns, so that they reach no book. *)
Theorem MarketData_Subscribe_batches (svc : MarketDataService Bond)
    (batches : list (list FileLine)) (bonds : list Bond)
    (rest : list FileLine) :
  0 < bookDepth svc →
  Forall (Forall writable_line) batches →
  Forall writable_line rest →
  Forall (λ batch, Z.of_nat (length batch) = 2 * bookDepth svc) batches →
  Z.of_nat (length rest) < 2 * bookDepth svc →
  Forall2 (λ batch bond, ∃ fl, last batch = Some fl ∧ GetBond fl.1 = Returns bond)
    batches bonds →
  let books := zip_with batch_book bonds batches in
  MarketData_Subscribe svc (line_of <$> (mjoin batches ++ rest))
  = (Returns (),
     mkMarketDataFeed
       (mkMarketDataService
          (foldl (λ stored book,
                    <[GetProductId (book_product book) := book]> stored)
             (orderBooks svc) books)
          (md_listeners svc) (bookDepth svc))
       (mjoin ((λ book, (λ l, ProcessAdd l book) <$> md_listeners svc)
               <$> books))
       (of_side BID (file_order <$> rest))
       (of_side OFFER (file_order <$> rest))
       (Z.of_nat (length (mjoin batches ++ rest))))
  ∧ length books = length batches.
Proof.
  intros Hdepth Hbatches Hrest Hlen Hrest_len Hbonds books.
  assert (Z.of_nat (length (mjoin batches))
          = bookDepth svc * 2 * Z.of_nat (length batches)) as Hlines.
  { clear -Hlen. induction Hlen as [|batch batches Hbatch _ IH]; [simpl; lia|].
    change (mjoin (batch :: batches)) with (batch ++ mjoin batches).
    rewrite length_app. cbn [length]. lia. }
  split.
  - unfold MarketData_Subscribe. rewrite fmap_app.
    erewrite each_line_app.
    2: { apply (MarketData_batches (bookDepth svc * 2) batches bonds);
           [lia|done| |done|done..].
         eapply Forall_impl; [exact Hlen|]. intros batch. cbn beta. lia. }
    cbn [orderCount feed_service feed_calls app].
    rewrite MarketData_lines_pending;
      cbn [orderCount feed_service feed_calls tempBidStack tempOfferStack app];
      [|lia|done|lia|].
    + rewrite length_app, Nat2Z.inj_add, Hlines.
      rewrite OnMessage_books_stored, fan_out_each. fold books.
      do 2 f_equal; lia.
    + rewrite Z.rem_mod_nonneg by lia.
      rewrite Z.add_0_l, Z.mul_comm, Z.mod_mul by lia. lia.
  - unfold books. apply Forall2_length in Hbonds.
    rewrite length_zip_with. unfold FileLine in *. lia.
Qed.

Definition shallow_market : MarketDataService Bond :=
  mkMarketDataService ∅ [7%nat] 1.

Lemma MarketData_Subscribe_batches_witness :
  let batches :=
    [[("912828V23", (25344, 100, BID)); ("912828W22", (25346, 100, OFFER))]] in
  let bonds := [US3Y] in
  let rest := [("912828V23", (25345, 200, BID))] in
  let books := zip_with batch_book bonds batches in
  MarketData_Subscribe shallow_market (line_of <$> (mjoin batches ++ rest))
  = (Returns (),
     mkMarketDataFeed
       (mkMarketDataService
          (foldl (λ stored book,
                    <[GetProductId (book_product book) := book]> stored)
             (orderBooks shallow_market) books)
          (md_listeners shallow_market) (bookDepth shallow_market))
       (mjoin ((λ book, (λ l, ProcessAdd l book) <$> md_listeners shallow_market)
               <$> books))
       (of_side BID (file_order <$> rest))
       (of_side OFFER (file_order <$> rest))
       (Z.of_nat (length (mjoin batches ++ rest))))
  ∧ length books = length batches.
Proof.
  apply (MarketData_Subscribe_batches shallow_market
           [[("912828V23", (25344, 100, BID));
             ("912828W22", (25346, 100, OFFER))]]
           [US3Y] [("912828V23", (25345, 200, BID))]).
  - simpl. lia.
  - repeat constructor; simpl; lia.
  - repeat constructor; simpl; lia.
  - repeat constructor.
  - simpl. lia.
  - repeat constructor. eexists. split; [reflexivity|]. by vm_compute.
Defined.

(** ** The generated market data *)

(** The two lines [GenerateMarketData] writes for a level, when the price
    is [99 + c/256]. *)
Definition level_lines (id : string) (c level : Z) : list FileLine :=
  [ (id, (25344 + c - level, level * 10000000, BID));
    (id, (25344 + c + level, level * 10000000, OFFER)) ].

(** The ten lines of one pass of the loop over [i]. *)
Definition step_lines (id : string) (c : Z) : list FileLine :=
  mjoin (level_lines id c <$> seqZ 1 5).

Lemma levels : seqZ 1 5 = [1; 2; 3; 4; 5].
Proof. reflexivity. Qed.

Lemma level_spread (level : Z) : (int_to_double level * minTick)%Qc = grid level.
Proof. Qc_to_Z. lia. Qed.

Lemma GenerateMarketData_level_writes (id : string) (c level : Z)
    (file : list string) :
  0 ≤ c ≤ 511 → 1 ≤ level ≤ 5 →
  GenerateMarketData_level id (grid (25344 + c)) file level
  = Returns (file ++ (line_of <$> level_lines id c level)).
Proof.
  intros Hc Hlevel. unfold GenerateMarketData_level.
  rewrite level_spread, grid_minus, grid_plus.
  destruct (grid_text (25344 + c - level)) as (-> & _); [lia|].
  destruct (grid_text (25344 + c + level)) as (-> & _); [lia|].
  cbn [mbind outcome_bind]. by rewrite <- app_assoc.
Qed.

(** The next price and direction of the loop of [GenerateMarketData]. *)
Definition next_center (c : Z) (increasing : bool) : Z * bool :=
  let increasing := if bool_decide (511 ≤ c) then false else increasing in
  let increasing := if bool_decide (c ≤ 1) then true else increasing in
  (c + (if increasing then 1 else -1), increasing).

Lemma next_center_range (c : Z) (increasing : bool) :
  0 ≤ c ≤ 511 →
  0 ≤ (next_center c increasing).1 ≤ 511
  ∧ ((next_center c increasing).1 = c + 1 ∨ (next_center c increasing).1 = c - 1).
Proof.
  intros Hc. unfold next_center. cbn [fst].
  repeat case_bool_decide; destruct increasing; lia.
Qed.

Lemma GenerateMarketData_step_writes (id : string) (c : Z) (increasing : bool)
    (file : list string) :
  0 ≤ c ≤ 511 →
  GenerateMarketData_step id (grid (25344 + c), increasing, file)
  = Returns (grid (25344 + (next_center c increasing).1),
             (next_center c increasing).2,
             file ++ (line_of <$> step_lines id c)).
Proof.
  intros Hc. unfold GenerateMarketData_step, step_lines. rewrite levels.
  cbn [for_each fmap list_fmap].
  do 5 (rewrite GenerateMarketData_level_writes by lia;
        cbn [mbind outcome_bind]).
  rewrite minTick_grid, !Qc_of_Z_grid, grid_minus, grid_plus, !grid_le_decide.
  unfold next_center. cbn [fst snd].
  rewrite (bool_decide_ext (256 * 101 - 1 ≤ 25344 + c) (511 ≤ c)) by lia.
  rewrite (bool_decide_ext (25344 + c ≤ 256 * 99 + 1) (c ≤ 1)) by lia.
  set (dir := if bool_decide (c ≤ 1) then true
              else if bool_decide (511 ≤ c) then false else increasing).
  replace (grid (25344 + c) + (if dir then grid 1 else - grid 1))%Qc
    with (grid (25344 + (c + (if dir then 1 else -1)))).
  2: { destruct dir.
       - by rewrite grid_plus, Z.add_assoc.
       - change (grid (25344 + c) + - grid 1)%Qc
           with (grid (25344 + c) - grid 1)%Qc.
         rewrite grid_minus. f_equal. lia. }
  change (mjoin [?a; ?b; ?c0; ?d; ?e]) with (a ++ b ++ c0 ++ d ++ e).
  by rewrite !fmap_app, <- !app_assoc.
Qed.

(** Two passes of the loop make one batch of twenty lines. *)
Definition pair_lines (id : string) (cs : Z * Z) : list FileLine :=
  step_lines id cs.1 ++ step_lines id cs.2.

(** Two prices of consecutive passes: between 99 and 101, one 256th
    apart. *)
Definition consecutive (cs : Z * Z) : Prop :=
  0 ≤ cs.1 ≤ 511 ∧ 0 ≤ cs.2 ≤ 511 ∧ (cs.2 = cs.1 + 1 ∨ cs.2 = cs.1 - 1).

Lemma GenerateMarketData_bond_writes (id : string) (m : nat) :
  ∀ c increasing file,
  0 ≤ c ≤ 511 →
  ∃ c' increasing' pairs,
    repeat_body (2 * m) (GenerateMarketData_step id)
      (grid (25344 + c), increasing, file)
    = Returns (grid (25344 + c'), increasing',
               file ++ (line_of <$> mjoin (pair_lines id <$> pairs)))
    ∧ 0 ≤ c' ≤ 511
    ∧ length pairs = m
    ∧ Forall consecutive pairs.
Proof.
  induction m as [|m IH]; intros c increasing file Hc.
  - exists c, increasing, []. simpl. rewrite app_nil_r.
    split; [done|]. split; [done|]. split; [done|constructor].
  - replace (2 * S m)%nat with (S (S (2 * m))) by lia.
    destruct (next_center_range c increasing Hc) as (Hc1 & Hstep1).
    destruct (next_center c increasing) as [c1 increasing1] eqn:Hnext1.
    cbn [fst] in Hc1, Hstep1.
    destruct (next_center_range c1 increasing1 Hc1) as (Hc2 & _).
    destruct (next_center c1 increasing1) as [c2 increasing2] eqn:Hnext2.
    cbn [fst] in Hc2.
    destruct (IH c2 increasing2
                ((file ++ (line_of <$> step_lines id c))
                 ++ (line_of <$> step_lines id c1)) Hc2)
      as (c' & increasing' & pairs & Hrun & Hc' & Hlen & Hpairs).
    exists c', increasing', ((c, c1) :: pairs).
    cbn [repeat_body]. rewrite GenerateMarketData_step_writes by done.
    rewrite Hnext1. cbn [mbind outcome_bind fst snd].
    rewrite GenerateMarketData_step_writes by done.
    rewrite Hnext2. cbn [mbind outcome_bind fst snd].
    rewrite Hrun. split.
    { do 2 f_equal. cbn [fmap list_fmap].
      change (mjoin (?x :: ?rest)) with (x ++ mjoin rest).
      unfold pair_lines at 2. cbn [fst snd].
      by rewrite !fmap_app, <- !app_assoc. }
    split; [done|]. split; [simpl; by rewrite Hlen|].
    constructor; [|done]. split; [done|]. split; done.
Qed.

(** A batch of the generated file: the bond, and the prices of the two
    passes in 256ths above 99. *)
Definition Tick : Type := Bond * (Z * Z).

Definition tick_lines (t : Tick) : list FileLine :=
  pair_lines (bond_productId t.1) t.2.

Definition generated_tick (t : Tick) : Prop :=
  GetBond (bond_productId t.1) = Returns t.1 ∧ consecutive t.2.

Lemma GenerateMarketData_writes (m : nat)
    (entries : list (Z * (string * (Z * Z * Z)))) :
  Forall (λ entry, ∃ bond, GetBond entry.2.1 = Returns bond) entries →
  ∀ file,
  ∃ ticks,
    for_each
      (λ file entry,
         st ← repeat_body (2 * m) (GenerateMarketData_step entry.2.1)
                (Qc_of_Z 99, true, file);
         Returns st.2)
      file entries
    = Returns (file ++ (line_of <$> mjoin (tick_lines <$> ticks)))
    ∧ length ticks = (m * length entries)%nat
    ∧ Forall generated_tick ticks.
Proof.
  induction 1 as [|entry entries [bond Hbond] _ IH]; intros file.
  - exists []. simpl. rewrite app_nil_r.
    split; [done|]. split; [lia|constructor].
  - destruct (GenerateMarketData_bond_writes entry.2.1 m 0 true file)
      as (c' & increasing' & pairs & Hrun & _ & Hlen & Hpairs); [lia|].
    destruct (IH (file ++ (line_of <$> mjoin (pair_lines entry.2.1 <$> pairs))))
      as (ticks & Hrest & Hticks & Hall).
    destruct (GetBond_known _ _ Hbond) as (_ & Hpid & _).
    exists (((λ cs, (bond, cs)) <$> pairs) ++ ticks). cbn [for_each].
    replace (grid (25344 + 0)) with (Qc_of_Z 99) in Hrun by (Qc_to_Z; lia).
    rewrite Hrun. cbn [mbind outcome_bind snd]. rewrite Hrest.
    split.
    { assert (tick_lines <$> ((λ cs, (bond, cs)) <$> pairs)
              = pair_lines entry.2.1 <$> pairs) as Hlines.
      { rewrite <- list_fmap_compose. apply list_fmap_ext. intros i cs _.
        unfold tick_lines. cbn [fst snd compose]. by rewrite Hpid. }
      by rewrite fmap_app, join_app, fmap_app, Hlines, <- app_assoc. }
    split. { rewrite length_app, length_fmap, Hlen, Hticks. simpl. lia. }
    apply Forall_app. split; [|done].
    apply Forall_fmap. eapply Forall_impl; [exact Hpairs|].
    intros cs Hcs. split; [|done]. cbn [fst]. by rewrite Hpid.
Qed.

Lemma tick_lines_batch (t : Tick) :
  generated_tick t →
  Forall writable_line (tick_lines t)
  ∧ Z.of_nat (length (tick_lines t)) = 20
  ∧ ∃ fl, last (tick_lines t) = Some fl ∧ GetBond fl.1 = Returns t.1.
Proof.
  destruct t as [bond [c1 c2]]. intros (Hbond & Hc1 & Hc2 & _).
  cbn [fst snd] in *.
  destruct (GetBond_known _ _ Hbond) as (Hid & _ & _).
  unfold tick_lines, pair_lines, step_lines. rewrite levels.
  cbn [fmap list_fmap mjoin list_join app level_lines fst snd].
  split.
  { repeat constructor; cbn [fst snd]; try done; lia. }
  split; [done|]. eexists. split; [reflexivity|done].
Qed.

Lemma highest_bid_grid (best : Order) (j cj q : Z) (s : PricingSide)
    (rest : list Order) :
  highest_bid best (grid j) (mkOrder (grid cj) q s :: rest)
  = if bool_decide (j < cj)
    then highest_bid (mkOrder (grid cj) q s) (grid cj) rest
    else highest_bid best (grid j) rest.
Proof. cbn [highest_bid order_price]. by rewrite grid_lt_decide. Qed.

Lemma lowest_offer_grid (best : Order) (j cj q : Z) (s : PricingSide)
    (rest : list Order) :
  lowest_offer best (grid j) (mkOrder (grid cj) q s :: rest)
  = if bool_decide (cj < j)
    then lowest_offer (mkOrder (grid cj) q s) (grid cj) rest
    else lowest_offer best (grid j) rest.
Proof. cbn [lowest_offer order_price]. by rewrite grid_lt_decide. Qed.

Ltac best_of_stack :=
  repeat (first [ rewrite highest_bid_grid | rewrite lowest_offer_grid ];
          first [ rewrite bool_decide_eq_true_2 by lia
                | rewrite bool_decide_eq_false_2 by lia ]).

(** The book of a batch of two consecutive passes: its best bid and its
    best offer are the first levels nearest to each other, 1/256 apart. *)
Lemma pair_book_best (bond : Bond) (id : string) (cs : Z * Z) :
  consecutive cs →
  GetBidOffer (batch_book bond (pair_lines id cs))
  = Returns
      (mkBidOffer
         (mkOrder (grid (25344 + Z.max cs.1 cs.2 - 1)) 10000000 BID)
         (mkOrder (grid (25344 + Z.min cs.1 cs.2 + 1)) 10000000 OFFER))
  ∧ length (GetBidStack (batch_book bond (pair_lines id cs))) = 10%nat
  ∧ length (GetOfferStack (batch_book bond (pair_lines id cs))) = 10%nat.
Proof.
  destruct cs as [c1 c2]. intros (Hc1 & Hc2 & Hstep). cbn [fst snd] in *.
  unfold batch_book, pair_lines, step_lines. rewrite levels.
  cbn [fmap list_fmap mjoin list_join app level_lines].
  unfold file_order. cbn [fst snd of_side order_side].
  split; [|done].
  unfold GetBidOffer. cbn [GetBidStack GetOfferStack order_price].
  destruct Hstep as [-> | ->]; best_of_stack; cbn [highest_bid lowest_offer];
    do 2 f_equal; f_equal; try done; f_equal; lia.
Qed.

Definition tick_book (t : Tick) : OrderBook Bond :=
  batch_book t.1 (tick_lines t).

Lemma tick_books (ticks : list Tick) :
  zip_with batch_book (fst <$> ticks) (tick_lines <$> ticks)
  = tick_book <$> ticks.
Proof.
  induction ticks as [|t ticks IH]; [done|].
  cbn [fmap list_fmap zip_with]. f_equal. exact IH.
Qed.

Lemma ticks_batches (ticks : list Tick) :
  Forall generated_tick ticks →
  Forall (Forall writable_line) (tick_lines <$> ticks)
  ∧ Forall (λ batch, Z.of_nat (length batch) = 20) (tick_lines <$> ticks)
  ∧ Forall2 (λ batch bond,
               ∃ fl, last batch = Some fl ∧ GetBond fl.1 = Returns bond)
      (tick_lines <$> ticks) (fst <$> ticks)
  ∧ length (mjoin (tick_lines <$> ticks)) = (20 * length ticks)%nat.
Proof.
  induction 1 as [|t ticks Ht _ (IHw & IHl & IHb & IHn)].
  - split; [constructor|]. split; [constructor|]. split; [constructor|done].
  - destruct (tick_lines_batch t Ht) as (Hw & Hl & Hb).
    cbn [fmap list_fmap].
    split; [by constructor|]. split; [by constructor|].
    split; [by constructor|].
    change (mjoin (?x :: ?rest)) with (x ++ mjoin rest).
    rewrite length_app, IHn. cbn [length]. lia.
Qed.

Lemma fsub_grid (a b : Z) :
  Z.abs (a - b) < 9007199254740992 → fsub (grid a) (grid b) = grid (a - b).
Proof.
  intros Hdiff. unfold grid. rewrite fsub_256ths by done. apply grid_minus.
Qed.

(** The best bid and the best offer of the book of a batch. *)
Definition tick_quote (t : Tick) : BidOffer :=
  mkBidOffer
    (mkOrder (grid (25344 + Z.max t.2.1 t.2.2 - 1)) 10000000 BID)
    (mkOrder (grid (25344 + Z.min t.2.1 t.2.2 + 1)) 10000000 OFFER).

Lemma tick_book_bounded (t : Tick) : bounded_quantities (tick_book t).
Proof.
  unfold bounded_quantities, tick_book, batch_book, tick_lines, pair_lines,
    step_lines.
  rewrite levels.
  cbn [fmap list_fmap mjoin list_join app level_lines].
  unfold file_order. cbn [fst snd of_side order_side GetBidStack GetOfferStack].
  repeat constructor; cbn [order_quantity]; lia.
Qed.

Lemma tick_book_crosses (t : Tick) :
  generated_tick t →
  length (GetBidStack (tick_book t)) = 10%nat
  ∧ length (GetOfferStack (tick_book t)) = 10%nat
  ∧ crosses (tick_book t) = true
  ∧ ∃ bo, GetBidOffer (tick_book t) = Returns bo
      ∧ spread bo = minTick
      ∧ order_quantity (GetBidOrder bo) = 10000000
      ∧ order_quantity (GetOfferOrder bo) = 10000000.
Proof.
  intros (_ & Hcs).
  destruct (pair_book_best t.1 (bond_productId t.1) t.2 Hcs)
    as (Hbest & Hbids & Hoffers).
  destruct Hcs as (Hc1 & Hc2 & Hstep).
  assert (spread
            (mkBidOffer
               (mkOrder (grid (25344 + Z.max t.2.1 t.2.2 - 1)) 10000000 BID)
               (mkOrder (grid (25344 + Z.min t.2.1 t.2.2 + 1)) 10000000 OFFER))
          = grid 1) as Hspread.
  { unfold spread. cbn [GetBidOrder GetOfferOrder order_price].
    rewrite fsub_grid by lia. f_equal. lia. }
  split; [done|]. split; [done|]. split.
  - unfold crosses, tick_book, tick_lines. rewrite Hbest, Hspread.
    apply bool_decide_eq_true. Qc_to_Z. lia.
  - eexists. split; [exact Hbest|]. rewrite Hspread, minTick_grid. done.
Qed.

Lemma filter_crosses (books : list (OrderBook Bond)) :
  Forall (λ book, crosses book = true) books →
  filter (λ book, crosses book = true) books = books.
Proof.
  induction 1 as [|book books Hbook _ IH]; [done|].
  by rewrite filter_cons_True, IH.
Qed.

Lemma tick_book_quote (t : Tick) :
  generated_tick t →
  length (GetBidStack (tick_book t)) = 10%nat
  ∧ length (GetOfferStack (tick_book t)) = 10%nat
  ∧ first_highest (GetBidStack (tick_book t)) (GetBidOrder (tick_quote t))
  ∧ first_lowest (GetOfferStack (tick_book t)) (GetOfferOrder (tick_quote t))
  ∧ (order_price (GetOfferOrder (tick_quote t))
     - order_price (GetBidOrder (tick_quote t)) = 1 / Qc_of_Z 256)%Qc
  ∧ (fsub (order_price (GetOfferOrder (tick_quote t)))
       (order_price (GetBidOrder (tick_quote t))) ≤ 1 / Qc_of_Z 128)%Qc.
Proof.
  intros (_ & Hcs).
  destruct (pair_book_best t.1 (bond_productId t.1) t.2 Hcs)
    as (Hbest & Hbids & Hoffers).
  fold (tick_lines t) in Hbest, Hbids, Hoffers.
  fold (tick_book t) in Hbest, Hbids, Hoffers. fold (tick_quote t) in Hbest.
  destruct (GetBidOffer_nonempty (tick_book t)) as (bo & Hbo & Hhi & Hlo).
  { intros Hnil. by rewrite Hnil in Hbids. }
  { intros Hnil. by rewrite Hnil in Hoffers. }
  rewrite Hbest in Hbo. injection Hbo as <-.
  destruct Hcs as (Hc1 & Hc2 & Hstep).
  do 4 (split; [done|]).
  cbn [tick_quote GetBidOrder GetOfferOrder order_price].
  rewrite fsub_grid, grid_minus by lia.
  replace (25344 + Z.min t.2.1 t.2.2 + 1 - (25344 + Z.max t.2.1 t.2.2 - 1))
    with 1 by lia.
  split; Qc_to_Z; lia.
Qed.

Lemma filter_all {A} (P : A → Prop) `{∀ x, Decision (P x)} (l : list A) :
  Forall P l → filter P l = l.
Proof.
  induction 1 as [|x l Hx _ IH]; [done|]. by rewrite filter_cons_True, IH.
Qed.

(** X20.  Every book made from the market data that [GenerateMarketData]
    writes passes the spread filter.  When [DATASIZE / 10] is twice [m],
    the generator writes 140 [m] lines; [MarketDataConnector::Subscribe],
    with the depth 10 of the service, makes 7 [m] books out of them, keeps
    no line back, stores each book for its product and passes it once to
    every listener, in registration order.  Each book has ten bids and ten
    offers; its first bid at the highest price and its first offer at the
    lowest price are 1/256 apart, each for 10,000,000.  So
    [AlgoExecutionTrade] makes one order for every book: the [i]-th order
    is on the bid side, with the price and quantity of the best bid of the
    [i]-th book, when the counter plus [i] is odd, and on the offer side
    otherwise; its id carries the counter plus [i + 1]; each order is
    passed once to every listener, the service keeps the last order of
    each product, and the counter grows by 7 [m]. *)
Theorem generated_market_data_crosses (DATASIZE : Z) (m : nat)
    (svc : MarketDataService Bond) (algo : AlgoExecutionService Bond) :
  Z.quot DATASIZE 10 = 2 * Z.of_nat m →
  bookDepth svc = 10 →
  0 ≤ executionCount algo →
  ∃ lines (quotes : list (OrderBook Bond * BidOffer)),
    let books := quotes.*1 in
    let order (i : nat) (q : OrderBook Bond * BidOffer) :=
      let odd := Z.odd (executionCount algo + Z.of_nat i) in
      let chosen := if odd then GetBidOrder q.2 else GetOfferOrder q.2 in
      mkExecutionOrder (book_product q.1) (if odd then BID else OFFER)
        ("AlgoExec" +:+ to_string (executionCount algo + Z.of_nat i + 1)) MARKET
        (order_price chosen) (order_quantity chosen) 0 "PARENT_ORDER_ID" false in
    GenerateMarketData DATASIZE = Returns lines
    ∧ length lines = (140 * m)%nat
    ∧ MarketData_Subscribe svc lines
      = (Returns (),
         mkMarketDataFeed
           (mkMarketDataService
              (foldl (λ stored book,
                        <[GetProductId (book_product book) := book]> stored)
                 (orderBooks svc) books)
              (md_listeners svc) 10)
           (mjoin ((λ book, (λ l, ProcessAdd l book) <$> md_listeners svc)
                   <$> books))
           [] [] (Z.of_nat (140 * m)))
    ∧ length quotes = (7 * m)%nat
    ∧ Forall (λ q,
                length (GetBidStack q.1) = 10%nat
                ∧ length (GetOfferStack q.1) = 10%nat
                ∧ first_highest (GetBidStack q.1) (GetBidOrder q.2)
                ∧ first_lowest (GetOfferStack q.1) (GetOfferOrder q.2)
                ∧ (order_price (GetOfferOrder q.2)
                   - order_price (GetBidOrder q.2) = 1 / Qc_of_Z 256)%Qc
                ∧ order_quantity (GetBidOrder q.2) = 10000000
                ∧ order_quantity (GetOfferOrder q.2) = 10000000) quotes
    ∧ AlgoExecution_feed algo books
      = Returns
          (mkAlgoExecutionService
             (foldl (λ stored o,
                       <[GetProductId (eo_product o) := mkAlgoExecution o]>
                         stored)
                (algoExecutions algo) (imap order quotes))
             (ae_listeners algo)
             (executionCount algo + Z.of_nat (7 * m)),
           mjoin ((λ o, (λ l, ProcessAdd l (mkAlgoExecution o))
                        <$> ae_listeners algo)
                  <$> imap order quotes)).
Proof.
  intros Hsize Hdepth Hcount.
  destruct (GenerateMarketData_writes m bondMap_entries) with (file := @nil string)
    as (ticks & Hrun & Hlen & Hticks).
  { repeat constructor; eexists; by vm_compute. }
  destruct (ticks_batches ticks Hticks) as (Hw & Hl & Hb & Hn).
  change (length bondMap_entries) with 7%nat in Hlen.
  exists (line_of <$> mjoin (tick_lines <$> ticks)),
         ((λ t, (tick_book t, tick_quote t)) <$> ticks).
  intros books order.
  assert (books = tick_book <$> ticks) as Hbooks.
  { unfold books. rewrite <- list_fmap_compose. by apply list_fmap_ext. }
  split.
  { unfold GenerateMarketData. rewrite Hsize.
    replace (Z.to_nat (2 * Z.of_nat m)) with (2 * m)%nat by lia.
    by rewrite Hrun. }
  split. { rewrite length_fmap, Hn, Hlen. lia. }
  split.
  { unfold MarketData_Subscribe. rewrite Hdepth.
    rewrite (MarketData_batches (10 * 2) (tick_lines <$> ticks) (fst <$> ticks))
      by done.
    cbn [orderCount feed_service feed_calls app]. rewrite tick_books.
    rewrite OnMessage_books_stored, fan_out_each, Hdepth, Hbooks.
    rewrite length_fmap, Hlen. do 2 f_equal. lia. }
  split. { rewrite length_fmap, Hlen. lia. }
  split.
  { apply Forall_fmap. eapply Forall_impl; [exact Hticks|].
    intros t Ht. cbn [compose fst snd].
    destruct (tick_book_quote t Ht) as (? & ? & ? & ? & ? & _). done. }
  rewrite AlgoExecution_feed_orders; [|done| |].
  - rewrite Hbooks at 1 2 3.
    replace (tick_book <$> ticks)
      with (((λ t, (tick_book t, tick_quote t)) <$> ticks).*1)
      by (rewrite <- list_fmap_compose; by apply list_fmap_ext).
    rewrite algo_orders_quoted.
    + rewrite filter_all.
      * rewrite length_imap, length_fmap, Hlen.
        replace (Z.of_nat (m * 7)) with (Z.of_nat (7 * m)) by lia. done.
      * apply Forall_fmap. eapply Forall_impl; [exact Hticks|].
        intros t Ht. cbn [compose fst snd].
        by destruct (tick_book_quote t Ht) as (_ & _ & _ & _ & _ & ?).
    + apply Forall_fmap. eapply Forall_impl; [exact Hticks|].
      intros t Ht. cbn [compose fst snd].
      by destruct (tick_book_quote t Ht) as (_ & _ & ? & ? & _).
  - rewrite Hbooks. apply Forall_fmap. eapply Forall_impl; [exact Hticks|].
    intros t Ht. cbn [compose].
    destruct (tick_book_quote t Ht) as (Hbids & Hoffers & _).
    split; intros Hnil; by rewrite Hnil in *.
  - rewrite Hbooks. apply Forall_fmap, Forall_forall. intros t _.
    apply tick_book_bounded.
Qed.

(** The market data service of [main]: depth 10, and the listener of the
    algo execution service. *)
Definition main_market : MarketDataService Bond :=
  mkMarketDataService ∅ [5%nat] 10.

Lemma generated_market_data_crosses_witness :
  let svc := main_market in
  let algo := algo_service 0 in
  ∃ lines (quotes : list (OrderBook Bond * BidOffer)),
    let books := quotes.*1 in
    let order (i : nat) (q : OrderBook Bond * BidOffer) :=
      let odd := Z.odd (executionCount algo + Z.of_nat i) in
      let chosen := if odd then GetBidOrder q.2 else GetOfferOrder q.2 in
      mkExecutionOrder (book_product q.1) (if odd then BID else OFFER)
        ("AlgoExec" +:+ to_string (executionCount algo + Z.of_nat i + 1)) MARKET
        (order_price chosen) (order_quantity chosen) 0 "PARENT_ORDER_ID" false in
    GenerateMarketData 10000 = Returns lines
    ∧ length lines = (140 * 500)%nat
    ∧ MarketData_Subscribe svc lines
      = (Returns (),
         mkMarketDataFeed
           (mkMarketDataService
              (foldl (λ stored book,
                        <[GetProductId (book_product book) := book]> stored)
                 (orderBooks svc) books)
              (md_listeners svc) 10)
           (mjoin ((λ book, (λ l, ProcessAdd l book) <$> md_listeners svc)
                   <$> books))
           [] [] (Z.of_nat (140 * 500)))
    ∧ length quotes = (7 * 500)%nat
    ∧ Forall (λ q,
                length (GetBidStack q.1) = 10%nat
                ∧ length (GetOfferStack q.1) = 10%nat
                ∧ first_highest (GetBidStack q.1) (GetBidOrder q.2)
                ∧ first_lowest (GetOfferStack q.1) (GetOfferOrder q.2)
                ∧ (order_price (GetOfferOrder q.2)
                   - order_price (GetBidOrder q.2) = 1 / Qc_of_Z 256)%Qc
                ∧ order_quantity (GetBidOrder q.2) = 10000000
                ∧ order_quantity (GetOfferOrder q.2) = 10000000) quotes
    ∧ AlgoExecution_feed algo books
      = Returns
          (mkAlgoExecutionService
             (foldl (λ stored o,
                       <[GetProductId (eo_product o) := mkAlgoExecution o]>
                         stored)
                (algoExecutions algo) (imap order quotes))
             (ae_listeners algo)
             (executionCount algo + Z.of_nat (7 * 500)),
           mjoin ((λ o, (λ l, ProcessAdd l (mkAlgoExecution o))
                        <$> ae_listeners algo)
                  <$> imap order quotes)).
Proof.
  apply (generated_market_data_crosses 10000 500 main_market (algo_service 0)).
  - reflexivity.
  - reflexivity.
  - simpl. lia.
Defined.
(** ** The GUI throttle *)

Lemma catch_up_spec (fuel : nat) :
  ∀ currentTime _time,
  _time - currentTime ≤ 1000 * Z.of_nat fuel →
  ∃ caught,
    catch_up (S fuel) currentTime _time = Some caught
    ∧ _time ≤ caught
    ∧ (caught = currentTime ∨ caught - 1000 < _time)
    ∧ (caught - currentTime) `mod` 1000 = 0.
Proof.
  induction fuel as [|fuel IH]; intros currentTime _time Hfuel;
    cbn [catch_up]; case_bool_decide as Hbehind.
  - lia.
  - exists currentTime. split; [done|]. split; [lia|]. split; [by left|].
    by rewrite Z.sub_diag.
  - destruct (IH (currentTime + 1000) _time) as (caught & Hrun & Hle & Hnear & Hmod);
      [lia|].
    exists caught. split; [done|]. split; [done|].
    split; [right; lia|].
    replace (caught - currentTime) with (caught - (currentTime + 1000) + 1 * 1000)
      by lia.
    by rewrite Z.mod_add.
  - exists currentTime. split; [done|]. split; [lia|]. split; [by left|].
    by rewrite Z.sub_diag.
Qed.

(** X21.  The GUI throttle looks at the time modulo one second.  When a
    price reaches [GUIService::OnMessage] at the millisecond [millisec] of
    the clock's current second, the price is stored, and a line is written
    to gui.txt exactly when the distance from the stored time to
    [millisec], counted modulo 1000, is at least 300: so a price that comes
    a whole number of seconds plus less than 300 milliseconds after the
    last line is dropped.  When the line is due the stored time advances by
    that distance, also if the file does not open, and otherwise it stays:
    it never goes back, and the loop that catches up with it always
    ends. *)
Theorem GUI_throttle_modulo_second {T} `{Product T} (fuel : nat)
    (is_open : bool) (millisec : Z) (nowTime : string) (svc : GUIService T)
    (file : list string) (data : Price T) (fields : list string) :
  0 ≤ millisec < 1000 →
  0 ≤ timeCount svc ≤ 2147482647 →
  timeCount svc + 1000 ≤ 1000 * Z.of_nat fuel →
  Price_PrintFunction data = Returns fields →
  let elapsed := (millisec - timeCount svc) `mod` 1000 in
  let due := bool_decide (300 ≤ elapsed) in
  GUI_OnMessage fuel is_open millisec nowTime (svc, file) data
  = Some (Returns (),
          (mkGUIService
             (<[GetProductId (price_product data) := data]> (GUIs svc))
             (gui_listeners svc)
             (if due then timeCount svc + elapsed else timeCount svc),
           if due && is_open then file ++ [persisted_line nowTime fields]
           else file)).
Proof.
  intros Hms Htime Hfuel Hprint elapsed due.
  unfold GUI_OnMessage, GUI_Publish. cbn [fst snd timeCount].
  destruct fuel as [|fuel]; [lia|].
  destruct (catch_up_spec fuel millisec (timeCount svc))
    as (caught & -> & Hle & Hnear & Hmod); [lia|].
  cbn [mbind option_bind].
  assert (caught - timeCount svc = elapsed) as Helapsed.
  { unfold elapsed.
    apply (Z.mod_unique_pos _ _ (- ((caught - millisec) / 1000))); [lia|].
    pose proof (Z.div_mod (caught - millisec) 1000). lia. }
  rewrite Helapsed. unfold THROTTLE_MILLISECONDS. fold due.
  destruct due; cbn [andb]; [|done].
  unfold SetTime. cbn [GUIs gui_listeners].
  replace caught with (timeCount svc + elapsed) by lia.
  destruct is_open; [|done]. by rewrite Hprint.
Qed.

Definition gui_service : GUIService Bond := mkGUIService ∅ [] 900.

Lemma GUI_throttle_modulo_second_witness :
  let data := mkPrice US2Y (Qc_of_Z 100) (1 / Qc_of_Z 128)%Qc in
  let fields := ["912828V23"; "100-000"; "0-002"] in
  let elapsed := (100 - timeCount gui_service) `mod` 1000 in
  let due := bool_decide (300 ≤ elapsed) in
  GUI_OnMessage 2 true 100 "2024-Dec-20 10:00:01" (gui_service, []) data
  = Some (Returns (),
          (mkGUIService
             (<[GetProductId (price_product data) := data]> (GUIs gui_service))
             (gui_listeners gui_service)
             (if due then timeCount gui_service + elapsed
              else timeCount gui_service),
           if due && true
           then [] ++ [persisted_line "2024-Dec-20 10:00:01" fields]
           else [])).
Proof.
  apply (GUI_throttle_modulo_second 2 true 100 "2024-Dec-20 10:00:01"
           gui_service [] (mkPrice US2Y (Qc_of_Z 100) (1 / Qc_of_Z 128)%Qc)
           ["912828V23"; "100-000"; "0-002"]).
  - lia.
  - simpl. lia.
  - simpl. lia.
  - by vm_compute.
Defined.

(** ** Printing a price *)

Lemma mid_fraction (jb ja : Z) :
  ((grid jb + grid ja) / Qc_of_Z 2)%Qc = Q2Qc ((jb + ja) # 512).
Proof.
  apply Qc_is_canon. unfold grid. simpl. rewrite !Qred_correct.
  unfold Qeq. simpl. rewrite ?Pos2Z.inj_mul. lia.
Qed.

Lemma mid_text (a : Z) :
  0 ≤ a < 1099511627776 →
  price2string (Q2Qc (a # 512))
  = Returns (price_text (a / 2 / 256) ((a / 2) `mod` 256)).
Proof.
  intros Ha.
  destruct (price2string_parts a 512) as (Hb & _ & _ & Hn); [lia|].
  assert (ticks (Q2Qc (a # 512)) = a / 2) as Hticks.
  { unfold ticks. rewrite Hn.
    change (Z.pos 512) with (256 * 2). by rewrite Z.div_mul_cancel_l. }
  rewrite <- Hticks. apply price2string_ticks.
  - change (0 <= Qred (a # 512))%Q. rewrite Qred_correct.
    unfold Qle. simpl. lia.
  - rewrite Hb. apply Z.lt_succ_r, Z.div_lt_upper_bound; lia.
Qed.

(** X22.  [Price::PrintFunction] gives the product id, the mid and the
    spread in the fractional notation, which holds 256ths only.  For a
    price that the pricing connector built from a bid and an offer that are
    multiples of 1/256, the spread is printed exactly, but the mid is
    rounded down: when bid and offer are an odd number of 256ths apart, the
    text of the mid reads as 1/512 less than the mid, and only otherwise as
    the mid itself.  No field contains a comma. *)
Theorem Price_PrintFunction_rounds_mid (b : Bond) (jb ja : Z) :
  0 ≤ jb ≤ ja → ja < 549755813888 →
  let p := quote_price (b, jb, ja) in
  let m := (jb + ja) / 2 in
  let midStr := price_text (m / 256) (m `mod` 256) in
  let spreadStr := price_text ((ja - jb) / 256) ((ja - jb) `mod` 256) in
  Price_PrintFunction p = Returns [bond_productId b; midStr; spreadStr]
  ∧ string2price midStr = Returns (grid m)
  ∧ string2price spreadStr = Returns (GetBidOfferSpread p)
  ∧ (GetMid p - grid m)%Qc = Q2Qc (((jb + ja) `mod` 2) # 512)
  ∧ (grid m = GetMid p ↔ Z.even (ja - jb) = true)
  ∧ Forall (λ field, no_comma field = true) [midStr; spreadStr].
Proof.
  intros Horder Hhigh p m midStr spreadStr.
  assert (0 ≤ m < 549755813888) as Hm.
  { unfold m. split; [apply Z.div_pos; lia|].
    apply Z.div_lt_upper_bound; lia. }
  destruct (grid_text m Hm) as (_ & Hmid & Hmid_comma & _).
  destruct (grid_text (ja - jb)) as (Hspread & Hspread_back & Hspread_comma & _);
    [lia|].
  pose proof (Z.div_mod (jb + ja) 2) as Hdiv.
  pose proof (Z.mod_pos_bound (jb + ja) 2) as Hrem.
  assert ((GetMid p - grid m)%Qc = Q2Qc (((jb + ja) `mod` 2) # 512)) as Hloss.
  { unfold p, quote_price. cbn [GetMid fst snd]. rewrite mid_fraction.
    apply Qc_is_canon. unfold grid. simpl. rewrite !Qred_correct.
    unfold Qeq. simpl. rewrite ?Pos2Z.inj_mul. fold m. lia. }
  split; [|split; [done|split; [|split; [done|split]]]].
  - unfold Price_PrintFunction, p, quote_price.
    cbn [GetMid GetBidOfferSpread price_product fst snd].
    rewrite mid_fraction, mid_text by lia. cbn [mbind outcome_bind].
    by rewrite grid_minus, Hspread.
  - unfold p, quote_price. cbn [GetBidOfferSpread fst snd].
    by rewrite grid_minus.
  - assert (Z.even (ja - jb) = true ↔ (jb + ja) `mod` 2 = 0) as ->.
    { rewrite Z.even_spec. split.
      - intros [k Hk]. replace (jb + ja) with ((k + jb) * 2) by lia.
        apply Z.mod_mul. lia.
      - intros Hzero. exists (m - jb). fold m in Hdiv. lia. }
    split.
    + intros Hsame. rewrite <- Hsame in Hloss.
      assert (((jb + ja) `mod` 2 # 512) == 0)%Q as Hzero.
      { rewrite <- (Qred_correct (_ # 512)).
        change (Qred ((jb + ja) `mod` 2 # 512)) with
          (this (Q2Qc ((jb + ja) `mod` 2 # 512))).
        rewrite <- Hloss. unfold Qcminus. by rewrite Qcplus_opp_r. }
      unfold Qeq in Hzero. simpl in Hzero. lia.
    + intros Hzero. rewrite Hzero in Hloss.
      assert (Q2Qc (0 # 512) = 0%Qc) as Hnone by (by apply Qc_is_canon).
      replace (GetMid p) with (GetMid p - grid m + grid m)%Qc by ring.
      rewrite Hloss, Hnone. ring.
  - by repeat constructor.
Qed.

Lemma Price_PrintFunction_rounds_mid_witness :
  let p := quote_price (US2Y, 25600, 25603) in
  let m := (25600 + 25603) / 2 in
  let midStr := price_text (m / 256) (m `mod` 256) in
  let spreadStr :=
    price_text ((25603 - 25600) / 256) ((25603 - 25600) `mod` 256) in
  Price_PrintFunction p = Returns [bond_productId US2Y; midStr; spreadStr]
  ∧ string2price midStr = Returns (grid m)
  ∧ string2price spreadStr = Returns (GetBidOfferSpread p)
  ∧ (GetMid p - grid m)%Qc = Q2Qc (((25600 + 25603) `mod` 2) # 512)
  ∧ (grid m = GetMid p ↔ Z.even (25603 - 25600) = true)
  ∧ Forall (λ field, no_comma field = true) [midStr; spreadStr].
Proof.
  apply (Price_PrintFunction_rounds_mid US2Y 25600 25603); lia.
Defined.

Example Price_PrintFunction_rounds_mid_example :
  Price_PrintFunction (quote_price (US2Y, 25600, 25603))
  = Returns ["912828V23"; "100-001"; "0-003"].
Proof. by vm_compute. Qed.

(** ** From the order books to the positions *)

(** The listener of a call. *)
Definition call_listener {V} (c : Call V) : ListenerRef :=
  match c with ProcessAdd l _ => l end.

(** The algo executions handed, one after the other, to
    [ExecutionServiceListener::ProcessAdd]: the service and the calls
    made. *)
Definition Execution_feed {T} `{Product T} (svc : ExecutionService T)
    (execs : list (AlgoExecution T))
    : ExecutionService T * list (Call (ExecutionOrder T)) :=
  foldl (λ acc a,
           let r := ExecutionServiceListener_ProcessAdd acc.1 a in
           (r.1, acc.2 ++ r.2))
    (svc, []) execs.

(** The map of a service that stored [orders] one after the other. *)
Definition last_orders {T} `{Product T} (stored : gmap string (ExecutionOrder T))
    (orders : list (ExecutionOrder T)) : gmap string (ExecutionOrder T) :=
  foldl (λ stored o, <[GetProductId (eo_product o) := o]> stored) stored orders.

(** The signed quantity of the trade booked for an order. *)
Definition order_signed {T} (o : ExecutionOrder T) : Z :=
  match GetPricingSide o with
  | BID => - (GetVisibleQuantity o + GetHiddenQuantity o)
  | OFFER => GetVisibleQuantity o + GetHiddenQuantity o
  end.

(** The sum of the signed quantities of the orders on a product. *)
Definition ordered {T} `{Product T} (productId : string)
    (orders : list (ExecutionOrder T)) : Z :=
  foldr (λ o s,
           if decide (GetProductId (eo_product o) = productId)
           then order_signed o + s else s) 0 orders.

(** The services between the market data and the positions. *)
Record Chain (T : Type) `{Product T} := mkChain {
  chain_algo : AlgoExecutionService T;
  chain_execution : ExecutionService T;
  chain_bookedCount : long;
  chain_booking : TradeBookingService T;
  chain_positions : PositionService T
}.
Arguments mkChain {T _} _ _ _ _ _.
Arguments chain_algo {T _} _.
Arguments chain_execution {T _} _.
Arguments chain_bookedCount {T _} _.
Arguments chain_booking {T _} _.
Arguments chain_positions {T _} _.

(** The order books of the market data service, passed down the chain as
    [main] links it: the calls of the algo execution service reach the
    execution service, those that the execution service makes to the
    listener [lb] of the booking service reach
    [TradeBookingServiceListener::ProcessAdd], and the calls of the booking
    service reach the position service.  No service reads the state of
    another one, so each is given its calls in the order in which they are
    made.  The calls that the execution service makes to its other
    listener and those that the position service makes to its listeners
    are not followed: the latter are returned. *)
Definition market_data_chain {T} `{Product T} (lb : ListenerRef)
    (st : Chain T) (books : list (OrderBook T))
    : outcome (Chain T * list (Call (Position T))) :=
  r1 ← AlgoExecution_feed (chain_algo st) books;
  let r2 := Execution_feed (chain_execution st) (call_data <$> r1.2) in
  r3 ← TradeBooking_feed (chain_bookedCount st) (chain_booking st)
         (call_data <$> filter (λ c, call_listener c = lb) r2.2);
  let r4 := Position_deliver (chain_positions st) r3.2 in
  Returns (mkChain r1.1 r2.1 r3.1.1 r3.1.2 r4.1, r4.2).

Lemma ExecutionServiceListener_ProcessAdd_once {T} `{Product T}
    (svc : ExecutionService T) (o : ExecutionOrder T) :
  ExecutionServiceListener_ProcessAdd svc (mkAlgoExecution o)
  = (mkExecutionService
       (<[GetProductId (eo_product o) := o]> (executionOrders svc))
       (ex_listeners svc),
     fan_out (ex_listeners svc) o).
Proof.
  unfold ExecutionServiceListener_ProcessAdd, ExecuteOrder, Execution_OnMessage.
  cbn [fst snd GetExecutionOrder executionOrders ex_listeners].
  by rewrite insert_insert_eq.
Qed.

Lemma Execution_feed_orders {T} `{Product T} (orders : list (ExecutionOrder T))
    (svc : ExecutionService T) :
  Execution_feed svc (mkAlgoExecution <$> orders)
  = (mkExecutionService (last_orders (executionOrders svc) orders)
       (ex_listeners svc),
     mjoin (fan_out (ex_listeners svc) <$> orders)).
Proof.
  unfold Execution_feed.
  assert (∀ (calls : list (Call (ExecutionOrder T))),
            foldl (λ acc a,
                     let r := ExecutionServiceListener_ProcessAdd acc.1 a in
                     (r.1, acc.2 ++ r.2))
              (svc, calls) (mkAlgoExecution <$> orders)
            = (mkExecutionService (last_orders (executionOrders svc) orders)
                 (ex_listeners svc),
               calls ++ mjoin (fan_out (ex_listeners svc) <$> orders)))
    as Hfold; [|apply (Hfold [])].
  revert svc. induction orders as [|o orders IH]; intros svc calls.
  - simpl. rewrite app_nil_r. by destruct svc.
  - cbn [fmap list_fmap foldl fst snd].
    rewrite ExecutionServiceListener_ProcessAdd_once. cbn [fst snd].
    rewrite IH. cbn [executionOrders ex_listeners last_orders foldl].
    change (mjoin (?x :: ?rest)) with (x ++ mjoin rest).
    by rewrite app_assoc.
Qed.

Lemma ordered_app {T} `{Product T} (productId : string)
    (os1 os2 : list (ExecutionOrder T)) :
  ordered productId (os1 ++ os2) = ordered productId os1 + ordered productId os2.
Proof.
  induction os1 as [|o os1 IH]; [done|]. simpl. rewrite IH.
  case_decide; lia.
Qed.

Lemma TradeBooking_feed_traded {T} `{Product T}
    (orders : list (ExecutionOrder T)) :
  ∀ bookedCount (svc : TradeBookingService T),
  0 ≤ bookedCount →
  ∃ svc' calls,
    TradeBooking_feed bookedCount svc orders
    = Returns (bookedCount + Z.of_nat (length orders), svc', calls)
    ∧ tb_listeners svc' = tb_listeners svc
    ∧ ∀ productId,
        traded productId (call_data <$> calls)
        = 2 * Z.of_nat (length (tb_listeners svc)) * ordered productId orders.
Proof.
  induction orders as [|o orders IH]; intros bookedCount svc Hcount.
  - exists svc, []. simpl. rewrite Z.add_0_r. split; [done|]. split; [done|].
    intros. lia.
  - destruct (ProcessAdd_booked bookedCount svc o Hcount) as (book & _ & Hadd).
    edestruct (IH (bookedCount + 1)) as (svc' & calls & Hfeed & Hls & Hsum);
      [lia|].
    cbn [TradeBooking_feed]. rewrite Hadd. cbn [mbind outcome_bind fst snd].
    rewrite Hfeed. cbn [mbind outcome_bind fst snd].
    eexists _, _. split.
    { do 3 f_equal. rewrite length_cons. lia. }
    split; [exact Hls|].
    intros productId. rewrite !fmap_app, !traded_app, Hsum, !traded_replicate.
    cbn [tb_listeners ordered foldr]. fold (ordered productId orders).
    change (GetProductId (trade_product (booked_trade o book)))
      with (GetProductId (eo_product o)).
    assert (signed_quantity (booked_trade o book) = order_signed o) as ->.
    { unfold signed_quantity, booked_trade, order_signed. simpl.
      by destruct (GetPricingSide o). }
    case_decide; lia.
Qed.

Lemma algo_calls_data {T} (le : ListenerRef) (orders : list (ExecutionOrder T)) :
  call_data <$> mjoin ((λ o, (λ l, ProcessAdd l (mkAlgoExecution o)) <$> [le])
                       <$> orders)
  = mkAlgoExecution <$> orders.
Proof.
  induction orders as [|o orders IH]; [done|].
  cbn [fmap list_fmap]. change (mjoin (?x :: ?rest)) with (x ++ mjoin rest).
  rewrite fmap_app. cbn [fmap list_fmap] in IH. by rewrite IH.
Qed.

Lemma booking_calls_data {T} (lh lb : ListenerRef)
    (orders : list (ExecutionOrder T)) :
  lh ≠ lb →
  call_data <$> filter (λ c, call_listener c = lb)
                  (mjoin (fan_out [lh; lb] <$> orders))
  = orders.
Proof.
  intros Hdistinct. induction orders as [|o orders IH]; [done|].
  cbn [fmap list_fmap]. change (mjoin (?x :: ?rest)) with (x ++ mjoin rest).
  change (fan_out [lh; lb] o) with [ProcessAdd lh o; ProcessAdd lb o].
  rewrite filter_app, fmap_app. cbn [fmap list_fmap] in IH. rewrite IH.
  rewrite filter_cons_False by done.
  rewrite filter_cons_True by done. by rewrite filter_nil.
Qed.

(** The chain of [main] on a list of books, in terms of the orders made for
    them. *)
Lemma market_data_chain_run {T} `{Product T} (le lh lb lp : ListenerRef)
    (st : Chain T) (books : list (OrderBook T)) :
  ae_listeners (chain_algo st) = [le] →
  ex_listeners (chain_execution st) = [lh; lb] →
  lh ≠ lb →
  tb_listeners (chain_booking st) = [lp] →
  0 ≤ executionCount (chain_algo st) →
  0 ≤ chain_bookedCount st →
  Forall (λ book, GetBidStack book ≠ [] ∧ GetOfferStack book ≠ []) books →
  Forall bounded_quantities books →
  let orders := algo_orders (executionCount (chain_algo st)) books in
  ∃ booking' positions' calls,
    market_data_chain lb st books
    = Returns
        (mkChain
           (mkAlgoExecutionService
              (last_executions (algoExecutions (chain_algo st)) orders) [le]
              (executionCount (chain_algo st) + Z.of_nat (length orders)))
           (mkExecutionService
              (last_orders (executionOrders (chain_execution st)) orders)
              [lh; lb])
           (chain_bookedCount st + Z.of_nat (length orders))
           booking' positions',
         calls)
    ∧ ∀ productId,
        GetAggregatePosition (position_of positions' productId)
        = GetAggregatePosition (position_of (chain_positions st) productId)
          + 2 * ordered productId orders.
Proof.
  intros Hle Hlb Hdistinct Hlp Hcount Hbooked Hbooks Hqty orders.
  pose proof (AlgoExecution_feed_orders books (chain_algo st) Hcount Hbooks Hqty)
    as Hfeed.
  fold orders in Hfeed.
  destruct (TradeBooking_feed_traded orders (chain_bookedCount st)
              (chain_booking st) Hbooked)
    as (booking' & calls & Hbooking & _ & Htraded).
  unfold market_data_chain. rewrite Hfeed, Hle.
  cbn [mbind outcome_bind fst snd].
  rewrite algo_calls_data, Execution_feed_orders, Hlb. cbn [fst snd].
  rewrite booking_calls_data by done. rewrite Hbooking.
  cbn [mbind outcome_bind fst snd].
  eexists _, _, _. split; [reflexivity|].
  intros productId.
  rewrite Position_deliver_AddTrades, AddTrades_aggregate, Htraded, Hlp.
  simpl. lia.
Qed.

(** X23.  An order book that goes down the chain of [main] moves the
    position by twice the quantity of the order made for it.  Take order
    books, each with its first bid at the highest price and its first offer
    at the lowest price and levels of at most 2^53 in quantity; the
    execution service as the one listener of the algo execution service,
    the historical listener and the booking listener as those of the
    execution service, the position service as the one listener of the
    booking service; counters that are not negative.  One order is made for
    each book whose offer price minus bid price, subtracted in double
    precision, is at most 1/128: the [i]-th is on the bid side, with the
    best bid's price and quantity, when the counter plus [i] is odd, and on
    the offer side otherwise, with the counter plus [i + 1] in its id.  At
    the end both services hold the last order of each product, both
    counters have advanced by the number of orders, and the aggregate
    position of every product has moved by twice the sum of the orders'
    quantities on it, counted up for an OFFER order and down for a BID
    order.  What the listeners of the position service and the historical
    listener do with their calls is not part of the statement. *)
Theorem market_data_chain_positions {T} `{Product T} (le lh lb lp : ListenerRef)
    (st : Chain T) (quotes : list (OrderBook T * BidOffer)) :
  ae_listeners (chain_algo st) = [le] →
  ex_listeners (chain_execution st) = [lh; lb] →
  lh ≠ lb →
  tb_listeners (chain_booking st) = [lp] →
  0 ≤ executionCount (chain_algo st) →
  0 ≤ chain_bookedCount st →
  Forall (λ q, first_highest (GetBidStack q.1) (GetBidOrder q.2)
               ∧ first_lowest (GetOfferStack q.1) (GetOfferOrder q.2)
               ∧ Forall (λ o, Z.abs (order_quantity o) ≤ 9007199254740992)
                   (GetBidStack q.1 ++ GetOfferStack q.1)) quotes →
  let crossing :=
    filter (λ q, (fsub (order_price (GetOfferOrder q.2))
                    (order_price (GetBidOrder q.2))
                  ≤ 1 / Qc_of_Z 128)%Qc) quotes in
  let order (i : nat) (q : OrderBook T * BidOffer) :=
    let odd := Z.odd (executionCount (chain_algo st) + Z.of_nat i) in
    let chosen := if odd then GetBidOrder q.2 else GetOfferOrder q.2 in
    mkExecutionOrder (book_product q.1) (if odd then BID else OFFER)
      ("AlgoExec"
       +:+ to_string (executionCount (chain_algo st) + Z.of_nat i + 1)) MARKET
      (order_price chosen) (order_quantity chosen) 0 "PARENT_ORDER_ID" false in
  let orders := imap order crossing in
  let moved (productId : string) :=
    foldr (λ o s,
             if decide (GetProductId (eo_product o) = productId)
             then (match GetPricingSide o with
                   | BID => - (GetVisibleQuantity o + GetHiddenQuantity o)
                   | OFFER => GetVisibleQuantity o + GetHiddenQuantity o
                   end) + s
             else s) 0 orders in
  ∃ booking' positions' calls,
    market_data_chain lb st (quotes.*1)
    = Returns
        (mkChain
           (mkAlgoExecutionService
              (foldl (λ stored o,
                        <[GetProductId (eo_product o) := mkAlgoExecution o]>
                          stored)
                 (algoExecutions (chain_algo st)) orders)
              [le]
              (executionCount (chain_algo st) + Z.of_nat (length crossing)))
           (mkExecutionService
              (foldl (λ stored o, <[GetProductId (eo_product o) := o]> stored)
                 (executionOrders (chain_execution st)) orders)
              [lh; lb])
           (chain_bookedCount st + Z.of_nat (length crossing))
           booking' positions',
         calls)
    ∧ ∀ productId,
        GetAggregatePosition (position_of positions' productId)
        = GetAggregatePosition (position_of (chain_positions st) productId)
          + 2 * moved productId.
Proof.
  intros Hle Hlb Hdistinct Hlp Hcount Hbooked Hquotes crossing order orders
    moved.
  destruct (market_data_chain_run le lh lb lp st (quotes.*1))
    as (booking' & positions' & calls & Hchain & Hpositions); [done..| | |].
  { apply Forall_fmap. eapply Forall_impl; [exact Hquotes|].
    intros q (Hhi & Hlo & _). simpl. split.
    - intros Hnil. rewrite Hnil in Hhi. apply first_highest_elem in Hhi.
      by apply elem_of_nil in Hhi.
    - intros Hnil. rewrite Hnil in Hlo. apply first_lowest_elem in Hlo.
      by apply elem_of_nil in Hlo. }
  { apply Forall_fmap. eapply Forall_impl; [exact Hquotes|].
    by intros q (_ & _ & ?). }
  rewrite algo_orders_quoted in Hchain, Hpositions
    by (eapply Forall_impl; [exact Hquotes|]; by intros q (? & ? & _)).
  fold crossing in Hchain, Hpositions.
  change (imap (λ i q, algo_order q.1 q.2
                         (executionCount (chain_algo st) + Z.of_nat i)) crossing)
    with orders in Hchain, Hpositions.
  assert (length orders = length crossing) as Hlen by apply length_imap.
  exists booking', positions', calls. split.
  { by rewrite Hchain, Hlen. }
  intros productId. by rewrite Hpositions.
Qed.

(** The services of [main] before any data, the listeners numbered in the
    order in which [main] adds them. *)
Definition main_chain : Chain Bond :=
  mkChain (mkAlgoExecutionService ∅ [6%nat] 0)
    (mkExecutionService ∅ [7%nat; 8%nat]) 0
    (mkTradeBookingService ∅ [9%nat]) (mkPositionService ∅ [10%nat; 11%nat]).

Lemma market_data_chain_positions_witness :
  let st := main_chain in
  let quotes := [tight_quote; wide_quote; tight_quote] in
  let crossing :=
    filter (λ q, (fsub (order_price (GetOfferOrder q.2))
                    (order_price (GetBidOrder q.2))
                  ≤ 1 / Qc_of_Z 128)%Qc) quotes in
  let order (i : nat) (q : OrderBook Bond * BidOffer) :=
    let odd := Z.odd (executionCount (chain_algo st) + Z.of_nat i) in
    let chosen := if odd then GetBidOrder q.2 else GetOfferOrder q.2 in
    mkExecutionOrder (book_product q.1) (if odd then BID else OFFER)
      ("AlgoExec"
       +:+ to_string (executionCount (chain_algo st) + Z.of_nat i + 1)) MARKET
      (order_price chosen) (order_quantity chosen) 0 "PARENT_ORDER_ID" false in
  let orders := imap order crossing in
  let moved (productId : string) :=
    foldr (λ o s,
             if decide (GetProductId (eo_product o) = productId)
             then (match GetPricingSide o with
                   | BID => - (GetVisibleQuantity o + GetHiddenQuantity o)
                   | OFFER => GetVisibleQuantity o + GetHiddenQuantity o
                   end) + s
             else s) 0 orders in
  ∃ booking' positions' calls,
    market_data_chain 8%nat st (quotes.*1)
    = Returns
        (mkChain
           (mkAlgoExecutionService
              (foldl (λ stored o,
                        <[GetProductId (eo_product o) := mkAlgoExecution o]>
                          stored)
                 (algoExecutions (chain_algo st)) orders)
              [6%nat]
              (executionCount (chain_algo st) + Z.of_nat (length crossing)))
           (mkExecutionService
              (foldl (λ stored o, <[GetProductId (eo_product o) := o]> stored)
                 (executionOrders (chain_execution st)) orders)
              [7%nat; 8%nat])
           (chain_bookedCount st + Z.of_nat (length crossing))
           booking' positions',
         calls)
    ∧ ∀ productId,
        GetAggregatePosition (position_of positions' productId)
        = GetAggregatePosition (position_of (chain_positions st) productId)
          + 2 * moved productId.
Proof.
  apply (market_data_chain_positions 6%nat 7%nat 8%nat 9%nat main_chain
           [tight_quote; wide_quote; tight_quote]).
  - reflexivity.
  - reflexivity.
  - discriminate.
  - reflexivity.
  - simpl. lia.
  - simpl. lia.
  - repeat apply Forall_cons_2; [..|apply Forall_nil_2];
      (split; [exists [], []; by repeat constructor|]);
      (split; [exists [], []; by repeat constructor|]);
      repeat constructor; simpl; lia.
Defined.

(** ** The generated market data down the chain *)

(** The batches that [GenerateMarketData] writes for one bond. *)
Definition TickGroup : Type := Bond * list (Z * Z).

Definition group_ticks (g : TickGroup) : list Tick :=
  (λ cs, (g.1, cs)) <$> g.2.

Lemma GenerateMarketData_writes_groups (m : nat)
    (entries : list (Z * (string * (Z * Z * Z)))) :
  Forall (λ entry, ∃ bond, GetBond entry.2.1 = Returns bond) entries →
  ∀ file,
  ∃ groups : list TickGroup,
    for_each
      (λ file entry,
         st ← repeat_body (2 * m) (GenerateMarketData_step entry.2.1)
                (Qc_of_Z 99, true, file);
         Returns st.2)
      file entries
    = Returns (file ++ (line_of <$> mjoin (tick_lines
                                           <$> mjoin (group_ticks <$> groups))))
    ∧ length groups = length entries
    ∧ Forall (λ g, length g.2 = m) groups
    ∧ Forall generated_tick (mjoin (group_ticks <$> groups)).
Proof.
  induction 1 as [|entry entries [bond Hbond] _ IH]; intros file.
  - exists []. simpl. rewrite app_nil_r.
    split; [done|]. split; [done|]. split; constructor.
  - destruct (GenerateMarketData_bond_writes entry.2.1 m 0 true file)
      as (c' & increasing' & pairs & Hrun & _ & Hlen & Hpairs); [lia|].
    destruct (IH (file ++ (line_of <$> mjoin (pair_lines entry.2.1 <$> pairs))))
      as (groups & Hrest & Hgroups & Hsizes & Hall).
    destruct (GetBond_known _ _ Hbond) as (_ & Hpid & _).
    exists ((bond, pairs) :: groups). cbn [for_each].
    replace (grid (25344 + 0)) with (Qc_of_Z 99) in Hrun by (Qc_to_Z; lia).
    rewrite Hrun. cbn [mbind outcome_bind snd]. rewrite Hrest.
    cbn [fmap list_fmap].
    change (mjoin (group_ticks (bond, pairs) :: ?rest))
      with (group_ticks (bond, pairs) ++ mjoin rest).
    split.
    { assert (tick_lines <$> group_ticks (bond, pairs)
              = pair_lines entry.2.1 <$> pairs) as Hlines.
      { unfold group_ticks. cbn [fst snd].
        rewrite <- list_fmap_compose. apply list_fmap_ext. intros i cs _.
        unfold tick_lines. cbn [fst snd compose]. by rewrite Hpid. }
      by rewrite fmap_app, join_app, fmap_app, Hlines, <- app_assoc. }
    split. { cbn [length]. by rewrite Hgroups. }
    split. { by constructor. }
    apply Forall_app. split; [|done].
    apply Forall_fmap. eapply Forall_impl; [exact Hpairs|].
    intros cs Hcs. split; [|done]. cbn [fst]. by rewrite Hpid.
Qed.

Lemma generated_market_data_books (DATASIZE : Z) (m : nat)
    (svc : MarketDataService Bond) :
  Z.quot DATASIZE 10 = 2 * Z.of_nat m →
  bookDepth svc = 10 →
  ∃ groups : list TickGroup,
    GenerateMarketData DATASIZE
    = Returns (line_of <$> mjoin (tick_lines <$> mjoin (group_ticks <$> groups)))
    ∧ MarketData_Subscribe svc
        (line_of <$> mjoin (tick_lines <$> mjoin (group_ticks <$> groups)))
      = (Returns (),
         mkMarketDataFeed
           (OnMessage_books svc (tick_book <$> mjoin (group_ticks <$> groups)))
           (mjoin (fan_out (md_listeners svc)
                   <$> (tick_book <$> mjoin (group_ticks <$> groups))))
           [] [] (Z.of_nat (140 * m)))
    ∧ length groups = 7%nat
    ∧ Forall (λ g, length g.2 = m) groups
    ∧ Forall generated_tick (mjoin (group_ticks <$> groups)).
Proof.
  intros Hsize Hdepth.
  destruct (GenerateMarketData_writes_groups m bondMap_entries)
    with (file := @nil string) as (groups & Hrun & Hlen & Hsizes & Hticks).
  { repeat constructor; eexists; by vm_compute. }
  set (ticks := mjoin (group_ticks <$> groups)) in *.
  destruct (ticks_batches ticks Hticks) as (Hw & Hl & Hb & Hn).
  change (length bondMap_entries) with 7%nat in Hlen.
  assert (length ticks = (7 * m)%nat) as Hcount.
  { unfold ticks. clear -Hlen Hsizes. rewrite <- Hlen. clear Hlen.
    induction Hsizes as [|g groups Hg _ IH]; [done|].
    cbn [fmap list_fmap].
    change (mjoin (?x :: ?rest)) with (x ++ mjoin rest).
    rewrite length_app, IH. unfold group_ticks. rewrite length_fmap, Hg.
    cbn [length]. lia. }
  exists groups. fold ticks.
  split.
  { unfold GenerateMarketData. rewrite Hsize.
    replace (Z.to_nat (2 * Z.of_nat m)) with (2 * m)%nat by lia.
    by rewrite Hrun. }
  split; [|done].
  unfold MarketData_Subscribe. rewrite Hdepth.
  rewrite (MarketData_batches (10 * 2) (tick_lines <$> ticks) (fst <$> ticks))
    by done.
  cbn [orderCount feed_service feed_calls app]. rewrite tick_books.
  rewrite length_fmap, Hcount. do 2 f_equal. lia.
Qed.

Lemma algo_orders_app {T} (books1 books2 : list (OrderBook T)) : ∀ count,
  algo_orders count (books1 ++ books2)
  = algo_orders count books1
    ++ algo_orders (count + Z.of_nat (length (algo_orders count books1))) books2.
Proof.
  induction books1 as [|book books1 IH]; intros count.
  - simpl. by rewrite Z.add_0_r.
  - cbn [app algo_orders].
    destruct (GetBidOffer book) as [bo| |]; [|apply IH..].
    case_bool_decide; [|apply IH].
    rewrite IH. cbn [app length]. do 3 f_equal. lia.
Qed.

(** The order made for a book of the generated market data. *)
Lemma tick_book_order (t : Tick) (books : list (OrderBook Bond)) (count : Z) :
  generated_tick t →
  ∃ o,
    algo_orders count (tick_book t :: books) = o :: algo_orders (count + 1) books
    ∧ eo_product o = t.1
    ∧ order_signed o = if Z.odd count then -10000000 else 10000000.
Proof.
  intros Ht.
  destruct (tick_book_crosses t Ht)
    as (_ & _ & Hcrosses & bo & Hbo & _ & Hbid & Hoffer).
  unfold crosses in Hcrosses. rewrite Hbo in Hcrosses.
  exists (algo_order (tick_book t) bo count).
  split. { cbn [algo_orders]. by rewrite Hbo, Hcrosses. }
  split; [done|].
  unfold order_signed, algo_order. simpl.
  destruct (Z.odd count); simpl; lia.
Qed.

Lemma group_orders_cancel (productId : string) (bond : Bond) (k : nat) :
  ∀ (pairs : list (Z * Z)) (count : Z),
  length pairs = (2 * k)%nat →
  Forall generated_tick (group_ticks (bond, pairs)) →
  ordered productId (algo_orders count (tick_book <$> group_ticks (bond, pairs)))
  = 0
  ∧ length (algo_orders count (tick_book <$> group_ticks (bond, pairs)))
    = (2 * k)%nat.
Proof.
  induction k as [|k IH]; intros pairs count Hlen Hticks.
  - destruct pairs; [done|discriminate].
  - destruct pairs as [|cs1 [|cs2 pairs]]; [simpl in Hlen; lia..|].
    unfold group_ticks in *. cbn [fst snd fmap list_fmap] in *.
    apply Forall_cons in Hticks as [Ht1 Hticks].
    apply Forall_cons in Hticks as [Ht2 Hticks].
    destruct (tick_book_order (bond, cs1)
                (tick_book (bond, cs2)
                 :: (tick_book <$> ((λ cs, (bond, cs)) <$> pairs))) count Ht1)
      as (o1 & -> & Hp1 & Hs1).
    destruct (tick_book_order (bond, cs2)
                (tick_book <$> ((λ cs, (bond, cs)) <$> pairs)) (count + 1) Ht2)
      as (o2 & -> & Hp2 & Hs2).
    destruct (IH pairs (count + 1 + 1)) as (Hsum & Hcount);
      [cbn [length] in Hlen; lia|done|].
    cbn [fst snd fmap list_fmap] in Hsum, Hcount.
    split; [|cbn [length]; rewrite Hcount; lia].
    cbn [ordered foldr].
    fold (ordered productId
            (algo_orders (count + 1 + 1)
               (tick_book <$> ((λ cs, (bond, cs)) <$> pairs)))).
    rewrite Hsum, Hp1, Hp2, Hs1, Hs2. cbn [fst].
    replace (count + 1) with (Z.succ count) by lia. rewrite Z.odd_succ.
    rewrite <- Z.negb_odd.
    case_decide; destruct (Z.odd count); simpl; lia.
Qed.

Lemma groups_orders_cancel (productId : string) (k : nat)
    (groups : list TickGroup) :
  Forall (λ g, length g.2 = (2 * k)%nat) groups →
  Forall generated_tick (mjoin (group_ticks <$> groups)) →
  ∀ count,
  ordered productId
    (algo_orders count (tick_book <$> mjoin (group_ticks <$> groups))) = 0
  ∧ length (algo_orders count (tick_book <$> mjoin (group_ticks <$> groups)))
    = (2 * k * length groups)%nat.
Proof.
  induction 1 as [|[bond pairs] groups Hg _ IH]; intros Hticks count.
  - split; [done|]. simpl. lia.
  - cbn [fmap list_fmap] in *.
    change (mjoin (?x :: ?rest)) with (x ++ mjoin rest) in *.
    apply Forall_app in Hticks as [Hgroup Hticks].
    destruct (group_orders_cancel productId bond k pairs count Hg Hgroup)
      as (Hsum & Hcount).
    rewrite fmap_app, algo_orders_app, ordered_app, length_app.
    destruct (IH Hticks
                (count + Z.of_nat (length (algo_orders count
                                             (tick_book
                                              <$> group_ticks (bond, pairs))))))
      as (Hrest & Hrest_count).
    rewrite Hrest, Hrest_count, Hsum, Hcount. cbn [length]. split; lia.
Qed.

Lemma book_calls_data {T} (la : ListenerRef) (books : list (OrderBook T)) :
  call_data <$> mjoin (fan_out [la] <$> books) = books.
Proof.
  induction books as [|book books IH]; [done|].
  cbn [fmap list_fmap]. change (mjoin (?x :: ?rest)) with (x ++ mjoin rest).
  rewrite fmap_app. cbn [fmap list_fmap] in IH. by rewrite IH.
Qed.

(** X24.  The market data that [GenerateMarketData] writes leaves every
    position where it was.  When [DATASIZE / 10] is a multiple of 4, the
    connector makes for each of the seven bonds an even number of books,
    one after the other, each with 10,000,000 at its best bid and at its
    best offer, and each passes the spread filter.  As
    [AlgoExecutionTrade] takes the sides in turn, the orders of a bond are
    as many OFFER as BID orders for 10,000,000 each; booked and passed
    twice to the position service, their trades cancel.  So after the
    whole file, through the chain as [main] links it, both counters have
    advanced by the number of books and the aggregate position of every
    product is what it was before. *)
Theorem generated_market_data_positions_flat (DATASIZE : Z) (k : nat)
    (svc : MarketDataService Bond) (la le lh lb lp : ListenerRef)
    (st : Chain Bond) :
  Z.quot DATASIZE 10 = 4 * Z.of_nat k →
  bookDepth svc = 10 →
  md_listeners svc = [la] →
  ae_listeners (chain_algo st) = [le] →
  ex_listeners (chain_execution st) = [lh; lb] →
  lh ≠ lb →
  tb_listeners (chain_booking st) = [lp] →
  0 ≤ executionCount (chain_algo st) →
  0 ≤ chain_bookedCount st →
  ∃ lines feed st' calls,
    GenerateMarketData DATASIZE = Returns lines
    ∧ MarketData_Subscribe svc lines = (Returns (), feed)
    ∧ length (feed_calls feed) = (14 * k)%nat
    ∧ market_data_chain lb st (call_data <$> feed_calls feed)
      = Returns (st', calls)
    ∧ executionCount (chain_algo st')
      = executionCount (chain_algo st) + Z.of_nat (14 * k)
    ∧ chain_bookedCount st' = chain_bookedCount st + Z.of_nat (14 * k)
    ∧ ∀ productId,
        GetAggregatePosition (position_of (chain_positions st') productId)
        = GetAggregatePosition (position_of (chain_positions st) productId).
Proof.
  intros Hsize Hdepth Hla Hle Hlb Hdistinct Hlp Hcount Hbooked.
  destruct (generated_market_data_books DATASIZE (2 * k) svc)
    as (groups & Hrun & Hread & Hgroups & Hsizes & Hticks); [lia|done|].
  set (ticks := mjoin (group_ticks <$> groups)) in *.
  destruct (groups_orders_cancel "" k groups Hsizes Hticks
              (executionCount (chain_algo st))) as (_ & Horders).
  fold ticks in Horders. rewrite Hgroups in Horders.
  destruct (market_data_chain_run le lh lb lp st (tick_book <$> ticks))
    as (booking' & positions' & calls & Hchain & Hpositions); [done..| | |].
  { apply Forall_fmap. eapply Forall_impl; [exact Hticks|].
    intros t Ht. destruct (tick_book_crosses t Ht) as (Hbids & Hoffers & _).
    split; intros Hempty; by rewrite Hempty in *. }
  { apply Forall_fmap, Forall_forall. intros t _. apply tick_book_bounded. }
  rewrite Horders in Hchain.
  eexists _, _, _, calls.
  split; [exact Hrun|]. split; [exact Hread|].
  cbn [feed_calls]. rewrite Hla.
  split.
  { rewrite <- (length_fmap call_data), book_calls_data, length_fmap.
    rewrite <- (length_fmap tick_book).
    pose proof (algo_orders_length (tick_book <$> ticks)
                  (executionCount (chain_algo st))) as Hall.
    rewrite filter_crosses in Hall; [lia|].
    apply Forall_fmap. eapply Forall_impl; [exact Hticks|].
    intros t Ht. by destruct (tick_book_crosses t Ht) as (_ & _ & ? & _). }
  rewrite book_calls_data.
  split; [exact Hchain|].
  cbn [chain_algo chain_bookedCount chain_positions executionCount].
  split; [f_equal; lia|].
  split; [f_equal; lia|].
  intros productId. rewrite Hpositions.
  destruct (groups_orders_cancel productId k groups Hsizes Hticks
              (executionCount (chain_algo st))) as (Hzero & _).
  fold ticks in Hzero. rewrite Hzero. lia.
Qed.

Lemma generated_market_data_positions_flat_witness :
  ∃ lines feed st' calls,
    GenerateMarketData 10000 = Returns lines
    ∧ MarketData_Subscribe (mkMarketDataService ∅ [5%nat] 10) lines
      = (Returns (), feed)
    ∧ length (feed_calls feed) = (14 * 250)%nat
    ∧ market_data_chain 8%nat main_chain (call_data <$> feed_calls feed)
      = Returns (st', calls)
    ∧ executionCount (chain_algo st')
      = executionCount (chain_algo main_chain) + Z.of_nat (14 * 250)
    ∧ chain_bookedCount st'
      = chain_bookedCount main_chain + Z.of_nat (14 * 250)
    ∧ ∀ productId,
        GetAggregatePosition (position_of (chain_positions st') productId)
        = GetAggregatePosition
            (position_of (chain_positions main_chain) productId).
Proof.
  apply (generated_market_data_positions_flat 10000 250
           (mkMarketDataService ∅ [5%nat] 10) 5%nat 6%nat 7%nat 8%nat 9%nat
           main_chain).
  - reflexivity.
  - reflexivity.
  - reflexivity.
  - reflexivity.
  - reflexivity.
  - discriminate.
  - reflexivity.
  - simpl. lia.
  - simpl. lia.
Defined.

(** ** The records of the output files *)

(** The fields of a record, each followed by a comma: what
    [HistoricalDataConnector::Publish] writes after the time. *)
Definition record_text (dataFields : list string) : string :=
  foldr (λ field rest, field +:+ String "," rest) "" dataFields.

Lemma persisted_line_record (nowTime : string) (dataFields : list string) :
  persisted_line nowTime dataFields
  = nowTime +:+ String "," (record_text dataFields).
Proof.
  unfold persisted_line, record_text. rewrite persisted_line_unfold.
  by rewrite string_app_assoc.
Qed.

Lemma persisted_line_split (nowTime : string) (dataFields : list string) :
  no_comma nowTime = true →
  Forall (λ field, no_comma field = true) dataFields →
  split_commas (persisted_line nowTime dataFields) = nowTime :: dataFields.
Proof.
  intros Htime Hfields. rewrite persisted_line_record.
  rewrite split_commas_field by done. unfold record_text.
  by rewrite split_commas_fields.
Qed.

(** The text of a price: free of commas, and read back as the price
    rounded down to a multiple of 1/256. *)
Lemma price_field (p : Qc) :
  (0 ≤ p)%Qc → trunc p ≤ 2147483647 →
  ∃ priceStr,
    price2string p = Returns priceStr
    ∧ no_comma priceStr = true
    ∧ priceStr ≠ EmptyString
    ∧ string2price priceStr = Returns (grid (ticks p)).
Proof.
  intros Hp Hint.
  pose proof (price2string_ticks p Hp Hint) as Htext.
  destruct (Qc_fraction p) as (a & d & ->).
  apply Qc_nonneg_num in Hp.
  destruct (price2string_parts a d Hp) as (Hb & _ & _ & Hn).
  destruct (ticks_parts a d Hp) as (HB & _ & _ & _).
  fold (ticks (Q2Qc (a # d))) in Hn.
  assert (0 ≤ ticks (Q2Qc (a # d))) as Hticks
    by (rewrite Hn; apply Z.div_pos; lia).
  rewrite <- Hn in HB.
  set (n := ticks (Q2Qc (a # d))) in *.
  assert (0 ≤ n / 256 ≤ 2147483647) as Hwhole.
  { rewrite <- HB, <- Hb. split; [|done]. rewrite Hb. apply Z.div_pos; lia. }
  pose proof (Z.mod_pos_bound n 256) as Hk.
  exists (price_text (n / 256) (n `mod` 256)).
  split; [done|]. split; [apply price_text_no_comma; lia|].
  split. { unfold price_text, fractional_text.
           destruct (to_string (n / 256)); [|done].
           by destruct (two_digits _). }
  rewrite string2price_price_text by lia.
  by rewrite (grid_price_of n).
Qed.

(** X25.  A record of allinquiries.txt can be read as a line of
    inquiries.txt.  For an inquiry on a known bond, with an id and a time
    free of commas, a quantity that is not negative and a price from 0 up
    within the range of an [int], [Inquiry::PrintFunction] returns six
    fields; the line that [HistoricalDataConnector::Publish] writes is the
    time, a comma and these fields each followed by a comma, and cut at the
    commas it gives back the time and the fields.  What follows the time is
    read by [InquiryConnector::Subscribe] as the inquiry itself, with its
    side, quantity and state, and with its price rounded down to a multiple
    of 1/256. *)
Theorem Inquiry_PrintFunction_reads_back (i : Inquiry Bond) (nowTime : string) :
  GetBond (GetProductId (inq_product i)) = Returns (inq_product i) →
  no_comma (GetInquiryId i) = true →
  no_comma nowTime = true →
  0 ≤ inq_quantity i ≤ 9223372036854775807 →
  (0 ≤ inq_price i)%Qc →
  trunc (inq_price i) ≤ 2147483647 →
  ∃ fields,
    Inquiry_PrintFunction i = Returns fields
    ∧ length fields = 6%nat
    ∧ persisted_line nowTime fields
      = nowTime +:+ String "," (record_text fields)
    ∧ split_commas (persisted_line nowTime fields) = nowTime :: fields
    ∧ ∀ st,
        Inquiry_line st (record_text fields)
        = (Returns (),
           Inquiry_OnMessage_all st
             [SetPrice i (grid (ticks (inq_price i)))]).
Proof.
  intros Hbond Hid Htime Hqty Hprice Hint.
  destruct (GetBond_known _ _ Hbond) as (Hpid & _ & _).
  destruct (price_field (inq_price i) Hprice Hint)
    as (priceStr & Htext & Hcomma & Hsome & Hback).
  unfold Inquiry_PrintFunction. rewrite Htext. cbn [mbind outcome_bind].
  eexists. split; [reflexivity|]. split; [done|].
  split; [apply persisted_line_record|].
  split.
  { apply persisted_line_split; [done|].
    repeat constructor; try done.
    - by destruct (inq_side i).
    - apply no_comma_to_string. lia.
    - by destruct (GetState i). }
  intros st. unfold Inquiry_line, record_text. cbn [foldr].
  rewrite line_not_empty.
  rewrite !split_commas_field;
    [|by destruct (GetState i)|done|by apply no_comma_to_string, Hqty
     |by destruct (inq_side i)|done|done].
  rewrite Hback, stol_to_string by done.
  cbn [try_call]. rewrite Hbond. cbn [try_call Inquiry_OnMessage_all foldl].
  replace (if bool_decide
                ((match inq_side i with BUY => "BUY" | SELL => "SELL" end)
                 = "BUY")
           then BUY else SELL)
    with (inq_side i) by (by destruct (inq_side i)).
  replace (parse_state
             match GetState i with
             | RECEIVED => "RECEIVED" | QUOTED => "QUOTED" | DONE => "DONE"
             | REJECTED => "REJECTED"
             | CUSTOMER_REJECTED => "CUSTOMER_REJECTED"
             end)
    with (GetState i) by (by destruct (GetState i)).
  fold (SetPrice i (grid (ticks (inq_price i)))).
  by destruct (Inquiry_OnMessage_run st.1 (SetPrice i (grid (ticks (inq_price i)))))
    as [[svc' data'] calls].
Qed.

Lemma Inquiry_PrintFunction_reads_back_witness :
  let i := mkInquiry "INQ7" US2Y SELL 3000000 (Q2Qc (997 # 10)) QUOTED in
  ∃ fields,
    Inquiry_PrintFunction i = Returns fields
    ∧ length fields = 6%nat
    ∧ persisted_line "2024-Dec-20 10:00:00" fields
      = "2024-Dec-20 10:00:00" +:+ String "," (record_text fields)
    ∧ split_commas (persisted_line "2024-Dec-20 10:00:00" fields)
      = "2024-Dec-20 10:00:00" :: fields
    ∧ ∀ st,
        Inquiry_line st (record_text fields)
        = (Returns (),
           Inquiry_OnMessage_all st
             [SetPrice i (grid (ticks (inq_price i)))]).
Proof.
  apply (Inquiry_PrintFunction_reads_back
           (mkInquiry "INQ7" US2Y SELL 3000000 (Q2Qc (997 # 10)) QUOTED)
           "2024-Dec-20 10:00:00").
  - reflexivity.
  - reflexivity.
  - reflexivity.
  - simpl. lia.
  - by vm_compute.
  - by vm_compute.
Defined.

Example Inquiry_PrintFunction_example :
  Inquiry_PrintFunction
    (mkInquiry "INQ7" US2Y SELL 3000000 (Q2Qc (997 # 10)) QUOTED)
  = Returns ["INQ7"; "912828V23"; "SELL"; "3000000"; "99-223"; "QUOTED"].
Proof. by vm_compute. Qed.

(** X26.  A record of executions.txt holds the nine fields of the order.
    For an execution order whose ids and time are free of commas, whose
    quantities are not negative and whose price is from 0 up within the
    range of an [int], [ExecutionOrder::PrintFunction] returns the product
    id, the side, the order id, the type, the price, the two quantities,
    the parent id and YES or NO for the child flag.  Cut at the commas, the
    line that is written gives back the time and these nine fields; the
    text of the price reads as the price rounded down to a multiple of
    1/256, and the texts of the quantities read as the quantities. *)
Theorem ExecutionOrder_PrintFunction_fields {T} `{Product T}
    (o : ExecutionOrder T) (nowTime : string) :
  no_comma (GetProductId (eo_product o)) = true →
  no_comma (GetOrderId o) = true →
  no_comma (GetParentOrderId o) = true →
  no_comma nowTime = true →
  0 ≤ GetVisibleQuantity o ≤ 9223372036854775807 →
  0 ≤ GetHiddenQuantity o ≤ 9223372036854775807 →
  (0 ≤ eo_price o)%Qc →
  trunc (eo_price o) ≤ 2147483647 →
  ∃ priceStr,
    let fields :=
      [GetProductId (eo_product o);
       match GetPricingSide o with BID => "BID" | OFFER => "OFFER" end;
       GetOrderId o;
       match GetOrderType o with
       | FOK => "FOK" | IOC => "IOC" | MARKET => "MARKET"
       | LIMIT => "LIMIT" | STOP => "STOP"
       end;
       priceStr;
       to_string (GetVisibleQuantity o);
       to_string (GetHiddenQuantity o);
       GetParentOrderId o;
       if IsChildOrder o then "YES" else "NO"] in
    ExecutionOrder_PrintFunction o = Returns fields
    ∧ string2price priceStr = Returns (grid (ticks (eo_price o)))
    ∧ stol (to_string (GetVisibleQuantity o)) = Returns (GetVisibleQuantity o)
    ∧ stol (to_string (GetHiddenQuantity o)) = Returns (GetHiddenQuantity o)
    ∧ split_commas (persisted_line nowTime fields) = nowTime :: fields.
Proof.
  intros Hpid Hoid Hparent Htime Hvisible Hhidden Hprice Hint.
  destruct (price_field (eo_price o) Hprice Hint)
    as (priceStr & Htext & Hcomma & _ & Hback).
  exists priceStr. intros fields.
  split. { unfold ExecutionOrder_PrintFunction. by rewrite Htext. }
  split; [exact Hback|].
  split; [by apply stol_to_string|]. split; [by apply stol_to_string|].
  apply persisted_line_split; [done|].
  repeat constructor; try done.
  - by destruct (GetPricingSide o).
  - by destruct (GetOrderType o).
  - apply no_comma_to_string. lia.
  - apply no_comma_to_string. lia.
  - by destruct (IsChildOrder o).
Qed.

Lemma ExecutionOrder_PrintFunction_fields_witness :
  ∃ priceStr,
    let fields :=
      [GetProductId (eo_product bid_order);
       match GetPricingSide bid_order with BID => "BID" | OFFER => "OFFER" end;
       GetOrderId bid_order;
       match GetOrderType bid_order with
       | FOK => "FOK" | IOC => "IOC" | MARKET => "MARKET"
       | LIMIT => "LIMIT" | STOP => "STOP"
       end;
       priceStr;
       to_string (GetVisibleQuantity bid_order);
       to_string (GetHiddenQuantity bid_order);
       GetParentOrderId bid_order;
       if IsChildOrder bid_order then "YES" else "NO"] in
    ExecutionOrder_PrintFunction bid_order = Returns fields
    ∧ string2price priceStr = Returns (grid (ticks (eo_price bid_order)))
    ∧ stol (to_string (GetVisibleQuantity bid_order))
      = Returns (GetVisibleQuantity bid_order)
    ∧ stol (to_string (GetHiddenQuantity bid_order))
      = Returns (GetHiddenQuantity bid_order)
    ∧ split_commas (persisted_line "2024-Dec-20 10:00:00" fields)
      = "2024-Dec-20 10:00:00" :: fields.
Proof.
  apply (ExecutionOrder_PrintFunction_fields bid_order "2024-Dec-20 10:00:00").
  - reflexivity.
  - reflexivity.
  - reflexivity.
  - reflexivity.
  - simpl. lia.
  - simpl. lia.
  - by vm_compute.
  - by vm_compute.
Defined.

Example ExecutionOrder_PrintFunction_example :
  ExecutionOrder_PrintFunction bid_order
  = Returns ["912828V23"; "BID"; "AlgoExec2"; "MARKET"; "100-000"; "1000000";
             "500000"; "PARENT_ORDER_ID"; "NO"].
Proof. by vm_compute. Qed.

(** X27.  A record of streaming.txt holds the product id and, for the bid
    and then for the offer, the price, the visible and the hidden quantity
    and the side: nine fields.  For a stream whose product id and time are
    free of commas, whose quantities are not negative and whose two prices
    are from 0 up within the range of an [int], the line that is written,
    cut at the commas, gives back the time and these fields, and the texts
    of the two prices read as the prices rounded down to a multiple of
    1/256. *)
Theorem PriceStream_PrintFunction_fields {T} `{Product T}
    (s : PriceStream T) (nowTime : string) :
  no_comma (GetProductId (stream_product s)) = true →
  no_comma nowTime = true →
  Forall (λ o, 0 ≤ pso_visibleQuantity o ∧ 0 ≤ pso_hiddenQuantity o
               ∧ (0 ≤ pso_price o)%Qc ∧ trunc (pso_price o) ≤ 2147483647)
    [stream_bidOrder s; stream_offerOrder s] →
  ∃ bidStr offerStr,
    let order_fields priceStr o :=
      [priceStr; to_string (pso_visibleQuantity o);
       to_string (pso_hiddenQuantity o);
       match pso_side o with BID => "BID" | OFFER => "OFFER" end] in
    let fields :=
      GetProductId (stream_product s)
      :: order_fields bidStr (stream_bidOrder s)
      ++ order_fields offerStr (stream_offerOrder s) in
    PriceStream_PrintFunction s = Returns fields
    ∧ string2price bidStr
      = Returns (grid (ticks (pso_price (stream_bidOrder s))))
    ∧ string2price offerStr
      = Returns (grid (ticks (pso_price (stream_offerOrder s))))
    ∧ split_commas (persisted_line nowTime fields) = nowTime :: fields.
Proof.
  intros Hpid Htime Horders.
  apply Forall_cons in Horders as [(Hbv & Hbh & Hbp & Hbi) Horders].
  apply Forall_cons in Horders as [(Hov & Hoh & Hop & Hoi) _].
  destruct (price_field _ Hbp Hbi) as (bidStr & Hbid & Hbid_comma & _ & Hbid_back).
  destruct (price_field _ Hop Hoi)
    as (offerStr & Hoffer & Hoffer_comma & _ & Hoffer_back).
  exists bidStr, offerStr. intros order_fields fields.
  split.
  { unfold PriceStream_PrintFunction, PriceStreamOrder_PrintFunction.
    by rewrite Hbid, Hoffer. }
  split; [exact Hbid_back|]. split; [exact Hoffer_back|].
  apply persisted_line_split; [done|].
  unfold fields, order_fields. cbn [app].
  repeat constructor; try done.
  - by apply no_comma_to_string.
  - by apply no_comma_to_string.
  - by destruct (pso_side (stream_bidOrder s)).
  - by apply no_comma_to_string.
  - by apply no_comma_to_string.
  - by destruct (pso_side (stream_offerOrder s)).
Qed.

Lemma PriceStream_PrintFunction_fields_witness :
  let s := GetPriceStream (quote_stream 1 (US2Y, 25600, 25603)) in
  ∃ bidStr offerStr,
    let order_fields priceStr o :=
      [priceStr; to_string (pso_visibleQuantity o);
       to_string (pso_hiddenQuantity o);
       match pso_side o with BID => "BID" | OFFER => "OFFER" end] in
    let fields :=
      GetProductId (stream_product s)
      :: order_fields bidStr (stream_bidOrder s)
      ++ order_fields offerStr (stream_offerOrder s) in
    PriceStream_PrintFunction s = Returns fields
    ∧ string2price bidStr
      = Returns (grid (ticks (pso_price (stream_bidOrder s))))
    ∧ string2price offerStr
      = Returns (grid (ticks (pso_price (stream_offerOrder s))))
    ∧ split_commas (persisted_line "2024-Dec-20 10:00:00" fields)
      = "2024-Dec-20 10:00:00" :: fields.
Proof.
  apply (PriceStream_PrintFunction_fields
           (GetPriceStream (quote_stream 1 (US2Y, 25600, 25603)))
           "2024-Dec-20 10:00:00").
  - reflexivity.
  - reflexivity.
  - repeat constructor; by vm_compute.
Defined.

Example PriceStream_PrintFunction_example :
  PriceStream_PrintFunction (GetPriceStream (quote_stream 1 (US2Y, 25600, 25603)))
  = Returns ["912828V23"; "100-000"; "2000000"; "4000000"; "BID";
             "100-003"; "2000000"; "4000000"; "OFFER"].
Proof. by vm_compute. Qed.

